(** * COMETS Python Toolbox: the model-file and layout-file codec

    A shallow embedding of [comets.py] (classes [model] and [layout]) and
    the properties of its reader and writer.

    Conventions of the embedding.
    - A file is the list of its lines, as [str.splitlines] returns them.
    - Python exceptions are values of [exn]; a computation on [self] is a
      function from the object to an outcome and the (possibly mutated)
      object, so that what was assigned before a [raise] stays assigned.
    - What [print] writes goes to the [out] component of the reader state.
    - Numbers that the codec reads are never computed with: they are
      parsed, compared and printed.  A number is therefore modelled by the
      decimal literal denoting it ([num]); comparisons are exact.
    - Inputs on which a library behaviour outside the modelled fragment
      would be exercised (exponent notation in floats, pandas type
      inference on name columns, csv quoting) yield [NotModelled], which is
      never counted as an exception of the program. *)

From Stdlib Require Import String Ascii List ZArith NArith Bool Lia.
From Stdlib Require Import Permutation Finite Sorted.
From Stdlib Require Import Decimal DecimalString DecimalN DecimalZ.
From coqutil Require Import Datatypes.RecordSetters.
Import ListNotations.
Import TriangleBracketNotations.

Open Scope string_scope.
Open Scope list_scope.
Open Scope Z_scope.

Infix "^^" := String.append (at level 60, right associativity).

(** ** Python text primitives *)

Module Text.

Definition nl : string := String "010" "".

(** The double quote. *)
Definition dquote : string := String "034" "".

(** [c.isspace()] on the ASCII range. *)
Definition is_space (c : ascii) : bool :=
  let n := nat_of_ascii c in
  ((9 <=? n) && (n <=? 13) || (28 <=? n) && (n <=? 32))%nat.

(** [s.split()]: the maximal runs of non-whitespace characters. *)
Fixpoint split (s : string) : list string :=
  match s with
  | "" => []
  | String c s' =>
      if is_space c then split s'
      else match s' with
           | "" => [String c ""]
           | String c' _ =>
               if is_space c' then String c "" :: split s'
               else match split s' with
                    | t :: ts => String c t :: ts
                    | [] => [String c ""]
                    end
           end
  end.

Fixpoint lstrip (s : string) : string :=
  match s with
  | String c s' => if is_space c then lstrip s' else s
  | "" => ""
  end.

Fixpoint rstrip (s : string) : string :=
  match s with
  | "" => ""
  | String c s' =>
      match rstrip s' with
      | "" => if is_space c then "" else String c ""
      | r => String c r
      end
  end.

(** [s.strip()] *)
Definition strip (s : string) : string := rstrip (lstrip s).

Fixpoint starts_with (p s : string) : bool :=
  match p, s with
  | "", _ => true
  | String a p', String b s' => Ascii.eqb a b && starts_with p' s'
  | String _ _, "" => false
  end.

(** [p in s] for strings. *)
Fixpoint contains (p s : string) : bool :=
  starts_with p s ||
  match s with
  | "" => false
  | String _ s' => contains p s'
  end.

(** [sep.join(l)] *)
Definition join (sep : string) (l : list string) : string := String.concat sep l.

(** [s.upper()] on the ASCII range. *)
Definition upper_char (c : ascii) : ascii :=
  let n := nat_of_ascii c in
  if ((97 <=? n) && (n <=? 122))%nat then ascii_of_nat (n - 32) else c.

Fixpoint upper (s : string) : string :=
  match s with
  | "" => ""
  | String c s' => String (upper_char c) (upper s')
  end.

Fixpoint mem (x : string) (l : list string) : bool :=
  match l with
  | [] => false
  | y :: l' => String.eqb x y || mem x l'
  end.

(** The tail of [s] after its last occurrence of [c] ([None] if [c] does
    not occur). *)
Fixpoint after_last (c : ascii) (s : string) : option string :=
  match s with
  | "" => None
  | String a s' =>
      match after_last c s' with
      | Some t => Some t
      | None => if Ascii.eqb a c then Some s' else None
      end
  end.

(** [os.path.basename(p)] on POSIX. *)
Definition basename (p : string) : string :=
  match after_last "/" p with Some t => t | None => p end.

Fixpoint all_char (f : ascii -> bool) (s : string) : bool :=
  match s with
  | "" => true
  | String c s' => f c && all_char f s'
  end.

(** [os.path.splitext(p)[0]] for a path without directory part: cut at
    the last dot unless only dots precede it. *)
Fixpoint splitext_root (seen_non_dot : bool) (s : string) : string :=
  match s with
  | "" => ""
  | String c s' =>
      if Ascii.eqb c "." && seen_non_dot && negb (contains "." s') then ""
      else String c (splitext_root (seen_non_dot || negb (Ascii.eqb c ".")) s')
  end.

(** [s[-3:]] *)
Fixpoint last3 (s : string) : string :=
  match s with
  | String _ (String _ (String _ (String _ _)) as s') => last3 s'
  | _ => s
  end.

End Text.

(** ** Exceptions and outcomes *)

Inductive exn : Type :=
| CorruptLine | OutOfGrid | UnallocatedMetabolite
| ValueError (msg : string)
| IndexError | KeyError | TypeError | NameError | AttributeError
| StopIteration | IOError | Exception (msg : string)
| NotModelled.

Inductive res (A : Type) : Type :=
| Ok (a : A)
| Raise (e : exn).
Arguments Ok {A} a.
Arguments Raise {A} e.

Definition res_bind {A B} (r : res A) (k : A -> res B) : res B :=
  match r with
  | Ok a => k a
  | Raise e => Raise e
  end.

(** A method body: it reads and mutates [self : S], and either returns or
    raises; the object keeps the mutations made before the raise. *)
Definition M (S A : Type) : Type := S -> res A * S.

Definition ret {S A} (a : A) : M S A := fun s => (Ok a, s).
Definition raise {S A} (e : exn) : M S A := fun s => (Raise e, s).
Definition lift {S A} (r : res A) : M S A := fun s => (r, s).
Definition get {S} : M S S := fun s => (Ok s, s).
Definition modify {S} (f : S -> S) : M S unit := fun s => (Ok tt, f s).
Definition bind {S A B} (m : M S A) (k : A -> M S B) : M S B :=
  fun s =>
    match m s with
    | (Ok a, s') => k a s'
    | (Raise e, s') => (Raise e, s')
    end.

Declare Scope py_scope.
Delimit Scope py_scope with py.
Notation "x <- m ;; k" := (bind m (fun x => k))
  (at level 61, m at next level, right associativity) : py_scope.
Notation "m ;; k" := (bind m (fun _ => k))
  (at level 61, right associativity) : py_scope.
Notation "x <~ r ;; k" := (res_bind r (fun x => k))
  (at level 61, r at next level, right associativity) : py_scope.
Open Scope py_scope.

(** [try: body except E1: h1 except E2: h2]: [handler] gives the clause
    that catches [e], if any. *)
Definition try_except {S} (body : M S unit) (handler : exn -> option (M S unit))
  : M S unit :=
  fun s =>
    match body s with
    | (Raise e, s') =>
        match handler e with
        | Some h => h s'
        | None => (Raise e, s')
        end
    | r => r
    end.

(** [for x in xs: body] *)
Fixpoint for_each {S X} (xs : list X) (body : X -> M S unit) : M S unit :=
  match xs with
  | [] => ret tt
  | x :: xs' => body x ;; for_each xs' body
  end.

Fixpoint res_map {A B} (f : A -> res B) (l : list A) : res (list B) :=
  match l with
  | [] => Ok []
  | a :: l' => b <~ f a ;; bs <~ res_map f l' ;; Ok (b :: bs)
  end.

(** ** Python sequences *)

Module Seq.

(** [l[i]] with Python's negative indices. *)
Definition index {A} (l : list A) (i : Z) : res A :=
  let n := Z.of_nat (length l) in
  let j := if i <? 0 then n + i else i in
  if (j <? 0) || (n <=? j) then Raise IndexError
  else match nth_error l (Z.to_nat j) with
       | Some a => Ok a
       | None => Raise IndexError
       end.

(** [l[a:b]] for [0 <= a]. *)
Definition slice {A} (l : list A) (a b : nat) : list A :=
  firstn (b - a) (skipn a l).

(** [l[a:]] *)
Definition from {A} (l : list A) (a : nat) : list A := skipn a l.

(** [[x for x in range(len(l)) if p(l[x])]] *)
Fixpoint positions {A} (p : A -> bool) (k : nat) (l : list A) : list nat :=
  match l with
  | [] => []
  | a :: l' => if p a then k :: positions p (S k) l' else positions p (S k) l'
  end.

(** [next(x for x in l if p(x))] *)
Fixpoint next {A} (p : A -> bool) (l : list A) : res A :=
  match l with
  | [] => Raise StopIteration
  | a :: l' => if p a then Ok a else next p l'
  end.

(** [l[0::2]] and [l[1::2]] *)
Fixpoint evens {A} (l : list A) : list A :=
  match l with
  | a :: _ :: l' => a :: evens l'
  | [a] => [a]
  | [] => []
  end.

Definition odds {A} (l : list A) : list A :=
  match l with
  | _ :: l' => evens l'
  | [] => []
  end.

End Seq.

(** ** Python numbers *)

Module Num.

(** A decimal literal [-]ddd[.ddd]: sign, integer part, digits after the
    point ([Nil] when the literal has no point, as for a Python [int]). *)
Record num : Type := mk { neg : bool; int_part : N; frac : uint }.

Definition of_Z (z : Z) : num := mk (z <? 0) (Z.abs_N z) Nil.

Definition scale (x : num) : nat := nb_digits (frac x).

(** [x = mantissa x / 10 ^ scale x] *)
Definition mantissa (x : num) : Z :=
  let m := Z.of_N (int_part x) * 10 ^ Z.of_nat (scale x)
           + Z.of_N (N.of_uint (frac x)) in
  if neg x then - m else m.

Definition compare (x y : num) : comparison :=
  Z.compare (mantissa x * 10 ^ Z.of_nat (scale y))
            (mantissa y * 10 ^ Z.of_nat (scale x)).

(** [x == y], [x >= y] *)
Definition eqb (x y : num) : bool :=
  match compare x y with Eq => true | _ => false end.
Definition geb (x y : num) : bool :=
  match compare x y with Lt => false | _ => true end.
Definition gtb (x y : num) : bool :=
  match compare x y with Gt => true | _ => false end.
Definition ltb (x y : num) : bool :=
  match compare x y with Lt => true | _ => false end.

Definition zero : num := of_Z 0.

(** [int(x)]: truncation towards zero. *)
Definition trunc (x : num) : Z :=
  if neg x then - Z.of_N (int_part x) else Z.of_N (int_part x).

(** [str(x)] *)
Definition str (x : num) : string :=
  (if neg x then "-" else "") ^^
  NilEmpty.string_of_uint (N.to_uint (int_part x)) ^^
  match frac x with
  | Nil => ""
  | f => "." ^^ NilEmpty.string_of_uint f
  end.

(** [str(z)] for a Python [int]. *)
Definition str_Z (z : Z) : string := str (of_Z z).

Definition digits (s : string) : option uint :=
  match s with
  | "" => None
  | _ => NilEmpty.uint_of_string s
  end.

(** The text before the first point and, if there is one, the text after. *)
Fixpoint split_dot (s : string) : string * option string :=
  match s with
  | "" => ("", None)
  | String c s' =>
      if Ascii.eqb c "." then ("", Some s')
      else let (a, b) := split_dot s' in (String c a, b)
  end.

Definition unsigned (s : string) : option (N * uint) :=
  match split_dot s with
  | (i, None) =>
      match digits i with
      | Some d => Some (N.of_uint d, Nil)
      | None => None
      end
  | (i, Some f) =>
      match digits i, digits f with
      | Some d, Some df => Some (N.of_uint d, df)
      | _, _ => None
      end
  end.

Definition literal (s : string) : option num :=
  match s with
  | String "-" s' =>
      match unsigned s' with Some (i, f) => Some (mk true i f) | None => None end
  | String "+" s' =>
      match unsigned s' with Some (i, f) => Some (mk false i f) | None => None end
  | _ =>
      match unsigned s with Some (i, f) => Some (mk false i f) | None => None end
  end.

(** [float(s)], on plain decimal literals; exponents, [inf], [nan] and
    literals with no digit before or after the point are not modelled. *)
Definition pyfloat (s : string) : res num :=
  match literal (Text.strip s) with
  | Some x => Ok x
  | None => Raise NotModelled
  end.

Definition is_ascii_plain (c : ascii) : bool :=
  (nat_of_ascii c <? 128)%nat && negb (Ascii.eqb c "_").

(** [int(s)]: an optional sign and decimal digits, else [ValueError];
    digit separators and non-ASCII digits are not modelled. *)
Definition pyint (s : string) : res Z :=
  match literal (Text.strip s) with
  | Some (mk sg i Nil) => Ok (if sg then - Z.of_N i else Z.of_N i)
  | _ =>
      if Text.all_char is_ascii_plain s
      then Raise (ValueError "invalid literal for int() with base 10")
      else Raise NotModelled
  end.

End Num.

Abbreviation num := Num.num.

(** ** The fragment of pandas that the codec uses *)

Module Pandas.

(** The names that [read_csv] gives to the header fields: a name seen
    [k > 0] times before gets the suffix [.k] (mangle_dupe_cols). *)
Fixpoint count_in (x : string) (l : list string) : nat :=
  match l with
  | [] => 0
  | y :: l' => ((if String.eqb x y then 1 else 0) + count_in x l')%nat
  end.

Fixpoint mangle (seen : list string) (names : list string) : list string :=
  match names with
  | [] => []
  | x :: names' =>
      let k := count_in x seen in
      (if (k =? 0)%nat then x else x ^^ "." ^^ Num.str_Z (Z.of_nat k))
        :: mangle (seen ++ [x]) names'
  end.

Fixpoint nodupb (l : list string) : bool :=
  match l with
  | [] => true
  | x :: l' => negb (Text.mem x l') && nodupb l'
  end.

(** [pd.read_csv(StringIO('\n'.join(lines)), delimiter=r'\s+')]: the
    column names and the rows of fields.  Rows whose number of fields
    differs from the header's (pandas pads them, shifts the index or
    fails) are outside the fragment. *)
Definition read_csv (lines : list string) : res (list string * list (list string)) :=
  match lines with
  | [] => Raise NotModelled
  | h :: body =>
      let cols := mangle [] (Text.split h) in
      let rows := map Text.split body in
      if negb (nodupb cols) then Raise NotModelled
      else if forallb (fun r => (length r =? length cols)%nat) rows
           then Ok (cols, rows)
           else Raise NotModelled
  end.

(** Fields that pandas reads as missing values. *)
Definition na_values : list string :=
  ["#N/A"; "#N/A N/A"; "#NA"; "-1.#IND"; "-1.#QNAN"; "-NaN"; "-nan";
   "1.#IND"; "1.#QNAN"; "<NA>"; "N/A"; "NA"; "NULL"; "NaN"; "None";
   "n/a"; "nan"; "null"].

Definition special_words : list string :=
  ["TRUE"; "FALSE"; "INF"; "INFINITY"; "NAN"].

Definition numeric_char (c : ascii) : bool :=
  Text.contains (String c "") "0123456789+-.eE".

(** A field that no type inference can turn into a number or a boolean. *)
Definition surely_text (s : string) : bool :=
  negb (Text.all_char numeric_char s) &&
  negb (Text.mem (Text.upper (Text.strip s)) special_words ||
        Text.mem (Text.upper (String.substring 1 (String.length s) s)) special_words).

(** A column of names read by [read_csv]: kept as the strings they are,
    provided no field is a missing-value marker and some field prevents
    the column from being typed numeric or boolean. *)
Definition text_column (fields : list string) : res (list string) :=
  if existsb (fun f => Text.mem f na_values) fields then Raise NotModelled
  else match fields with
       | [] => Ok []
       | _ => if existsb surely_text fields then Ok fields else Raise NotModelled
       end.

(** A numeric field. *)
Definition number (f : string) : res num := Num.pyfloat f.

(** A field of an integer-typed column; a column with a point in some
    field would be typed float, which is outside the fragment where the
    code needs integers. *)
Definition integer (f : string) : res Z :=
  match Num.literal f with
  | Some (Num.mk sg i Nil) => Ok (if sg then - Z.of_N i else Z.of_N i)
  | _ => Raise NotModelled
  end.

(** What [to_csv] writes for a one-field row holding [s]: [s] itself when
    it needs no quoting. *)
Definition csv_plain (s : string) : bool :=
  negb (Text.contains "," s || Text.contains Text.dquote s ||
        Text.contains Text.nl s || Text.contains (String "013" "") s) &&
  negb (String.eqb s "").

End Pandas.

(** ** Python dictionaries: insertion-ordered, keys unique *)

Module Dict.
Section Dict.
Context {K V : Type} (eqb : K -> K -> bool).

Definition dict : Type := list (K * V).

Fixpoint lookup (d : dict) (k : K) : option V :=
  match d with
  | [] => None
  | (k', v) :: d' => if eqb k k' then Some v else lookup d' k
  end.

(** [d[k] = v] *)
Fixpoint set (d : dict) (k : K) (v : V) : dict :=
  match d with
  | [] => [(k, v)]
  | (k', v') :: d' =>
      if eqb k k' then (k', v) :: d' else (k', v') :: set d' k v
  end.

Definition keys (d : dict) : list K := map fst d.

Definition mem (d : dict) (k : K) : bool :=
  match lookup d k with Some _ => true | None => false end.
End Dict.
End Dict.

Definition loc : Type := Z * Z.
Definition loc_eqb (a b : loc) : bool := (fst a =? fst b) && (snd a =? snd b).

(** ** Files *)

Module FS.

(** The files that exist, each with its lines. *)
Definition fs : Type := list (string * list string).

(** [read_file(path).splitlines()] *)
Definition read_file (files : fs) (path : string) : res (list string) :=
  match Dict.lookup String.eqb files path with
  | Some lines => Ok lines
  | None => Raise IOError
  end.

(** [os.remove(path)] if the file exists, then [open(path, 'a')]. *)
Definition create (path : string) : M fs unit :=
  modify (fun files => Dict.set String.eqb files path []).

Definition line_break (c : ascii) : bool :=
  let n := nat_of_ascii c in
  ((10 <=? n) && (n <=? 13) || (28 <=? n) && (n <=? 30))%nat.

(** [f.write(line + '\n')]; a text that [splitlines] would cut elsewhere
    than at its end is outside the fragment. *)
Definition write (path : string) (line : string) : M fs unit :=
  if Text.all_char (fun c => negb (line_break c)) line
  then modify (fun files =>
                 match Dict.lookup String.eqb files path with
                 | Some old => Dict.set String.eqb files path (old ++ [line])
                 | None => files
                 end)
  else raise NotModelled.

(** [series.to_csv(f, header=False, index=False)] for a column of strings. *)
Definition to_csv (path : string) (col : list string) : M fs unit :=
  for_each col (fun s =>
    if Pandas.csv_plain s then write path s else raise NotModelled).

End FS.

(** ** Locating sections *)

Module Scan.

(** [[s for s in lines if s]] *)
Definition nonblank (lines : list string) : list string :=
  filter (fun s => negb (String.eqb s "")) lines.

(** The indices of the lines containing the terminator. *)
Definition ends (f_lines : list string) : list nat :=
  Seq.positions (Text.contains "//") 0%nat f_lines.

(** [kw in filedata_string] *)
Definition has (kw : string) (f_lines : list string) : bool :=
  existsb (Text.contains kw) f_lines.

(** [re.split(kw, filedata_string)[0].count('\n')]: the index of the
    first line in which [kw] occurs; without any occurrence, the number
    of line breaks of the whole text. *)
Definition find_line (kw : string) (f_lines : list string) : nat :=
  match Seq.positions (Text.contains kw) 0%nat f_lines with
  | k :: _ => k
  | [] => (length f_lines - 1)%nat
  end.

(** [next(x for x in ends if x > lin)] *)
Definition next_end (end_blocks : list nat) (lin : nat) : res nat :=
  Seq.next (fun x => (lin <? x)%nat) end_blocks.

(** [f_lines[lin:lin_end]] for [lin] the line of [kw] and [lin_end] the
    next terminator: the header line of a section and its body. *)
Definition section (kw : string) (f_lines : list string) : res (list string) :=
  let lin := find_line kw f_lines in
  lin_end <~ next_end (ends f_lines) lin ;;
  Ok (Seq.slice f_lines lin lin_end).

End Scan.

(** ** class model *)

Module Model.

(** A row of the [reactions] table. *)
Record reaction : Type := mk_reaction {
  REACTION_NAMES : string;
  ID : Z;
  LB : num;
  UB : num;
  EXCH : bool;
  EXCH_IND : Z;
  V_MAX : option num;
  KM : option num;
  HILL : option num
}.

(** A row of the [smat] table. *)
Record smat_row : Type := mk_smat_row {
  metabolite : Z;
  rxn : Z;
  s_coef : num
}.

(** A row of the [signals] table (its written columns). *)
Record signal : Type := mk_signal {
  REACTION_NUMBER : string;
  signal_EXCH_IND : Z;
  BOUND : string;
  FUNCTION : string;
  PARAMETERS : list num
}.

(** [initial_pop] is either one triple or a list of triples. *)
Inductive pop : Type :=
| Flat (triple : list num)
| Nested (triples : list (list num)).

Record model : Type := mk_model {
  initial_pop : pop;
  id : option string;
  reactions : list reaction;
  smat : list smat_row;
  metabolites : list string;
  signals : list signal;
  light : list (string * num * num);
  vmax_flag : bool;
  km_flag : bool;
  hill_flag : bool;
  convection_flag : bool;
  light_flag : bool;
  nonlinear_diffusion_flag : bool;
  neutral_drift_flag : bool;
  noise_variance_flag : bool;
  default_vmax : num;
  default_km : num;
  default_hill : num;
  default_bounds : list num;
  objective : option Z;
  optimizer : string;
  obj_style : string;
  (* attributes that exist only once assigned *)
  neutralDriftSigma : option num;
  convection_parameters : option (list (string * num));
  nonlinear_diffusion_parameters : option (list (string * num));
  noise_variance : option num
}.

Definition float_lit (i : N) (f : uint) : num := Num.mk false i f.

(** [model()] *)
Definition init : model := {|
  initial_pop := Nested [[Num.of_Z 0; Num.of_Z 0; float_lit 0 (D0 Nil)]];
  id := None;
  reactions := [];
  smat := [];
  metabolites := [];
  signals := [];
  light := [];
  vmax_flag := false;
  km_flag := false;
  hill_flag := false;
  convection_flag := false;
  light_flag := false;
  nonlinear_diffusion_flag := false;
  neutral_drift_flag := false;
  noise_variance_flag := false;
  default_vmax := Num.of_Z 10;
  default_km := Num.of_Z 1;
  default_hill := Num.of_Z 1;
  default_bounds := [Num.of_Z 0; Num.of_Z 1000];
  objective := None;
  optimizer := "GUROBI";
  obj_style := "MAXIMIZE_OBJECTIVE_FLUX";
  neutralDriftSigma := None;
  convection_parameters := None;
  nonlinear_diffusion_parameters := None;
  noise_variance := None
|}.

(** [exch.index(x)] *)
Fixpoint index_of (x : Z) (l : list Z) : option nat :=
  match l with
  | [] => None
  | y :: l' => if x =? y then Some 0%nat
               else match index_of x l' with
                    | Some k => Some (S k)
                    | None => None
                    end
  end.

(** [x in exch] *)
Definition mem (x : Z) (l : list Z) : bool :=
  match index_of x l with Some _ => true | None => false end.

(** [exch.index(x)+1 if x in exch else 0] *)
Definition exch_ind (exch : list Z) (x : Z) : Z :=
  match index_of x exch with
  | Some k => Z.of_nat k + 1
  | None => 0
  end.

(** [pd.merge(left, right, how='left')] on a key: every left row, in
    order, with each right row of the same key, or alone. *)
Definition merge_left {A B C} (same_key : A -> B -> bool)
    (combine : A -> option B -> C) (left : list A) (right : list B) : list C :=
  flat_map (fun a =>
              match filter (same_key a) right with
              | [] => [combine a None]
              | bs => map (fun b => combine a (Some b)) bs
              end) left.

(** [pd.merge(left, right, how='inner')] *)
Definition merge_inner {A B C} (same_key : A -> B -> bool)
    (combine : A -> B -> C) (left : list A) (right : list B) : list C :=
  flat_map (fun a => map (combine a) (filter (same_key a) right)) left.

(** [df.iloc[i]] *)
Definition iloc {A} (l : list A) (i : Z) : res A := Seq.index l i.

(** The names of the metabolites of the exchange reactions. *)
Definition get_exchange_metabolites (self : model) : res (list string) :=
  let exchmets :=
    merge_inner (fun i (r : smat_row) => i =? rxn r)
                (fun _ r => metabolite r)
                (map ID (filter EXCH (reactions self)))
                (smat self) in
  res_map (fun k => iloc (metabolites self) (k - 1)) exchmets.

(** *** Reading a model file *)

Definition expect_columns (n : nat) (cols : list string) : res unit :=
  if (length cols =? n)%nat then Ok tt
  else Raise (ValueError "Length mismatch").

Definition field (row : list string) (k : nat) : string := nth k row "".

(** A one-column section of names under the header [kw]. *)
Definition read_names (kw : string) (lines : list string) : res (list string) :=
  fr <~ Pandas.read_csv lines ;;
  match fst fr with
  | [c] => if String.eqb c kw
           then Pandas.text_column (map (fun r => field r 0) (snd fr))
           else Raise NotModelled
  | _ => Raise NotModelled
  end.

Definition read_smat (lines : list string) : res (list smat_row) :=
  fr <~ Pandas.read_csv lines ;;
  _ <~ expect_columns 3 (fst fr) ;;
  res_map (fun r =>
             m <~ Pandas.integer (field r 0) ;;
             x <~ Pandas.integer (field r 1) ;;
             c <~ Pandas.number (field r 2) ;;
             Ok (mk_smat_row m x c)) (snd fr).

(** The BOUNDS section: the defaults carried by the header, and the
    rows [(ID, LB, UB)]. *)
Definition read_bounds (lines : list string)
  : res (num * num * list (num * num * num)) :=
  fr <~ Pandas.read_csv lines ;;
  c1 <~ Seq.index (fst fr) 1 ;;
  d0 <~ Num.pyfloat c1 ;;
  c2 <~ Seq.index (fst fr) 2 ;;
  d1 <~ Num.pyfloat c2 ;;
  _ <~ expect_columns 3 (fst fr) ;;
  rows <~ res_map (fun r =>
                     i <~ Pandas.number (field r 0) ;;
                     l <~ Pandas.number (field r 1) ;;
                     u <~ Pandas.number (field r 2) ;;
                     Ok (i, l, u)) (snd fr) ;;
  Ok (d0, d1, rows).

(** A two-column section [(EXCH_IND, value)]. *)
Definition read_kinetic (lines : list string) : res (list (num * num)) :=
  fr <~ Pandas.read_csv lines ;;
  _ <~ expect_columns 2 (fst fr) ;;
  res_map (fun r =>
             i <~ Pandas.number (field r 0) ;;
             v <~ Pandas.number (field r 1) ;;
             Ok (i, v)) (snd fr).

(** [rxn] merged with [bnds] on ID, missing bounds filled with the
    defaults. *)
Definition merge_bounds (names : list string) (d0 d1 : num)
    (bnds : list (num * num * num)) : list reaction :=
  merge_left
    (fun (a : string * Z) (b : num * num * num) =>
       Num.eqb (Num.of_Z (snd a)) (fst (fst b)))
    (fun a ob =>
       match ob with
       | Some (_, l, u) => mk_reaction (fst a) (snd a) l u false 0 None None None
       | None => mk_reaction (fst a) (snd a) d0 d1 false 0 None None None
       end)
    (combine names (map Z.of_nat (seq 1 (length names))))
    bnds.

Definition merge_kinetic (set : reaction -> option num -> reaction)
    (rs : list reaction) (vals : list (num * num)) : list reaction :=
  merge_left
    (fun (r : reaction) (b : num * num) =>
       Num.eqb (Num.of_Z (EXCH_IND r)) (fst b))
    (fun r ob => set r (option_map snd ob))
    rs vals.

(** [float(m_f_lines[k].split()[1])] *)
Definition second_float (m_f_lines : list string) (k : Z) : res num :=
  l <~ Seq.index m_f_lines k ;;
  t <~ Seq.index (Text.split l) 1 ;;
  Num.pyfloat t.

(** One optional kinetic section: flag, table, default. *)
Definition read_kinetic_section (kw : string) (m_f_lines : list string)
    (set_flag : model -> model) (set_default : num -> model -> model)
    (set_col : reaction -> option num -> reaction)
    (reactions : list reaction) : M model (list reaction) :=
  if Scan.has kw m_f_lines then
    modify set_flag ;;
    let lin := Scan.find_line kw m_f_lines in
    lines <- lift (Scan.section kw m_f_lines) ;;
    tbl <- lift (read_kinetic lines) ;;
    let reactions := merge_kinetic set_col reactions tbl in
    d <- lift (second_float m_f_lines (Z.of_nat lin - 1)) ;;
    modify (set_default d) ;;
    ret reactions
  else
    ret (map (fun r => set_col r None) reactions).

(** One scalar parameter of a parameter dictionary; the dictionary is
    created with its defaults, and the flag set, when the attribute does
    not exist yet. *)
Definition read_parameter (parm : string) (m_f_lines : list string)
    (attr : model -> option (list (string * num)))
    (set_attr : list (string * num) -> model -> model)
    (set_flag : model -> model)
    (defaults : list (string * num)) : M model unit :=
  if Scan.has parm m_f_lines then
    let lin := Scan.find_line parm m_f_lines in
    l <- lift (Seq.index m_f_lines (Z.of_nat lin)) ;;
    t <- lift (Seq.index (Text.split (Text.strip l)) 1) ;;
    parm_value <- lift (Num.pyfloat t) ;;
    self <- get ;;
    match attr self with
    | Some d => modify (set_attr (Dict.set String.eqb d parm parm_value))
    | None =>
        modify set_flag ;;
        modify (set_attr defaults) ;;
        modify (set_attr (Dict.set String.eqb defaults parm parm_value))
    end
  else ret tt.

Definition one : num := float_lit 1 (D0 Nil).

Definition convection_defaults : list (string * num) :=
  [("packedDensity", one); ("elasticModulus", one);
   ("frictionConstant", one); ("convDiffConstant", one)].

Definition nonlinear_diffusion_defaults : list (string * num) :=
  [("convNonLinDiffZero", one); ("convNonlinDiffN", one);
   ("convNonlinDiffExponent", one);
   ("convNonlinDiffHillN", float_lit 10 (D0 Nil));
   ("convNonlinDiffHillK", float_lit 0 (D9 Nil))].

(** The EXCH and EXCH_IND columns, from the listed exchange reactions. *)
Definition mark_exchange (exch : list Z) (rs : list reaction) : list reaction :=
  map (fun r => r <| EXCH_IND := exch_ind exch (ID r) |>)
      (map (fun r => r <| EXCH := mem (ID r) exch |>) rs).

(** The reaction IDs listed on the line after EXCHANGE_REACTIONS. *)
Definition exchange_ids (m_f_lines : list string) : res (list Z) :=
  let lin_exch := (Scan.find_line "EXCHANGE_REACTIONS" m_f_lines + 1)%nat in
  l <~ Seq.index m_f_lines (Z.of_nat lin_exch) ;;
  res_map Num.pyint (Text.split (Text.strip l)).

(** The objective: the integer on the line after OBJECTIVE. *)
Definition objective_id (m_f_lines : list string) : res Z :=
  let lin_obj := (Scan.find_line "OBJECTIVE" m_f_lines + 1)%nat in
  l <~ Seq.index m_f_lines (Z.of_nat lin_obj) ;;
  Num.pyint (Text.strip l).

Definition read_comets_model (files : FS.fs) (path : string) : M model unit :=
  modify (fun self =>
    self <| id := Some (Text.splitext_root false (Text.basename path)) |>) ;;
  file <- lift (FS.read_file files path) ;;
  let m_f_lines := Scan.nonblank file in
  (* S MATRIX *)
  lines <- lift (Scan.section "SMATRIX" m_f_lines) ;;
  sm <- lift (read_smat lines) ;;
  modify (fun self => self <| smat := sm |>) ;;
  (* REACTIONS AND BOUNDS *)
  lines <- lift (Scan.section "REACTION_NAMES" m_f_lines) ;;
  rxn_ <- lift (read_names "REACTION_NAMES" lines) ;;
  lines <- lift (Scan.section "BOUNDS" m_f_lines) ;;
  bnds <- lift (read_bounds lines) ;;
  let default_bounds_ := fst bnds in
  let reactions_ :=
    merge_bounds rxn_ (fst default_bounds_) (snd default_bounds_) (snd bnds) in
  (* METABOLITES *)
  lines <- lift (Scan.section "METABOLITE_NAMES" m_f_lines) ;;
  metabolites_ <- lift (read_names "METABOLITE_NAMES" lines) ;;
  (* EXCHANGE RXNS *)
  exch <- lift (exchange_ids m_f_lines) ;;
  let reactions_ := mark_exchange exch reactions_ in
  (* VMAX, KM, HILL *)
  reactions_ <- read_kinetic_section "VMAX_VALUES" m_f_lines
    (fun self => self <| vmax_flag := true |>)
    (fun d self => self <| default_vmax := d |>)
    (fun r v => r <| V_MAX := v |>) reactions_ ;;
  reactions_ <- read_kinetic_section "KM_VALUES" m_f_lines
    (fun self => self <| km_flag := true |>)
    (fun d self => self <| default_km := d |>)
    (fun r v => r <| KM := v |>) reactions_ ;;
  reactions_ <- read_kinetic_section "HILL_COEFFICIENTS" m_f_lines
    (fun self => self <| hill_flag := true |>)
    (fun d self => self <| default_hill := d |>)
    (fun r v => r <| HILL := v |>) reactions_ ;;
  (* OBJECTIVE *)
  obj <- lift (objective_id m_f_lines) ;;
  modify (fun self => self <| objective := Some obj |>) ;;
  (* OBJECTIVE STYLE *)
  (if Scan.has "OBJECTIVE_STYLE" m_f_lines then
     let lin_obj_st := (Scan.find_line "OBJECTIVE_STYLE" m_f_lines + 1)%nat in
     l <- lift (Seq.index m_f_lines (Z.of_nat lin_obj_st)) ;;
     modify (fun self => self <| obj_style := Text.strip l |>)
   else ret tt) ;;
  (* OPTIMIZER *)
  (if Scan.has "OPTIMIZER" m_f_lines then
     let lin_opt := Scan.find_line "OPTIMIZER" m_f_lines in
     l <- lift (Seq.index m_f_lines (Z.of_nat lin_opt)) ;;
     t <- lift (Seq.index (Text.split l) 1) ;;
     modify (fun self => self <| optimizer := t |>)
   else ret tt) ;;
  (* neutral drift: the condition calls [upper], a name that is not
     defined, so the statement raises before anything is compared *)
  (if Scan.has "neutralDrift" m_f_lines then raise NameError else ret tt) ;;
  (if Scan.has "neutralDriftsigma" m_f_lines then
     let lin_opt := Scan.find_line "neutralDriftsigma" m_f_lines in
     d <- lift (second_float m_f_lines (Z.of_nat lin_opt)) ;;
     modify (fun self => self <| neutralDriftSigma := Some d |>)
   else ret tt) ;;
  (* convection *)
  for_each ["packedDensity"; "elasticModulus";
            "frictionConstant"; "convDiffConstant"]
    (fun parm =>
       read_parameter parm m_f_lines convection_parameters
         (fun d self => self <| convection_parameters := Some d |>)
         (fun self => self <| convection_flag := true |>)
         convection_defaults) ;;
  (* non-linear diffusion *)
  for_each ["convNonLinDiffZero"; "convNonlinDiffN"; "convNonlinDiffExponent";
            "convNonlinDiffHillN"; "convNonlinDiffHillK"]
    (fun parm =>
       read_parameter parm m_f_lines nonlinear_diffusion_parameters
         (fun d self => self <| nonlinear_diffusion_parameters := Some d |>)
         (fun self => self <| nonlinear_diffusion_flag := true |>)
         nonlinear_diffusion_defaults) ;;
  (* noise variance *)
  (if Scan.has "noiseVariance" m_f_lines then
     let lin_obj_st := Scan.find_line "noiseVariance" m_f_lines in
     l <- lift (Seq.index m_f_lines (Z.of_nat lin_obj_st)) ;;
     t <- lift (Seq.index (Text.split (Text.strip l)) 1) ;;
     noiseVariance <- lift (Num.pyfloat t) ;;
     modify (fun self => self <| noise_variance_flag := true |>) ;;
     modify (fun self => self <| noise_variance := Some noiseVariance |>)
   else ret tt) ;;
  (* assign the dataframes we just built *)
  modify (fun self => self <| reactions := reactions_ |>) ;;
  modify (fun self => self <| metabolites := metabolites_ |>).

(** *** Writing a model file *)

(** One table row as the writer renders it. *)
Definition row_text (cells : list string) : string :=
  "    " ^^ Text.join "   " cells.

Definition is_some {A} (o : option A) : bool :=
  match o with Some _ => true | None => false end.

(** The rows [(EXCH_IND, value)] of the reactions whose value is not null. *)
Definition kinetic_rows (col : reaction -> option num) (rs : list reaction)
  : list string :=
  flat_map (fun r =>
              match col r with
              | Some v => [row_text [Num.str_Z (EXCH_IND r); Num.str v]]
              | None => []
              end) rs.

(** [str(self.objective)] *)
Definition str_objective (o : option Z) : string :=
  match o with Some z => Num.str_Z z | None => "None" end.

(** [str(int(self.reactions.ID[self.reactions['REACTION_NAMES'] == name]))] *)
Definition reaction_id_text (rs : list reaction) (name : string) : res string :=
  match filter (fun r => String.eqb (REACTION_NAMES r) name) rs with
  | [r] => Ok (Num.str_Z (ID r))
  | _ => Raise TypeError
  end.

(** A field that [to_csv(sep=' ')] writes as it is. *)
Definition signal_field_plain (s : string) : bool :=
  negb (Text.contains " " s || Text.contains Text.dquote s || String.eqb s "").

Definition signal_fields (sg : signal) : list string :=
  [REACTION_NUMBER sg; Num.str_Z (signal_EXCH_IND sg); BOUND sg; FUNCTION sg]
    ++ map Num.str (PARAMETERS sg).

Definition write_parameters (path : string) (d : option (list (string * num)))
  : M FS.fs unit :=
  match d with
  | None => raise AttributeError
  | Some items =>
      for_each items (fun kv =>
        FS.write path (fst kv ^^ " " ^^ Num.str (snd kv)) ;;
        FS.write path "//")
  end.

Definition write_comets_model (self : model) (working_dir : option string)
  : M FS.fs unit :=
  let path_to_write := match working_dir with Some d => d | None => "" end in
  ident <- lift (match id self with Some i => Ok i | None => Raise TypeError end) ;;
  let path_to_write := path_to_write ^^ ident ^^ ".cmd" in
  (* format variables for writing comets model *)
  d0 <- lift (Seq.index (default_bounds self) 0) ;;
  d1 <- lift (Seq.index (default_bounds self) 1) ;;
  let bnd :=
    map (fun r => row_text [Num.str_Z (ID r); Num.str (LB r); Num.str (UB r)])
        (filter (fun r => negb (Num.eqb (LB r) d0) || negb (Num.eqb (UB r) d1))
                (reactions self)) in
  let rxn_n := map (fun r => "    " ^^ REACTION_NAMES r) (reactions self) in
  let met_n := map (fun n => "    " ^^ n) (metabolites self) in
  let smat_ :=
    map (fun r => row_text [Num.str_Z (metabolite r); Num.str_Z (rxn r);
                            Num.str (s_coef r)]) (smat self) in
  let exch_r :=
    Text.join " " (map (fun r => Num.str_Z (ID r)) (filter EXCH (reactions self))) in
  let Vmax := kinetic_rows V_MAX (reactions self) in
  let Km := kinetic_rows KM (reactions self) in
  let Hill := kinetic_rows HILL (reactions self) in
  FS.create path_to_write ;;
  let f := path_to_write in
  FS.write f ("SMATRIX  " ^^ Num.str_Z (Z.of_nat (length (metabolites self)))
              ^^ "  " ^^ Num.str_Z (Z.of_nat (length (reactions self)))) ;;
  FS.to_csv f smat_ ;;
  FS.write f "//" ;;
  FS.write f ("BOUNDS " ^^ Num.str d0 ^^ " " ^^ Num.str d1) ;;
  FS.to_csv f bnd ;;
  FS.write f "//" ;;
  FS.write f "OBJECTIVE" ;;
  FS.write f ("    " ^^ str_objective (objective self)) ;;
  FS.write f "//" ;;
  FS.write f "METABOLITE_NAMES" ;;
  FS.to_csv f met_n ;;
  FS.write f "//" ;;
  FS.write f "REACTION_NAMES" ;;
  FS.to_csv f rxn_n ;;
  FS.write f "//" ;;
  FS.write f "EXCHANGE_REACTIONS" ;;
  FS.write f (" " ^^ exch_r) ;;
  FS.write f "//" ;;
  (if vmax_flag self then
     FS.write f ("VMAX_VALUES " ^^ Num.str (default_vmax self)) ;;
     FS.to_csv f Vmax ;;
     FS.write f "//"
   else ret tt) ;;
  (if km_flag self then
     FS.write f ("KM_VALUES " ^^ Num.str (default_km self)) ;;
     FS.to_csv f Km ;;
     FS.write f "//"
   else ret tt) ;;
  (if hill_flag self then
     FS.write f ("HILL_VALUES " ^^ Num.str (default_hill self)) ;;
     FS.to_csv f Hill ;;
     FS.write f "//"
   else ret tt) ;;
  (if light_flag self then
     FS.write f "LIGHT" ;;
     for_each (light self) (fun lrxn =>
       lrxn_ind <- lift (reaction_id_text (reactions self) (fst (fst lrxn))) ;;
       FS.write f ("    " ^^ lrxn_ind ^^ " " ^^ Num.str (snd (fst lrxn))
                   ^^ " " ^^ Num.str (snd lrxn))) ;;
     FS.write f "//"
   else ret tt) ;;
  (match signals self with
   | _ :: _ =>
       FS.write f "MET_REACTION_SIGNAL" ;;
       for_each (signals self) (fun sg =>
         if forallb signal_field_plain (signal_fields sg)
         then FS.write f (Text.join " " (signal_fields sg))
         else raise NotModelled) ;;
       FS.write f "//"
   | [] => ret tt
   end) ;;
  (if convection_flag self
   then write_parameters f (convection_parameters self) else ret tt) ;;
  (if nonlinear_diffusion_flag self
   then write_parameters f (nonlinear_diffusion_parameters self) else ret tt) ;;
  (if noise_variance_flag self then
     v <- lift (match noise_variance self with
                | Some v => Ok v | None => Raise AttributeError end) ;;
     FS.write f ("noiseVariance" ^^ " " ^^ Num.str v) ;;
     FS.write f "//"
   else ret tt) ;;
  (if neutral_drift_flag self then
     FS.write f "neutralDrift true" ;;
     FS.write f "//" ;;
     v <- lift (match neutralDriftSigma self with
                | Some v => Ok v | None => Raise AttributeError end) ;;
     FS.write f ("neutralDriftSigma " ^^ Num.str v) ;;
     FS.write f "//"
   else ret tt) ;;
  FS.write f "OBJECTIVE_STYLE" ;;
  FS.write f (obj_style self) ;;
  FS.write f "//" ;;
  FS.write f ("OPTIMIZER " ^^ optimizer self) ;;
  FS.write f "//".

(** *** Loading a COBRA model *)

(** What the loader reads of a [cobra.Reaction] and of a [cobra.Model]. *)
Record cobra_reaction : Type := mk_cobra_reaction {
  cobra_id : string;
  lower_bound : num;
  upper_bound : num;
  cobra_metabolites : list (string * num);
  objective_coefficient : num;
  Vmax : option num;
  Km : option num;
  Hill : option num
}.

Record cobra_model : Type := mk_cobra_model {
  cobra_model_id : string;
  cobra_reactions : list cobra_reaction;
  cobra_model_metabolites : list string;
  cobra_default_vmax : option num;
  cobra_default_km : option num;
  cobra_default_hill : option num;
  cobra_default_bounds : option (list num);
  comets_optimizer : option string;
  comets_obj_style : option string
}.

(** [str(x).split(':')[0]] where [str(x)] starts with the identifier
    followed by a colon. *)
Fixpoint before_colon (s : string) : string :=
  match s with
  | "" => ""
  | String c s' => if Ascii.eqb c ":" then "" else String c (before_colon s')
  end.

(** The EXCH column entry of a reaction; the three tests are joined by
    [&], so each of them is evaluated. *)
Definition is_exchange (k : cobra_reaction) : res bool :=
  first <~ Seq.index (map snd (cobra_metabolites k)) 0 ;;
  Ok ((length (cobra_metabolites k) =? 1)%nat
      && Num.eqb first (Num.of_Z (-1))
      && negb (Text.contains "DM_" (cobra_id k))).

Fixpoint index_of_name (x : string) (l : list string) : option nat :=
  match l with
  | [] => None
  | y :: l' => if String.eqb x y then Some 0%nat
               else option_map S (index_of_name x l')
  end.

Definition smat_leb (a b : smat_row) : bool :=
  (metabolite a <? metabolite b)
  || ((metabolite a =? metabolite b) && (rxn a <=? rxn b)).

Fixpoint insert_row (a : smat_row) (l : list smat_row) : list smat_row :=
  match l with
  | [] => [a]
  | b :: l' => if smat_leb a b then a :: l else b :: insert_row a l'
  end.

(** [smat.sort_values(by=['metabolite', 'rxn'])] *)
Definition sort_smat (l : list smat_row) : list smat_row :=
  fold_right insert_row [] l.

Fixpoint distinct (l : list Z) : bool :=
  match l with
  | [] => true
  | x :: l' => negb (mem x l') && distinct l'
  end.

(** The S-matrix rows of one reaction. *)
Definition smat_of_reaction (curr_m : cobra_model) (names : list string)
    (row : reaction) : res (list smat_row) :=
  match filter (fun k => String.eqb (cobra_id k) (REACTION_NAMES row))
               (cobra_reactions curr_m) with
  | [] => Raise KeyError
  | k :: _ =>
      rxn_mets <~ res_map (fun x =>
                     match index_of_name (fst x) names with
                     | Some i => Ok (1 + Z.of_nat i)
                     | None => Raise (ValueError "is not in list")
                     end) (cobra_metabolites k) ;;
      if distinct rxn_mets
      then Ok (map (fun ms => mk_smat_row (fst ms) (ID row) (snd ms))
                   (combine rxn_mets (map snd (cobra_metabolites k))))
      else Raise NotModelled
  end.

Definition any_some (col : reaction -> option num) (rs : list reaction) : bool :=
  existsb (fun r => is_some (col r)) rs.

(** The rows of the reactions table: name, ID, bounds, EXCH, EXCH_IND and
    the kinetic attributes of each reaction. *)
Definition reaction_rows (reaction_list : list cobra_reaction)
    (flags : list bool) (ids exch : list Z) : list reaction :=
  map (fun kfi =>
         let k := fst (fst kfi) in
         let x := snd kfi in
         mk_reaction (before_colon (cobra_id k)) x
                     (lower_bound k) (upper_bound k)
                     (snd (fst kfi)) (exch_ind exch x)
                     (Vmax k) (Km k) (Hill k))
      (combine (combine reaction_list flags) ids).

Definition load_cobra_model (curr_m : cobra_model) : M model unit :=
  self0 <- get ;;
  (match reactions self0, smat self0, metabolites self0 with
   | [], [], [] => ret tt
   | _, _, _ => raise NotModelled  (* tables already populated *)
   end) ;;
  modify (fun self => self <| id := Some (cobra_model_id curr_m) |>) ;;
  (* reactions and their features *)
  let reaction_list := cobra_reactions curr_m in
  flags <- lift (res_map is_exchange reaction_list) ;;
  let ids := map Z.of_nat (seq 1 (length reaction_list)) in
  let exch := map snd (filter fst (combine flags ids)) in
  let rows := reaction_rows reaction_list flags ids exch in
  modify (fun self => self <| reactions := rows |>) ;;
  (if any_some V_MAX rows
   then modify (fun self => self <| vmax_flag := true |>) else ret tt) ;;
  (if any_some KM rows
   then modify (fun self => self <| km_flag := true |>) else ret tt) ;;
  (if any_some HILL rows
   then modify (fun self => self <| hill_flag := true |>) else ret tt) ;;
  modify (fun self =>
            match vmax_flag self, cobra_default_vmax curr_m with
            | true, Some d => self <| default_vmax := d |>
            | _, _ => self
            end) ;;
  modify (fun self =>
            match km_flag self, cobra_default_km curr_m with
            | true, Some d => self <| default_km := d |>
            | _, _ => self
            end) ;;
  modify (fun self =>
            match hill_flag self, cobra_default_hill curr_m with
            | true, Some d => self <| default_hill := d |>
            | _, _ => self
            end) ;;
  (* Metabolites *)
  let names := cobra_model_metabolites curr_m in
  modify (fun self => self <| metabolites := names |>) ;;
  (* S matrix *)
  for_each rows (fun row =>
    cdf <- lift (smat_of_reaction curr_m names row) ;;
    modify (fun self => self <| smat := smat self ++ sort_smat cdf |>)) ;;
  modify (fun self => self <| smat := sort_smat (smat self) |>) ;;
  (* The rest of stuff *)
  modify (fun self =>
            match cobra_default_bounds curr_m with
            | Some b => self <| default_bounds := b |>
            | None => self
            end) ;;
  obj <- lift (Seq.index
                 (map (fun x => before_colon (cobra_id x))
                      (filter (fun x => negb (Num.eqb (objective_coefficient x)
                                                      Num.zero))
                              reaction_list)) 0) ;;
  self <- get ;;
  n <- lift (match filter (fun r => String.eqb (REACTION_NAMES r) obj)
                          (reactions self) with
             | [r] => Ok (ID r)
             | _ => Raise TypeError
             end) ;;
  modify (fun self => self <| objective := Some n |>) ;;
  modify (fun self =>
            match comets_optimizer curr_m with
            | Some o => self <| optimizer := o |>
            | None => self
            end) ;;
  modify (fun self =>
            match comets_obj_style curr_m with
            | Some o => self <| obj_style := o |>
            | None => self
            end).

(** [model(path)]: a COMETS model file is read when the path ends in
    [cmd]; reading SBML through cobra is not modelled. *)
Definition of_path (files : FS.fs) (path : string) : res model :=
  if String.eqb (Text.last3 path) "cmd" then
    match read_comets_model files path init with
    | (Ok _, self) => Ok self
    | (Raise e, _) => Raise e
    end
  else Raise NotModelled.

(** [model(curr_m)] for a [cobra.Model]. *)
Definition of_cobra (curr_m : cobra_model) : res model :=
  match load_cobra_model curr_m init with
  | (Ok _, self) => Ok self
  | (Raise e, _) => Raise e
  end.

(** *** The bounds and kinetic parameters of a reaction *)

(** The object and what has been printed. *)
Record state : Type := mk_state {
  obj : model;
  stdout : list string
}.

(** [print(msg)] *)
Definition print (msg : string) : M state unit :=
  modify (fun s => s <| stdout := stdout s ++ [msg] |>).

Definition update (f : model -> model) : M state unit :=
  modify (fun s => s <| obj := f (obj s) |>).

Definition msg_not_found : string := "reaction couldnt be found".

(** [name in self.reactions['REACTION_NAMES'].values] *)
Definition has_reaction (self : model) (name : string) : bool :=
  existsb (fun r => String.eqb (REACTION_NAMES r) name) (reactions self).

(** [self.reactions.loc[self.reactions['REACTION_NAMES'] == name, col] = v] *)
Definition set_rows (name : string) (set : reaction -> reaction) (self : model)
  : model :=
  self <| reactions :=
            map (fun r => if String.eqb (REACTION_NAMES r) name then set r else r)
                (reactions self) |>.

(** [self.reactions.loc[self.reactions['REACTION_NAMES'] == name, col]] *)
Definition rows_of {A} (name : string) (col : reaction -> A) (self : model)
  : list A :=
  map col (filter (fun r => String.eqb (REACTION_NAMES r) name) (reactions self)).

(** [float(series)]: the value of a column that has exactly one row. *)
Definition float_of (cells : list num) : res num :=
  match cells with
  | [v] => Ok v
  | _ => Raise TypeError
  end.

Definition change_bounds (name : string) (lower_bound upper_bound : num)
  : M state unit :=
  s <- get ;;
  if negb (has_reaction (obj s) name) then print msg_not_found
  else
    update (set_rows name (fun r => r <| LB := lower_bound |>)) ;;
    update (set_rows name (fun r => r <| UB := upper_bound |>)).

(** [get_bounds] returns the pair, or nothing after its message. *)
Definition get_bounds (name : string) : M state (option (num * num)) :=
  s <- get ;;
  if negb (has_reaction (obj s) name) then print msg_not_found ;; ret None
  else
    lb <- lift (float_of (rows_of name LB (obj s))) ;;
    ub <- lift (float_of (rows_of name UB (obj s))) ;;
    ret (Some (lb, ub)).

Definition change_vmax (name : string) (vmax : num) : M state unit :=
  s <- get ;;
  if negb (has_reaction (obj s) name) then print msg_not_found
  else
    update (fun self => self <| vmax_flag := true |>) ;;
    update (set_rows name (fun r => r <| V_MAX := Some vmax |>)).

Definition change_km (name : string) (km : num) : M state unit :=
  s <- get ;;
  if negb (has_reaction (obj s) name) then print msg_not_found
  else
    update (fun self => self <| km_flag := true |>) ;;
    update (set_rows name (fun r => r <| KM := Some km |>)).

Definition change_hill (name : string) (hill : num) : M state unit :=
  s <- get ;;
  if negb (has_reaction (obj s) name) then print msg_not_found
  else
    update (fun self => self <| hill_flag := true |>) ;;
    update (set_rows name (fun r => r <| HILL := Some hill |>)).

End Model.

(** ** class layout *)

Module Layout.

(** A row of the [media] table; [label] is its index label, and a cell
    that holds NaN is [None]. *)
Record media_row : Type := mk_media_row {
  label : Z;
  metabolite : option string;
  init_amount : option num;
  diff_c : option num;
  g_static : option num;
  g_static_val : option num;
  g_refresh : option num
}.

(** An external reaction. *)
Record ext_rxn : Type := mk_ext_rxn {
  Name : string;
  metabolites : list string;
  stoichiometry : list num;
  Kcat : option num;
  Km : option num;
  K : option num
}.

(** A periodic forcing term
    [[index, function, amplitude, period, phase, offset]]. *)
Record periodic : Type := mk_periodic {
  media_index : Z;
  waveform : string;
  amplitude : num;
  period : num;
  phase : num;
  offset : num
}.

(** [initial_pop]: rows [x y amount...] for the custom type, the scalar
    parameters of a generator otherwise. *)
Inductive pop_spec : Type :=
| Rows (rows : list (list num))
| Params (values : list num).

Definition sparse : Type := list (loc * list (string * num)).

Record layout : Type := mk_layout {
  models : list Model.model;
  grid : list Z;
  media : list media_row;
  local_media : sparse;
  global_diff : option num;
  refresh : list num;
  local_refresh : sparse;
  local_static : sparse;
  initial_pop_type : string;
  initial_pop : pop_spec;
  all_exchanged_mets : list string;
  default_diff_c : num;
  default_g_static : num;
  default_g_static_val : num;
  default_g_refresh : num;
  barriers : list loc;
  reactions : list ext_rxn;
  periodic_media : list periodic;
  region_map : option (list (list Z));
  region_parameters : list (Z * (option (list num) * option num));
  local_media_flag : bool;
  diffusion_flag : bool;
  refresh_flag : bool;
  static_flag : bool;
  barrier_flag : bool;
  region_flag : bool;
  ext_rxns_flag : bool;
  periodic_media_flag : bool
}.

(** The object and what has been printed. *)
Record state : Type := mk_state {
  obj : layout;
  stdout : list string
}.

(** The empty layout that the constructor defines first.  The default
    diffusion constant 5.0e-6 is written positionally. *)
Definition init : layout := {|
  models := [];
  grid := [1; 1];
  media := [];
  local_media := [];
  global_diff := None;
  refresh := [];
  local_refresh := [];
  local_static := [];
  initial_pop_type := "custom";
  initial_pop := Rows [];
  all_exchanged_mets := [];
  default_diff_c := Num.mk false 0 (D0 (D0 (D0 (D0 (D0 (D5 Nil))))));
  default_g_static := Num.of_Z 0;
  default_g_static_val := Num.of_Z 0;
  default_g_refresh := Num.of_Z 0;
  barriers := [];
  reactions := [];
  periodic_media := [];
  region_map := None;
  region_parameters := [];
  local_media_flag := false;
  diffusion_flag := false;
  refresh_flag := false;
  static_flag := false;
  barrier_flag := false;
  region_flag := false;
  ext_rxns_flag := false;
  periodic_media_flag := false
|}.

(** [print(msg)] *)
Definition print (msg : string) : M state unit :=
  modify (fun s => s <| stdout := stdout s ++ [msg] |>).

(** A statement on the object alone, inside a method that also prints. *)
Definition on_self {A} (m : M layout A) : M state A :=
  fun s => let (r, l) := m (obj s) in (r, s <| obj := l |>).

Definition update (f : layout -> layout) : M state unit := on_self (modify f).

Definition get_self : M state layout := on_self get.

(** *** Periodic media *)

(** [self.media.index[self.media['metabolite'] == metabolite]] *)
Definition labels_of (media : list media_row) (met : string) : list Z :=
  map label
      (filter (fun r => match metabolite r with
                        | Some n => String.eqb n met
                        | None => false
                        end) media).

Definition waveforms : list string := ["step"; "sin"; "cos"; "half_sin"; "half_cos"].

Definition set_global_periodic_media (met : string) (function : string)
    (amplitude period phase offset : num) : M layout unit :=
  self <- get ;;
  match labels_of (media self) met with
  | [] => raise (ValueError "the metabolite is not present in the media")
  | i :: _ =>
      if negb (Text.mem function waveforms)
      then raise (ValueError (function ^^ ": function unknown"))
      else
        modify (fun self =>
          self <| periodic_media :=
                    periodic_media self
                      ++ [mk_periodic i function amplitude period phase offset] |>) ;;
        modify (fun self => self <| periodic_media_flag := true |>)
  end.

(** *** Models, initial population, exchanged metabolites *)

(** [model.initial_pop] as a list of triples; [model.initial_pop[0]] is
    read first. *)
Definition nested_pop (p : Model.pop) : res (list (list num)) :=
  match p with
  | Model.Flat [] => Raise IndexError
  | Model.Flat t => Ok [t]
  | Model.Nested [] => Raise IndexError
  | Model.Nested ts => Ok ts
  end.

(** [curr_line = [0] * (n_models + 2)] with its three assignments. *)
Definition pop_line (n_models i : nat) (pop : list num) : res (list num) :=
  x <~ Seq.index pop 0 ;;
  y <~ Seq.index pop 1 ;;
  a <~ Seq.index pop 2 ;;
  Ok ([x; y] ++ repeat (Num.of_Z 0) i ++ [a]
        ++ repeat (Num.of_Z 0) (n_models - i - 1)).

(** The lines of the initial population, model after model; a model's
    population is made a list of triples on the way. *)
Fixpoint build_pop_lines (n_models i : nat) (ms : list Model.model)
    (acc : list (list num)) : M layout (list (list num)) :=
  match ms with
  | [] => ret acc
  | m :: ms' =>
      pops <- lift (nested_pop (Model.initial_pop m)) ;;
      modify (fun self =>
        self <| models :=
          firstn i (models self)
            ++ [m <| Model.initial_pop := Model.Nested pops |>]
            ++ skipn (S i) (models self) |>) ;;
      rows <- lift (res_map (pop_line n_models i) pops) ;;
      build_pop_lines n_models (S i) ms' (acc ++ rows)
  end.

Definition build_initial_pop : M layout unit :=
  self0 <- get ;;
  let n_models := length (models self0) in
  lines <- build_pop_lines n_models 0 (models self0) [] ;;
  modify (fun self => self <| initial_pop := Rows lines |>).

Fixpoint insert (x : string) (l : list string) : list string :=
  match l with
  | [] => [x]
  | y :: l' => if String.leb x y then x :: l else y :: insert x l'
  end.

(** [sorted(l)] on strings. *)
Definition sorted (l : list string) : list string := fold_right insert [] l.

(** [list(set(l))]: the distinct elements, in some order. *)
Definition set_of (l : list string) : list string := nodup string_dec l.

(** [all_exchanged_mets.extend(model.get_exchange_metabolites())] for
    each model in turn. *)
Fixpoint extend_exchanged_mets (ms : list Model.model) (acc : list string)
  : res (list string) :=
  match ms with
  | [] => Ok acc
  | m :: ms' =>
      exchmets <~ Model.get_exchange_metabolites m ;;
      extend_exchanged_mets ms' (acc ++ exchmets)
  end.

Definition build_exchanged_mets : M layout unit :=
  self <- get ;;
  names <- lift (extend_exchanged_mets (models self) []) ;;
  let names := sorted (set_of names) in
  modify (fun self => self <| all_exchanged_mets := names |>).

Definition has_metabolite (media : list media_row) (met : string) : bool :=
  match labels_of media met with [] => false | _ => true end.

(** [pd.concat([media, new_row], ignore_index=True)] *)
Definition relabel (media : list media_row) : list media_row :=
  map (fun ir => (snd ir) <| label := Z.of_nat (fst ir) |>)
      (combine (seq 0 (length media)) media).

Definition add_new_mets_to_media : M layout unit :=
  self0 <- get ;;
  for_each (all_exchanged_mets self0) (fun met =>
    self <- get ;;
    if negb (has_metabolite (media self) met) then
      let new_row :=
        mk_media_row 0 (Some met) (Some (Num.of_Z 0))
                     (Some (default_diff_c self)) (Some (default_g_static self))
                     (Some (default_g_static_val self))
                     (Some (default_g_refresh self)) in
      modify (fun self => self <| media := relabel (media self ++ [new_row]) |>)
    else ret tt).

Definition update_models : M layout unit :=
  build_initial_pop ;;
  build_exchanged_mets ;;
  add_new_mets_to_media.

Definition add_model (m : Model.model) : M layout unit :=
  modify (fun self => self <| models := models self ++ [m] |>) ;;
  update_models.

(** *** Reading a layout file *)

(** [[float(x) for x in line.split()]] *)
Definition floats (line : string) : res (list num) :=
  res_map Num.pyfloat (Text.split line).

Definition msg_grid (n : nat) : string :=
  Text.nl ^^ " ERROR CorruptLine: Only " ^^ Num.str_Z (Z.of_nat n)
  ^^ " dimension(s) specified for world grid".
Definition msg_initpop_corrupt : string :=
  "Problem at some initial population lines".
Definition msg_initpop_outofgrid : string :=
  "Some initial population values fall outside of the defined grid".
Definition msg_no_models : string := "Warning: No models in layout".
Definition msg_unallocated : string :=
  Text.nl ^^ " ERROR UnallocatedMetabolite: Some diffusion "
  ^^ "values correspond to unallocated metabolites".
Definition msg_media_corrupt : string :=
  Text.nl ^^ " ERROR CorruptLine: Some local " ^^ Text.dquote ^^ "media" ^^ Text.dquote
  ^^ " lines "
  ^^ "have a wrong number of entries".
Definition msg_media_outofgrid : string :=
  Text.nl ^^ " ERROR OutOfGrid: Some local " ^^ Text.dquote ^^ "media" ^^ Text.dquote
  ^^ " lines "
  ^^ "have coordinates that fall outside of the " ^^ Text.nl ^^ "defined grid".
Definition msg_global_refresh : string :=
  Text.nl ^^ " ERROR CorruptLine: Number of global refresh "
  ^^ "values does not match number of " ^^ Text.nl ^^ "media "
  ^^ "metabolites in provided layout file".
Definition msg_refresh_corrupt : string :=
  Text.nl ^^ " ERROR CorruptLine: Some local " ^^ Text.dquote ^^ "refresh" ^^ Text.dquote
  ^^ " lines "
  ^^ "have a wrong number of entries".
Definition msg_refresh_outofgrid : string :=
  Text.nl ^^ " ERROR OutOfGrid: Some local " ^^ Text.dquote ^^ "refresh" ^^ Text.dquote
  ^^ " lines "
  ^^ "have coordinates that fall outside of the " ^^ Text.nl ^^ "defined grid".
Definition msg_region_layout : string :=
  Text.nl ^^ " ERROR CorruptLine: Some substrate_layout lines are "
  ^^ " longer or shorter than the grid width, or there are more"
  ^^ " lines than the grid length".
Definition msg_region_diffusivity : string :=
  Text.nl ^^ " ERROR CorruptLine: Some substrate_diffusivity lines are "
  ^^ " longer or shorter than the number of metabolites".
Definition msg_global_static : string :=
  Text.nl ^^ "ERROR CorruptLine: Wrong number of global static values".
Definition msg_static_corrupt : string :=
  Text.nl ^^ " ERROR CorruptLine: Wrong number of local static "
  ^^ "values at some lines".
Definition msg_static_outofgrid : string :=
  Text.nl ^^ " ERROR OutOfGrid: Some local " ^^ Text.dquote ^^ "static" ^^ Text.dquote
  ^^ " lines have "
  ^^ " coordinates that fall outside of the defined grid".

(** [except CorruptLine: print(a)  except OutOfGrid: print(b)] *)
Definition report (corrupt : option string) (outofgrid : option string)
    (unallocated : option string) (e : exn) : option (M state unit) :=
  match e with
  | CorruptLine => option_map print corrupt
  | OutOfGrid => option_map print outofgrid
  | UnallocatedMetabolite => option_map print unallocated
  | _ => None
  end.

(** [x >= self.grid[0] or y >= self.grid[1]] *)
Definition outside (g : list Z) (x y : num) : res bool :=
  g0 <~ Seq.index g 0 ;;
  if Num.geb x (Num.of_Z g0) then Ok true
  else g1 <~ Seq.index g 1 ;; Ok (Num.geb y (Num.of_Z g1)).

Definition blank_row (i : Z) : media_row :=
  mk_media_row i None None None None None None.

(** [self.media[col] = values]: on a table without rows the values make
    the rows; otherwise there must be one value per row. *)
Definition assign_column {A} (set : media_row -> A -> media_row)
    (tbl : list media_row) (values : list A) : res (list media_row) :=
  match tbl with
  | [] => Ok (map (fun iv => set (blank_row (Z.of_nat (fst iv))) (snd iv))
                  (combine (seq 0 (length values)) values))
  | _ => if (length tbl =? length values)%nat
         then Ok (map (fun rv => set (fst rv) (snd rv)) (combine tbl values))
         else Raise (ValueError "Length of values does not match length of index")
  end.

(** [self.media.loc[i, 'diff_c'] = v]: the rows labelled [i], or a new
    row when there is none. *)
Definition set_diff_c (tbl : list media_row) (i : Z) (v : num) : list media_row :=
  if existsb (fun r => label r =? i) tbl
  then map (fun r => if label r =? i then r <| diff_c := Some v |> else r) tbl
  else tbl ++ [(blank_row i) <| diff_c := Some v |>].

(** [d[loc] = {}] then [d[loc][name] = v] *)
Definition clear_at (d : sparse) (l : loc) : sparse := Dict.set loc_eqb d l [].

Definition set_at (d : sparse) (l : loc) (name : string) (v : num) : res sparse :=
  match Dict.lookup loc_eqb d l with
  | Some inner => Ok (Dict.set loc_eqb d l (Dict.set String.eqb inner name v))
  | None => Raise KeyError
  end.

(** What a row of a local media or refresh block stores: an empty map at
    its location, then its non-zero amounts under the names of the
    exchanged metabolites. *)
Definition store_local_row
    (get_map : layout -> sparse) (set_map : sparse -> layout -> layout)
    (x y : num) (amounts : list num) : M state unit :=
  let l := (Num.trunc x, Num.trunc y) in
  update (fun self => set_map (clear_at (get_map self) l) self) ;;
  for_each (combine (seq 0 (length amounts)) amounts) (fun jv =>
    if negb (Num.eqb (snd jv) Num.zero) then
      self <- get_self ;;
      name <- lift (Seq.index (all_exchanged_mets self) (Z.of_nat (fst jv))) ;;
      d <- lift (set_at (get_map self) l name (snd jv)) ;;
      update (set_map d)
    else ret tt).

(** The body of the loop over the rows of a local media or refresh block. *)
Definition read_local_row
    (get_map : layout -> sparse) (set_map : sparse -> layout -> layout)
    (line : string) : M state unit :=
  spec <- lift (floats line) ;;
  self <- get_self ;;
  if negb (length spec =? length (media self) + 2)%nat then raise CorruptLine
  else
    x <- lift (Seq.index spec 0) ;;
    y <- lift (Seq.index spec 1) ;;
    out <- lift (outside (grid self) x y) ;;
    if out then raise OutOfGrid
    else store_local_row get_map set_map x y (Seq.from spec 2).

Definition read_local_rows (rows : list string)
    (get_map : layout -> sparse) (set_map : sparse -> layout -> layout)
  : M state unit :=
  for_each rows (read_local_row get_map set_map).

Fixpoint pairs {A} (l : list A) : list (A * A) :=
  match l with
  | a :: b :: l' => (a, b) :: pairs l'
  | _ => []
  end.

(** What a row of the local static block stores: flag, value pairs. *)
Definition store_static_row (x y : num) (flagged : list (num * num))
  : M state unit :=
  let l := (Num.trunc x, Num.trunc y) in
  update (fun self => self <| local_static := clear_at (local_static self) l |>) ;;
  for_each (combine (seq 0 (length flagged)) flagged) (fun jv =>
    if negb (Num.eqb (fst (snd jv)) Num.zero) then
      self <- get_self ;;
      name <- lift (Seq.index (all_exchanged_mets self) (Z.of_nat (fst jv))) ;;
      d <- lift (set_at (local_static self) l name (snd (snd jv))) ;;
      update (fun self => self <| local_static := d |>)
    else ret tt).

(** The body of the loop over the rows of the local static block. *)
Definition read_static_row (line : string) : M state unit :=
  spec <- lift (floats line) ;;
  self <- get_self ;;
  if negb (length spec =? 2 * length (media self) + 2)%nat then raise CorruptLine
  else
    x <- lift (Seq.index spec 0) ;;
    y <- lift (Seq.index spec 1) ;;
    out <- lift (outside (grid self) x y) ;;
    if out then raise OutOfGrid
    else store_static_row x y (pairs (Seq.from spec 2)).

Definition read_static_rows (rows : list string) : M state unit :=
  for_each rows read_static_row.

(** [self.grid = ...] and its check. *)
Definition read_grid (f_lines : list string) : M state unit :=
  try_except
    (l <- lift (Seq.index f_lines 2) ;;
     g <- lift (res_map Num.pyint (Seq.from (Text.split l) 1)) ;;
     update (fun self => self <| grid := g |>) ;;
     if (length g <? 2)%nat then raise CorruptLine else ret tt)
    (fun e =>
       match e with
       | CorruptLine =>
           Some (self <- get_self ;; print (msg_grid (length (grid self))))
       | _ => None
       end).

Definition generators : list string :=
  ["random"; "random_rect"; "filled"; "filled_rect"; "square"].

(** The rows of the custom initial population: per model, the triples
    [x, y, amount] of its non-zero amounts.  The list lives in a local
    variable, which the loop leaves as it is when it raises. *)
Fixpoint read_initpop_rows (g : list Z) (rows : list string)
    (temp : list (list (list num))) : res unit * list (list (list num)) :=
  match rows with
  | [] => (Ok tt, temp)
  | line :: rows' =>
      match floats line with
      | Raise e => (Raise e, temp)
      | Ok ipop_spec =>
          if negb (Z.of_nat (length ipop_spec) - 2 =? Z.of_nat (length temp))
          then (Raise CorruptLine, temp)
          else
            match (x <~ Seq.index ipop_spec 0 ;;
                   y <~ Seq.index ipop_spec 1 ;;
                   out <~ outside g x y ;;
                   Ok (x, y, out)) with
            | Raise e => (Raise e, temp)
            | Ok (x, y, true) => (Raise OutOfGrid, temp)
            | Ok (x, y, false) =>
                read_initpop_rows g rows'
                  (map (fun tv =>
                          if negb (Num.eqb (snd tv) (Model.float_lit 0 (D0 Nil)))
                          then fst tv ++ [[x; y; snd tv]]
                          else fst tv)
                       (combine temp (Seq.from ipop_spec 2)))
            end
      end
  end.

(** The initial population block; it returns the per-model lists when the
    block has the custom form (the local variable is not bound otherwise). *)
Definition read_initial_pop (f_lines : list string) (end_blocks : list nat)
  : M state (option (list (list (list num)))) :=
  let lin_initpop := Scan.find_line "initial_pop" f_lines in
  lin_initpop_end <- lift (Scan.next_end end_blocks lin_initpop) ;;
  l <- lift (Seq.index f_lines (Z.of_nat lin_initpop)) ;;
  let g_initpop := Seq.from (Text.split l) 1 in
  if match g_initpop with
     | kind :: _ => Text.mem kind generators
     | [] => false
     end
  then
    update (fun self => self <| initial_pop_type := hd "" g_initpop |>) ;;
    vs <- lift (res_map Num.pyfloat (Seq.from g_initpop 1)) ;;
    update (fun self => self <| initial_pop := Params vs |>) ;;
    ret None
  else
    update (fun self => self <| initial_pop_type := "custom" |>) ;;
    (* .. local initial population values *)
    let lin_initpop := S lin_initpop in
    l0 <- lift (Seq.index f_lines 0) ;;
    let temp_init_pop_for_models :=
      repeat [] (length (Seq.from (Text.split l0) 1)) in
    self <- get_self ;;
    let (r, temp_init_pop_for_models) :=
      read_initpop_rows (grid self)
        (Seq.slice f_lines lin_initpop lin_initpop_end)
        temp_init_pop_for_models in
    match r with
    | Ok _ => ret (Some temp_init_pop_for_models)
    | Raise CorruptLine =>
        print msg_initpop_corrupt ;; ret (Some temp_init_pop_for_models)
    | Raise OutOfGrid =>
        print msg_initpop_outofgrid ;; ret (Some temp_init_pop_for_models)
    | Raise e => raise e
    end.

(** The models named on the first line, each read from its file and
    given its initial population. *)
Definition read_models (files : FS.fs) (f_lines : list string)
    (temp_init_pop_for_models : option (list (list (list num))))
  : M state unit :=
  l0 <- lift (Seq.index f_lines 0) ;;
  let model_paths := Seq.from (Text.split l0) 1 in
  match model_paths with
  | _ :: _ =>
      for_each (combine (seq 0 (length model_paths)) model_paths) (fun ip =>
        curr_model <- lift (Model.of_path files (snd ip)) ;;
        pops <- lift (match temp_init_pop_for_models with
                      | Some t => Seq.index t (Z.of_nat (fst ip))
                      | None => Raise NameError
                      end) ;;
        let curr_model := curr_model <| Model.initial_pop := Model.Nested pops |> in
        on_self (add_model curr_model) ;;
        on_self update_models)
  | [] => print msg_no_models
  end.

(** The world media block. *)
Definition read_world_media (f_lines : list string) (end_blocks : list nat)
  : M state (list string) :=
  let lin_media := S (Scan.find_line "world_media" f_lines) in
  lin_media_end <- lift (Scan.next_end end_blocks lin_media) ;;
  rows <- lift (res_map (fun line =>
                  let metabolite := Text.split line in
                  n <~ Seq.index metabolite 0 ;;
                  t <~ Seq.index metabolite 1 ;;
                  c <~ Num.pyfloat t ;;
                  Ok (n, c)) (Seq.slice f_lines lin_media lin_media_end)) ;;
  let media_names := map fst rows in
  let media_conc := map snd rows in
  self <- get_self ;;
  tbl <- lift (assign_column (fun r n => r <| metabolite := Some n |>)
                             (media self) media_names) ;;
  update (fun self => self <| media := tbl |>) ;;
  tbl <- lift (assign_column (fun r c => r <| init_amount := Some c |>)
                             tbl media_conc) ;;
  update (fun self => self <| media := tbl |>) ;;
  ret media_names.

(** The diffusion block; its presence is tested on the keyword in capitals. *)
Definition read_diffusion (f_lines : list string) (end_blocks : list nat)
  : M state unit :=
  update (fun self => self <| diffusion_flag := false |>) ;;
  if Scan.has "DIFFUSION" f_lines then
    update (fun self => self <| diffusion_flag := true |>) ;;
    let lin_diff := Scan.find_line "diffusion_constants" f_lines in
    lin_diff_end <- lift (Scan.next_end end_blocks lin_diff) ;;
    l <- lift (Seq.index f_lines (Z.of_nat lin_diff)) ;;
    t <- lift (Seq.index (Text.split (Text.strip l)) 1) ;;
    d <- lift (Num.pyfloat t) ;;
    update (fun self => self <| global_diff := Some d |>) ;;
    try_except
      (for_each (Seq.slice f_lines (S lin_diff) lin_diff_end) (fun line =>
         diff_spec <- lift (floats line) ;;
         i <- lift (Seq.index diff_spec 0) ;;
         self <- get_self ;;
         if Num.gtb i (Num.of_Z (Z.of_nat (length (media self)) - 1))
         then raise UnallocatedMetabolite
         else
           v <- lift (Seq.index diff_spec 1) ;;
           update (fun self =>
             self <| media := set_diff_c (media self) (Num.trunc i) v |>)))
      (report None None (Some msg_unallocated))
  else ret tt.

(** [[x for x in range(len(f_lines))
      if f_lines[x].strip().split()[0].upper() == 'MEDIA']] *)
Definition media_headers (f_lines : list string) : res (list nat) :=
  firsts <~ res_map (fun l => Seq.index (Text.split (Text.strip l)) 0) f_lines ;;
  Ok (Seq.positions (fun t => String.eqb (Text.upper t) "MEDIA") 0%nat firsts).

(** The local media block. *)
Definition read_local_media (f_lines : list string) (end_blocks : list nat)
  : M state unit :=
  update (fun self => self <| local_media_flag := false |>) ;;
  if existsb (fun l => Text.mem "MEDIA" (Text.split (Text.upper l))) f_lines then
    update (fun self => self <| local_media_flag := true |>) ;;
    hs <- lift (media_headers f_lines) ;;
    h <- lift (Seq.index hs 0) ;;
    let lin_media := S h in
    lin_media_end <- lift (Scan.next_end end_blocks lin_media) ;;
    try_except
      (read_local_rows (Seq.slice f_lines lin_media lin_media_end)
         local_media (fun d self => self <| local_media := d |>))
      (report (Some msg_media_corrupt) (Some msg_media_outofgrid) None)
  else ret tt.

(** The refresh block: global values on the header line, local rows below. *)
Definition read_refresh (f_lines : list string) (end_blocks : list nat)
    (media_names : list string) : M state unit :=
  update (fun self => self <| refresh_flag := false |>) ;;
  let upper_lines := map Text.upper f_lines in
  if Scan.has "REFRESH" upper_lines then
    update (fun self => self <| refresh_flag := true |>) ;;
    let lin_refr := Scan.find_line "REFRESH" upper_lines in
    lin_refr_end <- lift (Scan.next_end end_blocks lin_refr) ;;
    l <- lift (Seq.index f_lines (Z.of_nat lin_refr)) ;;
    g_refresh_ <- lift (res_map Num.pyfloat (Seq.from (Text.split l) 1)) ;;
    try_except
      (if negb (length g_refresh_ =? length media_names)%nat then raise CorruptLine
       else
         self <- get_self ;;
         tbl <- lift (assign_column (fun r v => r <| g_refresh := Some v |>)
                                    (media self) g_refresh_) ;;
         update (fun self => self <| media := tbl |>))
      (report (Some msg_global_refresh) None None) ;;
    (* .. local refresh values *)
    let lin_refr := S lin_refr in
    try_except
      (read_local_rows (Seq.slice f_lines lin_refr lin_refr_end)
         local_refresh (fun d self => self <| local_refresh := d |>))
      (report (Some msg_refresh_corrupt) (Some msg_refresh_outofgrid) None)
  else ret tt.

(** [np.array(rows, dtype=int)]: a rectangular array, and its shape. *)
Definition np_array (rows : list (list Z)) : res (list (list Z)) :=
  match rows with
  | [] => Ok []
  | r :: rs =>
      if forallb (fun r' => (length r' =? length r)%nat) rs then Ok rows
      else Raise (ValueError "setting an array element with a sequence.")
  end.

Definition shape (a : list (list Z)) : list Z :=
  match a with
  | [] => [0]
  | r :: _ => [Z.of_nat (length a); Z.of_nat (length r)]
  end.

Definition list_Z_eqb (a b : list Z) : bool :=
  (length a =? length b)%nat && forallb (fun xy => fst xy =? snd xy) (combine a b).

(** The array read from the lines of the substrate_layout block. *)
Definition region_map_data (f_lines : list string) (end_blocks : list nat)
  : res (list (list Z)) :=
  let upper_lines := map Text.upper f_lines in
  let lin_substrate := Scan.find_line "SUBSTRATE_LAYOUT" upper_lines in
  lin_substrate_end <~ Scan.next_end end_blocks lin_substrate ;;
  rows <~ res_map (fun line => res_map Num.pyint (Text.split line))
                  (Seq.slice f_lines (S lin_substrate) lin_substrate_end) ;;
  np_array rows.

(** The region map. *)
Definition read_substrate_layout (f_lines : list string) (end_blocks : list nat)
  : M state unit :=
  update (fun self => self <| region_flag := false |>) ;;
  let upper_lines := map Text.upper f_lines in
  try_except
    (if Scan.has "SUBSTRATE_LAYOUT" upper_lines then
       region_map_data <- lift (region_map_data f_lines end_blocks) ;;
       self <- get_self ;;
       if negb (list_Z_eqb (shape region_map_data) (grid self))
       then raise CorruptLine
       else
         update (fun self => self <| region_flag := true |>) ;;
         update (fun self => self <| region_map := Some region_map_data |>)
     else ret tt)
    (report (Some msg_region_layout) None None).

(** The per-region diffusivities. *)
Definition read_substrate_diffusivity (f_lines : list string)
    (end_blocks : list nat) : M state unit :=
  let upper_lines := map Text.upper f_lines in
  try_except
    (if Scan.has "SUBSTRATE_DIFFUSIVITY" upper_lines then
       let lin_substrate := Scan.find_line "SUBSTRATE_DIFFUSIVITY" upper_lines in
       lin_substrate_end <- lift (Scan.next_end end_blocks lin_substrate) ;;
       update (fun self => self <| region_parameters := [] |>) ;;
       let rows := Seq.slice f_lines (S lin_substrate) lin_substrate_end in
       for_each (combine (seq 1 (length rows)) rows) (fun rl =>
         let region := Z.of_nat (fst rl) in
         update (fun self =>
           self <| region_parameters :=
             Dict.set Z.eqb (region_parameters self) region (None, None) |>) ;;
         vs <- lift (floats (snd rl)) ;;
         update (fun self =>
           self <| region_parameters :=
             Dict.set Z.eqb (region_parameters self) region (Some vs, None) |>) ;;
         self <- get_self ;;
         if negb (length vs =? length (media self))%nat
         then raise CorruptLine else ret tt)
     else ret tt)
    (report (Some msg_region_diffusivity) None None).

(** The per-region frictions. *)
Definition read_substrate_friction (f_lines : list string)
    (end_blocks : list nat) : M state unit :=
  let upper_lines := map Text.upper f_lines in
  if Scan.has "SUBSTRATE_FRICTION" upper_lines then
    let lin_substrate := Scan.find_line "SUBSTRATE_FRICTION" upper_lines in
    lin_substrate_end <- lift (Scan.next_end end_blocks lin_substrate) ;;
    let rows := Seq.slice f_lines (S lin_substrate) lin_substrate_end in
    for_each (combine (seq 1 (length rows)) rows) (fun rl =>
      let region := Z.of_nat (fst rl) in
      t <- lift (Seq.index (Text.split (snd rl)) 0) ;;
      v <- lift (Num.pyfloat t) ;;
      self <- get_self ;;
      match Dict.lookup Z.eqb (region_parameters self) region with
      | Some (d, _) =>
          update (fun self =>
            self <| region_parameters :=
              Dict.set Z.eqb (region_parameters self) region (d, Some v) |>)
      | None => raise KeyError
      end)
  else ret tt.

(** The static block: global flag, value pairs on the header line, local
    rows below. *)
Definition read_static (f_lines : list string) (end_blocks : list nat)
  : M state unit :=
  update (fun self => self <| static_flag := false |>) ;;
  let upper_lines := map Text.upper f_lines in
  if Scan.has "STATIC" upper_lines then
    update (fun self => self <| static_flag := true |>) ;;
    let lin_static := Scan.find_line "STATIC" upper_lines in
    lin_stat_end <- lift (Scan.next_end end_blocks lin_static) ;;
    l <- lift (Seq.index f_lines (Z.of_nat lin_static)) ;;
    g_static_ <- lift (res_map Num.pyfloat (Seq.from (Text.split l) 1)) ;;
    try_except
      (self <- get_self ;;
       if negb (length g_static_ =? 2 * length (media self))%nat
       then raise CorruptLine
       else
         tbl <- lift (assign_column
                        (fun r v => r <| g_static := Some (Num.of_Z (Num.trunc v)) |>)
                        (media self) (Seq.evens g_static_)) ;;
         update (fun self => self <| media := tbl |>) ;;
         tbl <- lift (assign_column (fun r v => r <| g_static_val := Some v |>)
                                    tbl (Seq.odds g_static_)) ;;
         update (fun self => self <| media := tbl |>))
      (report (Some msg_global_static) None None) ;;
    (* .. local static values *)
    let lin_static := S lin_static in
    try_except
      (read_static_rows (Seq.slice f_lines lin_static lin_stat_end))
      (report (Some msg_static_corrupt) (Some msg_static_outofgrid) None)
  else ret tt.

Definition read_comets_layout (files : FS.fs) (input_obj : string)
  : M state unit :=
  (* .. load layout file *)
  file <- lift (FS.read_file files input_obj) ;;
  let f_lines := Scan.nonblank file in
  let end_blocks := Scan.ends f_lines in
  read_grid f_lines ;;
  temp_init_pop_for_models <- read_initial_pop f_lines end_blocks ;;
  read_models files f_lines temp_init_pop_for_models ;;
  media_names <- read_world_media f_lines end_blocks ;;
  read_diffusion f_lines end_blocks ;;
  read_local_media f_lines end_blocks ;;
  read_local_media f_lines end_blocks ;;
  read_refresh f_lines end_blocks media_names ;;
  read_substrate_layout f_lines end_blocks ;;
  read_substrate_diffusivity f_lines end_blocks ;;
  read_substrate_friction f_lines end_blocks ;;
  read_static f_lines end_blocks.

(** [layout(path)] *)
Definition of_path (files : FS.fs) (input_obj : string) : res layout * list string :=
  match Dict.lookup String.eqb files input_obj with
  | None => (Raise IOError, [])
  | Some _ =>
      match read_comets_layout files input_obj (mk_state init []) with
      | (Ok _, s) => (Ok (obj s), stdout s)
      | (Raise e, s) => (Raise e, stdout s)
      end
  end.

(** [layout(models)] *)
Definition of_models (ms : list Model.model) : res layout :=
  match update_models (init <| models := ms |>) with
  | (Ok _, l) => Ok l
  | (Raise e, _) => Raise e
  end.

(** *** Writing a layout file *)

(** [str(v)] for a cell that may hold NaN. *)
Definition str_cell (v : option num) : string :=
  match v with Some x => Num.str x | None => "nan" end.

(** [self.media.col[i]]: the cell of the row labelled [i]; with several
    such rows the expression is a Series, which cannot be written. *)
Definition at_label {A} (col : media_row -> A) (tbl : list media_row) (i : Z)
  : res A :=
  match filter (fun r => label r =? i) tbl with
  | [r] => Ok (col r)
  | [] => Raise KeyError
  | _ => Raise TypeError
  end.

Definition get_model_ids (self : layout) : list (option string) :=
  map Model.id (models self).

(** [s.split(" ")]: the fields between single spaces. *)
Fixpoint split_on_space (s : string) : list string :=
  match s with
  | "" => [""]
  | String c s' =>
      if Ascii.eqb c " " then "" :: split_on_space s'
      else match split_on_space s' with
           | t :: ts => String c t :: ts
           | [] => [String c ""]
           end
  end.

Definition write_models_and_world_grid_chunk (self : layout) (lyt : string)
    (working_dir : string) : M FS.fs unit :=
  ids <- lift (res_map (fun i => match i with
                                 | Some n => Ok n
                                 | None => Raise TypeError
                                 end) (get_model_ids self)) ;;
  let model_file_line := split_on_space (Text.join ".cmd " ids ^^ ".cmd") in
  let model_file_line := map (fun x => x ^^ " ") model_file_line in
  let model_file_line := working_dir ^^ Text.join working_dir model_file_line in
  let model_file_line := "model_file " ^^ model_file_line in
  FS.write lyt model_file_line ;;
  FS.write lyt "  model_world" ;;
  FS.write lyt ("    grid_size " ^^ Text.join " " (map Num.str_Z (grid self))).

Definition write_media_chunk (self : layout) (lyt : string) : M FS.fs unit :=
  FS.write lyt "    world_media" ;;
  for_each (seq 0 (length (media self))) (fun i =>
    name <- lift (at_label metabolite (media self) (Z.of_nat i)) ;;
    name <- lift (match name with Some n => Ok n | None => Raise TypeError end) ;;
    amount <- lift (at_label init_amount (media self) (Z.of_nat i)) ;;
    FS.write lyt ("      " ^^ name ^^ " " ^^ str_cell amount)) ;;
  FS.write lyt "    //".

Definition write_diffusion_chunk (self : layout) (lyt : string) : M FS.fs unit :=
  if diffusion_flag self then
    FS.write lyt ("    diffusion_constants "
                  ^^ match global_diff self with
                     | Some d => Num.str d
                     | None => "None"
                     end) ;;
    for_each (seq 0 (length (media self))) (fun i =>
      d <- lift (at_label diff_c (media self) (Z.of_nat i)) ;;
      match d with
      | Some v =>
          FS.write lyt ("      " ^^ Num.str_Z (Z.of_nat i) ^^ " " ^^ Num.str v)
      | None => ret tt
      end) ;;
    FS.write lyt "    //"
  else ret tt.

(** [[x for x in range(len(self.all_exchanged_mets))
      if self.all_exchanged_mets[x] == met][0]] *)
Definition get_met_number (self : layout) (met : string) : res nat :=
  match Seq.positions (fun n => String.eqb n met) 0%nat (all_exchanged_mets self) with
  | k :: _ => Ok k
  | [] => Raise IndexError
  end.

(** [l[k] = v] *)
Fixpoint list_set {A} (l : list A) (k : nat) (v : A) : res (list A) :=
  match l, k with
  | [], _ => Raise IndexError
  | _ :: l', O => Ok (v :: l')
  | a :: l', S k' => l'' <~ list_set l' k' v ;; Ok (a :: l'')
  end.

(** [met_amounts_in_order]: a zero per exchanged metabolite, then the
    amounts of the location put at the metabolites' numbers. *)
Fixpoint fill_amounts (self : layout) (inner : list (string * num))
    (row : list num) : res (list num) :=
  match inner with
  | [] => Ok row
  | (met, v) :: inner' =>
      k <~ get_met_number self met ;;
      row <~ list_set row k v ;;
      fill_amounts self inner' row
  end.

Definition met_amounts_in_order (self : layout) (inner : list (string * num))
  : res (list num) :=
  fill_amounts self inner (repeat (Num.of_Z 0) (length (all_exchanged_mets self))).

(** The same for the static block: a flag and a value per metabolite. *)
Fixpoint fill_static (self : layout) (inner : list (string * num))
    (row : list num) : res (list num) :=
  match inner with
  | [] => Ok row
  | (met, v) :: inner' =>
      k <~ get_met_number self met ;;
      row <~ list_set row (k * 2) (Num.of_Z 1) ;;
      k <~ get_met_number self met ;;
      row <~ list_set row (k * 2 + 1) v ;;
      fill_static self inner' row
  end.

Definition static_amounts_in_order (self : layout) (inner : list (string * num))
  : res (list num) :=
  fill_static self inner
    (repeat (Num.of_Z 0) (2 * length (all_exchanged_mets self))).

Definition write_local_media_chunk (self : layout) (lyt : string) : M FS.fs unit :=
  if local_media_flag self then
    FS.write lyt "    media" ;;
    for_each (local_media self) (fun entry =>
      let loc := fst entry in
      row <- lift (met_amounts_in_order self (snd entry)) ;;
      FS.write lyt ("      " ^^ Num.str_Z (fst loc) ^^ " " ^^ Num.str_Z (snd loc)
                    ^^ " " ^^ Text.join " " (map Num.str row))) ;;
    FS.write lyt "    //"
  else ret tt.

Definition write_refresh_chunk (self : layout) (lyt : string) : M FS.fs unit :=
  if refresh_flag self then
    FS.write lyt ("    media_refresh "
                  ^^ Text.join " " (map (fun r => str_cell (g_refresh r)) (media self))) ;;
    for_each (local_refresh self) (fun entry =>
      let loc := fst entry in
      row <- lift (met_amounts_in_order self (snd entry)) ;;
      FS.write lyt ("      " ^^ Text.join " "
                      (Num.str_Z (fst loc) :: Num.str_Z (snd loc) :: map Num.str row))) ;;
    FS.write lyt "    //"
  else ret tt.

Fixpoint interleave {A} (a b : list A) : list A :=
  match a, b with
  | x :: a', y :: b' => x :: y :: interleave a' b'
  | _, _ => []
  end.

Definition write_static_chunk (self : layout) (lyt : string) : M FS.fs unit :=
  if static_flag self then
    let g_static_line :=
      interleave (map (fun r => str_cell (g_static r)) (media self))
                 (map (fun r => str_cell (g_static_val r)) (media self)) in
    FS.write lyt ("    static_media " ^^ Text.join " " g_static_line) ;;
    for_each (local_static self) (fun entry =>
      let loc := fst entry in
      row <- lift (static_amounts_in_order self (snd entry)) ;;
      FS.write lyt ("      " ^^ Text.join " "
                      (Num.str_Z (fst loc) :: Num.str_Z (snd loc) :: map Num.str row))) ;;
    FS.write lyt "    //"
  else ret tt.

Definition write_barrier_chunk (self : layout) (lyt : string) : M FS.fs unit :=
  if barrier_flag self then
    FS.write lyt "    barrier" ;;
    for_each (barriers self) (fun barrier =>
      FS.write lyt ("      " ^^ Num.str_Z (fst barrier) ^^ " "
                    ^^ Num.str_Z (snd barrier))) ;;
    FS.write lyt "    //"
  else ret tt.

Definition write_regions_chunk (self : layout) (lyt : string) : M FS.fs unit :=
  if region_flag self then
    let keys := map fst (region_parameters self) in
    let keys := fold_right (fun k l =>
                  (fix ins (l : list Z) : list Z :=
                     match l with
                     | [] => [k]
                     | y :: l' => if k <=? y then k :: l else y :: ins l'
                     end) l) [] keys in
    FS.write lyt "    substrate_diffusivity" ;;
    for_each keys (fun key =>
      match Dict.lookup Z.eqb (region_parameters self) key with
      | Some (Some d, _) =>
          FS.write lyt ("    " ^^ Text.join "    " (map Num.str d))
      | Some (None, _) => raise TypeError
      | None => raise KeyError
      end) ;;
    FS.write lyt "    //" ;;
    FS.write lyt "    substrate_friction" ;;
    for_each keys (fun key =>
      match Dict.lookup Z.eqb (region_parameters self) key with
      | Some (_, fric) =>
          FS.write lyt ("    " ^^ match fric with
                                  | Some v => Num.str v
                                  | None => "None"
                                  end)
      | None => raise KeyError
      end) ;;
    FS.write lyt "    //" ;;
    FS.write lyt "    substrate_layout" ;;
    match region_map self with
    | None => raise AttributeError
    | Some a =>
        match shape a with
        | [_; _] =>
            for_each a (fun row =>
              FS.write lyt (String.concat "" (map (fun v => "    " ^^ Num.str_Z v) row)))
        | _ => raise IndexError
        end
    end ;;
    FS.write lyt "    //"
  else ret tt.

Definition write_periodic_media_chunk (self : layout) (lyt : string)
  : M FS.fs unit :=
  if periodic_media_flag self then
    FS.write lyt "    periodic_media global" ;;
    for_each (periodic_media self) (fun media =>
      FS.write lyt ("        " ^^ Text.join " "
                      [Num.str_Z (media_index media); waveform media;
                       Num.str (amplitude media); Num.str (period media);
                       Num.str (phase media); Num.str (offset media)])) ;;
    FS.write lyt "    //"
  else ret tt.

Definition write_initial_pop_chunk (self : layout) (lyt : string) : M FS.fs unit :=
  (if String.eqb (initial_pop_type self) "custom" then
     FS.write lyt "  initial_pop" ;;
     match initial_pop self with
     | Rows rows =>
         for_each rows (fun i =>
           x <- lift (Seq.index i 0) ;;
           y <- lift (Seq.index i 1) ;;
           FS.write lyt ("    " ^^ Num.str_Z (Num.trunc x) ^^ " "
                         ^^ Num.str_Z (Num.trunc y) ^^ " "
                         ^^ Text.join " " (map Num.str (Seq.from i 2))))
     | Params [] => ret tt
     | Params _ => raise TypeError
     end
   else
     match initial_pop self with
     | Params vs =>
         FS.write lyt ("  initial_pop " ^^ initial_pop_type self
                       ^^ Text.join " " (map Num.str vs))
     | Rows _ => raise NotModelled
     end) ;;
  FS.write lyt "  //" ;;
  FS.write lyt "//".

Definition negate (x : num) : num := Num.mk (negb (Num.neg x)) (Num.int_part x) (Num.frac x).

(** The lines of one external reaction: reactants, enzymes, products. *)
Definition ext_rxn_lines (self : layout) (i : nat) (rxn : ext_rxn)
  : res (list string * list string * list string) :=
  let number := Num.str_Z (Z.of_nat i + 1) in
  let position (name : string) : res Z :=
    match labels_of (media self) name with
    | l :: _ => Ok (l + 1)
    | [] => Raise IndexError
    end in
  coefs <~ res_map (fun k => Seq.index (stoichiometry rxn) (Z.of_nat k))
                   (seq 0 (length (metabolites rxn))) ;;
  let with_coef := combine (metabolites rxn) coefs in
  current_reactants <~
    res_map (fun mc => position (fst mc))
            (filter (fun mc => Num.ltb (snd mc) Num.zero) with_coef) ;;
  current_products <~
    res_map (fun mc => position (fst mc))
            (filter (fun mc => Num.gtb (snd mc) Num.zero) with_coef) ;;
  let current_react_stoich :=
    filter (fun k => Num.ltb k Num.zero) (stoichiometry rxn) in
  let current_prod_stoich :=
    filter (fun k => Num.gtb k Num.zero) (stoichiometry rxn) in
  reactants <~
    res_map (fun ik =>
               s <~ Seq.index current_react_stoich (Z.of_nat (fst ik)) ;;
               match fst ik with
               | O =>
                   rate <~ match K rxn, Km rxn with
                           | Some v, _ => Ok v
                           | None, Some v => Ok v
                           | None, None => Raise KeyError
                           end ;;
                   Ok ("        " ^^ number ^^ " " ^^ Num.str_Z (snd ik) ^^ " "
                       ^^ Num.str (negate s) ^^ " " ^^ Num.str rate)
               | _ =>
                   Ok ("        " ^^ number ^^ " " ^^ Num.str_Z (snd ik) ^^ " "
                       ^^ Num.str (negate s) ^^ " ")
               end)
            (combine (seq 0 (length current_reactants)) current_reactants) ;;
  products <~
    res_map (fun ik =>
               s <~ Seq.index current_prod_stoich (Z.of_nat (fst ik)) ;;
               Ok ("        " ^^ number ^^ " " ^^ Num.str_Z (snd ik) ^^ " "
                   ^^ Num.str s ^^ " "))
            (combine (seq 0 (length current_products)) current_products) ;;
  let enzymes :=
    match Kcat rxn with
    | Some v => ["        " ^^ number ^^ " " ^^ Num.str v]
    | None => []
    end in
  Ok (reactants, enzymes, products).

Definition write_ext_rxns_chunk (self : layout) (lyt : string) : M FS.fs unit :=
  if ext_rxns_flag self then
    all <- lift (res_map (fun ir => ext_rxn_lines self (fst ir) (snd ir))
                         (combine (seq 0 (length (reactions self))) (reactions self))) ;;
    FS.write lyt "reactions" ;;
    FS.write lyt "    reactants" ;;
    for_each (flat_map (fun l => fst (fst l)) all) (FS.write lyt) ;;
    FS.write lyt "    enzymes" ;;
    for_each (flat_map (fun l => snd (fst l)) all) (FS.write lyt) ;;
    FS.write lyt "    products" ;;
    for_each (flat_map (fun l => snd l) all) (FS.write lyt) ;;
    FS.write lyt "//"
  else ret tt.

Definition write_layout (self : layout) (working_dir : string) : M FS.fs unit :=
  let outfile := working_dir ^^ ".current_layout" in
  FS.create outfile ;;
  let lyt := outfile in
  write_models_and_world_grid_chunk self lyt working_dir ;;
  write_media_chunk self lyt ;;
  write_diffusion_chunk self lyt ;;
  write_local_media_chunk self lyt ;;
  write_refresh_chunk self lyt ;;
  write_static_chunk self lyt ;;
  write_barrier_chunk self lyt ;;
  write_regions_chunk self lyt ;;
  write_periodic_media_chunk self lyt ;;
  FS.write lyt "  //" ;;
  write_initial_pop_chunk self lyt ;;
  write_ext_rxns_chunk self lyt.

(** [write_model_files] and [write_necessary_files] *)
Definition write_model_files (self : layout) (working_dir : string) : M FS.fs unit :=
  for_each (models self) (fun m => Model.write_comets_model m (Some working_dir)).

Definition write_necessary_files (self : layout) (working_dir : string)
  : M FS.fs unit :=
  write_layout self working_dir ;;
  write_model_files self working_dir.

(** *** Media and local amounts set by hand *)

(** [self.media.loc[self.media['metabolite'] == met, col] = v] *)
Definition set_rows (met : string) (set : media_row -> media_row)
    (tbl : list media_row) : list media_row :=
  map (fun r => match metabolite r with
                | Some n => if String.eqb n met then set r else r
                | None => r
                end) tbl.

(** The row that the methods below append with [pd.concat]: as
    [ignore_index] is not given, it keeps the label 0 of its own frame. *)
Definition new_row (self : layout) (met : string) (amount : num) : media_row :=
  mk_media_row 0 (Some met) (Some amount)
               (Some (default_diff_c self)) (Some (default_g_static self))
               (Some (default_g_static_val self)) (Some (default_g_refresh self)).

Definition msg_not_taken_up (met : string) : string :=
  "Warning: The added metabolite (" ^^ met ^^ ") is not"
  ^^ "able to be taken up by any of the current models".

Definition set_specific_metabolite (met : string) (amount : num) : M state unit :=
  self <- get_self ;;
  if has_metabolite (media self) met then
    update (fun self =>
      self <| media := set_rows met (fun r => r <| init_amount := Some amount |>)
                                (media self) |>)
  else
    update (fun self => self <| media := media self ++ [new_row self met amount] |>) ;;
    print (msg_not_taken_up met).

Definition msg_not_exchangeable : string :=
  "met is not in the list of exchangeable mets".

(** The three methods that set an amount at a location: the check of the
    metabolite, the flag, then
    [if location not in list(d.keys()): d[location] = {}] and
    [d[location][met] = amount]. *)
Definition set_at_location
    (get_map : layout -> sparse) (set_map : sparse -> layout -> layout)
    (set_flag : layout -> layout)
    (met : string) (location : loc) (amount : num) : M layout unit :=
  self <- get ;;
  if negb (Text.mem met (all_exchanged_mets self))
  then raise (Exception msg_not_exchangeable)
  else
    modify set_flag ;;
    self <- get ;;
    (if negb (Dict.mem loc_eqb (get_map self) location)
     then modify (fun self => set_map (clear_at (get_map self) location) self)
     else ret tt) ;;
    self <- get ;;
    d <- lift (set_at (get_map self) location met amount) ;;
    modify (set_map d).

Definition set_specific_metabolite_at_location : string -> loc -> num -> M layout unit :=
  set_at_location local_media (fun d self => self <| local_media := d |>)
                  (fun self => self <| local_media_flag := true |>).

Definition set_specific_refresh_at_location : string -> loc -> num -> M layout unit :=
  set_at_location local_refresh (fun d self => self <| local_refresh := d |>)
                  (fun self => self <| refresh_flag := true |>).

Definition set_specific_static_at_location : string -> loc -> num -> M layout unit :=
  set_at_location local_static (fun d self => self <| local_static := d |>)
                  (fun self => self <| static_flag := true |>).

Definition msg_not_added (met : string) : string :=
  "the specified metabolite " ^^ met
  ^^ "is not able to be taken up, not added to media".

(** [set_specific_refresh] and [set_specific_static]: the assignments
    stand in a [try] whose bare [except] prints. *)
Definition set_specific_refresh (met : string) (amount : num) : M state unit :=
  try_except
    (update (fun self =>
       self <| media := set_rows met (fun r => r <| g_refresh := Some amount |>)
                                 (media self) |>) ;;
     update (fun self => self <| refresh_flag := true |>))
    (fun _ => Some (print (msg_not_added met))).

Definition set_specific_static (met : string) (amount : num) : M state unit :=
  try_except
    (update (fun self =>
       self <| media := set_rows met (fun r => r <| g_static := Some (Num.of_Z 1) |>)
                                 (media self) |>) ;;
     update (fun self =>
       self <| media := set_rows met (fun r => r <| g_static_val := Some amount |>)
                                 (media self) |>) ;;
     update (fun self => self <| static_flag := true |>))
    (fun _ => Some (print (msg_not_added met))).

Definition trace_metabolites : list string :=
  ["ca2_e"; "cl_e"; "cobalt2_e"; "cu2_e"; "fe2_e"; "fe3_e"; "h_e"; "k_e";
   "h2o_e"; "mg2_e"; "mn2_e"; "mobd_e"; "na1_e"; "ni2_e"; "nh4_e"; "o2_e";
   "pi_e"; "so4_e"; "zn2_e"].

(** [add_typical_trace_metabolites]; [reset_index(drop=True)] labels the
    rows by their positions. *)
Definition add_typical_trace_metabolites (amount : num) : M layout unit :=
  for_each trace_metabolites (fun met =>
    self <- get ;;
    if has_metabolite (media self) met then
      modify (fun self =>
        self <| media := set_rows met (fun r => r <| init_amount := Some amount |>)
                                  (media self) |>)
    else
      modify (fun self =>
        self <| media := media self ++ [new_row self met amount] |>)) ;;
  modify (fun self => self <| media := relabel (media self) |>).

End Layout.

(** * Sample files *)

Module Samples.

(** Three metabolites, two reactions of which the first is an exchange
    reaction, default bounds 0 and 1000 and one overridden reaction. *)
Definition model_file : list string :=
  ["SMATRIX  3  2";
   "    1   1   -1.0"; "    2   1   1.0"; "    3   2   -1.0"; "//";
   "BOUNDS 0 1000"; "    1   -10   10"; "//";
   "OBJECTIVE"; "    2"; "//";
   "METABOLITE_NAMES"; "    m1"; "    m2"; "    m3"; "//";
   "REACTION_NAMES"; "    r1"; "    r2"; "//";
   "EXCHANGE_REACTIONS"; " 1"; "//";
   "OBJECTIVE_STYLE"; "MAXIMIZE_OBJECTIVE_FLUX"; "//";
   "OPTIMIZER GUROBI"; "//"].

(** The same file with an ID repeated on the EXCHANGE_REACTIONS line. *)
Definition repeated_exchange_file : list string :=
  ["SMATRIX  3  2";
   "    1   1   -1.0"; "    2   1   1.0"; "    3   2   -1.0"; "//";
   "BOUNDS 0 1000"; "    1   -10   10"; "//";
   "OBJECTIVE"; "    2"; "//";
   "METABOLITE_NAMES"; "    m1"; "    m2"; "    m3"; "//";
   "REACTION_NAMES"; "    r1"; "    r2"; "//";
   "EXCHANGE_REACTIONS"; " 1 1 2"; "//";
   "OBJECTIVE_STYLE"; "MAXIMIZE_OBJECTIVE_FLUX"; "//";
   "OPTIMIZER GUROBI"; "//"].

(** Three reactions of which the first two are exchange reactions, for
    the metabolites o2_e and glc_e. *)
Definition two_exchange_model_file : list string :=
  ["SMATRIX  3  3";
   "    1   1   -1.0"; "    2   2   -1.0"; "    3   3   -1.0"; "//";
   "BOUNDS 0 1000"; "    1   -10   10"; "//";
   "OBJECTIVE"; "    3"; "//";
   "METABOLITE_NAMES"; "    o2_e"; "    glc_e"; "    m3"; "//";
   "REACTION_NAMES"; "    r1"; "    r2"; "    r3"; "//";
   "EXCHANGE_REACTIONS"; " 1 2"; "//";
   "OBJECTIVE_STYLE"; "MAXIMIZE_OBJECTIVE_FLUX"; "//";
   "OPTIMIZER GUROBI"; "//"].

(** A layout file for that model: the grid line, the world media, the
    given blocks, and one cell of biomass. *)
Definition layout_file (grid_line : string) (blocks : list string) : list string :=
  ["model_file m2.cmd"; "  model_world"; grid_line;
   "    world_media"; "      glc_e 1"; "      o2_e 2"; "    //"]
  ++ blocks
  ++ ["  //"; "  initial_pop"; "    0 0 1.0"; "  //"; "//"].

(** A local media row whose values are all zero. *)
Definition zero_row_file : list string :=
  layout_file "    grid_size 3 3" ["    media"; "      0 0 0 0"; "    //"].

(** A local media row outside the grid, one value short. *)
Definition short_row_file : list string :=
  layout_file "    grid_size 3 3" ["    media"; "      3 1 5"; "    //"].

(** A local media row outside the grid between two rows inside it. *)
Definition outside_row_file : list string :=
  layout_file "    grid_size 3 3"
    ["    media"; "      1 1 0 5"; "      3 1 0 5"; "      2 2 1 1"; "    //"].

(** A region map of two rows and two columns on a grid of three by
    three. *)
Definition small_region_file : list string :=
  layout_file "    grid_size 3 3"
    ["    substrate_layout"; "      1 1"; "      1 1"; "    //"].

(** A layout without models whose grid_size line gives one dimension. *)
Definition one_dimension_file : list string :=
  ["model_file"; "  model_world"; "    grid_size 3";
   "    world_media"; "      glc_e 1"; "      o2_e 2"; "    //";
   "  //"; "  initial_pop filled 1.0"; "  //"; "//"].

Definition files : FS.fs :=
  [("m.cmd", model_file); ("dup.cmd", repeated_exchange_file);
   ("m2.cmd", two_exchange_model_file);
   ("zero_row.txt", zero_row_file); ("short_row.txt", short_row_file);
   ("outside_row.txt", outside_row_file);
   ("small_region.txt", small_region_file);
   ("one_dimension.txt", one_dimension_file)].

(** The layout under construction when a file is read, and the state in
    which the rows of the media block of [outside_row_file] are read. *)
Definition fresh : Layout.state := Layout.mk_state Layout.init [].

Definition at_media_block : Layout.state :=
  let f_lines := Scan.nonblank outside_row_file in
  let run :=
    (Layout.read_grid f_lines ;;
     temp <- Layout.read_initial_pop f_lines (Scan.ends f_lines) ;;
     Layout.read_models files f_lines temp ;;
     Layout.read_world_media f_lines (Scan.ends f_lines) ;;
     Layout.read_diffusion f_lines (Scan.ends f_lines))%py in
  snd (run fresh).

(** The model of [model_file]. *)
Definition sample_model : Model.model :=
  match Model.of_path files "m.cmd" with
  | Ok m => m
  | Raise _ => Model.init
  end.

(** The sample model after [change_vmax], [change_hill],
    [add_noise_variance_parameter] and [add_convection_parameters]. *)
Definition flagged_model : Model.model :=
  sample_model
    <| Model.vmax_flag := true |> <| Model.hill_flag := true |>
    <| Model.noise_variance_flag := true |>
    <| Model.noise_variance := Some (Num.of_Z 2) |>
    <| Model.convection_flag := true |>
    <| Model.convection_parameters :=
         Some [("packedDensity", Num.of_Z 1); ("elasticModulus", Num.of_Z 2)] |>.

(** The sample model with default bounds 0 and 0 and every reaction at
    these bounds. *)
Definition closed_model : Model.model :=
  sample_model
    <| Model.default_bounds := [Num.of_Z 0; Num.of_Z 0] |>
    <| Model.reactions :=
         map (fun r => r <| Model.LB := Num.of_Z 0 |> <| Model.UB := Num.of_Z 0 |>)
             (Model.reactions sample_model) |>.

(** The sample model after [add_light]. *)
Definition lit_model : Model.model :=
  sample_model
    <| Model.light_flag := true |>
    <| Model.light := [("r1", Num.of_Z 1, Num.of_Z 2)] |>.

(** The model of [two_exchange_model_file], and the layout built from
    it: [layout([model])]. *)
Definition two_exchange_model : Model.model :=
  match Model.of_path files "m2.cmd" with
  | Ok m => m
  | Raise _ => Model.init
  end.

Definition sample_layout : Layout.layout :=
  match Layout.of_models [two_exchange_model] with
  | Ok l => l
  | Raise _ => Layout.init
  end.

(** The sample model after [add_neutral_drift_parameter(0.01)], and after
    [change_hill('r1', 2)]. *)
Definition drift_model : Model.model :=
  sample_model
    <| Model.neutral_drift_flag := true |>
    <| Model.neutralDriftSigma := Some (Model.float_lit 0 (D0 (D1 Nil))) |>.

Definition hill_model : Model.model :=
  Model.obj (snd (Model.change_hill "r1" (Num.of_Z 2)
                    (Model.mk_state sample_model []))).

(** A model file whose VMAX_VALUES section follows the line of the
    exchange reactions. *)
Definition kinetic_file : list string :=
  ["SMATRIX  3  2";
   "    1   1   -1.0"; "    2   1   1.0"; "    3   2   -1.0"; "//";
   "BOUNDS 0 1000"; "    1   -10   10"; "//";
   "OBJECTIVE"; "    2"; "//";
   "METABOLITE_NAMES"; "    m1"; "    m2"; "    m3"; "//";
   "REACTION_NAMES"; "    r1"; "    r2"; "//";
   "EXCHANGE_REACTIONS"; " 1 2";
   "VMAX_VALUES 10"; "    1   5.0"; "//";
   "OBJECTIVE_STYLE"; "MAXIMIZE_OBJECTIVE_FLUX"; "//";
   "OPTIMIZER GUROBI"; "//"].

(** A layout that has a media row for glc_e and is given the model of
    [two_exchange_model_file], before [update_models]. *)
Definition glucose_layout : Layout.layout :=
  Layout.init
    <| Layout.models := [two_exchange_model] |>
    <| Layout.media :=
         [Layout.mk_media_row 0 (Some "glc_e") (Some (Num.of_Z 5))
                              None None None None] |>.

(** The sample model after [change_vmax('r1', 3)]. *)
Definition vmax_model : Model.model :=
  Model.obj (snd (Model.change_vmax "r1" (Num.of_Z 3)
                    (Model.mk_state sample_model []))).

End Samples.

(** * Stated properties *)

(** The columns of a reaction row that the kinetic sections leave alone. *)
Definition same_core (r r' : Model.reaction) : Prop :=
  Model.REACTION_NAMES r = Model.REACTION_NAMES r' /\
  Model.ID r = Model.ID r' /\
  Model.LB r = Model.LB r' /\ Model.UB r = Model.UB r' /\
  Model.EXCH r = Model.EXCH r' /\ Model.EXCH_IND r = Model.EXCH_IND r'.

(** Two tables with the same rows up to those columns. *)
Definition same_rows (rs rs' : list Model.reaction) : Prop :=
  (forall r', In r' rs' -> exists r, In r rs /\ same_core r r') /\
  (forall r, In r rs -> exists r', In r' rs' /\ same_core r r').

(** The reactions table before the kinetic columns are merged in. *)
Definition base_reactions (rxn_ : list string)
    (bnds : num * num * list (num * num * num)) (exch : list Z)
  : list Model.reaction :=
  Model.mark_exchange exch
    (Model.merge_bounds rxn_ (fst (fst bnds)) (snd (fst bnds)) (snd bnds)).

(** Strictly before, in the lexicographic order of strings. *)
Definition str_lt (a b : string) : Prop := String.ltb a b = true.

(** The amount that a location's map holds for a metabolite, zero when it
    holds none. *)
Definition amount_of (inner : list (string * num)) (name : string) : num :=
  match Dict.lookup String.eqb inner name with
  | Some v => v
  | None => Num.of_Z 0
  end.

(** A table whose EXCH and EXCH_IND columns come from the list [exch]. *)
Definition marked (exch : list Z) (rs : list Model.reaction) : Prop :=
  forall r, In r rs ->
    Model.EXCH r = Model.mem (Model.ID r) exch /\
    Model.EXCH_IND r = Model.exch_ind exch (Model.ID r).

(** E, the number of exchange reactions of a table. *)
Definition exchange_count (rs : list Model.reaction) : Z :=
  Z.of_nat (length (filter Model.EXCH rs)).

(** The exchange-index bijection: on the reactions flagged as exchange,
    EXCH_IND is one-to-one and onto 1..E; it is 0 on the others. *)
Definition exchange_index_bijection (rs : list Model.reaction) : Prop :=
  (forall r, In r rs -> Model.EXCH r = true ->
             1 <= Model.EXCH_IND r <= exchange_count rs) /\
  (forall r r', In r rs -> In r' rs ->
                Model.EXCH r = true -> Model.EXCH r' = true ->
                Model.EXCH_IND r = Model.EXCH_IND r' -> r = r') /\
  (forall k, 1 <= k <= exchange_count rs ->
             exists r, In r rs /\ Model.EXCH r = true /\ Model.EXCH_IND r = k) /\
  (forall r, In r rs -> Model.EXCH r = false -> Model.EXCH_IND r = 0).

(** A property of the object, and a property of what was printed. *)
Definition on_obj (Q : Layout.layout -> Prop) : Layout.state -> Prop :=
  fun s => Q (Layout.obj s).
Definition on_out (Q : list string -> Prop) : Layout.state -> Prop :=
  fun s => Q (Layout.stdout s).

(** ** The sections of a model file *)

(** A section followed by its terminator line. *)
Definition terminated (sec : list string) : list string := sec ++ ["//"].

(** The first line of the section begins with the keyword. *)
Definition headed (kw : string) (sec : list string) : Prop :=
  exists rest body, sec = (kw ^^ rest) :: body.

Definition when (b : bool) (kws : list string) : list string :=
  if b then kws else [].

Definition parameter_keys (d : option (list (string * num))) : list string :=
  match d with Some items => map fst items | None => [] end.

(** The order of the sections of a model file as the format gives it. *)
Definition canonical_order (self : Model.model) : list string :=
  ["SMATRIX"; "BOUNDS"; "OBJECTIVE"; "METABOLITE_NAMES"; "REACTION_NAMES";
   "EXCHANGE_REACTIONS"]
  ++ when (Model.vmax_flag self) ["VMAX_VALUES"]
  ++ when (Model.km_flag self) ["KM_VALUES"]
  ++ when (Model.hill_flag self) ["HILL_VALUES"]
  ++ when (Model.light_flag self) ["LIGHT"]
  ++ when (negb (length (Model.signals self) =? 0)%nat) ["MET_REACTION_SIGNAL"]
  ++ when (Model.convection_flag self)
       (parameter_keys (Model.convection_parameters self))
  ++ when (Model.nonlinear_diffusion_flag self)
       (parameter_keys (Model.nonlinear_diffusion_parameters self))
  ++ when (Model.noise_variance_flag self) ["noiseVariance"]
  ++ when (Model.neutral_drift_flag self) ["neutralDrift"; "neutralDriftSigma"]
  ++ ["OBJECTIVE_STYLE"; "OPTIMIZER"].

(** The lines are sections under the keywords, each with its terminator. *)
Definition sections_of (kws : list string) (ls : list string) : Prop :=
  exists secs, ls = flat_map terminated secs /\ Forall2 headed kws secs.

(** What a statement that returns has put at the end of the file. *)
Definition emits {A} (f : string) (m : M FS.fs A) (P : list string -> Prop) : Prop :=
  forall fs a fs' old,
    m fs = (Ok a, fs') ->
    Dict.lookup String.eqb fs f = Some old ->
    exists ls, P ls /\ Dict.lookup String.eqb fs' f = Some (old ++ ls).

(** ** Written models read back *)

(** A run of characters that [split] returns as it is. *)
Definition is_token (s : string) : bool :=
  negb (String.eqb s "") && Text.all_char (fun c => negb (Text.is_space c)) s.

(** A decimal digit. *)
Definition is_digit (c : ascii) : bool :=
  Text.contains (String c "") "0123456789".

(** The characters of a written number. *)
Definition is_numeric (c : ascii) : bool :=
  Text.contains (String c "") "0123456789-.".

(** The characters of a name that is read back as it was written: no
    capital letter (the keywords have one), no slash, no blank, nothing
    that [to_csv] would quote. *)
Definition name_char (c : ascii) : bool :=
  let n := nat_of_ascii c in
  negb ((65 <=? n) && (n <=? 90))%nat && negb (Text.is_space c) &&
  negb (FS.line_break c) &&
  negb (Text.mem (String c "") ["/"; ","; Text.dquote]).

Definition plain_name (s : string) : bool :=
  negb (String.eqb s "") && Text.all_char name_char s &&
  Pandas.surely_text s && negb (Text.mem s Pandas.na_values).

(** The keywords of the optional sections that the reader looks for. *)
Definition optional_keywords : list string :=
  ["VMAX_VALUES"; "KM_VALUES"; "HILL_COEFFICIENTS"; "neutralDrift";
   "neutralDriftsigma"; "packedDensity"; "elasticModulus"; "frictionConstant";
   "convDiffConstant"; "convNonLinDiffZero"; "convNonlinDiffN";
   "convNonlinDiffExponent"; "convNonlinDiffHillN"; "convNonlinDiffHillK";
   "noiseVariance"].

(** No keyword of the list occurs in the line. *)
Definition quiet (kws : list string) (line : string) : bool :=
  forallb (fun kw => negb (Text.contains kw line)) kws.

(** A model with the required sections only, whose names are plain, whose
    reactions are numbered from 1 in the order of the table, whose
    exchange indices follow that order, and whose default bounds are
    written differently. *)
Record basic (self : Model.model) (ident : string) (d0 d1 : num) (obj : Z) : Prop := {
  basic_id : Model.id self = Some ident;
  basic_bounds : Model.default_bounds self = [d0; d1];
  basic_distinct : String.eqb (Num.str d0) (Num.str d1) = false;
  basic_ids :
    map Model.ID (Model.reactions self)
    = map Z.of_nat (seq 1 (length (Model.reactions self)));
  basic_names :
    Forall (fun r => plain_name (Model.REACTION_NAMES r) = true)
           (Model.reactions self);
  basic_mets : Forall (fun n => plain_name n = true) (Model.metabolites self);
  basic_exch :
    Forall (fun r =>
              Model.EXCH_IND r
              = Model.exch_ind
                  (map Model.ID (filter Model.EXCH (Model.reactions self)))
                  (Model.ID r))
           (Model.reactions self);
  basic_kinetic :
    Forall (fun r => Model.V_MAX r = None /\ Model.KM r = None /\ Model.HILL r = None)
           (Model.reactions self);
  basic_objective : Model.objective self = Some obj;
  basic_flags :
    Model.vmax_flag self = false /\ Model.km_flag self = false /\
    Model.hill_flag self = false /\ Model.light_flag self = false /\
    Model.convection_flag self = false /\
    Model.nonlinear_diffusion_flag self = false /\
    Model.noise_variance_flag self = false /\
    Model.neutral_drift_flag self = false /\ Model.signals self = [];
  basic_style :
    Model.obj_style self <> "" /\
    Text.strip (Model.obj_style self) = Model.obj_style self /\
    Text.all_char (fun c => negb (FS.line_break c)) (Model.obj_style self) = true /\
    quiet ("OPTIMIZER" :: optional_keywords) (Model.obj_style self) = true;
  basic_optimizer :
    is_token (Model.optimizer self) = true /\
    Text.all_char (fun c => negb (FS.line_break c)) (Model.optimizer self) = true /\
    quiet optional_keywords ("OPTIMIZER " ^^ Model.optimizer self) = true
}.

(** A section with its terminator. *)
Definition block (hdr : string) (body : list string) : list string :=
  hdr :: body ++ ["//"].

(** The rows of the BOUNDS section. *)
Definition bound_rows (d0 d1 : num) (rs : list Model.reaction) : list Model.reaction :=
  filter (fun r => negb (Num.eqb (Model.LB r) d0) || negb (Num.eqb (Model.UB r) d1)) rs.

(** The lines of the file of a basic model. *)
Definition basic_lines (self : Model.model) (d0 d1 : num) (obj : Z) : list string :=
  block ("SMATRIX  " ^^ Num.str_Z (Z.of_nat (length (Model.metabolites self)))
         ^^ "  " ^^ Num.str_Z (Z.of_nat (length (Model.reactions self))))
        (map (fun r => Model.row_text [Num.str_Z (Model.metabolite r);
                                       Num.str_Z (Model.rxn r);
                                       Num.str (Model.s_coef r)])
             (Model.smat self))
  ++ block ("BOUNDS " ^^ Num.str d0 ^^ " " ^^ Num.str d1)
        (map (fun r => Model.row_text [Num.str_Z (Model.ID r); Num.str (Model.LB r);
                                       Num.str (Model.UB r)])
             (bound_rows d0 d1 (Model.reactions self)))
  ++ block "OBJECTIVE" ["    " ^^ Num.str_Z obj]
  ++ block "METABOLITE_NAMES" (map (fun n => "    " ^^ n) (Model.metabolites self))
  ++ block "REACTION_NAMES"
        (map (fun r => "    " ^^ Model.REACTION_NAMES r) (Model.reactions self))
  ++ block "EXCHANGE_REACTIONS"
        [" " ^^ Text.join " " (map (fun r => Num.str_Z (Model.ID r))
                                   (filter Model.EXCH (Model.reactions self)))]
  ++ block "OBJECTIVE_STYLE" [Model.obj_style self]
  ++ block ("OPTIMIZER " ^^ Model.optimizer self) [].

(** The statement writes the lines at the end of the file, and returns. *)
Definition appends (f : string) (m : M FS.fs unit) (ls : list string) : Prop :=
  forall fs old,
    Dict.lookup String.eqb fs f = Some old ->
    exists fs', m fs = (Ok tt, fs') /\
                Dict.lookup String.eqb fs' f = Some (old ++ ls).

(** Two numbers that compare equal, and two tables that agree up to
    that on the bounds. *)
Definition same_reaction (r r' : Model.reaction) : Prop :=
  Model.REACTION_NAMES r = Model.REACTION_NAMES r' /\
  Model.ID r = Model.ID r' /\
  Num.eqb (Model.LB r) (Model.LB r') = true /\
  Num.eqb (Model.UB r) (Model.UB r') = true /\
  Model.EXCH r = Model.EXCH r' /\ Model.EXCH_IND r = Model.EXCH_IND r' /\
  Model.V_MAX r = Model.V_MAX r' /\ Model.KM r = Model.KM r' /\
  Model.HILL r = Model.HILL r'.

(** The characters of a line of numbers, and of a line with a name. *)
Definition row_char (c : ascii) : bool := is_numeric c || Ascii.eqb c " ".
Definition name_row_char (c : ascii) : bool := name_char c || Ascii.eqb c " ".

(** The keyword has a character that lines of the class do not have, and
    it is not in the terminator. *)
Definition foreign (cls : ascii -> bool) (kw : string) : bool :=
  negb (Text.all_char cls kw) && negb (Text.contains kw "//").

(** The characters of the header lines that carry numbers. *)
Definition smatrix_char (c : ascii) : bool :=
  row_char c || Text.contains (String c "") "SMATRIX".
Definition bounds_char (c : ascii) : bool :=
  row_char c || Text.contains (String c "") "BOUNDS".

(** The bounds that the reader gives to a reaction of the written
    table. *)
Definition bounds_read_back (d0 d1 : num) (r : Model.reaction) : Model.reaction :=
  let differs := negb (Num.eqb (Model.LB r) d0) || negb (Num.eqb (Model.UB r) d1) in
  Model.mk_reaction (Model.REACTION_NAMES r) (Model.ID r)
    (if differs then Model.LB r else d0) (if differs then Model.UB r else d1)
    false 0 None None None.

(** ** The media table *)

(** The row that [add_new_mets_to_media] adds for a metabolite. *)
Definition zero_row (self : Layout.layout) (met : string) : Layout.media_row :=
  Layout.mk_media_row 0 (Some met) (Some (Num.of_Z 0))
    (Some (Layout.default_diff_c self)) (Some (Layout.default_g_static self))
    (Some (Layout.default_g_static_val self))
    (Some (Layout.default_g_refresh self)).

(** The metabolites of a list for which the table has no row. *)
Definition missing (media : list Layout.media_row) (mets : list string)
  : list string :=
  filter (fun met => negb (Layout.has_metabolite media met)) mets.

(** The table once rows have been added for the metabolites [added];
    adding a row labels all rows by their positions. *)
Definition media_with (self : Layout.layout) (added : list string)
  : list Layout.media_row :=
  match added with
  | [] => Layout.media self
  | _ => Layout.relabel (Layout.media self ++ map (zero_row self) added)
  end.

(** ** The initial population *)

(** A row of the initial population of a layout of [n] models: the
    coordinates, then one amount per model, all zero but one. *)
Definition pop_row (n : nat) (line : list num) : Prop :=
  exists (i : nat) (x y a : num),
    (i < n)%nat /\
    line = [x; y] ++ repeat (Num.of_Z 0) i ++ [a]
           ++ repeat (Num.of_Z 0) (n - i - 1).

(** ** Local amounts *)

(** The amount that a map of local amounts holds at a location for a
    metabolite, if it holds one. *)
Definition local_amount (d : Layout.sparse) (l : loc) (met : string)
  : option num :=
  match Dict.lookup loc_eqb d l with
  | Some inner => Dict.lookup String.eqb inner met
  | None => None
  end.

(** Every map of local amounts has distinct keys, all of them exchanged
    metabolites. *)
Definition well_keyed (mets : list string) (d : Layout.sparse) : Prop :=
  forall l inner,
    Dict.lookup loc_eqb d l = Some inner ->
    NoDup (map fst inner) /\ forall n, In n (map fst inner) -> In n mets.

(** The media table has a row for the metabolite, and each of its rows
    for the metabolite holds the amount. *)
Definition holds (media : list Layout.media_row) (met : string) (amount : num)
  : Prop :=
  Layout.has_metabolite media met = true /\
  Forall (fun r => Layout.metabolite r = Some met ->
                   Layout.init_amount r = Some amount) media.

(** The rows of the table for other metabolites than [met]. *)
Definition rows_beside (met : string) (media : list Layout.media_row)
  : list Layout.media_row :=
  filter (fun r => match Layout.metabolite r with
                   | Some n => negb (String.eqb n met)
                   | None => true
                   end) media.

(** The rows are labelled by their positions. *)
Definition labelled_by_position (media : list Layout.media_row) : Prop :=
  map Layout.label media = map Z.of_nat (seq 0 (length media)).

(** The line of the world_media block for a row. *)
Definition media_line (r : Layout.media_row) : string :=
  "      " ^^ match Layout.metabolite r with Some n => n | None => "" end
  ^^ " " ^^ Layout.str_cell (Layout.init_amount r).

(** ** The required sections of a written model file *)

(** The lines of the six sections that every written model file begins
    with, for the default bounds [d0] and [d1]. *)
Definition required_lines (self : Model.model) (d0 d1 : num) : list string :=
  block ("SMATRIX  " ^^ Num.str_Z (Z.of_nat (length (Model.metabolites self)))
         ^^ "  " ^^ Num.str_Z (Z.of_nat (length (Model.reactions self))))
        (map (fun r => Model.row_text [Num.str_Z (Model.metabolite r);
                                       Num.str_Z (Model.rxn r);
                                       Num.str (Model.s_coef r)])
             (Model.smat self))
  ++ block ("BOUNDS " ^^ Num.str d0 ^^ " " ^^ Num.str d1)
        (map (fun r => Model.row_text [Num.str_Z (Model.ID r); Num.str (Model.LB r);
                                       Num.str (Model.UB r)])
             (bound_rows d0 d1 (Model.reactions self)))
  ++ block "OBJECTIVE" ["    " ^^ Model.str_objective (Model.objective self)]
  ++ block "METABOLITE_NAMES" (map (fun n => "    " ^^ n) (Model.metabolites self))
  ++ block "REACTION_NAMES"
        (map (fun r => "    " ^^ Model.REACTION_NAMES r) (Model.reactions self))
  ++ block "EXCHANGE_REACTIONS"
        [" " ^^ Text.join " " (map (fun r => Num.str_Z (Model.ID r))
                                   (filter Model.EXCH (Model.reactions self)))].

(** No name of a metabolite or of a reaction contains the keyword. *)
Definition names_without (kw : string) (self : Model.model) : Prop :=
  Forall (fun n => Text.contains kw n = false) (Model.metabolites self) /\
  Forall (fun r => Text.contains kw (Model.REACTION_NAMES r) = false)
         (Model.reactions self).

(** ** The first line of a layout file *)

(** The paths on the first line of a written layout file: the file of
    each model, or the one path [working_dir + ".cmd"] when the layout has
    no model. *)
Definition model_paths (working_dir : string) (ids : list string) : list string :=
  map (fun i => working_dir ^^ i ^^ ".cmd")
      (match ids with [] => [""] | _ => ids end).

Definition model_file_line (working_dir : string) (ids : list string) : string :=
  "model_file "
  ^^ String.concat "" (map (fun p => p ^^ " ") (model_paths working_dir ids)).

(** * Properties of the codec *)

(** ** Outcomes of method bodies *)

Lemma bind_Ok_inv {S A B} (m : M S A) (k : A -> M S B) (s s' : S) (b : B) :
  bind m k s = (Ok b, s') ->
  exists a s1, m s = (Ok a, s1) /\ k a s1 = (Ok b, s').
Proof.
  unfold bind. destruct (m s) as [[a | e] s1]; intros H.
  - exists a, s1. split; [reflexivity | exact H].
  - discriminate H.
Qed.

Lemma bind_Ok {S A B} (m : M S A) (k : A -> M S B) (s s1 : S) (a : A) :
  m s = (Ok a, s1) -> bind m k s = k a s1.
Proof. intros H. unfold bind. rewrite H. reflexivity. Qed.

Lemma bind_Raise {S A B} (m : M S A) (k : A -> M S B) (s s1 : S) (e : exn) :
  m s = (Raise e, s1) -> bind m k s = (Raise e, s1).
Proof. intros H. unfold bind. rewrite H. reflexivity. Qed.

Lemma lift_Ok_inv {S A} (r : res A) (s s' : S) (a : A) :
  lift r s = (Ok a, s') -> r = Ok a /\ s' = s.
Proof. unfold lift. intros H. inversion H. split; reflexivity. Qed.

Lemma modify_inv {S} (f : S -> S) (s s' : S) (r : res unit) :
  modify f s = (r, s') -> r = Ok tt /\ s' = f s.
Proof. unfold modify. intros H. inversion H. split; reflexivity. Qed.

Lemma ret_inv {S A} (a : A) (s s' : S) (r : res A) :
  ret a s = (r, s') -> r = Ok a /\ s' = s.
Proof. unfold ret. intros H. inversion H. split; reflexivity. Qed.

Lemma get_inv {S} (s s' : S) (r : res S) :
  get s = (r, s') -> r = Ok s /\ s' = s.
Proof. unfold get. intros H. inversion H. split; reflexivity. Qed.

Lemma res_bind_Ok_inv {A B} (r : res A) (k : A -> res B) (b : B) :
  res_bind r k = Ok b -> exists a, r = Ok a /\ k a = Ok b.
Proof.
  destruct r as [a | e]; simpl; intros H.
  - exists a. split; [reflexivity | exact H].
  - discriminate H.
Qed.

(** Stepping backwards through a body that returned. *)
Ltac minv H :=
  repeat match type of H with
  | bind _ _ _ = (Ok _, _) =>
      let a := fresh "a" in
      let s := fresh "s" in
      let H1 := fresh "Hstep" in
      apply bind_Ok_inv in H; destruct H as (a & s & H1 & H);
      try (apply lift_Ok_inv in H1; destruct H1 as [H1 ?]; subst s);
      try (apply modify_inv in H1; destruct H1 as [_ ?]; subst s);
      try (apply get_inv in H1; destruct H1 as [H1 ?]; subst s;
           injection H1 as H1; subst a)
  end.

(** ** Membership tests *)

Lemma mem_In (x : string) (l : list string) : Text.mem x l = true <-> In x l.
Proof.
  induction l as [| y l IH]; simpl.
  - split; [discriminate | tauto].
  - rewrite orb_true_iff, IH, String.eqb_eq. split; intros [H | H]; auto.
Qed.

Lemma mem_false_In (x : string) (l : list string) :
  Text.mem x l = false <-> ~ In x l.
Proof.
  rewrite <- mem_In. destruct (Text.mem x l); split; intros H; congruence.
Qed.

(** ** Periodic media *)

Lemma labels_of_nil (media : list Layout.media_row) (met : string) :
  Layout.labels_of media met = [] <->
  ~ In (Some met) (map Layout.metabolite media).
Proof.
  unfold Layout.labels_of. induction media as [| r media IH]; simpl.
  - tauto.
  - destruct (Layout.metabolite r) as [n |] eqn:Hn.
    + destruct (String.eqb_spec n met) as [-> | Hne]; simpl.
      * split; [discriminate | intros H; exfalso; apply H; left; reflexivity].
      * rewrite IH. split.
        -- intros H [Heq | Hin]; [congruence | auto].
        -- intros H Hin. apply H. right. exact Hin.
    + rewrite IH. split.
      * intros H [Heq | Hin]; [discriminate | auto].
      * intros H Hin. apply H. right. exact Hin.
Qed.

(** C10.  [set_global_periodic_media] raises [ValueError] when the
    metabolite is not in the media table, and raises [ValueError] when the
    function is not one of the five waveforms; in both cases the layout is
    left as it was.  Otherwise it returns, with exactly one forcing term
    appended to [periodic_media] (for the index label of the metabolite's
    first media row), the periodic-media flag set and nothing else changed. *)
Theorem set_global_periodic_media_spec
    (self : Layout.layout) (met function : string)
    (amplitude period phase offset : num) :
  let r := Layout.set_global_periodic_media met function
             amplitude period phase offset self in
  (~ In (Some met) (map Layout.metabolite (Layout.media self)) ->
   exists msg, r = (Raise (ValueError msg), self))
  /\ (~ In function Layout.waveforms ->
      exists msg, r = (Raise (ValueError msg), self))
  /\ (In (Some met) (map Layout.metabolite (Layout.media self)) ->
      In function Layout.waveforms ->
      exists i rest,
        Layout.labels_of (Layout.media self) met = i :: rest /\
        r = (Ok tt,
             self <| Layout.periodic_media :=
                       Layout.periodic_media self
                         ++ [Layout.mk_periodic i function amplitude period
                                                phase offset] |>
                  <| Layout.periodic_media_flag := true |>)).
Proof.
  intros r. subst r. unfold Layout.set_global_periodic_media.
  unfold bind, get, modify, raise. cbv beta iota.
  destruct (Layout.labels_of (Layout.media self) met) as [| i rest] eqn:Hl.
  - split; [| split].
    + intros _. eexists. reflexivity.
    + intros _. eexists. reflexivity.
    + intros Hin _. apply labels_of_nil in Hl. contradiction.
  - destruct (Text.mem function Layout.waveforms) eqn:Hf; cbn [negb].
    + split; [| split].
      * intros Hnot. exfalso.
        assert (Hnil : Layout.labels_of (Layout.media self) met = [])
          by (apply labels_of_nil; exact Hnot).
        congruence.
      * intros Hnot. apply mem_In in Hf. contradiction.
      * intros _ _. exists i, rest. split; reflexivity.
    + split; [| split].
      * intros _. eexists. reflexivity.
      * intros _. eexists. reflexivity.
      * intros _ Hin. apply mem_In in Hin. congruence.
Qed.

(** ** Frame conditions *)

(** [m] keeps [P] true of the object, however it ends. *)
Definition preserves {S A} (P : S -> Prop) (m : M S A) : Prop :=
  forall s r s', m s = (r, s') -> P s -> P s'.

Lemma preserves_ret {S A} (P : S -> Prop) (a : A) : preserves P (ret a).
Proof. intros s r s' H. inversion H. auto. Qed.

Lemma preserves_raise {S A} (P : S -> Prop) (e : exn) :
  preserves P (@raise S A e).
Proof. intros s r s' H. inversion H. auto. Qed.

Lemma preserves_lift {S A} (P : S -> Prop) (x : res A) : preserves P (lift x).
Proof. intros s r s' H. inversion H. auto. Qed.

Lemma preserves_get {S} (P : S -> Prop) : preserves P (@get S).
Proof. intros s r s' H. inversion H. auto. Qed.

Lemma preserves_modify {S} (P : S -> Prop) (f : S -> S) :
  (forall s, P s -> P (f s)) -> preserves P (modify f).
Proof. intros Hf s r s' H. inversion H. auto. Qed.

Lemma preserves_bind {S A B} (P : S -> Prop) (m : M S A) (k : A -> M S B) :
  preserves P m -> (forall a, preserves P (k a)) -> preserves P (bind m k).
Proof.
  intros Hm Hk s r s'. unfold bind.
  destruct (m s) as [[a | e] s1] eqn:E; intros H HP.
  - eapply Hk; [exact H |]. eapply Hm; eauto.
  - inversion H. subst. eapply Hm; eauto.
Qed.

Lemma preserves_for_each {S X} (P : S -> Prop) (xs : list X) (body : X -> M S unit) :
  (forall x, preserves P (body x)) -> preserves P (for_each xs body).
Proof.
  intros Hb. induction xs as [| x xs IH]; simpl.
  - apply preserves_ret.
  - apply preserves_bind; [apply Hb | intros _; exact IH].
Qed.

Lemma preserves_try_except {S} (P : S -> Prop) (body : M S unit)
    (handler : exn -> option (M S unit)) :
  preserves P body ->
  (forall e h, handler e = Some h -> preserves P h) ->
  preserves P (try_except body handler).
Proof.
  intros Hb Hh s r s'. unfold try_except.
  destruct (body s) as [[a | e] s1] eqn:E; intros H HP.
  - inversion H. subst. eapply Hb; eauto.
  - destruct (handler e) as [h |] eqn:Eh.
    + eapply Hh; [exact Eh | exact H |]. eapply Hb; eauto.
    + inversion H. subst. eapply Hb; eauto.
Qed.

Lemma preserves_if {S A} (P : S -> Prop) (b : bool) (m1 m2 : M S A) :
  preserves P m1 -> preserves P m2 -> preserves P (if b then m1 else m2).
Proof. destruct b; auto. Qed.

Lemma preserves_on_self {A} (P : Layout.state -> Prop) (Q : Layout.layout -> Prop)
    (m : M Layout.layout A) :
  (forall s, P s -> Q (Layout.obj s)) ->
  (forall s l, P s -> Q l -> P (s <| Layout.obj := l |>)) ->
  preserves Q m -> preserves P (Layout.on_self m).
Proof.
  intros HPQ HQP Hm s r s'. unfold Layout.on_self.
  destruct (m (Layout.obj s)) as [r1 l] eqn:E. intros H HP.
  inversion H. subst. apply HQP; [exact HP |].
  eapply Hm; [exact E |]. eapply HPQ; eauto.
Qed.

Lemma preserves_print (P : Layout.state -> Prop) (msg : string) :
  (forall s out, P s -> P (s <| Layout.stdout := out |>)) ->
  preserves P (Layout.print msg).
Proof. intros H. apply preserves_modify. intros s HP. apply H. exact HP. Qed.

Create HintDb frame.
#[export] Hint Resolve preserves_ret preserves_raise preserves_lift preserves_get
  preserves_print : frame.

(** Decompose a body into its statements; what is left are the field
    updates, each to be shown harmless. *)
Ltac frame_step :=
  match goal with
  | |- preserves _ (bind _ _) => apply preserves_bind; [| intros ?]
  | |- preserves _ (ret _) => apply preserves_ret
  | |- preserves _ (raise _) => apply preserves_raise
  | |- preserves _ (lift _) => apply preserves_lift
  | |- preserves _ get => apply preserves_get
  | |- preserves _ (modify _) => apply preserves_modify
  | |- preserves _ (for_each _ _) => apply preserves_for_each; intros ?
  | |- preserves _ (if _ then _ else _) => apply preserves_if
  | |- preserves _ (match ?x with _ => _ end) => destruct x
  | |- preserves _ (let (_, _) := ?x in _) => destruct x
  end.

Ltac frame := repeat frame_step.

(** For updates of fields that [P] does not mention. *)
Ltac untouched :=
  let s := fresh "s" in
  let HP := fresh "HP" in
  intros s HP; exact HP.

(** ** What a successful read of a model file has parsed *)

Lemma same_core_refl r : same_core r r.
Proof. repeat split. Qed.

Lemma same_core_trans r1 r2 r3 : same_core r1 r2 -> same_core r2 r3 -> same_core r1 r3.
Proof. unfold same_core. intuition congruence. Qed.

Lemma same_rows_refl rs : same_rows rs rs.
Proof. split; intros r H; exists r; split; auto using same_core_refl. Qed.

Lemma same_rows_trans a b c : same_rows a b -> same_rows b c -> same_rows a c.
Proof.
  intros [H1 H2] [H3 H4]. split.
  - intros r' Hr'. destruct (H3 _ Hr') as (r & Hr & Hc).
    destruct (H1 _ Hr) as (r0 & Hr0 & Hc0). exists r0. eauto using same_core_trans.
  - intros r Hr. destruct (H2 _ Hr) as (r1 & Hr1 & Hc1).
    destruct (H4 _ Hr1) as (r2 & Hr2 & Hc2). exists r2. eauto using same_core_trans.
Qed.

Lemma merge_kinetic_same_rows set rs vals :
  (forall r v, same_core r (set r v)) ->
  same_rows rs (Model.merge_kinetic set rs vals).
Proof.
  intros Hset. unfold Model.merge_kinetic, Model.merge_left. split.
  - intros r' Hr'. apply in_flat_map in Hr'. destruct Hr' as (r & Hr & Hin).
    exists r. split; [exact Hr |].
    destruct (filter _ vals) as [| b bs].
    + destruct Hin as [<- | []]. apply Hset.
    + apply in_map_iff in Hin. destruct Hin as (b' & <- & _). apply Hset.
  - intros r Hr.
    destruct (filter (fun b : num * num => Num.eqb (Num.of_Z (Model.EXCH_IND r)) (fst b)) vals) as [| b bs] eqn:E.
    + exists (set r None). split; [| apply Hset].
      apply in_flat_map. exists r. split; [exact Hr |]. rewrite E. left. reflexivity.
    + exists (set r (option_map snd (Some b))). split; [| apply Hset].
      apply in_flat_map. exists r. split; [exact Hr |]. rewrite E.
      apply in_map_iff. exists b. split; [reflexivity | left; reflexivity].
Qed.

Lemma map_same_rows set rs :
  (forall r, same_core r (set r)) -> same_rows rs (map set rs).
Proof.
  intros Hset. split.
  - intros r' Hr'. apply in_map_iff in Hr'. destruct Hr' as (r & <- & Hr). eauto.
  - intros r Hr. exists (set r). split; [apply in_map; exact Hr | apply Hset].
Qed.

Lemma read_kinetic_section_same_rows kw L sf sd sc rs s rs' s' :
  (forall r v, same_core r (sc r v)) ->
  Model.read_kinetic_section kw L sf sd sc rs s = (Ok rs', s') ->
  same_rows rs rs'.
Proof.
  intros Hsc H. unfold Model.read_kinetic_section in H.
  destruct (Scan.has kw L).
  - minv H. apply ret_inv in H. destruct H as [H _]. injection H as H. subst rs'.
    apply merge_kinetic_same_rows. exact Hsc.
  - apply ret_inv in H. destruct H as [H _]. injection H as H. subst rs'.
    apply map_same_rows. intros r. apply Hsc.
Qed.

Lemma read_kinetic_section_preserves (P : Model.model -> Prop) kw L sf sd sc rs :
  (forall s, P s -> P (sf s)) -> (forall d s, P s -> P (sd d s)) ->
  preserves P (Model.read_kinetic_section kw L sf sd sc rs).
Proof.
  intros Hf Hd. unfold Model.read_kinetic_section. frame; auto.
Qed.

Lemma read_parameter_preserves (P : Model.model -> Prop) parm L attr sa sf d :
  (forall s, P s -> P (sf s)) -> (forall x s, P s -> P (sa x s)) ->
  preserves P (Model.read_parameter parm L attr sa sf d).
Proof.
  intros Hf Ha. unfold Model.read_parameter. frame; auto.
Qed.



Tactic Notation "mbind" hyp(H) "as" ident(x) ident(s) ident(Hx) :=
  apply bind_Ok_inv in H; destruct H as (x & s & Hx & H).

Tactic Notation "mlift" hyp(H) "as" ident(x) ident(Hx) :=
  let s := fresh "s" in
  mbind H as x s Hx;
  apply lift_Ok_inv in Hx; destruct Hx as [Hx ?]; subst s.

Ltac mmodify H :=
  let x := fresh "u" in
  let s := fresh "s" in
  let Hx := fresh "Hu" in
  mbind H as x s Hx;
  apply modify_inv in Hx; destruct Hx as [_ ?]; subst s; clear x.

Lemma read_comets_model_inv files path m0 m :
  Model.read_comets_model files path m0 = (Ok tt, m) ->
  exists file smat_lines rxn_lines bnds_lines mets_lines rxn_ bnds exch obj,
    FS.read_file files path = Ok file /\
    Scan.section "SMATRIX" (Scan.nonblank file) = Ok smat_lines /\
    Model.read_smat smat_lines = Ok (Model.smat m) /\
    Scan.section "REACTION_NAMES" (Scan.nonblank file) = Ok rxn_lines /\
    Model.read_names "REACTION_NAMES" rxn_lines = Ok rxn_ /\
    Scan.section "BOUNDS" (Scan.nonblank file) = Ok bnds_lines /\
    Model.read_bounds bnds_lines = Ok bnds /\
    Scan.section "METABOLITE_NAMES" (Scan.nonblank file) = Ok mets_lines /\
    Model.read_names "METABOLITE_NAMES" mets_lines = Ok (Model.metabolites m) /\
    Model.exchange_ids (Scan.nonblank file) = Ok exch /\
    Model.objective_id (Scan.nonblank file) = Ok obj /\
    Model.objective m = Some obj /\
    Scan.has "neutralDrift" (Scan.nonblank file) = false /\
    same_rows (base_reactions rxn_ bnds exch) (Model.reactions m).
Proof.
  intros H. unfold Model.read_comets_model in H.
  mmodify H.
  mlift H as file Hfile.
  mlift H as smat_lines Hsmat_lines.
  mlift H as sm Hsm.
  mmodify H.
  mlift H as rxn_lines Hrxn_lines.
  mlift H as rxn_ Hrxn.
  mlift H as bnds_lines Hbnds_lines.
  mlift H as bnds Hbnds.
  mlift H as mets_lines Hmets_lines.
  mlift H as mets Hmets.
  mlift H as exch Hexch.
  mbind H as rs1 s1 Hvmax.
  mbind H as rs2 s2 Hkm.
  mbind H as rs3 s3 Hhill.
  mlift H as obj Hobj.
  mmodify H.
  mbind H as u4 s4 Hstyle.
  mbind H as u5 s5 Hopt.
  mbind H as u6 s6 Hdrift.
  mbind H as u7 s7 Hsigma.
  mbind H as u8 s8 Hconv.
  mbind H as u9 s9 Hnl.
  mbind H as u10 s10 Hnoise.
  mmodify H.
  apply modify_inv in H. destruct H as [_ ->].
  exists file, smat_lines, rxn_lines, bnds_lines, mets_lines, rxn_, bnds, exch, obj.
  assert (Hnodrift : Scan.has "neutralDrift" (Scan.nonblank file) = false).
  { destruct (Scan.has "neutralDrift" (Scan.nonblank file));
      [discriminate Hdrift | reflexivity]. }
  assert (Hrows : same_rows (base_reactions rxn_ bnds exch) rs3).
  { eapply same_rows_trans; [| eapply same_rows_trans];
      [eapply read_kinetic_section_same_rows; [| exact Hvmax]
      | eapply read_kinetic_section_same_rows; [| exact Hkm]
      | eapply read_kinetic_section_same_rows; [| exact Hhill] ];
      intros r v; repeat split. }
  (* fields assigned early and left alone afterwards *)
  assert (Hs3 : Model.smat s3 = sm).
  { assert (Hp : forall kw sf sd sc rs,
               (forall s, Model.smat (sf s) = Model.smat s) ->
               (forall d s, Model.smat (sd d s) = Model.smat s) ->
               preserves (fun s => Model.smat s = sm)
                 (Model.read_kinetic_section kw (Scan.nonblank file) sf sd sc rs)).
    { intros. apply read_kinetic_section_preserves; intros; congruence. }
    eapply Hp; [| | exact Hhill |]; try reflexivity.
    eapply Hp; [| | exact Hkm |]; try reflexivity.
    eapply Hp; [| | exact Hvmax |]; try reflexivity. }
  assert (Hs10 : Model.smat s10 = sm /\ Model.objective s10 = Some obj).
  { set (P := fun s : Model.model => Model.smat s = sm /\ Model.objective s = Some obj).
    assert (P0 : P (s3 <| Model.objective := Some obj |>)) by (split; [exact Hs3 | reflexivity]).
    assert (P4 : P s4).
    { revert Hstyle P0. apply (preserves_if P); frame; untouched. }
    assert (P5 : P s5).
    { revert Hopt P4. apply (preserves_if P); frame; untouched. }
    assert (P6 : P s6).
    { revert Hdrift P5. apply (preserves_if P); frame; untouched. }
    assert (P7 : P s7).
    { revert Hsigma P6. apply (preserves_if P); frame; untouched. }
    assert (P8 : P s8).
    { revert Hconv P7. apply (preserves_for_each P). intros parm.
      apply read_parameter_preserves; [untouched | intros x; untouched]. }
    assert (P9 : P s9).
    { revert Hnl P8. apply (preserves_for_each P). intros parm.
      apply read_parameter_preserves; [untouched | intros x; untouched]. }
    revert Hnoise P9. apply (preserves_if P); frame; untouched. }
  destruct Hs10 as [Hsm10 Hobj10].
  repeat match goal with |- _ /\ _ => split end;
    try assumption; try exact Hmets; try exact Hobj10; try exact Hrows.
  change (Model.read_smat smat_lines = Ok (Model.smat s10)).
  rewrite Hsm10. exact Hsm.
Qed.

(** ** Exchange indices *)

Lemma index_of_Some (x : Z) (l : list Z) (k : nat) :
  Model.index_of x l = Some k -> nth_error l k = Some x /\ (k < length l)%nat.
Proof.
  revert k. induction l as [| y l IH]; simpl; intros k H.
  - discriminate.
  - destruct (Z.eqb_spec x y) as [-> | Hne].
    + injection H as <-. split; [reflexivity | simpl; lia].
    + destruct (Model.index_of x l) as [j |]; [| discriminate].
      injection H as <-. destruct (IH j eq_refl) as [H1 H2].
      split; [exact H1 | simpl; lia].
Qed.

Lemma index_of_In (x : Z) (l : list Z) :
  In x l -> exists k, Model.index_of x l = Some k.
Proof.
  induction l as [| y l IH]; simpl; intros H.
  - contradiction.
  - destruct (Z.eqb_spec x y) as [-> | Hne]; [eauto |].
    destruct H as [-> | H]; [congruence |].
    destruct (IH H) as (k & ->). eauto.
Qed.

Lemma index_of_not_In (x : Z) (l : list Z) :
  ~ In x l -> Model.index_of x l = None.
Proof.
  intros H. destruct (Model.index_of x l) as [k |] eqn:E; [| reflexivity].
  apply index_of_Some in E. destruct E as [E _].
  apply nth_error_In in E. contradiction.
Qed.

Lemma mem_Z_In (x : Z) (l : list Z) : Model.mem x l = true <-> In x l.
Proof.
  unfold Model.mem. split.
  - destruct (Model.index_of x l) as [k |] eqn:E; [| discriminate].
    intros _. apply index_of_Some in E. eapply nth_error_In. apply E.
  - intros H. destruct (index_of_In x l H) as (k & ->). reflexivity.
Qed.

Lemma index_of_nth (l : list Z) (k : nat) (x : Z) :
  NoDup l -> nth_error l k = Some x -> Model.index_of x l = Some k.
Proof.
  intros Hnd. revert k. induction Hnd as [| y l Hy Hnd IH]; intros k H.
  - destruct k; discriminate.
  - simpl. destruct k as [| k]; simpl in H.
    + injection H as ->. rewrite Z.eqb_refl. reflexivity.
    + destruct (Z.eqb_spec x y) as [-> | Hne].
      * exfalso. apply Hy. eapply nth_error_In. exact H.
      * rewrite (IH k H). reflexivity.
Qed.

Lemma exch_ind_members (exch : list Z) :
  NoDup exch ->
  map (Model.exch_ind exch) exch = map Z.of_nat (seq 1 (length exch)).
Proof.
  intros Hnd.
  apply nth_error_ext. intros k.
  rewrite !nth_error_map.
  destruct (nth_error exch k) as [x |] eqn:E; simpl.
  - assert (Hk : (k < length exch)%nat) by (apply nth_error_Some; congruence).
    rewrite (nth_error_nth' _ 0%nat) by (rewrite length_seq; exact Hk).
    rewrite seq_nth by exact Hk. simpl.
    unfold Model.exch_ind. rewrite (index_of_nth exch k x Hnd E).
    f_equal. lia.
  - apply nth_error_None in E.
    assert (Hn : nth_error (seq 1 (length exch)) k = None)
      by (apply nth_error_None; rewrite length_seq; exact E).
    rewrite Hn. reflexivity.
Qed.

Lemma filter_keeps_distinct_ids (keep : Model.reaction -> bool)
    (rs : list Model.reaction) :
  NoDup (map Model.ID rs) -> NoDup (map Model.ID (filter keep rs)).
Proof.
  intros Hnd. induction rs as [| r rs IH]; simpl in *.
  - constructor.
  - inversion Hnd as [| ? ? Hr Hrs]; subst.
    destruct (keep r); simpl; [constructor |]; auto.
    intros Hin. apply Hr. apply in_map_iff in Hin.
    destruct Hin as (r' & Hid & Hin). apply in_map_iff. exists r'.
    split; [exact Hid |]. apply filter_In in Hin. tauto.
Qed.

Lemma NoDup_map_eq {A B} (f : A -> B) (l : list A) (a b : A) :
  NoDup (map f l) -> In a l -> In b l -> f a = f b -> a = b.
Proof.
  induction l as [| c l IH]; simpl; intros Hnd Ha Hb Hf.
  - contradiction.
  - inversion Hnd as [| ? ? Hc Hl]; subst.
    destruct Ha as [-> | Ha], Hb as [-> | Hb]; auto.
    + exfalso. apply Hc. rewrite Hf. apply in_map. exact Hb.
    + exfalso. apply Hc. rewrite <- Hf. apply in_map. exact Ha.
Qed.

Lemma marked_count (exch : list Z) (rs : list Model.reaction) :
  marked exch rs -> NoDup (map Model.ID rs) -> NoDup exch ->
  (forall x, In x exch -> In x (map Model.ID rs)) ->
  exchange_count rs = Z.of_nat (length exch).
Proof.
  intros Hm Hids Hnd Hincl. unfold exchange_count. f_equal.
  rewrite <- (length_map Model.ID).
  apply Permutation_length. apply NoDup_Permutation.
  - apply filter_keeps_distinct_ids. exact Hids.
  - exact Hnd.
  - intros x. split.
    + intros Hin. apply in_map_iff in Hin. destruct Hin as (r & <- & Hr).
      apply filter_In in Hr. destruct Hr as [Hr He].
      destruct (Hm r Hr) as [He' _]. rewrite He' in He.
      apply mem_Z_In. exact He.
    + intros Hin. destruct (proj1 (in_map_iff _ _ _) (Hincl x Hin)) as (r & <- & Hr).
      apply in_map. apply filter_In. split; [exact Hr |].
      destruct (Hm r Hr) as [-> _]. apply mem_Z_In. exact Hin.
Qed.

Lemma marked_bijection (exch : list Z) (rs : list Model.reaction) :
  marked exch rs -> NoDup (map Model.ID rs) -> NoDup exch ->
  (forall x, In x exch -> In x (map Model.ID rs)) ->
  exchange_index_bijection rs.
Proof.
  intros Hm Hids Hnd Hincl.
  pose proof (marked_count exch rs Hm Hids Hnd Hincl) as HE.
  unfold exchange_index_bijection. rewrite HE.
  repeat match goal with |- _ /\ _ => split end.
  - intros r Hr He. destruct (Hm r Hr) as [He' ->]. rewrite He' in He.
    unfold Model.mem in He. unfold Model.exch_ind.
    destruct (Model.index_of (Model.ID r) exch) as [k |] eqn:E; [| discriminate].
    apply index_of_Some in E. lia.
  - intros r r' Hr Hr' He He' Hi.
    apply (NoDup_map_eq Model.ID rs); auto.
    destruct (Hm r Hr) as [E1 I1], (Hm r' Hr') as [E2 I2].
    rewrite E1 in He. rewrite E2 in He'. rewrite I1, I2 in Hi.
    unfold Model.mem in He, He'. unfold Model.exch_ind in Hi.
    destruct (Model.index_of (Model.ID r) exch) as [k |] eqn:K1; [| discriminate].
    destruct (Model.index_of (Model.ID r') exch) as [k' |] eqn:K2; [| discriminate].
    assert (k = k') by lia. subst k'.
    apply index_of_Some in K1, K2. destruct K1 as [K1 _], K2 as [K2 _]. congruence.
  - intros k Hk.
    destruct (nth_error exch (Z.to_nat (k - 1))) as [x |] eqn:E.
    + destruct (proj1 (in_map_iff _ _ _) (Hincl x (nth_error_In _ _ E)))
        as (r & Hx & Hr).
      exists r. destruct (Hm r Hr) as [-> ->]. rewrite Hx.
      split; [exact Hr |]. split.
      * apply mem_Z_In. eapply nth_error_In. exact E.
      * unfold Model.exch_ind. rewrite (index_of_nth _ _ _ Hnd E). lia.
    + apply nth_error_None in E. lia.
  - intros r Hr He. destruct (Hm r Hr) as [He' ->]. rewrite He' in He.
    unfold Model.mem in He. unfold Model.exch_ind.
    destruct (Model.index_of (Model.ID r) exch); [discriminate | reflexivity].
Qed.

Lemma base_reactions_marked rxn_ bnds exch :
  marked exch (base_reactions rxn_ bnds exch).
Proof.
  unfold marked, base_reactions, Model.mark_exchange. intros r Hr.
  apply in_map_iff in Hr. destruct Hr as (r1 & <- & Hr1).
  apply in_map_iff in Hr1. destruct Hr1 as (r0 & <- & _).
  split; reflexivity.
Qed.

Lemma marked_same_rows exch rs rs' :
  marked exch rs -> same_rows rs rs' -> marked exch rs'.
Proof.
  intros Hm [H1 _] r' Hr'. destruct (H1 r' Hr') as (r & Hr & Hc).
  destruct (Hm r Hr) as [He Hi].
  destruct Hc as (_ & Hid & _ & _ & HE & HI).
  rewrite <- HE, <- HI, <- Hid. split; assumption.
Qed.

Lemma res_map_length {A B} (f : A -> res B) (l : list A) (l' : list B) :
  res_map f l = Ok l' -> length l' = length l.
Proof.
  revert l'. induction l as [| a l IH]; simpl; intros l' H.
  - injection H as <-. reflexivity.
  - destruct (f a) as [b | e]; simpl in H; [| discriminate].
    destruct (res_map f l) as [bs | e]; simpl in H; [| discriminate].
    injection H as <-. simpl. f_equal. apply IH. reflexivity.
Qed.

Lemma reaction_rows_columns rl flags ids exch :
  length flags = length rl -> length ids = length rl ->
  let rows := Model.reaction_rows rl flags ids exch in
  map Model.ID rows = ids /\
  map Model.ID (filter Model.EXCH rows) = map snd (filter fst (combine flags ids)) /\
  (forall r, In r rows -> Model.EXCH_IND r = Model.exch_ind exch (Model.ID r)).
Proof.
  unfold Model.reaction_rows.
  revert flags ids. induction rl as [| k rl IH]; intros flags ids Hf Hi.
  - destruct flags; [| discriminate]. destruct ids; [| discriminate].
    simpl. repeat split. intros r [].
  - destruct flags as [| f flags]; [discriminate |].
    destruct ids as [| x ids]; [discriminate |].
    simpl in Hf, Hi. injection Hf as Hf. injection Hi as Hi.
    destruct (IH flags ids Hf Hi) as (H1 & H2 & H3).
    cbn [combine map]. cbn [Model.ID fst snd filter Model.EXCH].
    split; [f_equal; exact H1 |]. split.
    + destruct f; cbn [map Model.ID]; [f_equal |]; exact H2.
    + intros r [<- | Hr]; [reflexivity | apply H3; exact Hr].
Qed.

Lemma load_cobra_model_reactions curr_m m0 m :
  Model.load_cobra_model curr_m m0 = (Ok tt, m) ->
  exists flags,
    res_map Model.is_exchange (Model.cobra_reactions curr_m) = Ok flags /\
    let ids := map Z.of_nat (seq 1 (length (Model.cobra_reactions curr_m))) in
    Model.reactions m =
      Model.reaction_rows (Model.cobra_reactions curr_m) flags ids
                          (map snd (filter fst (combine flags ids))).
Proof.
  intros H. unfold Model.load_cobra_model in H.
  mbind H as self0 s0 Hget. apply get_inv in Hget. destruct Hget as [_ ->].
  mbind H as u1 s1 Hempty.
  mmodify H.
  mlift H as flags Hflags.
  exists flags. split; [exact Hflags |]. cbv zeta.
  set (rows := Model.reaction_rows _ _ _ _) in *.
  mmodify H.
  mbind H as u2 s2 Hv. mbind H as u3 s3 Hk. mbind H as u4 s4 Hh.
  mbind H as u5 s5 Hdv. mbind H as u6 s6 Hdk. mbind H as u7 s7 Hdh.
  mbind H as u8 s8 Hmets. mbind H as u9 s9 Hsm. mbind H as u10 s10 Hsort.
  mbind H as u11 s11 Hb.
  mlift H as obj Hobj.
  mbind H as self1 s12 Hget. apply get_inv in Hget. destruct Hget as [_ ->].
  mlift H as n Hn.
  mbind H as u13 s13 Ho. mbind H as u14 s14 Hopt.
  set (P := fun s : Model.model => Model.reactions s = rows).
  assert (P1 : P (s1 <| Model.id := Some (Model.cobra_model_id curr_m) |>
                     <| Model.reactions := rows |>)) by reflexivity.
  assert (P2 : P s2) by (revert Hv P1; apply (preserves_if P); frame; untouched).
  assert (P3 : P s3) by (revert Hk P2; apply (preserves_if P); frame; untouched).
  assert (P4 : P s4) by (revert Hh P3; apply (preserves_if P); frame; untouched).
  assert (Hmod : forall f : Model.model -> Model.model,
             (forall s, Model.reactions (f s) = Model.reactions s) ->
             forall s r s', modify f s = (r, s') -> P s -> P s').
  { intros f Hf s r s' Hm. apply modify_inv in Hm. destruct Hm as [_ ->].
    unfold P. rewrite Hf. auto. }
  assert (P5 : P s5).
  { eapply Hmod; [| exact Hdv | exact P4]. intros s. cbv beta.
    destruct (Model.vmax_flag s), (Model.cobra_default_vmax curr_m); reflexivity. }
  assert (P6 : P s6).
  { eapply Hmod; [| exact Hdk | exact P5]. intros s. cbv beta.
    destruct (Model.km_flag s), (Model.cobra_default_km curr_m); reflexivity. }
  assert (P7 : P s7).
  { eapply Hmod; [| exact Hdh | exact P6]. intros s. cbv beta.
    destruct (Model.hill_flag s), (Model.cobra_default_hill curr_m); reflexivity. }
  assert (P8 : P s8) by (eapply Hmod; [| exact Hmets | exact P7]; reflexivity).
  assert (P9 : P s9).
  { revert Hsm P8. apply (preserves_for_each P). intros row. frame. untouched. }
  assert (P10 : P s10) by (eapply Hmod; [| exact Hsort | exact P9]; reflexivity).
  assert (P11 : P s11).
  { eapply Hmod; [| exact Hb | exact P10]. intros s. cbv beta.
    destruct (Model.cobra_default_bounds curr_m); reflexivity. }
  assert (P13 : P s13) by (eapply Hmod; [| exact Ho | exact P11]; reflexivity).
  assert (P14 : P s14).
  { eapply Hmod; [| exact Hopt | exact P13]. intros s. cbv beta.
    destruct (Model.comets_optimizer curr_m); reflexivity. }
  eapply Hmod; [| exact H | exact P14]. intros s. cbv beta.
  destruct (Model.comets_obj_style curr_m); reflexivity.
Qed.

Lemma NoDup_ids (n : nat) : NoDup (map Z.of_nat (seq 1 n)).
Proof.
  apply Finite.Injective_map_NoDup; [| apply seq_NoDup].
  intros a b. apply Nat2Z.inj.
Qed.

Lemma rows_in_id_order (rows : list Model.reaction) :
  NoDup (map Model.ID rows) ->
  (forall r, In r rows ->
     Model.EXCH_IND r =
       Model.exch_ind (map Model.ID (filter Model.EXCH rows)) (Model.ID r)) ->
  exchange_index_bijection rows /\
  map Model.EXCH_IND (filter Model.EXCH rows) =
    map Z.of_nat (seq 1 (length (filter Model.EXCH rows))).
Proof.
  intros Hids Hind.
  set (exch := map Model.ID (filter Model.EXCH rows)) in *.
  assert (Hnd : NoDup exch) by (apply filter_keeps_distinct_ids; exact Hids).
  assert (Hm : marked exch rows).
  { intros r Hr. split; [| apply Hind; exact Hr].
    destruct (Model.EXCH r) eqn:E; symmetry.
    - apply mem_Z_In. apply in_map. apply filter_In. tauto.
    - destruct (Model.mem (Model.ID r) exch) eqn:M; [| reflexivity].
      apply mem_Z_In in M. apply in_map_iff in M. destruct M as (r' & Hid & Hr').
      apply filter_In in Hr'. destruct Hr' as [Hr' E'].
      assert (r' = r) by (apply (NoDup_map_eq Model.ID rows); auto).
      subst r'. congruence. }
  split.
  - apply (marked_bijection exch); auto.
    intros x Hx. apply in_map_iff in Hx. destruct Hx as (r & <- & Hr).
    apply in_map. apply filter_In in Hr. tauto.
  - rewrite <- (length_map Model.ID (filter Model.EXCH rows)).
    fold exch. rewrite <- (exch_ind_members exch Hnd).
    unfold exch at 2. rewrite map_map. apply map_ext_in.
    intros r Hr. apply Hind. apply filter_In in Hr. tauto.
Qed.

(** C3 (amended).  In a model loaded from a COBRA model, EXCH_IND is a
    bijection from the exchange reactions onto 1..E, the exchange reactions
    taken in ID order receive 1, 2, ..., E, and the others have 0.  In a
    model read from a model file, every reaction that is not an exchange
    reaction has EXCH_IND 0, and an exchange reaction with EXCH_IND k is
    the one whose ID stands first at place k of the EXCHANGE_REACTIONS
    line; EXCH_IND is a bijection onto 1..E provided the line lists
    distinct IDs, each of them the ID of a row, and the table has one row
    per ID. *)
Theorem exchange_indices :
  (forall curr_m m,
     Model.of_cobra curr_m = Ok m ->
     exchange_index_bijection (Model.reactions m) /\
     map Model.EXCH_IND (filter Model.EXCH (Model.reactions m)) =
       map Z.of_nat (seq 1 (length (filter Model.EXCH (Model.reactions m)))))
  /\
  (forall files path m file exch,
     Model.of_path files path = Ok m ->
     FS.read_file files path = Ok file ->
     Model.exchange_ids (Scan.nonblank file) = Ok exch ->
     (forall r, In r (Model.reactions m) -> Model.EXCH r = false ->
                Model.EXCH_IND r = 0) /\
     (forall r, In r (Model.reactions m) -> Model.EXCH r = true ->
                1 <= Model.EXCH_IND r /\
                Model.index_of (Model.ID r) exch
                  = Some (Z.to_nat (Model.EXCH_IND r - 1))) /\
     (NoDup exch ->
      NoDup (map Model.ID (Model.reactions m)) ->
      (forall x, In x exch -> In x (map Model.ID (Model.reactions m))) ->
      exchange_index_bijection (Model.reactions m))).
Proof.
  split.
  - intros curr_m m H. unfold Model.of_cobra in H.
    destruct (Model.load_cobra_model curr_m Model.init) as [[[] | e] m'] eqn:E;
      [| discriminate].
    injection H as ->.
    apply load_cobra_model_reactions in E. destruct E as (flags & Hflags & Hrows).
    cbv zeta in Hrows.
    pose proof (res_map_length _ _ _ Hflags) as Hlen.
    set (rl := Model.cobra_reactions curr_m) in *.
    set (ids := map Z.of_nat (seq 1 (length rl))) in *.
    assert (Hl : length ids = length rl)
      by (unfold ids; rewrite length_map, length_seq; reflexivity).
    destruct (reaction_rows_columns rl flags ids
                (map snd (filter fst (combine flags ids))) Hlen Hl)
      as (H1 & H2 & H3).
    rewrite <- Hrows in H1, H2, H3.
    apply rows_in_id_order.
    + rewrite H1. apply NoDup_ids.
    + intros r Hr. rewrite H2. apply H3. exact Hr.
  - intros files path m file exch H Hfile Hexch.
    unfold Model.of_path in H.
    destruct (String.eqb (Text.last3 path) "cmd"); [| discriminate].
    destruct (Model.read_comets_model files path Model.init) as [[[] | e] m'] eqn:E;
      [| discriminate].
    injection H as ->.
    apply read_comets_model_inv in E.
    destruct E as (file' & sl & rl & bl & ml & rxn_ & bnds & exch' & obj & Hf & _ & _
                   & _ & _ & _ & _ & _ & _ & Hex & _ & _ & _ & Hrows).
    assert (file' = file) by congruence. subst file'.
    assert (exch' = exch) by congruence. subst exch'.
    assert (Hm : marked exch (Model.reactions m))
      by (eapply marked_same_rows; [apply base_reactions_marked | exact Hrows]).
    split; [| split].
    + intros r Hr He. destruct (Hm r Hr) as [He' ->]. rewrite He' in He.
      unfold Model.mem in He. unfold Model.exch_ind.
      destruct (Model.index_of (Model.ID r) exch); [discriminate | reflexivity].
    + intros r Hr He. destruct (Hm r Hr) as [He' ->]. rewrite He' in He.
      unfold Model.mem in He. unfold Model.exch_ind.
      destruct (Model.index_of (Model.ID r) exch) as [k |]; [| discriminate].
      split; [lia |]. f_equal. lia.
    + intros Hnd Hids Hincl. apply (marked_bijection exch); assumption.
Qed.

(** C3, as stated, fails on a model file whose EXCHANGE_REACTIONS line
    repeats an ID: with the line [1 1 2] and two reactions, reaction 2 gets
    EXCH_IND 3 although E = 2. *)
Lemma exchange_indices_repeated_id :
  exists m, Model.of_path Samples.files "dup.cmd" = Ok m /\
            ~ exchange_index_bijection (Model.reactions m).
Proof.
  eexists. split; [vm_compute; reflexivity |].
  intros (Hrange & _). cbv in Hrange.
  match type of Hrange with
  | forall r, _ \/ ?b = r \/ False -> _ =>
      specialize (Hrange b (or_intror (or_introl eq_refl)) eq_refl)
  end.
  destruct Hrange as [_ H]. apply H. reflexivity.
Qed.

(** ** The order of the exchanged metabolites *)

Lemma ascii_compare_Lt_trans (a b c : ascii) :
  Ascii.compare a b = Lt -> Ascii.compare b c = Lt -> Ascii.compare a c = Lt.
Proof.
  unfold Ascii.compare. rewrite !N.compare_lt_iff. lia.
Qed.

Lemma ascii_compare_refl (a : ascii) : Ascii.compare a a = Eq.
Proof. unfold Ascii.compare. apply N.compare_refl. Qed.

Lemma string_compare_refl (a : string) : String.compare a a = Eq.
Proof.
  induction a as [| x a IH]; simpl; [reflexivity |].
  rewrite ascii_compare_refl. exact IH.
Qed.

Lemma string_compare_Lt_trans (a b c : string) :
  String.compare a b = Lt -> String.compare b c = Lt -> String.compare a c = Lt.
Proof.
  revert b c. induction a as [| x a IH]; intros [| y b] [| z c]; simpl;
    try discriminate; try reflexivity.
  destruct (Ascii.compare x y) eqn:Exy; try discriminate;
    destruct (Ascii.compare y z) eqn:Eyz; try discriminate; intros H1 H2.
  - apply Ascii.compare_eq_iff in Exy, Eyz. subst.
    rewrite ascii_compare_refl. eapply IH; eauto.
  - apply Ascii.compare_eq_iff in Exy. subst. rewrite Eyz. reflexivity.
  - apply Ascii.compare_eq_iff in Eyz. subst. rewrite Exy. reflexivity.
  - rewrite (ascii_compare_Lt_trans _ _ _ Exy Eyz). reflexivity.
Qed.

Lemma str_lt_trans (a b c : string) : str_lt a b -> str_lt b c -> str_lt a c.
Proof.
  unfold str_lt, String.ltb. intros H1 H2.
  destruct (String.compare a b) eqn:E1; try discriminate.
  destruct (String.compare b c) eqn:E2; try discriminate.
  rewrite (string_compare_Lt_trans _ _ _ E1 E2). reflexivity.
Qed.

Lemma leb_true_lt (a b : string) : String.leb a b = true -> a <> b -> str_lt a b.
Proof.
  unfold str_lt, String.leb, String.ltb.
  destruct (String.compare a b) eqn:E; intros H Hne; try discriminate.
  - apply String.compare_eq_iff in E. contradiction.
  - reflexivity.
Qed.

Lemma leb_false_lt (a b : string) : String.leb a b = false -> str_lt b a.
Proof.
  unfold str_lt, String.leb, String.ltb. rewrite (String.compare_antisym a b).
  destruct (String.compare b a); simpl; intros H; try discriminate. reflexivity.
Qed.

Lemma insert_In (x z : string) (l : list string) :
  In z (Layout.insert x l) <-> z = x \/ In z l.
Proof.
  induction l as [| y l IH]; simpl.
  - intuition.
  - destruct (String.leb x y); simpl; [intuition |]. rewrite IH. intuition.
Qed.

Lemma sorted_In (z : string) (l : list string) : In z (Layout.sorted l) <-> In z l.
Proof.
  unfold Layout.sorted. induction l as [| y l IH]; simpl.
  - tauto.
  - rewrite insert_In, IH. intuition.
Qed.

Lemma insert_sorted (x : string) (l : list string) :
  StronglySorted str_lt l -> ~ In x l -> StronglySorted str_lt (Layout.insert x l).
Proof.
  induction 1 as [| y l Hs IH Hy]; intros Hx; simpl.
  - repeat constructor.
  - destruct (String.leb x y) eqn:E.
    + assert (Hxy : str_lt x y)
        by (apply leb_true_lt; [exact E | intros ->; apply Hx; left; reflexivity]).
      constructor; [constructor; assumption |].
      constructor; [exact Hxy |].
      rewrite Forall_forall in *. intros z Hz. eapply str_lt_trans; eauto.
    + constructor.
      * apply IH. intros Hin. apply Hx. right. exact Hin.
      * rewrite Forall_forall in *. intros z Hz. apply insert_In in Hz.
        destruct Hz as [-> | Hz]; [apply leb_false_lt; exact E | auto].
Qed.

Lemma sorted_strongly (l : list string) :
  NoDup l -> StronglySorted str_lt (Layout.sorted l).
Proof.
  unfold Layout.sorted. induction 1 as [| x l Hx Hnd IH]; simpl.
  - constructor.
  - apply insert_sorted; [exact IH |]. fold (Layout.sorted l).
    rewrite sorted_In. exact Hx.
Qed.

Lemma str_lt_irrefl (a : string) : ~ str_lt a a.
Proof.
  unfold str_lt, String.ltb.
  rewrite string_compare_refl. discriminate.
Qed.

Lemma strongly_sorted_NoDup (l : list string) : StronglySorted str_lt l -> NoDup l.
Proof.
  induction 1 as [| x l Hs IH Hx]; constructor; [| exact IH].
  intros Hin. rewrite Forall_forall in Hx. apply (str_lt_irrefl x). auto.
Qed.

Lemma extend_exchanged_mets_spec (ms : list Model.model) (acc names : list string) :
  Layout.extend_exchanged_mets ms acc = Ok names ->
  forall n, In n names <->
            In n acc \/
            exists m l, In m ms /\ Model.get_exchange_metabolites m = Ok l /\ In n l.
Proof.
  revert acc. induction ms as [| m ms IH]; simpl; intros acc H n.
  - injection H as <-. split; [auto |]. intros [H | (m & l & [] & _)]. exact H.
  - destruct (Model.get_exchange_metabolites m) as [l |] eqn:E; simpl in H;
      [| discriminate].
    rewrite (IH _ H n), in_app_iff. split.
    + intros [[Ha | Hl] | (m' & l' & Hm' & Hg & Hn)]; eauto 8.
    + intros [Ha | (m' & l' & [<- | Hm'] & Hg & Hn)]; eauto 8.
      left. right. congruence.
Qed.

Lemma extend_exchanged_mets_total (ms : list Model.model) (acc : list string) :
  (forall m, In m ms -> exists l, Model.get_exchange_metabolites m = Ok l) ->
  exists names, Layout.extend_exchanged_mets ms acc = Ok names.
Proof.
  revert acc. induction ms as [| m ms IH]; simpl; intros acc H.
  - eauto.
  - destruct (H m (or_introl eq_refl)) as (l & ->). simpl. apply IH. auto.
Qed.

(** ** Dense rows *)

Lemma positions_head {A} (p : A -> bool) (s : nat) (l : list A) (k : nat)
    (rest : list nat) :
  Seq.positions p s l = k :: rest ->
  (s <= k)%nat /\ exists a, nth_error l (k - s) = Some a /\ p a = true.
Proof.
  revert s. induction l as [| a l IH]; simpl; intros s H.
  - discriminate.
  - destruct (p a) eqn:E.
    + injection H as <- _. split; [lia |]. rewrite Nat.sub_diag.
      exists a. split; [reflexivity | exact E].
    + destruct (IH _ H) as (Hle & b & Hb & Hp). split; [lia |].
      exists b. replace (k - s)%nat with (S (k - S s)) by lia. auto.
Qed.

Lemma positions_nil {A} (p : A -> bool) (s : nat) (l : list A) :
  Seq.positions p s l = [] -> forall a, In a l -> p a = false.
Proof.
  revert s. induction l as [| b l IH]; simpl; intros s H a Ha.
  - contradiction.
  - destruct (p b) eqn:E; [discriminate |].
    destruct Ha as [<- | Ha]; [exact E | eauto].
Qed.

Lemma get_met_number_Ok (self : Layout.layout) (met : string) (k : nat) :
  Layout.get_met_number self met = Ok k ->
  nth_error (Layout.all_exchanged_mets self) k = Some met.
Proof.
  unfold Layout.get_met_number.
  destruct (Seq.positions _ _ _) as [| k' rest] eqn:E; [discriminate |].
  intros H. injection H as ->.
  apply positions_head in E. destruct E as (_ & a & Ha & Hp).
  rewrite Nat.sub_0_r in Ha. apply String.eqb_eq in Hp. congruence.
Qed.

Lemma get_met_number_In (self : Layout.layout) (met : string) :
  In met (Layout.all_exchanged_mets self) ->
  exists k, Layout.get_met_number self met = Ok k.
Proof.
  unfold Layout.get_met_number. intros H.
  destruct (Seq.positions _ _ _) as [| k' rest] eqn:E; [| eauto].
  pose proof (positions_nil _ _ _ E met H) as Hp. simpl in Hp.
  rewrite String.eqb_refl in Hp. discriminate.
Qed.

Lemma list_set_Ok {A} (l : list A) (k : nat) (v : A) :
  (k < length l)%nat ->
  exists l', Layout.list_set l k v = Ok l' /\ length l' = length l /\
             nth_error l' k = Some v /\
             forall j, j <> k -> nth_error l' j = nth_error l j.
Proof.
  revert k. induction l as [| a l IH]; simpl; intros k Hk; [lia |].
  destruct k as [| k].
  - eexists. split; [reflexivity |]. split; [reflexivity |]. split; [reflexivity |].
    intros [| j] Hj; [congruence | reflexivity].
  - destruct (IH k) as (l' & -> & Hlen & Hnth & Hother); [lia |].
    simpl. eexists. split; [reflexivity |]. simpl. split; [congruence |].
    split; [exact Hnth |]. intros [| j] Hj; [reflexivity |].
    simpl. apply Hother. congruence.
Qed.

Lemma list_set_inv {A} (l l' : list A) (k : nat) (v : A) :
  Layout.list_set l k v = Ok l' -> (k < length l)%nat.
Proof.
  revert k l'. induction l as [| a l IH]; simpl; intros k l' H.
  - discriminate.
  - destruct k as [| k]; [lia |].
    destruct (Layout.list_set l k v) as [x |] eqn:E; [| discriminate].
    apply IH in E. lia.
Qed.

Lemma NoDup_nth_eq {A} (l : list A) (i j : nat) (a : A) :
  NoDup l -> nth_error l i = Some a -> nth_error l j = Some a -> i = j.
Proof.
  intros Hnd Hi Hj. eapply NoDup_nth_error; eauto.
  - apply nth_error_Some. congruence.
  - congruence.
Qed.

Lemma lookup_not_key (inner : list (string * num)) (n : string) :
  ~ In n (map fst inner) -> Dict.lookup String.eqb inner n = None.
Proof.
  induction inner as [| [k v] inner IH]; simpl; intros H; [reflexivity |].
  destruct (String.eqb_spec n k) as [-> | Hne]; [exfalso; auto |]. auto.
Qed.

Lemma fill_amounts_spec (self : Layout.layout) (inner : list (string * num))
    (row0 row : list num) :
  let mets := Layout.all_exchanged_mets self in
  NoDup mets -> NoDup (map fst inner) -> length row0 = length mets ->
  Layout.fill_amounts self inner row0 = Ok row ->
  length row = length mets /\
  forall j n, nth_error mets j = Some n ->
    nth_error row j = match Dict.lookup String.eqb inner n with
                      | Some v => Some v
                      | None => nth_error row0 j
                      end.
Proof.
  intros mets Hnd. revert row0.
  induction inner as [| [met v] inner IH]; simpl; intros row0 Hk Hlen H.
  - injection H as <-. auto.
  - inversion Hk as [| ? ? Hmet Hk']; subst.
    destruct (Layout.get_met_number self met) as [k |] eqn:Ek; simpl in H;
      [| discriminate].
    destruct (Layout.list_set row0 k v) as [row1 |] eqn:Es; simpl in H;
      [| discriminate].
    pose proof (list_set_inv _ _ _ _ Es) as Hlt.
    destruct (list_set_Ok row0 k v Hlt) as (row1' & Es' & Hl1 & Hn1 & Ho1).
    assert (row1' = row1) by congruence. subst row1'.
    apply get_met_number_Ok in Ek. fold mets in Ek.
    destruct (IH row1 Hk' (eq_trans Hl1 Hlen) H) as (Hl & Hrow).
    split; [exact Hl |]. intros j n Hj. rewrite (Hrow j n Hj).
    destruct (String.eqb_spec n met) as [-> | Hne].
    + assert (j = k) by (exact (NoDup_nth_eq mets j k met Hnd Hj Ek)). subst j.
      rewrite (lookup_not_key inner met Hmet). exact Hn1.
    + destruct (Dict.lookup String.eqb inner n); [reflexivity |].
      apply Ho1. intros ->. congruence.
Qed.

Lemma fill_amounts_total (self : Layout.layout) (inner : list (string * num))
    (row0 : list num) :
  let mets := Layout.all_exchanged_mets self in
  length row0 = length mets ->
  (forall n, In n (map fst inner) -> In n mets) ->
  exists row, Layout.fill_amounts self inner row0 = Ok row.
Proof.
  intros mets. revert row0.
  induction inner as [| [met v] inner IH]; simpl; intros row0 Hlen Hin.
  - eauto.
  - destruct (get_met_number_In self met) as (k & Ek); [auto |].
    rewrite Ek. simpl.
    pose proof (get_met_number_Ok _ _ _ Ek) as Hk.
    assert (Hlt : (k < length row0)%nat).
    { rewrite Hlen. apply nth_error_Some. unfold mets. rewrite Hk. discriminate. }
    destruct (list_set_Ok row0 k v Hlt) as (row1 & -> & Hl1 & _). simpl.
    apply IH; [congruence | auto].
Qed.

Lemma fill_static_spec (self : Layout.layout) (inner : list (string * num))
    (row0 row : list num) :
  let mets := Layout.all_exchanged_mets self in
  NoDup mets -> NoDup (map fst inner) ->
  length row0 = (2 * length mets)%nat ->
  Layout.fill_static self inner row0 = Ok row ->
  length row = (2 * length mets)%nat /\
  forall j n, nth_error mets j = Some n ->
    nth_error row (2 * j) = match Dict.lookup String.eqb inner n with
                            | Some _ => Some (Num.of_Z 1)
                            | None => nth_error row0 (2 * j)
                            end /\
    nth_error row (2 * j + 1) = match Dict.lookup String.eqb inner n with
                                | Some v => Some v
                                | None => nth_error row0 (2 * j + 1)
                                end.
Proof.
  intros mets Hnd. revert row0.
  induction inner as [| [met v] inner IH]; intros row0 Hk Hlen H;
    simpl in H, Hk.
  - injection H as <-. auto.
  - inversion Hk as [| ? ? Hmet Hk']; subst.
    destruct (Layout.get_met_number self met) as [k |] eqn:Ek; simpl in H;
      [| discriminate].
    destruct (Layout.list_set row0 (k * 2) (Num.of_Z 1)) as [row1 |] eqn:Es1;
      simpl in H; [| discriminate].
    destruct (Layout.list_set row1 (k * 2 + 1) v) as [row2 |] eqn:Es2;
      simpl in H; [| discriminate].
    pose proof (list_set_inv _ _ _ _ Es1) as Hlt1.
    pose proof (list_set_inv _ _ _ _ Es2) as Hlt2.
    destruct (list_set_Ok row0 (k * 2) (Num.of_Z 1) Hlt1)
      as (r1 & E1 & Hl1 & Hn1 & Ho1).
    assert (r1 = row1) by congruence. subst r1.
    destruct (list_set_Ok row1 (k * 2 + 1) v Hlt2) as (r2 & E2 & Hl2 & Hn2 & Ho2).
    assert (r2 = row2) by congruence. subst r2.
    apply get_met_number_Ok in Ek. fold mets in Ek.
    assert (Hlen2 : length row2 = (2 * length mets)%nat)
      by (rewrite Hl2, Hl1; exact Hlen).
    destruct (IH row2 Hk' Hlen2 H) as (Hl & Hrow).
    split; [exact Hl |]. intros j n Hj.
    destruct (Hrow j n Hj) as [Ha Hb]. rewrite Ha, Hb. cbn [Dict.lookup].
    destruct (String.eqb_spec n met) as [-> | Hne].
    + assert (j = k) by (exact (NoDup_nth_eq mets j k met Hnd Hj Ek)). subst j.
      rewrite (lookup_not_key inner met Hmet).
      replace (2 * k)%nat with (k * 2)%nat by lia. split.
      * rewrite Ho2 by lia. exact Hn1.
      * exact Hn2.
    + assert (j <> k) by (intros ->; congruence).
      destruct (Dict.lookup String.eqb inner n); [split; reflexivity |].
      split.
      * rewrite Ho2 by lia. apply Ho1. lia.
      * rewrite Ho2 by lia. apply Ho1. lia.
Qed.

Lemma nth_error_repeat {A} (a : A) (n j : nat) :
  (j < n)%nat -> nth_error (repeat a n) j = Some a.
Proof.
  revert j. induction n as [| n IH]; intros [| j] H; simpl; try lia; auto.
  apply IH. lia.
Qed.

Lemma build_exchanged_mets_inv (self self' : Layout.layout) :
  Layout.build_exchanged_mets self = (Ok tt, self') ->
  exists names,
    Layout.extend_exchanged_mets (Layout.models self) [] = Ok names /\
    self' = self <| Layout.all_exchanged_mets :=
                      Layout.sorted (Layout.set_of names) |>.
Proof.
  intros H. unfold Layout.build_exchanged_mets in H.
  mbind H as s0 s1 Hget. apply get_inv in Hget. destruct Hget as [Hs ->].
  injection Hs as <-.
  mlift H as names Hnames.
  apply modify_inv in H. destruct H as [_ ->]. eauto.
Qed.


(** ** Frame conditions of the layout reader *)

Lemma on_self_obj {A} (Q : Layout.layout -> Prop) (m : M Layout.layout A) :
  preserves Q m -> preserves (on_obj Q) (Layout.on_self m).
Proof.
  intros Hm s r s'. unfold Layout.on_self, on_obj.
  destruct (m (Layout.obj s)) as [r1 l] eqn:E. intros H HQ.
  inversion H. subst. cbn. eapply Hm; eauto.
Qed.

Lemma on_self_out {A} (Q : list string -> Prop) (m : M Layout.layout A) :
  preserves (on_out Q) (Layout.on_self m).
Proof.
  intros s r s'. unfold Layout.on_self, on_out.
  destruct (m (Layout.obj s)) as [r1 l]. intros H HQ.
  inversion H. subst. exact HQ.
Qed.

Lemma print_obj (Q : Layout.layout -> Prop) (msg : string) :
  preserves (on_obj Q) (Layout.print msg).
Proof. apply preserves_modify. intros s H. exact H. Qed.

Lemma print_out (Q : list string -> Prop) (msg : string) :
  (forall out, Q out -> Q (out ++ [msg])) -> preserves (on_out Q) (Layout.print msg).
Proof. intros HQ. apply preserves_modify. intros s H. apply HQ. exact H. Qed.

Lemma report_preserves (P : Layout.state -> Prop) (body : M Layout.state unit)
    (c o u : option string) :
  preserves P body -> (forall msg, preserves P (Layout.print msg)) ->
  preserves P (try_except body (Layout.report c o u)).
Proof.
  intros Hb Hp. apply preserves_try_except; [exact Hb |].
  intros e h He. destruct e; simpl in He; try discriminate;
    [destruct c | destruct o | destruct u]; simpl in He; try discriminate;
    injection He as <-; apply Hp.
Qed.

(** The statements of the layout reader, one by one; what is left are
    the updates of fields of the object. *)
Ltac lframe_step :=
  match goal with
  | |- preserves _ (bind _ _) => apply preserves_bind; [| intros ?]
  | |- preserves _ (ret _) => apply preserves_ret
  | |- preserves _ (raise _) => apply preserves_raise
  | |- preserves _ (lift _) => apply preserves_lift
  | |- preserves _ get => apply preserves_get
  | |- preserves _ (modify _) => apply preserves_modify
  | |- preserves (on_obj _) (Layout.update _) =>
      apply on_self_obj; apply preserves_modify
  | |- preserves (on_out _) (Layout.update _) => apply on_self_out
  | |- preserves (on_obj _) Layout.get_self => apply on_self_obj; apply preserves_get
  | |- preserves (on_out _) Layout.get_self => apply on_self_out
  | |- preserves (on_obj _) (Layout.print _) => apply print_obj
  | |- preserves (on_out _) (Layout.print _) => apply print_out
  | |- preserves (on_out _) (Layout.on_self _) => apply on_self_out
  | |- preserves (on_obj _) (Layout.on_self _) => apply on_self_obj
  | |- preserves _ (for_each _ _) => apply preserves_for_each; intros ?
  | |- preserves _ (try_except _ (Layout.report _ _ _)) =>
      apply report_preserves; [| intros ?]
  | |- preserves _ (if _ then _ else _) => apply preserves_if
  | |- preserves _ (match ?x with _ => _ end) => destruct x
  end.

Ltac lframe := repeat lframe_step.

Section RegionFrame.
Context (Q : Layout.layout -> Prop).

(** [Q] looks at no field but the region map, the region flag and the
    grid. *)
Hypothesis Q_fields :
  forall l l',
    Layout.region_map l = Layout.region_map l' ->
    Layout.region_flag l = Layout.region_flag l' ->
    Layout.grid l = Layout.grid l' ->
    Q l -> Q l'.

Ltac other_field :=
  let l := fresh "l" in
  let H := fresh "H" in
  intros l H; apply (Q_fields l); [reflexivity | reflexivity | reflexivity | exact H].

Lemma build_pop_lines_frame n i ms acc :
  preserves Q (Layout.build_pop_lines n i ms acc).
Proof.
  revert i acc. induction ms as [| m ms IH]; intros i acc; simpl.
  - apply preserves_ret.
  - lframe; [other_field | apply IH].
Qed.

Lemma update_models_frame : preserves Q Layout.update_models.
Proof.
  unfold Layout.update_models, Layout.build_initial_pop,
    Layout.build_exchanged_mets, Layout.add_new_mets_to_media.
  lframe; try apply build_pop_lines_frame; other_field.
Qed.

Lemma add_model_frame m : preserves Q (Layout.add_model m).
Proof.
  unfold Layout.add_model. lframe; [other_field | apply update_models_frame].
Qed.

Lemma read_initial_pop_frame f_lines end_blocks :
  preserves (on_obj Q) (Layout.read_initial_pop f_lines end_blocks).
Proof.
  unfold Layout.read_initial_pop. lframe; other_field.
Qed.

Lemma read_models_frame files f_lines temp :
  preserves (on_obj Q) (Layout.read_models files f_lines temp).
Proof.
  unfold Layout.read_models. lframe;
    first [apply add_model_frame | apply update_models_frame].
Qed.

Lemma read_world_media_frame f_lines end_blocks :
  preserves (on_obj Q) (Layout.read_world_media f_lines end_blocks).
Proof. unfold Layout.read_world_media. lframe; other_field. Qed.

Lemma read_diffusion_frame f_lines end_blocks :
  preserves (on_obj Q) (Layout.read_diffusion f_lines end_blocks).
Proof. unfold Layout.read_diffusion. lframe; other_field. Qed.

Lemma read_local_rows_frame rows get_map set_map :
  (forall d l, Layout.region_map (set_map d l) = Layout.region_map l) ->
  (forall d l, Layout.region_flag (set_map d l) = Layout.region_flag l) ->
  (forall d l, Layout.grid (set_map d l) = Layout.grid l) ->
  preserves (on_obj Q) (Layout.read_local_rows rows get_map set_map).
Proof.
  intros H1 H2 H3.
  unfold Layout.read_local_rows, Layout.read_local_row, Layout.store_local_row.
  cbv zeta. lframe; intros l H; apply (Q_fields l); auto.
Qed.

Lemma read_local_media_frame f_lines end_blocks :
  preserves (on_obj Q) (Layout.read_local_media f_lines end_blocks).
Proof.
  unfold Layout.read_local_media. lframe; try other_field.
  apply read_local_rows_frame; reflexivity.
Qed.

Lemma read_refresh_frame f_lines end_blocks names :
  preserves (on_obj Q) (Layout.read_refresh f_lines end_blocks names).
Proof.
  unfold Layout.read_refresh. lframe; try other_field.
  apply read_local_rows_frame; reflexivity.
Qed.

Lemma read_substrate_diffusivity_frame f_lines end_blocks :
  preserves (on_obj Q) (Layout.read_substrate_diffusivity f_lines end_blocks).
Proof. unfold Layout.read_substrate_diffusivity. lframe; other_field. Qed.

Lemma read_substrate_friction_frame f_lines end_blocks :
  preserves (on_obj Q) (Layout.read_substrate_friction f_lines end_blocks).
Proof. unfold Layout.read_substrate_friction. lframe; other_field. Qed.

Lemma read_static_frame f_lines end_blocks :
  preserves (on_obj Q) (Layout.read_static f_lines end_blocks).
Proof.
  unfold Layout.read_static, Layout.read_static_rows, Layout.read_static_row,
    Layout.store_static_row.
  cbv zeta. lframe; other_field.
Qed.

End RegionFrame.

Lemma read_grid_frame (Q : Layout.layout -> Prop) f_lines :
  (forall l g, Q l -> Q (l <| Layout.grid := g |>)) ->
  preserves (on_obj Q) (Layout.read_grid f_lines).
Proof.
  intros HQ. unfold Layout.read_grid.
  apply preserves_try_except.
  - lframe. intros l H. apply HQ. exact H.
  - intros e h He. destruct e; try discriminate. injection He as <-. lframe.
Qed.

(** ** Rows of the local blocks of a layout file *)

Lemma for_each_app {S X} (xs ys : list X) (body : X -> M S unit) (s : S) :
  for_each (xs ++ ys) body s =
  match for_each xs body s with
  | (Ok _, s1) => for_each ys body s1
  | (Raise e, s1) => (Raise e, s1)
  end.
Proof.
  revert s. induction xs as [| x xs IH]; intros s; simpl.
  - reflexivity.
  - unfold bind. destruct (body x s) as [[[] | e] s1]; [apply IH | reflexivity].
Qed.

Lemma for_each_zeros (st : Layout.state) (k : nat) (zeros : list num)
    (act : nat * num -> M Layout.state unit) :
  Forall (fun v => Num.eqb v Num.zero = true) zeros ->
  for_each (combine (seq k (length zeros)) zeros)
    (fun jv => if negb (Num.eqb (snd jv) Num.zero) then act jv else ret tt) st
  = (Ok tt, st).
Proof.
  intros H. revert k. induction H as [| v zeros Hv _ IH]; intros k; simpl.
  - reflexivity.
  - rewrite Hv. simpl. unfold bind at 1, ret at 1. apply IH.
Qed.

Lemma get_self_run (st : Layout.state) :
  Layout.get_self st = (Ok (Layout.obj st), st).
Proof. destruct st. reflexivity. Qed.

Lemma update_run (f : Layout.layout -> Layout.layout) (st : Layout.state) :
  Layout.update f st = (Ok tt, st <| Layout.obj := f (Layout.obj st) |>).
Proof. reflexivity. Qed.

Lemma outside_2d (g0 g1 : Z) (x y : num) :
  Layout.outside [g0; g1] x y
  = Ok (Num.geb x (Num.of_Z g0) || Num.geb y (Num.of_Z g1)).
Proof.
  unfold Layout.outside. simpl.
  destruct (Num.geb x (Num.of_Z g0)); reflexivity.
Qed.

Lemma index_nat {A} (l : list A) (k : nat) (a : A) :
  nth_error l k = Some a -> Seq.index l (Z.of_nat k) = Ok a.
Proof.
  intros H. unfold Seq.index.
  assert (Hk : (k < length l)%nat) by (apply nth_error_Some; congruence).
  cbv zeta.
  destruct (Z.ltb_spec (Z.of_nat k) 0) as [Hneg | _]; [lia |].
  destruct (Z.ltb_spec (Z.of_nat k) 0) as [Hneg | _]; [lia |].
  destruct (Z.leb_spec (Z.of_nat (length l)) (Z.of_nat k)) as [Hbig | _]; [lia |].
  cbn [orb]. rewrite Nat2Z.id, H. reflexivity.
Qed.

Lemma index_0 {A} (a : A) (l : list A) : Seq.index (a :: l) 0 = Ok a.
Proof. apply (index_nat (a :: l) 0). reflexivity. Qed.

Lemma index_1 {A} (a b : A) (l : list A) : Seq.index (a :: b :: l) 1 = Ok b.
Proof. apply (index_nat (a :: b :: l) 1). reflexivity. Qed.

Lemma outside_grid (g0 g1 : Z) (more : list Z) (x y : num) :
  Layout.outside (g0 :: g1 :: more) x y
  = Ok (Num.geb x (Num.of_Z g0) || Num.geb y (Num.of_Z g1)).
Proof.
  unfold Layout.outside. rewrite index_0. cbn [res_bind].
  destruct (Num.geb x (Num.of_Z g0)); [reflexivity |].
  rewrite index_1. reflexivity.
Qed.

Lemma read_local_row_inside (line : string) (x y : num) (vals : list num)
    (get_map : Layout.layout -> Layout.sparse)
    (set_map : Layout.sparse -> Layout.layout -> Layout.layout)
    (st : Layout.state) :
  Layout.floats line = Ok (x :: y :: vals) ->
  length vals = length (Layout.media (Layout.obj st)) ->
  Layout.outside (Layout.grid (Layout.obj st)) x y = Ok false ->
  Layout.read_local_row get_map set_map line st =
  Layout.store_local_row get_map set_map x y vals st.
Proof.
  intros Hf Hlen Hout. unfold Layout.read_local_row.
  unfold bind at 1, lift at 1. rewrite Hf.
  unfold bind at 1. rewrite get_self_run.
  replace (length (x :: y :: vals) =? length (Layout.media (Layout.obj st)) + 2)%nat
    with true by (symmetry; apply Nat.eqb_eq; simpl; lia).
  cbn [negb]. unfold bind, lift. rewrite index_0, index_1, Hout. reflexivity.
Qed.

Lemma read_local_row_outside (line : string) (x y : num) (vals : list num)
    (get_map : Layout.layout -> Layout.sparse)
    (set_map : Layout.sparse -> Layout.layout -> Layout.layout)
    (st : Layout.state) :
  Layout.floats line = Ok (x :: y :: vals) ->
  length vals = length (Layout.media (Layout.obj st)) ->
  Layout.outside (Layout.grid (Layout.obj st)) x y = Ok true ->
  Layout.read_local_row get_map set_map line st = (Raise OutOfGrid, st).
Proof.
  intros Hf Hlen Hout. unfold Layout.read_local_row.
  unfold bind at 1, lift at 1. rewrite Hf.
  unfold bind at 1. rewrite get_self_run.
  replace (length (x :: y :: vals) =? length (Layout.media (Layout.obj st)) + 2)%nat
    with true by (symmetry; apply Nat.eqb_eq; simpl; lia).
  cbn [negb]. unfold bind, lift. rewrite index_0, index_1, Hout. reflexivity.
Qed.

Lemma read_static_row_outside (line : string) (x y : num) (vals : list num)
    (st : Layout.state) :
  Layout.floats line = Ok (x :: y :: vals) ->
  length vals = (2 * length (Layout.media (Layout.obj st)))%nat ->
  Layout.outside (Layout.grid (Layout.obj st)) x y = Ok true ->
  Layout.read_static_row line st = (Raise OutOfGrid, st).
Proof.
  intros Hf Hlen Hout. unfold Layout.read_static_row.
  unfold bind at 1, lift at 1. rewrite Hf.
  unfold bind at 1. rewrite get_self_run.
  replace (length (x :: y :: vals) =? 2 * length (Layout.media (Layout.obj st)) + 2)%nat
    with true by (symmetry; apply Nat.eqb_eq; simpl length; lia).
  cbn [negb]. unfold bind, lift. rewrite index_0, index_1, Hout. reflexivity.
Qed.

Lemma store_local_row_zeros (x y : num) (zeros : list num)
    (get_map : Layout.layout -> Layout.sparse)
    (set_map : Layout.sparse -> Layout.layout -> Layout.layout)
    (st : Layout.state) :
  Forall (fun v => Num.eqb v Num.zero = true) zeros ->
  Layout.store_local_row get_map set_map x y zeros st =
  (Ok tt,
   st <| Layout.obj :=
           set_map (Layout.clear_at (get_map (Layout.obj st))
                                    (Num.trunc x, Num.trunc y))
                   (Layout.obj st) |>).
Proof.
  intros Hz. unfold Layout.store_local_row. cbv zeta.
  unfold bind at 1. rewrite update_run.
  apply for_each_zeros. exact Hz.
Qed.

(** A block whose scan reaches a row that raises OutOfGrid: the handler
    reports it and the block is left. *)
Lemma block_leaves_at_row {X} (body : X -> M Layout.state unit)
    (pre : list X) (row : X) (post : list X)
    (corrupt unallocated : option string) (msg : string)
    (st st1 : Layout.state) :
  for_each pre body st = (Ok tt, st1) ->
  body row st1 = (Raise OutOfGrid, st1) ->
  try_except (for_each (pre ++ row :: post) body)
             (Layout.report corrupt (Some msg) unallocated) st
  = (Ok tt, st1 <| Layout.stdout := Layout.stdout st1 ++ [msg] |>).
Proof.
  intros Hpre Hrow. unfold try_except. rewrite for_each_app, Hpre.
  cbn [for_each]. unfold bind at 1. rewrite Hrow. reflexivity.
Qed.

Lemma read_initpop_rows_app (g : list Z) (pre rest : list string)
    (temp : list (list (list num))) :
  Layout.read_initpop_rows g (pre ++ rest) temp =
  match Layout.read_initpop_rows g pre temp with
  | (Ok _, temp1) => Layout.read_initpop_rows g rest temp1
  | (Raise e, temp1) => (Raise e, temp1)
  end.
Proof.
  revert temp. induction pre as [| line pre IH]; intros temp; simpl.
  - reflexivity.
  - destruct (Layout.floats line) as [spec |]; [| reflexivity].
    destruct (negb _); [reflexivity |].
    destruct (res_bind _ _) as [[[x y] [|]] |]; try reflexivity. apply IH.
Qed.

Lemma read_initpop_row_outside (g : list Z) (line : string) (rest : list string)
    (x y : num) (vals : list num) (temp : list (list (list num))) :
  Layout.floats line = Ok (x :: y :: vals) ->
  length vals = length temp ->
  Layout.outside g x y = Ok true ->
  Layout.read_initpop_rows g (line :: rest) temp = (Raise OutOfGrid, temp).
Proof.
  intros Hf Hlen Hout. cbn [Layout.read_initpop_rows]. rewrite Hf.
  replace (Z.of_nat (length (x :: y :: vals)) - 2 =? Z.of_nat (length temp))
    with true by (symmetry; apply Z.eqb_eq; simpl length; lia).
  cbn [negb]. rewrite index_0, index_1. cbn [res_bind]. rewrite Hout.
  reflexivity.
Qed.

Lemma lookup_set_same {K V} (eqb : K -> K -> bool) (d : list (K * V)) (k : K) (v : V) :
  eqb k k = true -> Dict.lookup eqb (Dict.set eqb d k v) k = Some v.
Proof.
  intros Hrefl. induction d as [| [k' v'] d IH]; simpl.
  - rewrite Hrefl. reflexivity.
  - destruct (eqb k k') eqn:E; simpl; rewrite E; [reflexivity | exact IH].
Qed.

Lemma loc_eqb_refl (l : loc) : loc_eqb l l = true.
Proof. unfold loc_eqb. rewrite !Z.eqb_refl. reflexivity. Qed.

(** C4 (amended).  A dense local media row whose coordinate lies in the
    grid, which has one value per media metabolite and whose values are
    all zero, stores no metabolite, but it does create the entry of its
    coordinate: after the row, [local_media] maps the coordinate to the
    empty map (an entry that the coordinate had before is replaced by it),
    and the scan goes on with the next row. *)
Theorem all_zero_row_makes_empty_entry
    (line : string) (rest : list string) (x y : num) (zeros : list num)
    (st : Layout.state) :
  Layout.floats line = Ok (x :: y :: zeros) ->
  length zeros = length (Layout.media (Layout.obj st)) ->
  Forall (fun v => Num.eqb v Num.zero = true) zeros ->
  Layout.outside (Layout.grid (Layout.obj st)) x y = Ok false ->
  let set_map := fun d self => self <| Layout.local_media := d |> in
  let after :=
    st <| Layout.obj :=
            (Layout.obj st)
              <| Layout.local_media :=
                   Dict.set loc_eqb (Layout.local_media (Layout.obj st))
                            (Num.trunc x, Num.trunc y) [] |> |> in
  Layout.read_local_rows (line :: rest) Layout.local_media set_map st
    = Layout.read_local_rows rest Layout.local_media set_map after
  /\ Dict.lookup loc_eqb (Layout.local_media (Layout.obj after))
                 (Num.trunc x, Num.trunc y) = Some [].
Proof.
  intros Hf Hlen Hz Hout set_map after. split.
  - unfold Layout.read_local_rows. cbn [for_each]. unfold bind at 1.
    rewrite (read_local_row_inside line x y zeros _ _ st Hf Hlen Hout).
    rewrite (store_local_row_zeros x y zeros _ _ st Hz). reflexivity.
  - apply lookup_set_same. apply loc_eqb_refl.
Qed.


(** ** The region map *)

Section OutFrame.
Context (Q : list string -> Prop).

(** [Q] stays true when a line is printed. *)
Hypothesis Q_print : forall out msg, Q out -> Q (out ++ [msg]).

Lemma read_substrate_diffusivity_out f_lines end_blocks :
  preserves (on_out Q) (Layout.read_substrate_diffusivity f_lines end_blocks).
Proof.
  unfold Layout.read_substrate_diffusivity. lframe; intros; apply Q_print; assumption.
Qed.

Lemma read_static_out f_lines end_blocks :
  preserves (on_out Q) (Layout.read_static f_lines end_blocks).
Proof.
  unfold Layout.read_static, Layout.read_static_rows, Layout.read_static_row,
    Layout.store_static_row.
  cbv zeta. lframe; intros; apply Q_print; assumption.
Qed.

End OutFrame.

(** The friction block prints nothing. *)
Lemma read_substrate_friction_out (Q : list string -> Prop) f_lines end_blocks :
  preserves (on_out Q) (Layout.read_substrate_friction f_lines end_blocks).
Proof. unfold Layout.read_substrate_friction. lframe. Qed.

(** The grid is the one of the grid_size line once [read_grid] has
    returned. *)
Lemma read_grid_run f_lines st l g :
  Seq.index f_lines 2 = Ok l ->
  res_map Num.pyint (Seq.from (Text.split l) 1) = Ok g ->
  Layout.read_grid f_lines st
  = if (length g <? 2)%nat
    then (Ok tt,
          {| Layout.obj := (Layout.obj st) <| Layout.grid := g |>;
             Layout.stdout := Layout.stdout st ++ [Layout.msg_grid (length g)] |})
    else (Ok tt, st <| Layout.obj := (Layout.obj st) <| Layout.grid := g |> |>).
Proof.
  intros Hl Hg. unfold Layout.read_grid, try_except.
  unfold bind at 1. rewrite Hl. cbn [lift].
  unfold bind at 1. rewrite Hg. cbn [lift].
  unfold bind at 1, Layout.update, Layout.on_self, modify. cbn [fst snd].
  destruct (length g <? 2)%nat; reflexivity.
Qed.

Lemma read_grid_Ok f_lines st st1 l g :
  Layout.read_grid f_lines st = (Ok tt, st1) ->
  Seq.index f_lines 2 = Ok l ->
  res_map Num.pyint (Seq.from (Text.split l) 1) = Ok g ->
  Layout.grid (Layout.obj st1) = g.
Proof.
  intros H Hl Hg. rewrite (read_grid_run _ _ _ _ Hl Hg) in H.
  destruct (length g <? 2)%nat; inversion H; reflexivity.
Qed.

(** The substrate_layout block on a map of another shape than the grid. *)
Lemma read_substrate_layout_mismatch f_lines end_blocks a st :
  Scan.has "SUBSTRATE_LAYOUT" (map Text.upper f_lines) = true ->
  Layout.region_map_data f_lines end_blocks = Ok a ->
  Layout.list_Z_eqb (Layout.shape a) (Layout.grid (Layout.obj st)) = false ->
  Layout.read_substrate_layout f_lines end_blocks st
  = (Ok tt,
     {| Layout.obj := (Layout.obj st) <| Layout.region_flag := false |>;
        Layout.stdout := Layout.stdout st ++ [Layout.msg_region_layout] |}).
Proof.
  intros Hhas Ha Hshape. unfold Layout.read_substrate_layout.
  rewrite Hhas, Ha. destruct st as [o out]. destruct o.
  cbn [Layout.obj Layout.grid] in Hshape.
  unfold bind at 1, Layout.update, Layout.on_self, modify. cbn [fst snd].
  unfold try_except, bind, lift, Layout.get_self, Layout.on_self, get.
  cbn -[Layout.list_Z_eqb Layout.shape]. rewrite Hshape. reflexivity.
Qed.

(** C9.  When the read of a layout file completes and the map of its
    substrate_layout block has another shape than the grid of its
    grid_size line, the CorruptLine message of the block has been
    printed, the region flag is false and the region map is the one the
    layout had before the read (unset, for a layout under construction). *)
Theorem region_map_shape_mismatch
    (files : FS.fs) (input_obj : string) (file : list string)
    (l : string) (g : list Z) (a : list (list Z)) (st st' : Layout.state) :
  FS.read_file files input_obj = Ok file ->
  let f_lines := Scan.nonblank file in
  Seq.index f_lines 2 = Ok l ->
  res_map Num.pyint (Seq.from (Text.split l) 1) = Ok g ->
  Scan.has "SUBSTRATE_LAYOUT" (map Text.upper f_lines) = true ->
  Layout.region_map_data f_lines (Scan.ends f_lines) = Ok a ->
  Layout.list_Z_eqb (Layout.shape a) g = false ->
  Layout.read_comets_layout files input_obj st = (Ok tt, st') ->
  In Layout.msg_region_layout (Layout.stdout st') /\
  Layout.region_flag (Layout.obj st') = false /\
  Layout.region_map (Layout.obj st') = Layout.region_map (Layout.obj st).
Proof.
  intros Hfile f_lines Hl Hg Hhas Ha Hshape H.
  unfold Layout.read_comets_layout in H.
  mlift H as file' Hfile'. rewrite Hfile in Hfile'.
  injection Hfile' as <-. fold f_lines in H.
  mbind H as u1 s1 Hgrid.
  mbind H as temp s2 Hpop.
  mbind H as u3 s3 Hmodels.
  mbind H as names s4 Hworld.
  mbind H as u5 s5 Hdiff.
  mbind H as u6 s6 Hlocal.
  mbind H as u7 s7 Hlocal'.
  mbind H as u8 s8 Hrefresh.
  mbind H as u9 s9 Hregion.
  mbind H as u10 s10 Hdiffusivity.
  mbind H as u11 s11 Hfriction.
  destruct u1.
  (* up to the block *)
  assert (Hbefore : forall Q : Layout.layout -> Prop,
            (forall x x', Layout.region_map x = Layout.region_map x' ->
                          Layout.region_flag x = Layout.region_flag x' ->
                          Layout.grid x = Layout.grid x' -> Q x -> Q x') ->
            Q (Layout.obj s1) -> Q (Layout.obj s8)).
  { intros Q HQ H1.
    pose proof (read_initial_pop_frame Q HQ _ _ _ _ _ Hpop H1) as H2.
    pose proof (read_models_frame Q HQ _ _ _ _ _ _ Hmodels H2) as H3.
    pose proof (read_world_media_frame Q HQ _ _ _ _ _ Hworld H3) as H4.
    pose proof (read_diffusion_frame Q HQ _ _ _ _ _ Hdiff H4) as H5.
    pose proof (read_local_media_frame Q HQ _ _ _ _ _ Hlocal H5) as H6.
    pose proof (read_local_media_frame Q HQ _ _ _ _ _ Hlocal' H6) as H7.
    exact (read_refresh_frame Q HQ _ _ _ _ _ _ Hrefresh H7). }
  assert (Hgrid8 : Layout.grid (Layout.obj s8) = g).
  { apply (Hbefore (fun x => Layout.grid x = g)).
    - intros x x' _ _ E Hx. rewrite <- E. exact Hx.
    - exact (read_grid_Ok _ _ _ _ _ Hgrid Hl Hg). }
  assert (Hmap8 : Layout.region_map (Layout.obj s8)
                  = Layout.region_map (Layout.obj st)).
  { apply (Hbefore (fun x => Layout.region_map x
                             = Layout.region_map (Layout.obj st))).
    - intros x x' E _ _ Hx. rewrite <- E. exact Hx.
    - apply (read_grid_frame
               (fun x => Layout.region_map x = Layout.region_map (Layout.obj st))
               f_lines (fun x g' Hx => Hx) _ _ _ Hgrid).
      reflexivity. }
  (* the block *)
  rewrite (read_substrate_layout_mismatch f_lines _ a s8 Hhas Ha) in Hregion
    by (rewrite Hgrid8; exact Hshape).
  apply (f_equal snd) in Hregion. cbn [snd] in Hregion. rename Hregion into Hs9.
  (* after the block *)
  set (Q := fun x => Layout.region_flag x = false /\
                     Layout.region_map x = Layout.region_map (Layout.obj st)).
  assert (HQ : forall x x', Layout.region_map x = Layout.region_map x' ->
                            Layout.region_flag x = Layout.region_flag x' ->
                            Layout.grid x = Layout.grid x' -> Q x -> Q x').
  { intros x x' E1 E2 _ [Hf Hm]. split; [rewrite <- E2 | rewrite <- E1]; assumption. }
  assert (H9 : Q (Layout.obj s9)).
  { rewrite <- Hs9. split; [reflexivity | exact Hmap8]. }
  pose proof (read_substrate_diffusivity_frame Q HQ _ _ _ _ _ Hdiffusivity H9) as H10.
  pose proof (read_substrate_friction_frame Q HQ _ _ _ _ _ Hfriction H10) as H11.
  pose proof (read_static_frame Q HQ _ _ _ _ _ H H11) as [Hflag Hmap].
  set (P := fun out : list string => In Layout.msg_region_layout out).
  assert (HP : forall out msg, P out -> P (out ++ [msg])).
  { intros out msg Hin. apply in_or_app. left. exact Hin. }
  assert (P9 : P (Layout.stdout s9)).
  { rewrite <- Hs9. apply in_or_app. right. left. reflexivity. }
  pose proof (read_substrate_diffusivity_out P HP _ _ _ _ _ Hdiffusivity P9) as P10.
  pose proof (read_substrate_friction_out P _ _ _ _ _ Hfriction P10) as P11.
  pose proof (read_static_out P HP _ _ _ _ _ H P11) as Pend.
  split; [exact Pend | split; [exact Hflag | exact Hmap]].
Qed.

(** ** The sample layouts *)

(** C9, on the sample file. *)
Lemma region_map_shape_mismatch_sample :
  let st' := snd (Layout.read_comets_layout Samples.files "small_region.txt"
                    Samples.fresh) in
  In Layout.msg_region_layout (Layout.stdout st') /\
  Layout.region_flag (Layout.obj st') = false /\
  Layout.region_map (Layout.obj st') = None.
Proof.
  intros st'.
  apply (region_map_shape_mismatch Samples.files "small_region.txt"
           Samples.small_region_file "    grid_size 3 3" [3; 3]
           [[1; 1]; [1; 1]] Samples.fresh st');
    vm_compute; reflexivity.
Defined.

(** C4 (as stated) fails on the sample file. *)
Lemma all_zero_row_entry_in_sample :
  exists l,
    fst (Layout.of_path Samples.files "zero_row.txt") = Ok l /\
    Dict.mem loc_eqb (Layout.local_media l) (0, 0) = true /\
    Dict.lookup loc_eqb (Layout.local_media l) (0, 0) = Some [].
Proof. eexists. split; [vm_compute; reflexivity | split; vm_compute; reflexivity]. Qed.


(** C4 (amended), on the sample layout. *)
Lemma all_zero_row_makes_empty_entry_sample :
  let st := Samples.at_media_block in
  let set_map := fun d self => self <| Layout.local_media := d |> in
  let after := st <| Layout.obj := (Layout.obj st) <| Layout.local_media :=
         Dict.set loc_eqb (Layout.local_media (Layout.obj st)) (0, 0) [] |> |> in
  Layout.read_local_rows ["      0 0 0 0"] Layout.local_media set_map st
    = Layout.read_local_rows [] Layout.local_media set_map after
  /\ Dict.lookup loc_eqb (Layout.local_media (Layout.obj after)) (0, 0) = Some [].
Proof.
  apply (all_zero_row_makes_empty_entry "      0 0 0 0" []
           (Num.of_Z 0) (Num.of_Z 0) [Num.of_Z 0; Num.of_Z 0]
           Samples.at_media_block).
  - vm_compute. reflexivity.
  - vm_compute. reflexivity.
  - repeat constructor.
  - vm_compute. reflexivity.
Defined.



(** ** Required sections *)

Lemma positions_absent {A} (p : A -> bool) (k : nat) (l : list A) :
  existsb p l = false -> Seq.positions p k l = [].
Proof.
  revert k. induction l as [| a l IH]; simpl; intros k H; [reflexivity |].
  apply orb_false_iff in H. destruct H as [Ha Hl]. rewrite Ha. apply IH. exact Hl.
Qed.

Lemma positions_bound {A} (p : A -> bool) (k : nat) (l : list A) (x : nat) :
  In x (Seq.positions p k l) -> (x < k + length l)%nat.
Proof.
  revert k. induction l as [| a l IH]; simpl; intros k H; [contradiction |].
  destruct (p a).
  - destruct H as [<- | H]; [lia |]. apply IH in H. lia.
  - apply IH in H. lia.
Qed.

Lemma next_none {A} (p : A -> bool) (l : list A) :
  (forall x, In x l -> p x = false) -> Seq.next p l = Raise StopIteration.
Proof.
  induction l as [| a l IH]; simpl; intros H; [reflexivity |].
  rewrite (H a) by (left; reflexivity). apply IH. intros x Hx. apply H. right. exact Hx.
Qed.

(** Without the keyword, the line count of the whole text is what
    [re.split] leaves, and no terminator comes after it. *)
Lemma find_line_absent (kw : string) (f_lines : list string) :
  Scan.has kw f_lines = false ->
  Scan.find_line kw f_lines = (length f_lines - 1)%nat.
Proof.
  intros H. unfold Scan.find_line, Scan.has in *.
  rewrite (positions_absent _ _ _ H). reflexivity.
Qed.

Lemma section_absent (kw : string) (f_lines : list string) :
  Scan.has kw f_lines = false ->
  Scan.section kw f_lines = Raise StopIteration.
Proof.
  intros H. unfold Scan.section, Scan.next_end.
  rewrite (find_line_absent _ _ H), next_none; [reflexivity |].
  intros x Hx. unfold Scan.ends in Hx. apply positions_bound in Hx.
  apply Nat.ltb_ge. lia.
Qed.

Lemma section_present (kw : string) (f_lines body : list string) :
  Scan.section kw f_lines = Ok body -> Scan.has kw f_lines = true.
Proof.
  intros H. destruct (Scan.has kw f_lines) eqn:E; [reflexivity |].
  rewrite (section_absent _ _ E) in H. discriminate H.
Qed.

Lemma index_past_end {A} (l : list A) (k : nat) :
  (length l <= k)%nat -> Seq.index l (Z.of_nat k) = Raise IndexError.
Proof.
  intros H. unfold Seq.index.
  replace (Z.of_nat k <? 0) with false by (symmetry; apply Z.ltb_ge; lia).
  replace (Z.of_nat (length l) <=? Z.of_nat k) with true
    by (symmetry; apply Z.leb_le; lia).
  rewrite orb_true_r. reflexivity.
Qed.

Lemma exchange_ids_present (m_f_lines : list string) (exch : list Z) :
  Model.exchange_ids m_f_lines = Ok exch ->
  Scan.has "EXCHANGE_REACTIONS" m_f_lines = true.
Proof.
  intros H. destruct (Scan.has "EXCHANGE_REACTIONS" m_f_lines) eqn:E; [reflexivity |].
  unfold Model.exchange_ids in H. rewrite (find_line_absent _ _ E) in H.
  rewrite index_past_end in H by lia. discriminate H.
Qed.

Lemma objective_id_present (m_f_lines : list string) (obj : Z) :
  Model.objective_id m_f_lines = Ok obj ->
  Scan.has "OBJECTIVE" m_f_lines = true.
Proof.
  intros H. destruct (Scan.has "OBJECTIVE" m_f_lines) eqn:E; [reflexivity |].
  unfold Model.objective_id in H. rewrite (find_line_absent _ _ E) in H.
  rewrite index_past_end in H by lia. discriminate H.
Qed.

(** C6 (amended).  A model is returned by [model(path)] only if the file
    has the sections SMATRIX, REACTION_NAMES, BOUNDS, METABOLITE_NAMES,
    EXCHANGE_REACTIONS and OBJECTIVE and each of them parses; the
    objective is then the integer of the OBJECTIVE section.  A file
    without SMATRIX makes the constructor raise StopIteration.  A
    grid_size line with fewer than two dimensions does not end the read
    of a layout file: the grid is set to what the line gives, the
    CorruptLine message is printed, and the read goes on. *)
Theorem required_sections :
  (forall files path m,
     Model.of_path files path = Ok m ->
     exists file rxn_lines mets_lines smat_lines bnds_lines names bnds exch obj,
       FS.read_file files path = Ok file /\
       Forall (fun kw => Scan.has kw (Scan.nonblank file) = true)
         ["SMATRIX"; "REACTION_NAMES"; "BOUNDS"; "METABOLITE_NAMES";
          "EXCHANGE_REACTIONS"; "OBJECTIVE"] /\
       Scan.section "SMATRIX" (Scan.nonblank file) = Ok smat_lines /\
       Model.read_smat smat_lines = Ok (Model.smat m) /\
       Scan.section "REACTION_NAMES" (Scan.nonblank file) = Ok rxn_lines /\
       Model.read_names "REACTION_NAMES" rxn_lines = Ok names /\
       Scan.section "BOUNDS" (Scan.nonblank file) = Ok bnds_lines /\
       Model.read_bounds bnds_lines = Ok bnds /\
       Scan.section "METABOLITE_NAMES" (Scan.nonblank file) = Ok mets_lines /\
       Model.read_names "METABOLITE_NAMES" mets_lines = Ok (Model.metabolites m) /\
       Model.exchange_ids (Scan.nonblank file) = Ok exch /\
       Model.objective_id (Scan.nonblank file) = Ok obj /\
       Model.objective m = Some obj)
  /\
  (forall files path file m0,
     FS.read_file files path = Ok file ->
     Scan.has "SMATRIX" (Scan.nonblank file) = false ->
     fst (Model.read_comets_model files path m0) = Raise StopIteration)
  /\
  (forall f_lines l g st,
     Seq.index f_lines 2 = Ok l ->
     res_map Num.pyint (Seq.from (Text.split l) 1) = Ok g ->
     (length g < 2)%nat ->
     Layout.read_grid f_lines st
     = (Ok tt,
        {| Layout.obj := (Layout.obj st) <| Layout.grid := g |>;
           Layout.stdout := Layout.stdout st ++ [Layout.msg_grid (length g)] |})).
Proof.
  split; [| split].
  - intros files path m H. unfold Model.of_path in H.
    destruct (String.eqb (Text.last3 path) "cmd"); [| discriminate H].
    destruct (Model.read_comets_model files path Model.init) as [[[] | e] self] eqn:E;
      [| discriminate H].
    injection H as ->.
    destruct (read_comets_model_inv _ _ _ _ E)
      as (file & smat_lines & rxn_lines & bnds_lines & mets_lines & names & bnds
          & exch & obj & Hfile & Hs & Hsm & Hr & Hnames & Hb & Hbnds & Hm & Hmets
          & Hexch & Hobj & Hobjective & _).
    exists file, rxn_lines, mets_lines, smat_lines, bnds_lines, names, bnds, exch, obj.
    repeat match goal with |- _ /\ _ => split end; try assumption.
    repeat constructor;
      eauto using section_present, exchange_ids_present, objective_id_present.
  - intros files path file m0 Hfile Hhas. unfold Model.read_comets_model.
    unfold bind at 1, modify. unfold bind at 1. rewrite Hfile. cbn [lift].
    unfold bind at 1. rewrite (section_absent _ _ Hhas). reflexivity.
  - intros f_lines l g st Hl Hg Hlen. rewrite (read_grid_run _ _ _ _ Hl Hg).
    apply Nat.ltb_lt in Hlen. rewrite Hlen. reflexivity.
Qed.

(** C6 (as stated) fails on the sample file: the layout is read, with a
    grid of one dimension. *)
Lemma one_dimension_grid_is_read :
  exists l,
    Layout.of_path Samples.files "one_dimension.txt"
    = (Ok l, [Layout.msg_grid 1; Layout.msg_no_models]) /\
    Layout.grid l = [3].
Proof. eexists. split; vm_compute; reflexivity. Qed.

(** C6 (amended), on the sample files. *)
Lemma required_sections_sample :
  (exists m, Model.of_path Samples.files "m.cmd" = Ok m /\ Model.objective m = Some 2) /\
  fst (Model.read_comets_model (("none.cmd", ["BOUNDS 0 1000"; "//"]) :: Samples.files)
         "none.cmd" Model.init) = Raise StopIteration /\
  Layout.read_grid (Scan.nonblank Samples.one_dimension_file) Samples.fresh
  = (Ok tt,
     {| Layout.obj := Layout.init <| Layout.grid := [3] |>;
        Layout.stdout := [Layout.msg_grid 1] |}).
Proof.
  destruct required_sections as (Hread & Hnone & Hgrid).
  split; [| split].
  - destruct (Model.of_path Samples.files "m.cmd") as [m | e] eqn:E;
      [| vm_compute in E; discriminate E].
    exists m. split; [reflexivity |].
    destruct (Hread _ _ _ E)
      as (file & ? & ? & ? & ? & ? & ? & ? & obj & Hfile & _ & _ & _ & _ & _ & _
          & _ & _ & _ & _ & Hobj & Hm).
    vm_compute in Hfile. injection Hfile as <-.
    vm_compute in Hobj. injection Hobj as <-. exact Hm.
  - apply (Hnone _ "none.cmd" ["BOUNDS 0 1000"; "//"]); vm_compute; reflexivity.
  - apply (Hgrid _ "    grid_size 3" [3]); vm_compute; reflexivity.
Defined.

(** ** The sections of a written model file *)

Lemma emits_weaken {A} f (m : M FS.fs A) (P Q : list string -> Prop) :
  (forall ls, P ls -> Q ls) -> emits f m P -> emits f m Q.
Proof.
  intros HPQ Hm fs a fs' old H Hold.
  destruct (Hm _ _ _ _ H Hold) as (ls & HP & Hl). exists ls. auto.
Qed.

Lemma emits_bind {A B} f (m : M FS.fs A) (k : A -> M FS.fs B)
    (P Q : list string -> Prop) :
  emits f m P -> (forall a, emits f (k a) Q) ->
  emits f (bind m k) (fun ls => exists l1 l2, ls = l1 ++ l2 /\ P l1 /\ Q l2).
Proof.
  intros Hm Hk fs b fs' old H Hold.
  apply bind_Ok_inv in H. destruct H as (a & s1 & H1 & H2).
  destruct (Hm _ _ _ _ H1 Hold) as (l1 & HP & Hl1).
  destruct (Hk a _ _ _ _ H2 Hl1) as (l2 & HQ & Hl2).
  exists (l1 ++ l2). split; [exists l1, l2; auto |].
  rewrite Hl2, app_assoc. reflexivity.
Qed.

Lemma emits_ret {A} f (a : A) : emits f (ret a) (eq []).
Proof.
  intros fs b fs' old H Hold. inversion H. subst.
  exists []. rewrite app_nil_r. auto.
Qed.

Lemma emits_lift {A} f (r : res A) : emits f (lift r) (eq []).
Proof.
  intros fs b fs' old H Hold. apply lift_Ok_inv in H. destruct H as [_ ->].
  exists []. rewrite app_nil_r. auto.
Qed.

Lemma emits_write f (line : string) : emits f (FS.write f line) (eq [line]).
Proof.
  intros fs b fs' old H Hold. unfold FS.write in H.
  destruct (Text.all_char _ line); [| discriminate H].
  unfold modify in H. rewrite Hold in H. inversion H. subst.
  exists [line]. split; [reflexivity |].
  apply lookup_set_same. apply String.eqb_refl.
Qed.

Lemma emits_for_each {X} f (xs : list X) (body : X -> M FS.fs unit) :
  (forall x, emits f (body x) (fun _ => True)) ->
  emits f (for_each xs body) (fun _ => True).
Proof.
  intros Hb. induction xs as [| x xs IH]; simpl.
  - eapply emits_weaken; [| apply emits_ret]. auto.
  - eapply emits_weaken; [| apply emits_bind; [apply Hb | intros _; apply IH]]. auto.
Qed.

Lemma emits_to_csv f (col : list string) :
  emits f (FS.to_csv f col) (fun _ => True).
Proof.
  apply emits_for_each. intros s. destruct (Pandas.csv_plain s).
  - eapply emits_weaken; [| apply emits_write]. auto.
  - intros fs a fs' old H. discriminate H.
Qed.

Lemma sections_of_nil : sections_of [] [].
Proof. exists []. split; [reflexivity | constructor]. Qed.

Lemma sections_of_app k1 k2 l1 l2 :
  sections_of k1 l1 -> sections_of k2 l2 -> sections_of (k1 ++ k2) (l1 ++ l2).
Proof.
  intros (s1 & -> & H1) (s2 & -> & H2). exists (s1 ++ s2).
  split; [rewrite flat_map_app; reflexivity | apply Forall2_app; assumption].
Qed.

Lemma sections_of_one kw rest body :
  sections_of [kw] ((kw ^^ rest) :: body ++ ["//"]).
Proof.
  exists [(kw ^^ rest) :: body]. split.
  - simpl. rewrite app_nil_r. reflexivity.
  - repeat constructor. exists rest, body. reflexivity.
Qed.

(** A header line, what the body writes, the terminator, and sections
    after them. *)
Lemma emits_section f kw rest (body : M FS.fs unit) (more : M FS.fs unit) kws :
  emits f body (fun _ => True) ->
  emits f more (sections_of kws) ->
  emits f (FS.write f (kw ^^ rest) ;; body ;; FS.write f "//" ;; more)
    (sections_of (kw :: kws)).
Proof.
  intros Hbody Hmore.
  eapply emits_weaken;
    [| apply emits_bind; [apply emits_write | intros _];
       apply emits_bind; [apply Hbody | intros _];
       apply emits_bind; [apply emits_write | intros _; apply Hmore]].
  intros ls (l1 & l2 & -> & <- & l3 & l4 & -> & _ & l5 & l6 & -> & <- & Hs).
  change (kw :: kws) with ([kw] ++ kws).
  replace ([kw ^^ rest] ++ l3 ++ ["//"] ++ l6)
    with (((kw ^^ rest) :: l3 ++ ["//"]) ++ l6)
    by (simpl; rewrite <- app_assoc; reflexivity).
  apply sections_of_app; [apply sections_of_one | exact Hs].
Qed.

(** A block that may be absent, and sections after it. *)
Lemma emits_block f (block more : M FS.fs unit) k1 k2 :
  emits f block (sections_of k1) ->
  emits f more (sections_of k2) ->
  emits f (block ;; more) (sections_of (k1 ++ k2)).
Proof.
  intros Hb Hm.
  eapply emits_weaken; [| apply emits_bind; [apply Hb | intros _; apply Hm]].
  intros ls (l1 & l2 & -> & H1 & H2). apply sections_of_app; assumption.
Qed.

Lemma emits_nothing f : emits f (ret tt) (sections_of []).
Proof.
  eapply emits_weaken; [| apply emits_ret]. intros ls <-. apply sections_of_nil.
Qed.

(** The last section of a block. *)
Lemma emits_last_section f kw rest (body : M FS.fs unit) :
  emits f body (fun _ => True) ->
  emits f (FS.write f (kw ^^ rest) ;; body ;; FS.write f "//") (sections_of [kw]).
Proof.
  intros Hbody.
  eapply emits_weaken;
    [| apply emits_bind; [apply emits_write | intros _];
       apply emits_bind; [apply Hbody | intros _; apply emits_write]].
  intros ls (l1 & l2 & -> & <- & l3 & l4 & -> & _ & <-).
  apply (sections_of_one kw rest l3).
Qed.

Lemma emits_parameters f d :
  emits f (Model.write_parameters f d) (sections_of (parameter_keys d)).
Proof.
  destruct d as [items |]; simpl.
  - induction items as [| [k v] items IH]; simpl.
    + apply emits_nothing.
    + eapply emits_weaken;
        [| apply emits_bind;
           [apply emits_bind; [apply emits_write | intros _; apply emits_write]
           | intros _; apply IH]].
      intros ls (l1 & l2 & -> & (l3 & l4 & -> & <- & <-) & Hs).
      change (k :: map fst items) with ([k] ++ map fst items).
      apply sections_of_app; [| exact Hs].
      apply (sections_of_one k (" " ^^ Num.str v) []).
  - intros fs a fs' old H. discriminate H.
Qed.

(** A section of its header line alone. *)
Lemma emits_bare_section f kw rest :
  emits f (FS.write f (kw ^^ rest) ;; FS.write f "//") (sections_of [kw]).
Proof.
  eapply emits_weaken;
    [| apply emits_bind; [apply emits_write | intros _; apply emits_write]].
  intros ls (l1 & l2 & -> & <- & <-). apply (sections_of_one kw rest []).
Qed.

Lemma emits_any_write f line : emits f (FS.write f line) (fun _ => True).
Proof. eapply emits_weaken; [| apply emits_write]. auto. Qed.

Lemma emits_after_lift {A} f (r : res A) (k : A -> M FS.fs unit) P :
  (forall a, emits f (k a) P) -> emits f (bind (lift r) k) P.
Proof.
  intros Hk. eapply emits_weaken; [| apply emits_bind; [apply emits_lift | exact Hk]].
  intros ls (l1 & l2 & -> & <- & H). exact H.
Qed.

(** What follows the creation of the file: the sections in their order. *)
Lemma emits_model_sections f (self : Model.model) (d0 d1 : num)
    (smat_ bnd met_n rxn_n Vmax Km Hill : list string) (exch_r : string) :
  emits f
    (FS.write f ("SMATRIX  " ^^ Num.str_Z (Z.of_nat (length (Model.metabolites self)))
                 ^^ "  " ^^ Num.str_Z (Z.of_nat (length (Model.reactions self)))) ;;
     FS.to_csv f smat_ ;;
     FS.write f "//" ;;
     FS.write f ("BOUNDS " ^^ Num.str d0 ^^ " " ^^ Num.str d1) ;;
     FS.to_csv f bnd ;;
     FS.write f "//" ;;
     FS.write f "OBJECTIVE" ;;
     FS.write f ("    " ^^ Model.str_objective (Model.objective self)) ;;
     FS.write f "//" ;;
     FS.write f "METABOLITE_NAMES" ;;
     FS.to_csv f met_n ;;
     FS.write f "//" ;;
     FS.write f "REACTION_NAMES" ;;
     FS.to_csv f rxn_n ;;
     FS.write f "//" ;;
     FS.write f "EXCHANGE_REACTIONS" ;;
     FS.write f (" " ^^ exch_r) ;;
     FS.write f "//" ;;
     (if Model.vmax_flag self then
        FS.write f ("VMAX_VALUES " ^^ Num.str (Model.default_vmax self)) ;;
        FS.to_csv f Vmax ;;
        FS.write f "//"
      else ret tt) ;;
     (if Model.km_flag self then
        FS.write f ("KM_VALUES " ^^ Num.str (Model.default_km self)) ;;
        FS.to_csv f Km ;;
        FS.write f "//"
      else ret tt) ;;
     (if Model.hill_flag self then
        FS.write f ("HILL_VALUES " ^^ Num.str (Model.default_hill self)) ;;
        FS.to_csv f Hill ;;
        FS.write f "//"
      else ret tt) ;;
     (if Model.light_flag self then
        FS.write f "LIGHT" ;;
        for_each (Model.light self) (fun lrxn =>
          lrxn_ind <- lift (Model.reaction_id_text (Model.reactions self)
                              (fst (fst lrxn))) ;;
          FS.write f ("    " ^^ lrxn_ind ^^ " " ^^ Num.str (snd (fst lrxn))
                      ^^ " " ^^ Num.str (snd lrxn))) ;;
        FS.write f "//"
      else ret tt) ;;
     (match Model.signals self with
      | _ :: _ =>
          FS.write f "MET_REACTION_SIGNAL" ;;
          for_each (Model.signals self) (fun sg =>
            if forallb Model.signal_field_plain (Model.signal_fields sg)
            then FS.write f (Text.join " " (Model.signal_fields sg))
            else raise NotModelled) ;;
          FS.write f "//"
      | [] => ret tt
      end) ;;
     (if Model.convection_flag self
      then Model.write_parameters f (Model.convection_parameters self)
      else ret tt) ;;
     (if Model.nonlinear_diffusion_flag self
      then Model.write_parameters f (Model.nonlinear_diffusion_parameters self)
      else ret tt) ;;
     (if Model.noise_variance_flag self then
        v <- lift (match Model.noise_variance self with
                   | Some v => Ok v | None => Raise AttributeError end) ;;
        FS.write f ("noiseVariance" ^^ " " ^^ Num.str v) ;;
        FS.write f "//"
      else ret tt) ;;
     (if Model.neutral_drift_flag self then
        FS.write f "neutralDrift true" ;;
        FS.write f "//" ;;
        v <- lift (match Model.neutralDriftSigma self with
                   | Some v => Ok v | None => Raise AttributeError end) ;;
        FS.write f ("neutralDriftSigma " ^^ Num.str v) ;;
        FS.write f "//"
      else ret tt) ;;
     FS.write f "OBJECTIVE_STYLE" ;;
     FS.write f (Model.obj_style self) ;;
     FS.write f "//" ;;
     FS.write f ("OPTIMIZER " ^^ Model.optimizer self) ;;
     FS.write f "//")
    (sections_of (canonical_order self)).
Proof.
  unfold canonical_order. cbn [app].
  apply (emits_section f "SMATRIX"
           ("  " ^^ Num.str_Z (Z.of_nat (length (Model.metabolites self)))
            ^^ "  " ^^ Num.str_Z (Z.of_nat (length (Model.reactions self)))));
    [apply emits_to_csv |].
  apply (emits_section f "BOUNDS" (" " ^^ Num.str d0 ^^ " " ^^ Num.str d1));
    [apply emits_to_csv |].
  apply (emits_section f "OBJECTIVE" ""); [apply emits_any_write |].
  apply (emits_section f "METABOLITE_NAMES" ""); [apply emits_to_csv |].
  apply (emits_section f "REACTION_NAMES" ""); [apply emits_to_csv |].
  apply (emits_section f "EXCHANGE_REACTIONS" ""); [apply emits_any_write |].
  apply emits_block.
  { destruct (Model.vmax_flag self); [| apply emits_nothing].
    apply (emits_last_section f "VMAX_VALUES"
             (" " ^^ Num.str (Model.default_vmax self))).
    apply emits_to_csv. }
  apply emits_block.
  { destruct (Model.km_flag self); [| apply emits_nothing].
    apply (emits_last_section f "KM_VALUES"
             (" " ^^ Num.str (Model.default_km self))).
    apply emits_to_csv. }
  apply emits_block.
  { destruct (Model.hill_flag self); [| apply emits_nothing].
    apply (emits_last_section f "HILL_VALUES"
             (" " ^^ Num.str (Model.default_hill self))).
    apply emits_to_csv. }
  apply emits_block.
  { destruct (Model.light_flag self); [| apply emits_nothing].
    apply (emits_last_section f "LIGHT" "").
    apply emits_for_each. intros lrxn. apply emits_after_lift. intros ind.
    apply emits_any_write. }
  apply emits_block.
  { destruct (Model.signals self) as [| sg sgs] eqn:E; [apply emits_nothing |].
    apply (emits_last_section f "MET_REACTION_SIGNAL" "").
    apply emits_for_each. intros sg'.
    destruct (forallb _ _); [apply emits_any_write |].
    intros fs a fs' old H. discriminate H. }
  apply emits_block.
  { destruct (Model.convection_flag self);
      [apply emits_parameters | apply emits_nothing]. }
  apply emits_block.
  { destruct (Model.nonlinear_diffusion_flag self);
      [apply emits_parameters | apply emits_nothing]. }
  apply emits_block.
  { destruct (Model.noise_variance_flag self); [| apply emits_nothing].
    apply emits_after_lift. intros v.
    apply (emits_bare_section f "noiseVariance" (" " ^^ Num.str v)). }
  apply emits_block.
  { destruct (Model.neutral_drift_flag self); [| apply emits_nothing].
    eapply emits_weaken;
      [| apply emits_bind; [apply emits_write | intros _];
         apply emits_bind; [apply emits_write | intros _];
         apply emits_after_lift; intros v;
         apply (emits_bare_section f "neutralDriftSigma" (" " ^^ Num.str v))].
    intros ls (l1 & l2 & -> & <- & l3 & l4 & -> & <- & Hs).
    change (when true ["neutralDrift"; "neutralDriftSigma"])
      with (["neutralDrift"] ++ ["neutralDriftSigma"]).
    change (["neutralDrift true"] ++ ["//"] ++ l4)
      with ((("neutralDrift" ^^ " true") :: [] ++ ["//"]) ++ l4).
    apply sections_of_app; [apply sections_of_one | exact Hs]. }
  apply (emits_section f "OBJECTIVE_STYLE" ""); [apply emits_any_write |].
  apply (emits_bare_section f "OPTIMIZER" (" " ^^ Model.optimizer self)).
Qed.



(** ** Default bounds *)

(** C2.  The sample model with default bounds 0 and 0 and every reaction
    at these bounds is written with the header line BOUNDS 0 0 and an
    empty BOUNDS body; read back, every reaction has the upper bound 0.1:
    [read_csv] has renamed the second label 0 of the header to 0.1, and
    the reader takes the defaults from the labels. *)
Theorem equal_default_bounds_read_back :
  exists fs' file m',
    Model.write_comets_model Samples.closed_model (Some "wd/") [] = (Ok tt, fs') /\
    FS.read_file fs' "wd/m.cmd" = Ok file /\
    Scan.section "BOUNDS" (Scan.nonblank file) = Ok ["BOUNDS 0 0"] /\
    Model.of_path fs' "wd/m.cmd" = Ok m' /\
    map (fun r => (Model.LB r, Model.UB r)) (Model.reactions m')
    = [(Num.of_Z 0, Num.mk false 0 (D1 Nil)); (Num.of_Z 0, Num.mk false 0 (D1 Nil))] /\
    Forall (fun r => Num.eqb (Model.UB r) (Num.of_Z 0) = false) (Model.reactions m').
Proof.
  eexists. eexists. eexists.
  split; [vm_compute; reflexivity |].
  split; [vm_compute; reflexivity |].
  split; [vm_compute; reflexivity |].
  split; [vm_compute; reflexivity |].
  split; [vm_compute; reflexivity |].
  vm_compute. repeat constructor.
Qed.

(** ** Tokens and lines *)

Lemma append_assoc (a b c : string) : (a ^^ b) ^^ c = a ^^ b ^^ c.
Proof. induction a as [| x a IH]; simpl; [reflexivity | rewrite IH; reflexivity]. Qed.

Lemma all_char_append (f : ascii -> bool) (a b : string) :
  Text.all_char f (a ^^ b) = Text.all_char f a && Text.all_char f b.
Proof.
  induction a as [| x a IH]; simpl; [reflexivity |].
  rewrite IH, andb_assoc. reflexivity.
Qed.

Lemma all_char_weaken (f g : ascii -> bool) (s : string) :
  (forall c, f c = true -> g c = true) ->
  Text.all_char f s = true -> Text.all_char g s = true.
Proof.
  intros Hfg. induction s as [| c s IH]; simpl; [reflexivity |].
  intros H. apply andb_true_iff in H. destruct H as [Hc Hs].
  rewrite (Hfg _ Hc), (IH Hs). reflexivity.
Qed.

Lemma is_token_inv (t : string) :
  is_token t = true ->
  exists c t', t = String c t' /\ Text.is_space c = false /\
               Text.all_char (fun c => negb (Text.is_space c)) t' = true.
Proof.
  unfold is_token. destruct t as [| c t']; simpl; [discriminate |].
  intros H. apply andb_true_iff in H. destruct H as [Hc Ht].
  exists c, t'. split; [reflexivity |]. split; [| exact Ht].
  apply negb_true_iff. exact Hc.
Qed.

Lemma split_eq (s : string) :
  Text.split s =
  match s with
  | "" => []
  | String c s' =>
      if Text.is_space c then Text.split s'
      else match s' with
           | "" => [String c ""]
           | String c' _ =>
               if Text.is_space c' then String c "" :: Text.split s'
               else match Text.split s' with
                    | t :: ts => String c t :: ts
                    | [] => [String c ""]
                    end
           end
  end.
Proof. destruct s; reflexivity. Qed.

Lemma split_run (t : string) (c : ascii) (s : string) :
  is_token t = true -> Text.is_space c = true ->
  Text.split (t ^^ String c s) = t :: Text.split s.
Proof.
  intros Ht Hc. apply is_token_inv in Ht. destruct Ht as (a & t' & -> & Ha & Ht').
  revert a Ha. induction t' as [| b t'' IH]; intros a Ha.
  - rewrite split_eq. cbn [append]. rewrite Ha, Hc.
    rewrite (split_eq (String c s)), Hc. reflexivity.
  - simpl in Ht'. apply andb_true_iff in Ht'. destruct Ht' as [Hb Ht''].
    apply negb_true_iff in Hb. assert (IH' := IH Ht'' b Hb).
    rewrite split_eq. cbn [append] in *. rewrite Ha, Hb, IH'. reflexivity.
Qed.

Lemma split_token (t : string) : is_token t = true -> Text.split t = [t].
Proof.
  intros Ht. apply is_token_inv in Ht. destruct Ht as (a & t' & -> & Ha & Ht').
  revert a Ha. induction t' as [| b t'' IH]; intros a Ha.
  - rewrite split_eq, Ha. reflexivity.
  - simpl in Ht'. apply andb_true_iff in Ht'. destruct Ht' as [Hb Ht''].
    apply negb_true_iff in Hb. assert (IH' := IH Ht'' b Hb).
    rewrite split_eq, Ha, Hb, IH'. reflexivity.
Qed.

Lemma split_space (c : ascii) (s : string) :
  Text.is_space c = true -> Text.split (String c s) = Text.split s.
Proof. intros Hc. rewrite split_eq, Hc. reflexivity. Qed.

Lemma split_blanks (pre s : string) :
  Text.all_char Text.is_space pre = true -> Text.split (pre ^^ s) = Text.split s.
Proof.
  induction pre as [| c pre IH]; [reflexivity |].
  cbn [append Text.all_char]. intros H.
  apply andb_true_iff in H. destruct H as [Hc Hp].
  rewrite split_space by exact Hc. apply IH. exact Hp.
Qed.

(** [split] of tokens joined by blanks. *)
Lemma split_join (sep : string) (cells : list string) :
  sep <> "" -> Text.all_char Text.is_space sep = true ->
  Forall (fun t => is_token t = true) cells ->
  Text.split (Text.join sep cells) = cells.
Proof.
  intros Hne Hsep Hcells. unfold Text.join.
  induction Hcells as [| t cells Ht Hcells IH]; [reflexivity |].
  destruct cells as [| t2 cells'].
  - simpl. apply split_token. exact Ht.
  - destruct sep as [| c sep']; [contradiction Hne; reflexivity |].
    assert (Hc : Text.is_space c = true).
    { simpl in Hsep. apply andb_true_iff in Hsep. tauto. }
    assert (Hs' : Text.all_char Text.is_space sep' = true).
    { simpl in Hsep. apply andb_true_iff in Hsep. tauto. }
    change (String.concat (String c sep') (t :: t2 :: cells'))
      with (t ^^ String c (sep' ^^ String.concat (String c sep') (t2 :: cells'))).
    rewrite split_run by assumption.
    rewrite split_blanks by exact Hs'. rewrite IH. reflexivity.
Qed.

Lemma split_row_text (cells : list string) :
  Forall (fun t => is_token t = true) cells ->
  Text.split (Model.row_text cells) = cells.
Proof.
  intros H. unfold Model.row_text. rewrite split_blanks by reflexivity.
  apply split_join; [discriminate | reflexivity | exact H].
Qed.

Lemma rstrip_token (t : string) :
  Text.all_char (fun c => negb (Text.is_space c)) t = true -> Text.rstrip t = t.
Proof.
  induction t as [| c t IH]; [reflexivity |]. simpl. intros H.
  apply andb_true_iff in H. destruct H as [Hc Ht]. rewrite (IH Ht).
  apply negb_true_iff in Hc. rewrite Hc. destruct t; reflexivity.
Qed.

Lemma strip_token (pre t : string) :
  Text.all_char Text.is_space pre = true ->
  is_token t = true -> Text.strip (pre ^^ t) = t.
Proof.
  intros Hpre Ht. unfold Text.strip.
  assert (Hl : Text.lstrip (pre ^^ t) = t).
  { induction pre as [| c pre IH]; simpl.
    - apply is_token_inv in Ht. destruct Ht as (a & t' & -> & Ha & _).
      simpl. rewrite Ha. reflexivity.
    - simpl in Hpre. apply andb_true_iff in Hpre. destruct Hpre as [Hc Hp].
      rewrite Hc. apply IH. exact Hp. }
  rewrite Hl. apply rstrip_token. unfold is_token in Ht.
  apply andb_true_iff in Ht. tauto.
Qed.

Lemma split_lstrip (s : string) : Text.split (Text.lstrip s) = Text.split s.
Proof.
  induction s as [| c s IH]; [reflexivity |]. cbn [Text.lstrip].
  destruct (Text.is_space c) eqn:Hc; [| reflexivity].
  rewrite (split_space c s Hc). exact IH.
Qed.

Lemma rstrip_head (c : ascii) (s : string) :
  Text.rstrip (String c s) = "" \/
  exists r, Text.rstrip (String c s) = String c r.
Proof.
  cbn [Text.rstrip]. destruct (Text.rstrip s) as [| d r].
  - destruct (Text.is_space c); [left; reflexivity | right; exists ""; reflexivity].
  - right. exists (String d r). reflexivity.
Qed.

Lemma rstrip_empty (s : string) :
  Text.rstrip s = "" -> Text.split s = [].
Proof.
  induction s as [| c s IH]; [reflexivity |]. cbn [Text.rstrip].
  destruct (Text.rstrip s) as [| d r] eqn:E; [| discriminate].
  destruct (Text.is_space c) eqn:Hc; [| discriminate].
  intros _. rewrite (split_space c s Hc). apply IH. reflexivity.
Qed.

Lemma split_rstrip (s : string) : Text.split (Text.rstrip s) = Text.split s.
Proof.
  induction s as [| c s IH]; [reflexivity |].
  cbn [Text.rstrip]. destruct (Text.rstrip s) as [| d r] eqn:E.
  - assert (Hs : Text.split s = []) by (apply rstrip_empty; exact E).
    destruct (Text.is_space c) eqn:Hc.
    + rewrite (split_space c s Hc), Hs. reflexivity.
    + destruct s as [| c' s']; [reflexivity |].
      rewrite (split_eq (String c (String c' s'))), Hc, Hs.
      rewrite (split_eq (String c "")), Hc.
      destruct (Text.is_space c'); reflexivity.
  - destruct s as [| c' s']; [discriminate E |].
    destruct (rstrip_head c' s') as [H0 | [r' Hr']]; [congruence |].
    rewrite Hr' in E. injection E as <- <-.
    rewrite (split_eq (String c (String c' r'))), (split_eq (String c (String c' s'))).
    rewrite IH. reflexivity.
Qed.

Lemma split_strip (s : string) : Text.split (Text.strip s) = Text.split s.
Proof. unfold Text.strip. rewrite split_rstrip. apply split_lstrip. Qed.

(** ** Characters of a line *)

Lemma starts_with_class (cls : ascii -> bool) (kw s : string) :
  Text.starts_with kw s = true ->
  Text.all_char cls s = true -> Text.all_char cls kw = true.
Proof.
  revert s. induction kw as [| a kw IH]; intros s; [reflexivity |].
  destruct s as [| b s]; simpl; [discriminate |]. intros H Hs.
  apply andb_true_iff in H. destruct H as [Hab Hkw].
  apply andb_true_iff in Hs. destruct Hs as [Hb Hs].
  apply Ascii.eqb_eq in Hab. subst b. rewrite Hb. simpl. eapply IH; eauto.
Qed.

(** A keyword with a character that the line cannot have is not in the
    line. *)
Lemma contains_class (cls : ascii -> bool) (kw s : string) :
  Text.all_char cls kw = false ->
  Text.all_char cls s = true -> Text.contains kw s = false.
Proof.
  intros Hkw. induction s as [| b s IH]; intros Hs.
  - simpl. destruct kw; [discriminate Hkw | reflexivity].
  - cbn [Text.contains]. apply orb_false_iff. split.
    + destruct (Text.starts_with kw (String b s)) eqn:E; [| reflexivity].
      rewrite (starts_with_class cls _ _ E Hs) in Hkw. discriminate Hkw.
    + apply IH. simpl in Hs. apply andb_true_iff in Hs. tauto.
Qed.

Lemma starts_with_append (kw rest : string) : Text.starts_with kw (kw ^^ rest) = true.
Proof.
  induction kw as [| a kw IH]; simpl; [reflexivity |].
  rewrite Ascii.eqb_refl. exact IH.
Qed.

Lemma contains_prefix (kw rest : string) : Text.contains kw (kw ^^ rest) = true.
Proof.
  destruct (kw ^^ rest) eqn:E; simpl; rewrite <- E, starts_with_append; reflexivity.
Qed.

(** ** Numbers as they are written and read *)


Lemma string_of_uint_digits (d : uint) :
  Text.all_char is_digit (NilEmpty.string_of_uint d) = true.
Proof. induction d; simpl; try reflexivity; exact IHd. Qed.

Lemma string_of_uint_nonempty (d : uint) :
  d <> Nil -> NilEmpty.string_of_uint d <> "".
Proof. destruct d; simpl; congruence. Qed.

Lemma to_uint_nonnil (n : N) : N.to_uint n <> Nil.
Proof.
  intros H. pose proof (DecimalN.Unsigned.of_to n) as E. rewrite H in E.
  simpl in E. subst n. discriminate H.
Qed.

Lemma digits_string_of_uint (d : uint) :
  d <> Nil -> Num.digits (NilEmpty.string_of_uint d) = Some d.
Proof.
  intros H. unfold Num.digits.
  destruct (NilEmpty.string_of_uint d) eqn:E.
  - contradiction (string_of_uint_nonempty d H E).
  - rewrite <- E. apply NilEmpty.usu.
Qed.

Lemma split_dot_digits (i rest : string) :
  Text.all_char is_digit i = true ->
  Num.split_dot (i ^^ rest) =
  (let (a, b) := Num.split_dot rest in (i ^^ a, b)).
Proof.
  induction i as [| c i IH]; simpl; intros H.
  - destruct (Num.split_dot rest). reflexivity.
  - apply andb_true_iff in H. destruct H as [Hc Hi].
    assert (Hdot : Ascii.eqb c "." = false).
    { destruct (Ascii.eqb c ".") eqn:E; [| reflexivity].
      apply Ascii.eqb_eq in E. subst c. discriminate Hc. }
    rewrite Hdot, (IH Hi). destruct (Num.split_dot rest). reflexivity.
Qed.

Lemma append_empty (s : string) : s ^^ "" = s.
Proof. induction s as [| c s IH]; simpl; [reflexivity | rewrite IH; reflexivity]. Qed.

Lemma unsigned_str (n : N) (f : uint) :
  Num.unsigned
    (NilEmpty.string_of_uint (N.to_uint n) ^^
     match f with Nil => "" | g => "." ^^ NilEmpty.string_of_uint g end)
  = Some (n, f).
Proof.
  unfold Num.unsigned.
  rewrite split_dot_digits by apply string_of_uint_digits.
  assert (Hi : Num.digits (NilEmpty.string_of_uint (N.to_uint n))
               = Some (N.to_uint n))
    by (apply digits_string_of_uint, to_uint_nonnil).
  destruct f eqn:Ef;
    [simpl; rewrite append_empty, Hi, DecimalN.Unsigned.of_to; reflexivity | ..];
    cbn [Num.split_dot append]; rewrite Ascii.eqb_refl;
    rewrite append_empty, Hi, DecimalN.Unsigned.of_to;
    rewrite digits_string_of_uint by discriminate;
    reflexivity.
Qed.

Lemma literal_signed (sg : bool) (body : string) (n : N) (f : uint) :
  Num.unsigned body = Some (n, f) ->
  (exists c rest, body = String c rest /\ is_digit c = true) ->
  Num.literal ((if sg then "-" else "") ^^ body) = Some (Num.mk sg n f).
Proof.
  intros H (c & rest & Hb & Hc). destruct sg.
  - change ("-" ^^ body) with (String "-" body). unfold Num.literal.
    cbv beta iota. rewrite H. reflexivity.
  - change ("" ^^ body) with body. rewrite Hb in *. unfold Num.literal.
    destruct c as [[] [] [] [] [] [] [] []]; try discriminate Hc;
      cbv beta iota; rewrite H; reflexivity.
Qed.

Lemma literal_str (x : num) : Num.literal (Num.str x) = Some x.
Proof.
  destruct x as [sg n f]. unfold Num.str. cbn [Num.neg Num.int_part Num.frac].
  apply literal_signed;
    [destruct f;
     match goal with |- _ = Some (_, ?g) => exact (unsigned_str n g) end |].
  destruct (N.to_uint n) eqn:E; [contradiction (to_uint_nonnil n E) | ..];
    cbn [NilEmpty.string_of_uint append]; eexists; eexists;
    (split; [reflexivity | reflexivity]).
Qed.


Lemma str_numeric (x : num) : Text.all_char is_numeric (Num.str x) = true.
Proof.
  assert (Hd : forall d, Text.all_char is_numeric (NilEmpty.string_of_uint d) = true).
  { intros d. apply (all_char_weaken is_digit); [| apply string_of_uint_digits].
    intros c. destruct c as [[] [] [] [] [] [] [] []]; try discriminate; reflexivity. }
  destruct x as [sg n f]. unfold Num.str. cbn [Num.neg Num.int_part Num.frac].
  rewrite !all_char_append, Hd.
  destruct sg, f; cbn [Text.all_char append andb];
    try reflexivity; try apply Hd;
    change (Text.all_char is_numeric (String "." ?s)) with (Text.all_char is_numeric s);
    apply Hd.
Qed.

Lemma numeric_not_space (c : ascii) :
  is_numeric c = true -> negb (Text.is_space c) = true.
Proof. destruct c as [[] [] [] [] [] [] [] []]; try discriminate; reflexivity. Qed.

Lemma str_nonempty (x : num) : Num.str x <> "".
Proof.
  destruct x as [sg n f]. unfold Num.str. cbn [Num.neg Num.int_part Num.frac].
  destruct sg; [discriminate |]. cbn [append].
  destruct (N.to_uint n) eqn:E; [contradiction (to_uint_nonnil n E) | ..];
    discriminate.
Qed.

Lemma str_token (x : num) : is_token (Num.str x) = true.
Proof.
  unfold is_token. apply andb_true_iff. split.
  - apply negb_true_iff, String.eqb_neq, str_nonempty.
  - apply (all_char_weaken is_numeric); [apply numeric_not_space | apply str_numeric].
Qed.

Lemma strip_str (x : num) : Text.strip (Num.str x) = Num.str x.
Proof. apply (strip_token "" (Num.str x)); [reflexivity | apply str_token]. Qed.

Lemma pyfloat_str (x : num) : Num.pyfloat (Num.str x) = Ok x.
Proof. unfold Num.pyfloat. rewrite strip_str, literal_str. reflexivity. Qed.

Lemma of_Z_value (z : Z) :
  (if z <? 0 then - Z.of_N (Z.abs_N z) else Z.of_N (Z.abs_N z)) = z.
Proof. rewrite N2Z.inj_abs_N. destruct (Z.ltb_spec z 0); lia. Qed.

Lemma pyint_str_Z (z : Z) : Num.pyint (Num.str_Z z) = Ok z.
Proof.
  unfold Num.pyint, Num.str_Z. rewrite strip_str, literal_str.
  unfold Num.of_Z. rewrite of_Z_value. reflexivity.
Qed.

Lemma integer_str_Z (z : Z) : Pandas.integer (Num.str_Z z) = Ok z.
Proof.
  unfold Pandas.integer, Num.str_Z. rewrite literal_str.
  unfold Num.of_Z. rewrite of_Z_value. reflexivity.
Qed.

Lemma mantissa_of_Z (z : Z) : Num.mantissa (Num.of_Z z) = z.
Proof.
  unfold Num.mantissa, Num.of_Z, Num.scale. cbn [Num.neg Num.int_part Num.frac nb_digits].
  change (N.of_uint Nil) with 0%N. rewrite Z.pow_0_r, Z.mul_1_r, Z.add_0_r.
  apply of_Z_value.
Qed.

Lemma eqb_of_Z (a b : Z) : Num.eqb (Num.of_Z a) (Num.of_Z b) = (a =? b).
Proof.
  unfold Num.eqb, Num.compare. rewrite !mantissa_of_Z.
  change (Num.scale (Num.of_Z a)) with 0%nat.
  change (Num.scale (Num.of_Z b)) with 0%nat.
  rewrite Z.pow_0_r, !Z.mul_1_r.
  destruct (Z.compare_spec a b) as [-> | H | H].
  - rewrite Z.eqb_refl. reflexivity.
  - symmetry. apply Z.eqb_neq. lia.
  - symmetry. apply Z.eqb_neq. lia.
Qed.

Lemma num_eqb_refl (x : num) : Num.eqb x x = true.
Proof. unfold Num.eqb, Num.compare. rewrite Z.compare_refl. reflexivity. Qed.

(** ** Sections of a file laid out in blocks *)

Lemma positions_app {A} (p : A -> bool) (k : nat) (l1 l2 : list A) :
  Seq.positions p k (l1 ++ l2)
  = Seq.positions p k l1 ++ Seq.positions p (k + length l1) l2.
Proof.
  revert k. induction l1 as [| a l1 IH]; intros k; simpl.
  - rewrite Nat.add_0_r. reflexivity.
  - rewrite IH. replace (S k + length l1)%nat with (k + S (length l1))%nat by lia.
    destruct (p a); reflexivity.
Qed.

Lemma find_line_at (kw : string) (pre : list string) (hdr : string)
    (post : list string) :
  existsb (Text.contains kw) pre = false ->
  Text.contains kw hdr = true ->
  Scan.find_line kw (pre ++ hdr :: post) = length pre.
Proof.
  intros Hpre Hhdr. unfold Scan.find_line.
  rewrite positions_app, (positions_absent _ _ _ Hpre). simpl. rewrite Hhdr.
  reflexivity.
Qed.

Lemma has_at (kw : string) (pre : list string) (hdr : string) (post : list string) :
  Text.contains kw hdr = true -> Scan.has kw (pre ++ hdr :: post) = true.
Proof.
  intros H. unfold Scan.has. rewrite existsb_app. simpl. rewrite H.
  rewrite orb_true_r. reflexivity.
Qed.

Lemma next_skip {A} (p : A -> bool) (l1 l2 : list A) :
  (forall x, In x l1 -> p x = false) -> Seq.next p (l1 ++ l2) = Seq.next p l2.
Proof.
  induction l1 as [| a l1 IH]; intros H; [reflexivity |]. simpl.
  rewrite (H a) by (left; reflexivity). apply IH. intros x Hx. apply H. right. exact Hx.
Qed.

Lemma index_at {A} (pre : list A) (a : A) (post : list A) (k : nat) :
  k = length pre -> Seq.index (pre ++ a :: post) (Z.of_nat k) = Ok a.
Proof.
  intros ->. unfold Seq.index. cbv zeta.
  assert (E1 : (Z.of_nat (length pre) <? 0) = false) by (apply Z.ltb_ge; lia).
  assert (E2 : (Z.of_nat (length (pre ++ a :: post)) <=? Z.of_nat (length pre)) = false)
    by (apply Z.leb_gt; rewrite length_app; simpl; lia).
  rewrite E1. cbv iota. rewrite E1, E2. cbn [orb].
  rewrite Nat2Z.id, nth_error_app2 by lia.
  rewrite Nat.sub_diag. reflexivity.
Qed.

(** The section under the first line with [kw]: its header line and its
    body, up to the terminator. *)
Lemma section_at (kw : string) (pre : list string) (hdr : string)
    (body post : list string) :
  existsb (Text.contains kw) pre = false ->
  Text.contains kw hdr = true ->
  existsb (Text.contains "//") (hdr :: body) = false ->
  Scan.section kw (pre ++ (hdr :: body ++ ["//"]) ++ post) = Ok (hdr :: body).
Proof.
  intros Hpre Hhdr Hbody.
  replace (pre ++ (hdr :: body ++ ["//"]) ++ post)
    with (pre ++ (hdr :: body) ++ "//" :: post)
    by (simpl; rewrite <- app_assoc; reflexivity).
  unfold Scan.section. cbv zeta.
  assert (Hf : Scan.find_line kw (pre ++ (hdr :: body) ++ "//" :: post) = length pre)
    by exact (find_line_at kw pre hdr (body ++ "//" :: post) Hpre Hhdr).
  rewrite Hf.
  unfold Scan.next_end, Scan.ends.
  rewrite positions_app.
  rewrite next_skip.
  2:{ intros x Hx. apply positions_bound in Hx. apply Nat.ltb_ge. lia. }
  rewrite positions_app, (positions_absent _ _ _ Hbody), app_nil_l.
  cbn [Seq.positions]. change (Text.contains "//" "//") with true.
  cbn [Seq.next].
  replace (length pre <? 0 + length pre + length (hdr :: body))%nat with true
    by (symmetry; apply Nat.ltb_lt; simpl; lia).
  cbn [res_bind]. unfold Seq.slice.
  rewrite skipn_app, skipn_all, Nat.sub_diag, app_nil_l.
  cbn [skipn]. f_equal.
  replace (0 + length pre + length (hdr :: body) - length pre)%nat
    with (length (hdr :: body)) by lia.
  rewrite firstn_app, firstn_all, Nat.sub_diag. cbn [firstn]. apply app_nil_r.
Qed.

Lemma nonblank_id (lines : list string) :
  Forall (fun l => l <> "") lines -> Scan.nonblank lines = lines.
Proof.
  intros H. unfold Scan.nonblank. induction H as [| l lines Hl H IH]; [reflexivity |].
  simpl. rewrite IH. apply String.eqb_neq in Hl. rewrite Hl. reflexivity.
Qed.

Lemma existsb_map_false {A B} (f : A -> B) (p : B -> bool) (l : list A) :
  (forall a, In a l -> p (f a) = false) -> existsb p (map f l) = false.
Proof.
  induction l as [| a l IH]; intros H; [reflexivity |]. simpl.
  rewrite (H a) by (left; reflexivity). apply IH. intros x Hx. apply H. right. exact Hx.
Qed.

(** ** Writing a basic model *)

Lemma appends_ret f : appends f (ret tt) [].
Proof.
  intros fs old H. exists fs. split; [reflexivity |]. rewrite app_nil_r. exact H.
Qed.

Lemma appends_bind f (m : M FS.fs unit) (k : M FS.fs unit) l1 l2 :
  appends f m l1 -> appends f k l2 -> appends f (m ;; k) (l1 ++ l2).
Proof.
  intros Hm Hk fs old H.
  destruct (Hm fs old H) as (fs1 & E1 & H1).
  destruct (Hk fs1 _ H1) as (fs2 & E2 & H2).
  exists fs2. unfold bind. rewrite E1. split; [exact E2 |].
  rewrite H2, app_assoc. reflexivity.
Qed.

Lemma appends_write f line :
  Text.all_char (fun c => negb (FS.line_break c)) line = true ->
  appends f (FS.write f line) [line].
Proof.
  intros Hline fs old H. unfold FS.write. rewrite Hline. unfold modify. rewrite H.
  eexists. split; [reflexivity |]. apply lookup_set_same. apply String.eqb_refl.
Qed.

Lemma appends_to_csv f col :
  Forall (fun s => Pandas.csv_plain s = true /\
                   Text.all_char (fun c => negb (FS.line_break c)) s = true) col ->
  appends f (FS.to_csv f col) col.
Proof.
  intros H. unfold FS.to_csv. induction H as [| s col [Hs Hb] H IH].
  - apply appends_ret.
  - cbn [for_each]. rewrite Hs.
    change (s :: col) with ([s] ++ col).
    apply appends_bind; [apply appends_write; exact Hb | exact IH].
Qed.

Lemma appends_block f hdr (body : M FS.fs unit) rows :
  Text.all_char (fun c => negb (FS.line_break c)) hdr = true ->
  appends f body rows ->
  forall more rest, appends f more rest ->
  appends f (FS.write f hdr ;; body ;; FS.write f "//" ;; more) (block hdr rows ++ rest).
Proof.
  intros Hhdr Hbody more rest Hmore. unfold block.
  change ((hdr :: rows ++ ["//"]) ++ rest) with ([hdr] ++ (rows ++ ["//"]) ++ rest).
  apply appends_bind; [apply appends_write; exact Hhdr |].
  rewrite <- app_assoc.
  apply appends_bind; [exact Hbody |].
  apply appends_bind; [apply appends_write; reflexivity | exact Hmore].
Qed.


Lemma csv_plain_class (cls : ascii -> bool) (s : string) :
  Text.all_char cls "," = false -> Text.all_char cls Text.dquote = false ->
  Text.all_char cls Text.nl = false -> Text.all_char cls (String "013" "") = false ->
  Text.all_char cls s = true -> s <> "" -> Pandas.csv_plain s = true.
Proof.
  intros H1 H2 H3 H4 Hs Hne. unfold Pandas.csv_plain.
  rewrite (contains_class cls _ _ H1 Hs), (contains_class cls _ _ H2 Hs),
    (contains_class cls _ _ H3 Hs), (contains_class cls _ _ H4 Hs).
  apply String.eqb_neq in Hne. rewrite Hne. reflexivity.
Qed.

Lemma row_char_line (c : ascii) : row_char c = true -> negb (FS.line_break c) = true.
Proof. destruct c as [[] [] [] [] [] [] [] []]; try discriminate; reflexivity. Qed.

Lemma name_row_char_line (c : ascii) :
  name_row_char c = true -> negb (FS.line_break c) = true.
Proof. destruct c as [[] [] [] [] [] [] [] []]; try discriminate; reflexivity. Qed.

Lemma str_row_char (x : num) : Text.all_char row_char (Num.str x) = true.
Proof.
  apply (all_char_weaken is_numeric); [| apply str_numeric].
  intros c Hc. unfold row_char. rewrite Hc. reflexivity.
Qed.

Lemma join_class (cls : ascii -> bool) (sep : string) (cells : list string) :
  Text.all_char cls sep = true ->
  Forall (fun t => Text.all_char cls t = true) cells ->
  Text.all_char cls (Text.join sep cells) = true.
Proof.
  intros Hsep H. unfold Text.join. induction H as [| t cells Ht H IH]; [reflexivity |].
  destruct cells as [| t2 cells']; [exact Ht |].
  change (String.concat sep (t :: t2 :: cells'))
    with (t ^^ sep ^^ String.concat sep (t2 :: cells')).
  rewrite !all_char_append, Ht, Hsep, IH. reflexivity.
Qed.

Lemma row_text_class (cells : list string) :
  Forall (fun t => Text.all_char row_char t = true) cells ->
  Text.all_char row_char (Model.row_text cells) = true.
Proof.
  intros H. unfold Model.row_text. rewrite all_char_append.
  rewrite (join_class row_char "   " cells) by (reflexivity || exact H). reflexivity.
Qed.

Lemma row_text_nonempty (cells : list string) : Model.row_text cells <> "".
Proof. unfold Model.row_text. discriminate. Qed.

(** A line of numbers is written as it is. *)
Lemma row_line_ok (s : string) :
  Text.all_char row_char s = true -> s <> "" ->
  Pandas.csv_plain s = true /\
  Text.all_char (fun c => negb (FS.line_break c)) s = true.
Proof.
  intros Hs Hne. split.
  - apply (csv_plain_class row_char); try reflexivity; assumption.
  - apply (all_char_weaken row_char); [apply row_char_line | exact Hs].
Qed.

Lemma plain_name_inv (n : string) :
  plain_name n = true ->
  n <> "" /\ Text.all_char name_char n = true /\ Pandas.surely_text n = true /\
  Text.mem n Pandas.na_values = false.
Proof.
  unfold plain_name. intros H.
  apply andb_true_iff in H. destruct H as [H H4].
  apply andb_true_iff in H. destruct H as [H H3].
  apply andb_true_iff in H. destruct H as [H1 H2].
  apply negb_true_iff in H1, H4. apply String.eqb_neq in H1. auto.
Qed.

Lemma name_line_class (n : string) :
  plain_name n = true -> Text.all_char name_row_char ("    " ^^ n) = true.
Proof.
  intros H. apply plain_name_inv in H. destruct H as (_ & H & _).
  rewrite all_char_append. cbn [andb Text.all_char].
  change (name_row_char " ") with true. cbn [andb].
  apply (all_char_weaken name_char); [| exact H].
  intros c Hc. unfold name_row_char. rewrite Hc. reflexivity.
Qed.

(** A line with a name is written as it is. *)
Lemma name_line_ok (n : string) :
  plain_name n = true ->
  Pandas.csv_plain ("    " ^^ n) = true /\
  Text.all_char (fun c => negb (FS.line_break c)) ("    " ^^ n) = true.
Proof.
  intros H. pose proof (name_line_class n H) as Hc. split.
  - apply (csv_plain_class name_row_char); try reflexivity; [exact Hc | discriminate].
  - apply (all_char_weaken name_row_char); [apply name_row_char_line | exact Hc].
Qed.

Lemma plain_name_token (n : string) : plain_name n = true -> is_token n = true.
Proof.
  intros H. apply plain_name_inv in H. destruct H as (Hne & H & _).
  unfold is_token. apply String.eqb_neq in Hne. rewrite Hne. cbn [negb andb].
  apply (all_char_weaken name_char); [| exact H].
  intros c Hc. unfold name_char in Hc. cbv zeta in Hc.
  apply andb_true_iff in Hc. destruct Hc as [Hc _].
  apply andb_true_iff in Hc. destruct Hc as [Hc _].
  apply andb_true_iff in Hc. destruct Hc as [_ Hc]. exact Hc.
Qed.

Lemma literal_line (s : string) :
  Text.all_char (fun c => negb (FS.line_break c)) s = true ->
  forall t, Text.all_char row_char t = true ->
  Text.all_char (fun c => negb (FS.line_break c)) (s ^^ t) = true.
Proof.
  intros Hs t Ht. rewrite all_char_append, Hs.
  apply (all_char_weaken row_char); [apply row_char_line | exact Ht].
Qed.

Lemma write_basic (self : Model.model) (ident : string) (d0 d1 : num) (obj : Z)
    (working_dir : option string) (fs : FS.fs) :
  basic self ident d0 d1 obj ->
  exists fs',
    Model.write_comets_model self working_dir fs = (Ok tt, fs') /\
    FS.read_file fs'
      (match working_dir with Some d => d | None => "" end ^^ ident ^^ ".cmd")
    = Ok (basic_lines self d0 d1 obj).
Proof.
  intros [Hid Hb Hdist Hids Hnames Hmets Hexch Hkin Hobj Hflags Hstyle Hopt].
  destruct Hflags as (F1 & F2 & F3 & F4 & F5 & F6 & F7 & F8 & F9).
  destruct Hstyle as (S1 & S2 & S3 & S4). destruct Hopt as (O1 & O2 & O3).
  unfold Model.write_comets_model.
  rewrite Hid, Hb, F1, F2, F3, F4, F5, F6, F7, F8, F9, Hobj.
  set (f := match working_dir with Some d => d | None => "" end ^^ ident ^^ ".cmd").
  cbn [lift]. unfold bind at 1. cbn [lift]. unfold bind at 1.
  change (Seq.index [d0; d1] 0) with (Ok d0). cbn [lift].
  unfold bind at 1. change (Seq.index [d0; d1] 1) with (Ok d1). cbn [lift].
  cbv zeta. unfold bind at 1, FS.create, modify.
  match goal with
  | |- exists fs', ?m ?s = _ /\ _ =>
      assert (Hw : appends f m (basic_lines self d0 d1 obj))
  end.
  { unfold basic_lines.
    apply appends_block.
    { apply (literal_line "SMATRIX  "); [reflexivity |].
      rewrite all_char_append. unfold Num.str_Z. rewrite str_row_char.
      rewrite all_char_append, str_row_char. reflexivity. }
    { apply appends_to_csv. apply Forall_forall. intros l Hl.
      apply in_map_iff in Hl. destruct Hl as (r & <- & _).
      apply row_line_ok; [| apply row_text_nonempty].
      apply row_text_class. repeat constructor; apply str_row_char. }
    apply appends_block.
    { apply (literal_line "BOUNDS "); [reflexivity |].
      rewrite all_char_append, str_row_char.
      rewrite all_char_append, str_row_char. reflexivity. }
    { apply appends_to_csv. apply Forall_forall. intros l Hl.
      apply in_map_iff in Hl. destruct Hl as (r & <- & _).
      apply row_line_ok; [| apply row_text_nonempty].
      apply row_text_class. repeat constructor; apply str_row_char. }
    apply (appends_block f "OBJECTIVE" _ ["    " ^^ Num.str_Z obj]); [reflexivity | |].
    { apply appends_write. apply (literal_line "    "); [reflexivity |].
      apply str_row_char. }
    apply appends_block; [reflexivity | |].
    { apply appends_to_csv. apply Forall_forall. intros l Hl.
      apply in_map_iff in Hl. destruct Hl as (n & <- & Hn).
      apply name_line_ok. rewrite Forall_forall in Hmets. auto. }
    apply appends_block; [reflexivity | |].
    { apply appends_to_csv. apply Forall_forall. intros l Hl.
      apply in_map_iff in Hl. destruct Hl as (r & <- & Hr).
      apply name_line_ok. rewrite Forall_forall in Hnames. auto. }
    apply (appends_block f "EXCHANGE_REACTIONS" _
             [" " ^^ Text.join " " (map (fun r => Num.str_Z (Model.ID r))
                                        (filter Model.EXCH (Model.reactions self)))]);
      [reflexivity | |].
    { apply appends_write. apply (literal_line " "); [reflexivity |].
      apply join_class; [reflexivity |]. apply Forall_forall. intros t Ht.
      apply in_map_iff in Ht. destruct Ht as (r & <- & _). apply str_row_char. }
    repeat (apply (appends_bind f (ret tt) _ []); [apply appends_ret |]).
    apply (appends_block f "OBJECTIVE_STYLE" _ [Model.obj_style self]);
      [reflexivity | apply appends_write; exact S3 |].
    unfold block. cbn [app].
    apply (appends_bind f _ _ [_] [_]); apply appends_write; [| reflexivity].
    rewrite all_char_append, O2. reflexivity. }
  destruct (Hw (Dict.set String.eqb fs f []) [])
    as (fs' & E & Hl).
  { apply lookup_set_same. apply String.eqb_refl. }
  exists fs'. split; [exact E |]. unfold FS.read_file. rewrite Hl. reflexivity.
Qed.

(** ** Keywords that a block does not have *)

Lemma foreign_inv cls kw :
  foreign cls kw = true ->
  Text.all_char cls kw = false /\ Text.contains kw "//" = false.
Proof.
  unfold foreign. intros H. apply andb_true_iff in H. destruct H as [H1 H2].
  apply negb_true_iff in H1, H2. auto.
Qed.

Lemma block_quiet (cls : ascii -> bool) (kw hdr : string) (body : list string) :
  Text.contains kw hdr = false ->
  foreign cls kw = true ->
  Forall (fun l => Text.all_char cls l = true) body ->
  existsb (Text.contains kw) (block hdr body) = false.
Proof.
  intros Hhdr Hf Hbody. apply foreign_inv in Hf. destruct Hf as [Hcls Hend].
  unfold block. cbn [existsb]. rewrite Hhdr, existsb_app. cbn [existsb orb].
  rewrite Hend, orb_false_r.
  induction Hbody as [| l body Hl Hbody IH]; [reflexivity |].
  cbn [existsb]. rewrite (contains_class cls kw l Hcls Hl), IH. reflexivity.
Qed.

Lemma class_header (cls : ascii -> bool) (kw lit tail : string) :
  Text.all_char cls kw = false ->
  Text.all_char cls lit = true -> Text.all_char cls tail = true ->
  Text.contains kw (lit ^^ tail) = false.
Proof.
  intros Hkw Hlit Htail. apply (contains_class cls); [exact Hkw |].
  rewrite all_char_append, Hlit, Htail. reflexivity.
Qed.

Lemma row_char_smatrix (s : string) :
  Text.all_char row_char s = true -> Text.all_char smatrix_char s = true.
Proof.
  apply all_char_weaken. intros c Hc. unfold smatrix_char. rewrite Hc. reflexivity.
Qed.

Lemma row_char_bounds (s : string) :
  Text.all_char row_char s = true -> Text.all_char bounds_char s = true.
Proof.
  apply all_char_weaken. intros c Hc. unfold bounds_char. rewrite Hc. reflexivity.
Qed.


(** ** Reading the tables of a written file *)

Lemma res_map_ok {A B} (f : A -> res B) (g : A -> B) (l : list A) :
  (forall a, In a l -> f a = Ok (g a)) -> res_map f l = Ok (map g l).
Proof.
  induction l as [| a l IH]; intros H; [reflexivity |].
  cbn [res_map map]. rewrite (H a) by (left; reflexivity). cbn [res_bind].
  rewrite IH by (intros x Hx; apply H; right; exact Hx). reflexivity.
Qed.

Lemma res_map_map_ok {A B C} (f : B -> res C) (h : A -> B) (g : A -> C) (l : list A) :
  (forall a, In a l -> f (h a) = Ok (g a)) -> res_map f (map h l) = Ok (map g l).
Proof.
  intros H. rewrite <- (map_map h (fun b => b)), map_id.
  induction l as [| a l IH]; [reflexivity |].
  cbn [res_map map]. rewrite (H a) by (left; reflexivity). cbn [res_bind].
  rewrite IH by (intros x Hx; apply H; right; exact Hx). reflexivity.
Qed.

Lemma eqb_class (cls : ascii -> bool) (s t : string) :
  Text.all_char cls s = true -> Text.all_char cls t = false -> String.eqb s t = false.
Proof.
  intros Hs Ht. apply String.eqb_neq. intros ->. congruence.
Qed.

Lemma length_append (a b : string) :
  String.length (a ^^ b) = (String.length a + String.length b)%nat.
Proof. induction a as [| c a IH]; simpl; [reflexivity | rewrite IH; reflexivity]. Qed.

Lemma eqb_longer (a s : string) : s <> "" -> String.eqb a (a ^^ s) = false.
Proof.
  intros Hs. apply String.eqb_neq. intros E.
  apply (f_equal String.length) in E. rewrite length_append in E.
  destruct s; [contradiction Hs; reflexivity | simpl in E; lia].
Qed.

(** The names that [read_csv] gives to a header of a keyword and two
    numbers. *)
Lemma mangle_three (h a b : string) :
  String.eqb a h = false -> String.eqb b h = false ->
  Pandas.mangle [] [h; a; b]
  = [h; a; if String.eqb b a then b ^^ ".1" else b].
Proof.
  intros Ha Hb. cbn [Pandas.mangle Pandas.count_in List.app].
  rewrite Ha, Hb. cbn [Nat.add Nat.eqb].
  destruct (String.eqb b a); reflexivity.
Qed.

Lemma read_csv_three (h a b hdr : string) (body : list string) :
  Text.all_char row_char h = false ->
  Text.all_char row_char a = true -> Text.all_char row_char b = true ->
  Text.split hdr = [h; a; b] ->
  Forall (fun l => length (Text.split l) = 3%nat) body ->
  exists c,
    Pandas.read_csv (hdr :: body) = Ok ([h; a; c], map Text.split body) /\
    (String.eqb a b = false -> c = b).
Proof.
  intros Hh Ha Hb Hsplit Hbody.
  exists (if String.eqb b a then b ^^ ".1" else b). split.
  - unfold Pandas.read_csv. rewrite Hsplit.
    rewrite mangle_three by (apply (eqb_class row_char); assumption).
    assert (Hc : Text.all_char row_char (if String.eqb b a then b ^^ ".1" else b) = true).
    { destruct (String.eqb b a); [| exact Hb]. rewrite all_char_append, Hb. reflexivity. }
    assert (Hnd : Pandas.nodupb [h; a; if String.eqb b a then b ^^ ".1" else b] = true).
    { cbn [Pandas.nodupb Text.mem].
      rewrite (String.eqb_sym h a), (eqb_class row_char a h Ha Hh).
      rewrite (String.eqb_sym h _), (eqb_class row_char _ h Hc Hh).
      destruct (String.eqb b a) eqn:E.
      - apply String.eqb_eq in E. subst b. rewrite eqb_longer by discriminate.
        reflexivity.
      - rewrite String.eqb_sym, E. reflexivity. }
    rewrite Hnd. cbn [negb].
    assert (Hlen : forallb (fun r => (length r =? 3)%nat) (map Text.split body) = true).
    { apply forallb_forall. intros r Hr. apply in_map_iff in Hr.
      destruct Hr as (l & <- & Hl). rewrite Forall_forall in Hbody.
      rewrite (Hbody l Hl). reflexivity. }
    cbn [length]. rewrite Hlen. reflexivity.
  - intros E. rewrite String.eqb_sym, E. reflexivity.
Qed.

Lemma split_header (lit gap1 a gap2 b : string) :
  is_token lit = true -> is_token a = true -> is_token b = true ->
  gap1 <> "" -> gap2 <> "" ->
  Text.all_char Text.is_space gap1 = true -> Text.all_char Text.is_space gap2 = true ->
  Text.split (lit ^^ gap1 ^^ a ^^ gap2 ^^ b) = [lit; a; b].
Proof.
  intros Hl Ha Hb N1 N2 G1 G2.
  destruct gap1 as [| c1 g1]; [contradiction N1; reflexivity |].
  destruct gap2 as [| c2 g2]; [contradiction N2; reflexivity |].
  cbn [Text.all_char] in G1, G2.
  apply andb_true_iff in G1, G2. destruct G1 as [C1 G1]. destruct G2 as [C2 G2].
  change (lit ^^ String c1 g1 ^^ a ^^ String c2 g2 ^^ b)
    with (lit ^^ String c1 (g1 ^^ a ^^ String c2 (g2 ^^ b))).
  rewrite split_run by assumption. rewrite split_blanks by assumption.
  rewrite split_run by assumption. rewrite split_blanks by assumption.
  rewrite split_token by assumption. reflexivity.
Qed.

Lemma str_Z_row_char (z : Z) : Text.all_char row_char (Num.str_Z z) = true.
Proof. apply str_row_char. Qed.

Lemma str_Z_token (z : Z) : is_token (Num.str_Z z) = true.
Proof. apply str_token. Qed.

Lemma number_str (x : num) : Pandas.number (Num.str x) = Ok x.
Proof. apply pyfloat_str. Qed.

(** The SMATRIX section as written is read as the table it was. *)
Lemma read_smat_written (n m : Z) (sm : list Model.smat_row) :
  Model.read_smat
    (("SMATRIX  " ^^ Num.str_Z n ^^ "  " ^^ Num.str_Z m)
     :: map (fun r => Model.row_text [Num.str_Z (Model.metabolite r);
                                      Num.str_Z (Model.rxn r);
                                      Num.str (Model.s_coef r)]) sm)
  = Ok sm.
Proof.
  unfold Model.read_smat.
  destruct (read_csv_three "SMATRIX" (Num.str_Z n) (Num.str_Z m)
              ("SMATRIX  " ^^ Num.str_Z n ^^ "  " ^^ Num.str_Z m)
              (map (fun r => Model.row_text [Num.str_Z (Model.metabolite r);
                                             Num.str_Z (Model.rxn r);
                                             Num.str (Model.s_coef r)]) sm))
    as (c & E & _).
  - reflexivity.
  - apply str_Z_row_char.
  - apply str_Z_row_char.
  - apply (split_header "SMATRIX" "  " (Num.str_Z n) "  " (Num.str_Z m));
      try reflexivity; try discriminate; apply str_Z_token.
  - apply Forall_forall. intros l Hl. apply in_map_iff in Hl.
    destruct Hl as (r & <- & _). rewrite split_row_text; [reflexivity |].
    repeat constructor; apply str_token.
  - rewrite E. cbn [res_bind fst snd Model.expect_columns length Nat.eqb].
    rewrite map_map.
    rewrite (res_map_map_ok _ _ (fun r => r)); [rewrite map_id; reflexivity |].
    intros r _. rewrite split_row_text by (repeat constructor; apply str_token).
    unfold Model.field. cbn [nth].
    rewrite !integer_str_Z, number_str. cbn [res_bind]. destruct r; reflexivity.
Qed.

(** The BOUNDS section as written gives the two defaults and the rows. *)
Lemma read_bounds_written (d0 d1 : num) (rs : list Model.reaction) :
  String.eqb (Num.str d0) (Num.str d1) = false ->
  Model.read_bounds
    (("BOUNDS " ^^ Num.str d0 ^^ " " ^^ Num.str d1)
     :: map (fun r => Model.row_text [Num.str_Z (Model.ID r); Num.str (Model.LB r);
                                      Num.str (Model.UB r)]) rs)
  = Ok (d0, d1, map (fun r => (Num.of_Z (Model.ID r), Model.LB r, Model.UB r)) rs).
Proof.
  intros Hdist. unfold Model.read_bounds.
  destruct (read_csv_three "BOUNDS" (Num.str d0) (Num.str d1)
              ("BOUNDS " ^^ Num.str d0 ^^ " " ^^ Num.str d1)
              (map (fun r => Model.row_text [Num.str_Z (Model.ID r);
                                             Num.str (Model.LB r);
                                             Num.str (Model.UB r)]) rs))
    as (c & E & Hc).
  - reflexivity.
  - apply str_row_char.
  - apply str_row_char.
  - apply (split_header "BOUNDS" " " (Num.str d0) " " (Num.str d1));
      try reflexivity; try discriminate; apply str_token.
  - apply Forall_forall. intros l Hl. apply in_map_iff in Hl.
    destruct Hl as (r & <- & _). rewrite split_row_text; [reflexivity |].
    repeat constructor; apply str_token.
  - rewrite E, (Hc Hdist). cbn [res_bind fst snd].
    change (Seq.index [ "BOUNDS"; Num.str d0; Num.str d1] 1) with (Ok (Num.str d0)).
    change (Seq.index [ "BOUNDS"; Num.str d0; Num.str d1] 2) with (Ok (Num.str d1)).
    cbn [res_bind]. rewrite !pyfloat_str.
    cbn [res_bind Model.expect_columns length Nat.eqb].
    rewrite map_map.
    rewrite (res_map_map_ok _ _
               (fun r => (Num.of_Z (Model.ID r), Model.LB r, Model.UB r)));
      [reflexivity |].
    intros r _. rewrite split_row_text by (repeat constructor; apply str_token).
    unfold Model.field. cbn [nth]. unfold Num.str_Z.
    rewrite !number_str. reflexivity.
Qed.

Lemma text_column_plain (names : list string) :
  Forall (fun n => plain_name n = true) names ->
  Pandas.text_column names = Ok names.
Proof.
  intros H. unfold Pandas.text_column.
  assert (Hna : existsb (fun f => Text.mem f Pandas.na_values) names = false).
  { induction H as [| n names Hn H IH]; [reflexivity |].
    cbn [existsb]. apply plain_name_inv in Hn. destruct Hn as (_ & _ & _ & Hn).
    rewrite Hn, IH. reflexivity. }
  rewrite Hna. destruct H as [| n names Hn H]; [reflexivity |].
  cbn [existsb]. apply plain_name_inv in Hn. destruct Hn as (_ & _ & Hn & _).
  rewrite Hn. reflexivity.
Qed.

(** A section of names as written is read as the names it holds. *)
Lemma read_names_written (kw : string) (names : list string) :
  Text.split kw = [kw] ->
  Forall (fun n => plain_name n = true) names ->
  Model.read_names kw (kw :: map (fun n => "    " ^^ n) names) = Ok names.
Proof.
  intros Hkw Hnames. unfold Model.read_names, Pandas.read_csv. rewrite Hkw.
  cbn [Pandas.mangle Pandas.count_in Nat.eqb Pandas.nodupb Text.mem negb andb].
  assert (Hrows : map Text.split (map (fun n => "    " ^^ n) names)
                  = map (fun n => [n]) names).
  { rewrite map_map. apply map_ext_in. intros n Hn.
    rewrite split_blanks by reflexivity. apply split_token, plain_name_token.
    rewrite Forall_forall in Hnames. auto. }
  rewrite Hrows.
  assert (Hlen : forallb (fun r : list string => (length r =? length [kw])%nat)
                   (map (fun n => [n]) names) = true).
  { apply forallb_forall. intros r Hr. apply in_map_iff in Hr.
    destruct Hr as (n & <- & _). reflexivity. }
  rewrite Hlen. cbn [res_bind fst snd]. rewrite String.eqb_refl, map_map.
  unfold Model.field. cbn [nth]. rewrite map_id. apply text_column_plain. exact Hnames.
Qed.

(** The line of the exchange reactions as written. *)
Lemma exchange_line_read (ids : list Z) :
  res_map Num.pyint
    (Text.split (Text.strip (" " ^^ Text.join " " (map Num.str_Z ids))))
  = Ok ids.
Proof.
  rewrite split_strip, split_blanks by reflexivity.
  rewrite split_join;
    [| discriminate | reflexivity
     | apply Forall_forall; intros t Ht; apply in_map_iff in Ht;
       destruct Ht as (z & <- & _); apply str_Z_token].
  rewrite (res_map_map_ok _ _ (fun z => z)); [rewrite map_id; reflexivity |].
  intros z _. apply pyint_str_Z.
Qed.

Lemma objective_line_read (obj : Z) :
  Num.pyint (Text.strip ("    " ^^ Num.str_Z obj)) = Ok obj.
Proof.
  rewrite strip_token by (reflexivity || apply str_Z_token). apply pyint_str_Z.
Qed.

(** ** The reactions table of a written file *)

Lemma filter_no_id (q : Model.reaction -> bool) (rs : list Model.reaction) (z : Z) :
  ~ In z (map Model.ID rs) ->
  filter (fun r' => z =? Model.ID r') (filter q rs) = [].
Proof.
  induction rs as [| b rs IH]; intros Hn; [reflexivity |].
  cbn [map] in Hn.
  assert (Hzb : (z =? Model.ID b) = false)
    by (apply Z.eqb_neq; intros E; apply Hn; left; symmetry; exact E).
  assert (Hrest : ~ In z (map Model.ID rs)) by (intros Hx; apply Hn; right; exact Hx).
  cbn [filter]. destruct (q b); cbn [filter]; rewrite ?Hzb; apply IH; exact Hrest.
Qed.

Lemma filter_one_id (p : Model.reaction -> bool) (rs : list Model.reaction)
    (r : Model.reaction) :
  NoDup (map Model.ID rs) -> In r rs ->
  filter (fun r' => Model.ID r =? Model.ID r') (filter p rs)
  = if p r then [r] else [].
Proof.
  induction rs as [| a rs IH]; intros Hnd Hin; [contradiction |].
  cbn [map] in Hnd. inversion Hnd as [| x l Hnotin Hnd']. subst.
  destruct Hin as [-> | Hin].
  - cbn [filter]. destruct (p r); cbn [filter];
      rewrite ?Z.eqb_refl, (filter_no_id p rs _ Hnotin); reflexivity.
  - assert (Hra : (Model.ID r =? Model.ID a) = false).
    { apply Z.eqb_neq. intros E. apply Hnotin. rewrite <- E. apply in_map. exact Hin. }
    cbn [filter]. destruct (p a); cbn [filter]; rewrite ?Hra; apply IH; assumption.
Qed.

Lemma combine_map {A B C} (f : A -> B) (g : A -> C) (l : list A) :
  combine (map f l) (map g l) = map (fun a => (f a, g a)) l.
Proof. induction l as [| a l IH]; simpl; [reflexivity | rewrite IH; reflexivity]. Qed.

Lemma flat_map_singleton {A B} (f : A -> list B) (g : A -> B) (l : list A) :
  (forall a, In a l -> f a = [g a]) -> flat_map f l = map g l.
Proof.
  induction l as [| a l IH]; intros H; [reflexivity |].
  cbn [flat_map map]. rewrite (H a) by (left; reflexivity).
  rewrite IH by (intros x Hx; apply H; right; exact Hx). reflexivity.
Qed.

Lemma filter_map {A B} (p : B -> bool) (f : A -> B) (l : list A) :
  filter p (map f l) = map f (filter (fun a => p (f a)) l).
Proof.
  induction l as [| a l IH]; [reflexivity |]. cbn [map filter].
  destruct (p (f a)); cbn [map]; rewrite IH; reflexivity.
Qed.


Lemma merge_bounds_written (d0 d1 : num) (rs : list Model.reaction) :
  map Model.ID rs = map Z.of_nat (seq 1 (length rs)) ->
  Model.merge_bounds (map Model.REACTION_NAMES rs) d0 d1
    (map (fun r => (Num.of_Z (Model.ID r), Model.LB r, Model.UB r))
         (bound_rows d0 d1 rs))
  = map (bounds_read_back d0 d1) rs.
Proof.
  intros Hids.
  assert (Hnd : NoDup (map Model.ID rs)) by (rewrite Hids; apply NoDup_ids).
  unfold Model.merge_bounds, Model.merge_left.
  rewrite length_map, <- Hids, combine_map.
  rewrite flat_map_concat_map, map_map, <- flat_map_concat_map.
  apply flat_map_singleton. intros r Hr.
  cbn [fst snd]. rewrite filter_map.
  assert (Hkey : forall r',
            Num.eqb (Num.of_Z (Model.ID r))
              (fst (fst (Num.of_Z (Model.ID r'), Model.LB r', Model.UB r')))
            = (Model.ID r =? Model.ID r')).
  { intros r'. cbn [fst]. apply eqb_of_Z. }
  rewrite (filter_ext _ _ Hkey).
  unfold bound_rows. rewrite (filter_one_id _ rs r Hnd Hr).
  unfold bounds_read_back. cbv zeta.
  destruct (negb (Num.eqb (Model.LB r) d0) || negb (Num.eqb (Model.UB r) d1));
    reflexivity.
Qed.

Lemma mem_exchange_ids (rs : list Model.reaction) (r : Model.reaction) :
  NoDup (map Model.ID rs) -> In r rs ->
  Model.mem (Model.ID r) (map Model.ID (filter Model.EXCH rs)) = Model.EXCH r.
Proof.
  intros Hnd Hr. destruct (Model.EXCH r) eqn:E.
  - apply mem_Z_In. apply in_map. apply filter_In. auto.
  - destruct (Model.mem _ _) eqn:M; [| reflexivity].
    apply mem_Z_In in M. apply in_map_iff in M. destruct M as (r' & Hid & Hr').
    apply filter_In in Hr'. destruct Hr' as [Hr' E'].
    assert (r' = r) by (eapply NoDup_map_eq; eauto). subst. congruence.
Qed.

(** ** The file of a basic model, read *)

Lemma quiet_In (kws : list string) (line kw : string) :
  quiet kws line = true -> In kw kws -> Text.contains kw line = false.
Proof.
  unfold quiet. intros H Hin. rewrite forallb_forall in H.
  apply negb_true_iff. apply H. exact Hin.
Qed.

Lemma index_after {A} (pre : list A) (a b : A) (post : list A) :
  Seq.index (pre ++ a :: b :: post) (Z.of_nat (length pre + 1)) = Ok b.
Proof.
  change (pre ++ a :: b :: post) with (pre ++ [a] ++ b :: post).
  rewrite app_assoc. apply index_at. symmetry. apply length_app.
Qed.

Lemma bind_modify {S B} (f : S -> S) (k : unit -> M S B) (s : S) :
  bind (modify f) k s = k tt (f s).
Proof. reflexivity. Qed.

Lemma bind_lift {S A B} (r : res A) (a : A) (k : A -> M S B) (s : S) :
  r = Ok a -> bind (lift r) k s = k a s.
Proof. intros ->. reflexivity. Qed.

Lemma bind_ret {S A B} (a : A) (k : A -> M S B) (s : S) :
  bind (ret a) k s = k a s.
Proof. reflexivity. Qed.

Lemma bind_bind {S A B C} (m : M S A) (k1 : A -> M S B) (k2 : B -> M S C) (s : S) :
  bind (bind m k1) k2 s = bind m (fun a => bind (k1 a) k2) s.
Proof. unfold bind. destruct (m s) as [[a | e] s1]; reflexivity. Qed.


Section BasicFile.
Context (self : Model.model) (ident : string) (d0 d1 : num) (obj : Z).
Hypothesis Hbasic : basic self ident d0 d1 obj.

Let smat_header : string :=
  "SMATRIX  " ^^ Num.str_Z (Z.of_nat (length (Model.metabolites self)))
  ^^ "  " ^^ Num.str_Z (Z.of_nat (length (Model.reactions self))).
Let smat_rows : list string :=
  map (fun r => Model.row_text [Num.str_Z (Model.metabolite r);
                                Num.str_Z (Model.rxn r); Num.str (Model.s_coef r)])
      (Model.smat self).
Let bounds_header : string := "BOUNDS " ^^ Num.str d0 ^^ " " ^^ Num.str d1.
Let bounds_rows : list string :=
  map (fun r => Model.row_text [Num.str_Z (Model.ID r); Num.str (Model.LB r);
                                Num.str (Model.UB r)])
      (bound_rows d0 d1 (Model.reactions self)).
Let met_rows : list string := map (fun n => "    " ^^ n) (Model.metabolites self).
Let rxn_rows : list string :=
  map (fun r => "    " ^^ Model.REACTION_NAMES r) (Model.reactions self).
Let exch_line : string :=
  " " ^^ Text.join " " (map (fun r => Num.str_Z (Model.ID r))
                            (filter Model.EXCH (Model.reactions self))).
Let optimizer_line : string := "OPTIMIZER " ^^ Model.optimizer self.

Let B1 := block smat_header smat_rows.
Let B2 := block bounds_header bounds_rows.
Let B3 := block "OBJECTIVE" ["    " ^^ Num.str_Z obj].
Let B4 := block "METABOLITE_NAMES" met_rows.
Let B5 := block "REACTION_NAMES" rxn_rows.
Let B6 := block "EXCHANGE_REACTIONS" [exch_line].
Let B7 := block "OBJECTIVE_STYLE" [Model.obj_style self].
Let B8 := block optimizer_line [].

Lemma basic_lines_blocks :
  basic_lines self d0 d1 obj = B1 ++ B2 ++ B3 ++ B4 ++ B5 ++ B6 ++ B7 ++ B8.
Proof. reflexivity. Qed.

Lemma smat_rows_class : Forall (fun l => Text.all_char row_char l = true) smat_rows.
Proof.
  apply Forall_forall. intros l Hl. apply in_map_iff in Hl. destruct Hl as (r & <- & _).
  apply row_text_class. repeat constructor; apply str_row_char.
Qed.

Lemma bounds_rows_class : Forall (fun l => Text.all_char row_char l = true) bounds_rows.
Proof.
  apply Forall_forall. intros l Hl. apply in_map_iff in Hl. destruct Hl as (r & <- & _).
  apply row_text_class. repeat constructor; apply str_row_char.
Qed.

Lemma met_rows_class : Forall (fun l => Text.all_char name_row_char l = true) met_rows.
Proof.
  apply Forall_forall. intros l Hl. apply in_map_iff in Hl. destruct Hl as (n & <- & Hn).
  apply name_line_class. pose proof (basic_mets _ _ _ _ _ Hbasic) as H.
  rewrite Forall_forall in H. auto.
Qed.

Lemma rxn_rows_class : Forall (fun l => Text.all_char name_row_char l = true) rxn_rows.
Proof.
  apply Forall_forall. intros l Hl. apply in_map_iff in Hl. destruct Hl as (r & <- & Hr).
  apply name_line_class. pose proof (basic_names _ _ _ _ _ Hbasic) as H.
  rewrite Forall_forall in H. auto.
Qed.

Lemma exch_line_class : Text.all_char row_char exch_line = true.
Proof.
  unfold exch_line. rewrite all_char_append. cbn [Text.all_char andb].
  change (row_char " ") with true. cbn [andb].
  apply join_class; [reflexivity |]. apply Forall_forall. intros t Ht.
  apply in_map_iff in Ht. destruct Ht as (r & <- & _). apply str_row_char.
Qed.

Lemma quiet_B1 kw : foreign smatrix_char kw = true -> existsb (Text.contains kw) B1 = false.
Proof.
  intros H. apply (block_quiet smatrix_char); [| exact H |].
  - apply (class_header smatrix_char kw "SMATRIX  "); [| reflexivity |].
    + apply foreign_inv in H. tauto.
    + apply row_char_smatrix. unfold Num.str_Z.
      rewrite all_char_append, str_row_char.
      rewrite all_char_append, str_row_char. reflexivity.
  - eapply Forall_impl; [| apply smat_rows_class]. intros l. apply row_char_smatrix.
Qed.

Lemma quiet_B2 kw : foreign bounds_char kw = true -> existsb (Text.contains kw) B2 = false.
Proof.
  intros H. apply (block_quiet bounds_char); [| exact H |].
  - apply (class_header bounds_char kw "BOUNDS "); [| reflexivity |].
    + apply foreign_inv in H. tauto.
    + apply row_char_bounds.
      rewrite all_char_append, str_row_char.
      rewrite all_char_append, str_row_char. reflexivity.
  - eapply Forall_impl; [| apply bounds_rows_class]. intros l. apply row_char_bounds.
Qed.

Lemma quiet_B3 kw :
  Text.contains kw "OBJECTIVE" = false -> foreign row_char kw = true ->
  existsb (Text.contains kw) B3 = false.
Proof.
  intros Hh H. apply (block_quiet row_char); [exact Hh | exact H |].
  repeat constructor. rewrite all_char_append. unfold Num.str_Z.
  rewrite str_row_char. reflexivity.
Qed.

Lemma quiet_B4 kw :
  Text.contains kw "METABOLITE_NAMES" = false -> foreign name_row_char kw = true ->
  existsb (Text.contains kw) B4 = false.
Proof.
  intros Hh H. apply (block_quiet name_row_char); [exact Hh | exact H |].
  apply met_rows_class.
Qed.

Lemma quiet_B5 kw :
  Text.contains kw "REACTION_NAMES" = false -> foreign name_row_char kw = true ->
  existsb (Text.contains kw) B5 = false.
Proof.
  intros Hh H. apply (block_quiet name_row_char); [exact Hh | exact H |].
  apply rxn_rows_class.
Qed.

Lemma quiet_B6 kw :
  Text.contains kw "EXCHANGE_REACTIONS" = false -> foreign row_char kw = true ->
  existsb (Text.contains kw) B6 = false.
Proof.
  intros Hh H. apply (block_quiet row_char); [exact Hh | exact H |].
  repeat constructor. apply exch_line_class.
Qed.

Lemma quiet_B7 kw :
  Text.contains kw "OBJECTIVE_STYLE" = false -> Text.contains kw "//" = false ->
  Text.contains kw (Model.obj_style self) = false ->
  existsb (Text.contains kw) B7 = false.
Proof.
  intros Hh He Hs. unfold B7, block. cbn [existsb List.app].
  rewrite Hh, He, Hs. reflexivity.
Qed.

Lemma quiet_B8 kw :
  Text.contains kw "//" = false -> Text.contains kw optimizer_line = false ->
  existsb (Text.contains kw) B8 = false.
Proof.
  intros He Ho. unfold B8, block. cbn [existsb List.app]. rewrite Ho, He. reflexivity.
Qed.


Let L := basic_lines self d0 d1 obj.

Let L_blocks : L = B1 ++ B2 ++ B3 ++ B4 ++ B5 ++ B6 ++ B7 ++ B8.
Proof. reflexivity. Qed.

(** A keyword that the blocks before its own do not have. *)
Ltac quiet_blocks :=
  rewrite ?existsb_app;
  rewrite ?quiet_B1 by reflexivity;
  rewrite ?quiet_B2 by reflexivity;
  rewrite ?quiet_B3 by reflexivity;
  rewrite ?quiet_B4 by reflexivity;
  rewrite ?quiet_B5 by reflexivity;
  rewrite ?quiet_B6 by reflexivity;
  try reflexivity.

Lemma no_terminator_in (cls : ascii -> bool) (hdr : string) (body : list string) :
  Text.contains "//" hdr = false ->
  Text.all_char cls "//" = false ->
  Forall (fun l => Text.all_char cls l = true) body ->
  existsb (Text.contains "//") (hdr :: body) = false.
Proof.
  intros Hh Hc Hb. cbn [existsb]. rewrite Hh. cbn [orb].
  induction Hb as [| l body Hl Hb IH]; [reflexivity |].
  cbn [existsb]. rewrite (contains_class cls "//" l Hc Hl), IH. reflexivity.
Qed.

Lemma smat_header_class : Text.all_char smatrix_char smat_header = true.
Proof.
  unfold smat_header. rewrite all_char_append. cbn [andb].
  change (Text.all_char smatrix_char "SMATRIX  ") with true. cbn [andb].
  apply row_char_smatrix. unfold Num.str_Z.
  rewrite all_char_append, str_row_char. rewrite all_char_append, str_row_char.
  reflexivity.
Qed.

Lemma bounds_header_class : Text.all_char bounds_char bounds_header = true.
Proof.
  unfold bounds_header. rewrite all_char_append.
  change (Text.all_char bounds_char "BOUNDS ") with true. cbn [andb].
  apply row_char_bounds.
  rewrite all_char_append, str_row_char. rewrite all_char_append, str_row_char.
  reflexivity.
Qed.

Lemma L_smat : Scan.section "SMATRIX" L = Ok (smat_header :: smat_rows).
Proof.
  apply (section_at "SMATRIX" [] smat_header smat_rows
           (B2 ++ B3 ++ B4 ++ B5 ++ B6 ++ B7 ++ B8)).
  - reflexivity.
  - apply (contains_prefix "SMATRIX").
  - apply (no_terminator_in smatrix_char).
    + apply (contains_class smatrix_char); [reflexivity | apply smat_header_class].
    + reflexivity.
    + eapply Forall_impl; [| apply smat_rows_class].
      intros l. apply row_char_smatrix.
Qed.

Lemma L_bounds : Scan.section "BOUNDS" L = Ok (bounds_header :: bounds_rows).
Proof.
  apply (section_at "BOUNDS" B1 bounds_header bounds_rows
           (B3 ++ B4 ++ B5 ++ B6 ++ B7 ++ B8)).
  - quiet_blocks.
  - apply (contains_prefix "BOUNDS").
  - apply (no_terminator_in bounds_char).
    + apply (contains_class bounds_char); [reflexivity | apply bounds_header_class].
    + reflexivity.
    + eapply Forall_impl; [| apply bounds_rows_class].
      intros l. apply row_char_bounds.
Qed.

Lemma L_mets : Scan.section "METABOLITE_NAMES" L = Ok ("METABOLITE_NAMES" :: met_rows).
Proof.
  replace L with ((B1 ++ B2 ++ B3) ++ B4 ++ B5 ++ B6 ++ B7 ++ B8)
    by (rewrite <- !app_assoc; reflexivity).
  apply (section_at "METABOLITE_NAMES" (B1 ++ B2 ++ B3) "METABOLITE_NAMES" met_rows).
  - quiet_blocks.
  - reflexivity.
  - apply (no_terminator_in name_row_char); [reflexivity | reflexivity |].
    apply met_rows_class.
Qed.

Lemma L_rxns : Scan.section "REACTION_NAMES" L = Ok ("REACTION_NAMES" :: rxn_rows).
Proof.
  replace L with ((B1 ++ B2 ++ B3 ++ B4) ++ B5 ++ B6 ++ B7 ++ B8)
    by (rewrite <- !app_assoc; reflexivity).
  apply (section_at "REACTION_NAMES" (B1 ++ B2 ++ B3 ++ B4) "REACTION_NAMES" rxn_rows).
  - quiet_blocks.
  - reflexivity.
  - apply (no_terminator_in name_row_char); [reflexivity | reflexivity |].
    apply rxn_rows_class.
Qed.


Lemma block_nonblank (hdr : string) (body : list string) :
  hdr <> "" -> Forall (fun l => l <> "") body ->
  Forall (fun l => l <> "") (block hdr body).
Proof.
  intros Hh Hb. unfold block. constructor; [exact Hh |].
  apply Forall_app. split; [exact Hb |]. repeat constructor. discriminate.
Qed.

Lemma L_nonblank : Scan.nonblank L = L.
Proof.
  apply nonblank_id. rewrite L_blocks.
  repeat (apply Forall_app; split); apply block_nonblank;
    try discriminate; try (repeat constructor; discriminate).
  - apply Forall_forall. intros l Hl. apply in_map_iff in Hl.
    destruct Hl as (r & <- & _). apply row_text_nonempty.
  - apply Forall_forall. intros l Hl. apply in_map_iff in Hl.
    destruct Hl as (r & <- & _). apply row_text_nonempty.
  - apply Forall_forall. intros l Hl. apply in_map_iff in Hl.
    destruct Hl as (r & <- & _). discriminate.
  - apply Forall_forall. intros l Hl. apply in_map_iff in Hl.
    destruct Hl as (r & <- & _). discriminate.
  - repeat constructor. apply (basic_style _ _ _ _ _ Hbasic).
Qed.

Lemma L_exchange_ids :
  Model.exchange_ids L
  = Ok (map Model.ID (filter Model.EXCH (Model.reactions self))).
Proof.
  unfold Model.exchange_ids. cbv zeta.
  replace L with ((B1 ++ B2 ++ B3 ++ B4 ++ B5)
                  ++ "EXCHANGE_REACTIONS" :: exch_line :: "//" :: B7 ++ B8)
    by (rewrite <- !app_assoc; reflexivity).
  rewrite find_line_at; [| quiet_blocks | reflexivity].
  rewrite index_after.
  cbn [res_bind]. unfold exch_line. rewrite <- map_map.
  apply exchange_line_read.
Qed.

Lemma L_objective_id : Model.objective_id L = Ok obj.
Proof.
  unfold Model.objective_id. cbv zeta.
  replace L with ((B1 ++ B2)
                  ++ "OBJECTIVE" :: ("    " ^^ Num.str_Z obj) :: "//"
                     :: B4 ++ B5 ++ B6 ++ B7 ++ B8)
    by (rewrite <- !app_assoc; reflexivity).
  rewrite find_line_at; [| quiet_blocks | reflexivity].
  rewrite index_after.
  cbn [res_bind]. apply objective_line_read.
Qed.

Lemma L_style :
  Scan.has "OBJECTIVE_STYLE" L = true /\
  Seq.index L (Z.of_nat (Scan.find_line "OBJECTIVE_STYLE" L + 1))
  = Ok (Model.obj_style self).
Proof.
  replace L with ((B1 ++ B2 ++ B3 ++ B4 ++ B5 ++ B6)
                  ++ "OBJECTIVE_STYLE" :: Model.obj_style self :: "//" :: B8)
    by (rewrite <- !app_assoc; reflexivity).
  split; [apply has_at; reflexivity |].
  rewrite find_line_at; [| quiet_blocks | reflexivity].
  apply index_after.
Qed.

Lemma L_optimizer :
  Scan.has "OPTIMIZER" L = true /\
  Seq.index L (Z.of_nat (Scan.find_line "OPTIMIZER" L)) = Ok optimizer_line /\
  Seq.index (Text.split optimizer_line) 1 = Ok (Model.optimizer self).
Proof.
  destruct (basic_style _ _ _ _ _ Hbasic) as (_ & _ & _ & Hq).
  destruct (basic_optimizer _ _ _ _ _ Hbasic) as (Htok & _ & _).
  replace L with ((B1 ++ B2 ++ B3 ++ B4 ++ B5 ++ B6 ++ B7)
                  ++ optimizer_line :: ["//"])
    by (rewrite <- !app_assoc; reflexivity).
  assert (Hhere : Text.contains "OPTIMIZER" optimizer_line = true)
    by apply (contains_prefix "OPTIMIZER").
  split; [apply has_at; exact Hhere |]. split.
  - rewrite find_line_at; [apply index_at; reflexivity | | exact Hhere].
    quiet_blocks. apply quiet_B7; try reflexivity.
    apply (quiet_In _ _ _ Hq). left. reflexivity.
  - unfold optimizer_line.
    change ("OPTIMIZER " ^^ Model.optimizer self)
      with ("OPTIMIZER" ^^ String " " (Model.optimizer self)).
    rewrite split_run by reflexivity. rewrite split_token by exact Htok.
    reflexivity.
Qed.

(** No keyword of an optional section is in the file. *)
Lemma L_quiet (kw : string) : In kw optional_keywords -> Scan.has kw L = false.
Proof.
  intros Hin.
  destruct (basic_style _ _ _ _ _ Hbasic) as (_ & _ & _ & Hq).
  destruct (basic_optimizer _ _ _ _ _ Hbasic) as (_ & _ & Ho).
  assert (Hs : Text.contains kw (Model.obj_style self) = false)
    by (apply (quiet_In _ _ _ Hq); right; exact Hin).
  assert (Hopt : Text.contains kw optimizer_line = false)
    by (apply (quiet_In _ _ _ Ho); exact Hin).
  unfold Scan.has. rewrite L_blocks, !existsb_app.
  unfold optional_keywords in Hin. cbn [In] in Hin.
  repeat (destruct Hin as [<- | Hin];
          [rewrite quiet_B1 by reflexivity;
           rewrite quiet_B2 by reflexivity;
           rewrite quiet_B3 by reflexivity;
           rewrite quiet_B4 by reflexivity;
           rewrite quiet_B5 by reflexivity;
           rewrite quiet_B6 by reflexivity;
           rewrite quiet_B7 by (reflexivity || exact Hs);
           rewrite quiet_B8 by (reflexivity || exact Hopt);
           reflexivity |]).
  contradiction.
Qed.


(** What the reader makes of a reaction of the written table. *)
Let read_back (r : Model.reaction) : Model.reaction :=
  let exch := map Model.ID (filter Model.EXCH (Model.reactions self)) in
  ((((bounds_read_back d0 d1 r)
       <| Model.EXCH := Model.mem (Model.ID r) exch |>)
       <| Model.EXCH_IND := Model.exch_ind exch (Model.ID r) |>)
       <| Model.V_MAX := None |> <| Model.KM := None |>) <| Model.HILL := None |>.

Lemma read_basic (files : FS.fs) (path : string) (m0 : Model.model) :
  FS.read_file files path = Ok L ->
  Model.read_comets_model files path m0
  = (Ok tt,
     m0 <| Model.id := Some (Text.splitext_root false (Text.basename path)) |>
        <| Model.smat := Model.smat self |>
        <| Model.objective := Some obj |>
        <| Model.obj_style := Model.obj_style self |>
        <| Model.optimizer := Model.optimizer self |>
        <| Model.reactions := map read_back (Model.reactions self) |>
        <| Model.metabolites := Model.metabolites self |>).
Proof.
  intros Hfile. unfold Model.read_comets_model.
  rewrite bind_modify. rewrite (bind_lift _ _ _ _ Hfile). cbv zeta.
  rewrite L_nonblank.
  rewrite (bind_lift _ _ _ _ L_smat).
  assert (Hsm : Model.read_smat (smat_header :: smat_rows) = Ok (Model.smat self))
    by apply read_smat_written.
  rewrite (bind_lift _ _ _ _ Hsm).
  rewrite bind_modify.
  rewrite (bind_lift _ _ _ _ L_rxns).
  assert (Hrxn : Model.read_names "REACTION_NAMES" ("REACTION_NAMES" :: rxn_rows)
                 = Ok (map Model.REACTION_NAMES (Model.reactions self))).
  { unfold rxn_rows. rewrite <- (map_map Model.REACTION_NAMES (fun n => "    " ^^ n)).
    apply read_names_written; [reflexivity |].
    apply Forall_map. apply (basic_names _ _ _ _ _ Hbasic). }
  rewrite (bind_lift _ _ _ _ Hrxn).
  rewrite (bind_lift _ _ _ _ L_bounds).
  assert (Hbnds : Model.read_bounds (bounds_header :: bounds_rows)
                  = Ok (d0, d1,
                        map (fun r => (Num.of_Z (Model.ID r), Model.LB r, Model.UB r))
                            (bound_rows d0 d1 (Model.reactions self))))
    by (apply read_bounds_written; apply (basic_distinct _ _ _ _ _ Hbasic)).
  rewrite (bind_lift _ _ _ _ Hbnds).
  cbn [fst snd].
  rewrite (merge_bounds_written d0 d1 _ (basic_ids _ _ _ _ _ Hbasic)).
  rewrite (bind_lift _ _ _ _ L_mets).
  assert (Hmets : Model.read_names "METABOLITE_NAMES" ("METABOLITE_NAMES" :: met_rows)
                  = Ok (Model.metabolites self))
    by (apply read_names_written;
        [reflexivity | apply (basic_mets _ _ _ _ _ Hbasic)]).
  rewrite (bind_lift _ _ _ _ Hmets).
  rewrite (bind_lift _ _ _ _ L_exchange_ids).
  unfold Model.read_kinetic_section.
  rewrite !L_quiet by (cbn; tauto).
  cbv beta iota zeta.
  repeat rewrite bind_ret.
  rewrite (bind_lift _ _ _ _ L_objective_id).
  rewrite bind_modify.
  destruct L_style as [Hs1 Hs2]. destruct L_optimizer as (Ho1 & Ho2 & Ho3).
  rewrite Hs1, Ho1. cbv iota zeta.
  rewrite bind_bind, (bind_lift _ _ _ _ Hs2), bind_modify.
  rewrite bind_bind, (bind_lift _ _ _ _ Ho2).
  rewrite bind_bind, (bind_lift _ _ _ _ Ho3), bind_modify.
  repeat rewrite bind_ret.
  cbn [for_each]. unfold Model.read_parameter.
  rewrite !L_quiet by (cbn; tauto).
  repeat (rewrite ?bind_bind; rewrite bind_ret).
  rewrite bind_modify. unfold modify.
  destruct (basic_style _ _ _ _ _ Hbasic) as (_ & Hstrip & _). rewrite Hstrip.
  unfold Model.mark_exchange. rewrite !map_map.
  reflexivity.
Qed.

End BasicFile.

(** ** Writing a model and reading it back *)

Lemma last3_cmd (s : string) : Text.last3 (s ^^ ".cmd") = "cmd".
Proof.
  induction s as [| c s IH]; [reflexivity |].
  cbn [append]. etransitivity; [| exact IH].
  destruct s as [| a [| b [| d s3]]]; reflexivity.
Qed.

Lemma Forall2_map_right {A B} (P : A -> B -> Prop) (f : A -> B) (l : list A) :
  (forall a, In a l -> P a (f a)) -> Forall2 P l (map f l).
Proof.
  induction l as [| a l IH]; intros H; [constructor |].
  cbn [map]. constructor; [apply H; left; reflexivity |].
  apply IH. intros x Hx. apply H. right. exact Hx.
Qed.





(** * Properties of the methods beside the codec *)

(** ** Files that a write leaves alone *)

Lemma lookup_set_other {V} (d : list (string * V)) (k p : string) (v : V) :
  String.eqb p k = false ->
  Dict.lookup String.eqb (Dict.set String.eqb d k v) p = Dict.lookup String.eqb d p.
Proof.
  intros Hpk. induction d as [| [k' v'] d IH]; simpl.
  - rewrite Hpk. reflexivity.
  - destruct (String.eqb k k') eqn:E; simpl.
    + apply String.eqb_eq in E. subst k'. rewrite Hpk. reflexivity.
    + destruct (String.eqb p k'); [reflexivity | exact IH].
Qed.

Section OtherFile.
Context (f other : string) (content : option (list string)).
Hypothesis Hother : String.eqb other f = false.

Let kept (files : FS.fs) : Prop := Dict.lookup String.eqb files other = content.

Lemma create_keeps : preserves kept (FS.create f).
Proof.
  apply preserves_modify. intros s H. unfold kept in *.
  rewrite lookup_set_other by exact Hother. exact H.
Qed.

Lemma write_keeps (line : string) : preserves kept (FS.write f line).
Proof.
  unfold FS.write. apply preserves_if; [| apply preserves_raise].
  apply preserves_modify. intros s H. unfold kept in *.
  destruct (Dict.lookup String.eqb s f); [| exact H].
  rewrite lookup_set_other by exact Hother. exact H.
Qed.

Lemma to_csv_keeps (col : list string) : preserves kept (FS.to_csv f col).
Proof.
  unfold FS.to_csv. apply preserves_for_each. intros s.
  apply preserves_if; [apply write_keeps | apply preserves_raise].
Qed.

Lemma write_parameters_keeps d : preserves kept (Model.write_parameters f d).
Proof.
  unfold Model.write_parameters. destruct d; [| apply preserves_raise].
  apply preserves_for_each. intros kv.
  apply preserves_bind; [apply write_keeps | intros _; apply write_keeps].
Qed.

End OtherFile.

Lemma preserves_bind_lift {S A B} (P : S -> Prop) (r : res A) (k : A -> M S B) :
  (forall a, r = Ok a -> preserves P (k a)) -> preserves P (bind (lift r) k).
Proof.
  intros Hk s r' s'. unfold bind, lift. destruct r as [a | e]; intros H HP.
  - eapply Hk; eauto.
  - inversion H. subst. exact HP.
Qed.

Ltac keeps_step :=
  first [ apply create_keeps; assumption
        | apply write_keeps; assumption
        | apply to_csv_keeps; assumption
        | apply write_parameters_keeps; assumption
        | frame_step ].

Lemma write_comets_model_keeps (self : Model.model) (working_dir : option string)
    (other : string) (content : option (list string)) :
  (forall ident,
     Model.id self = Some ident ->
     String.eqb other
       (match working_dir with Some d => d | None => "" end ^^ ident ^^ ".cmd")
     = false) ->
  preserves (fun files => Dict.lookup String.eqb files other = content)
            (Model.write_comets_model self working_dir).
Proof.
  intros Hother. unfold Model.write_comets_model.
  apply preserves_bind_lift. intros ident Hid.
  assert (Hpath : String.eqb other
            (match working_dir with Some d => d | None => "" end ^^ ident ^^ ".cmd")
            = false).
  { apply Hother. destruct (Model.id self); congruence. }
  cbv zeta. repeat keeps_step.
Qed.

Lemma write_layout_keeps (self : Layout.layout) (working_dir other : string)
    (content : option (list string)) :
  String.eqb other (working_dir ^^ ".current_layout") = false ->
  preserves (fun files => Dict.lookup String.eqb files other = content)
            (Layout.write_layout self working_dir).
Proof.
  intros Hother.
  unfold Layout.write_layout, Layout.write_models_and_world_grid_chunk,
    Layout.write_media_chunk, Layout.write_diffusion_chunk,
    Layout.write_local_media_chunk, Layout.write_refresh_chunk,
    Layout.write_static_chunk, Layout.write_barrier_chunk,
    Layout.write_regions_chunk, Layout.write_periodic_media_chunk,
    Layout.write_initial_pop_chunk, Layout.write_ext_rxns_chunk.
  cbv zeta. repeat keeps_step.
Qed.

(** X1.  [write_comets_model] changes no file but the model's own:
    whether it returns or raises, every other path holds what it held
    (or still does not exist). *)
Theorem write_comets_model_other_files
    (self : Model.model) (working_dir : option string) (fs : FS.fs)
    (other : string) :
  (forall ident,
     Model.id self = Some ident ->
     String.eqb other
       (match working_dir with Some d => d | None => "" end ^^ ident ^^ ".cmd")
     = false) ->
  Dict.lookup String.eqb (snd (Model.write_comets_model self working_dir fs)) other
  = Dict.lookup String.eqb fs other.
Proof.
  intros Hother.
  destruct (Model.write_comets_model self working_dir fs) as [r fs'] eqn:E.
  exact (write_comets_model_keeps self working_dir other _ Hother fs r fs' E eq_refl).
Qed.

(** X1, on the sample model, beside the sample files. *)
Lemma write_comets_model_other_files_sample :
  Dict.lookup String.eqb
    (snd (Model.write_comets_model Samples.sample_model (Some "wd/") Samples.files))
    "m.cmd"
  = Dict.lookup String.eqb Samples.files "m.cmd".
Proof.
  apply (write_comets_model_other_files Samples.sample_model (Some "wd/")
           Samples.files "m.cmd").
  intros ident Hid. vm_compute in Hid. injection Hid as <-. reflexivity.
Defined.

(** X2.  [write_necessary_files] touches the layout file
    [working_dir + ".current_layout"] and the files
    [working_dir + id + ".cmd"] of the layout's models, and no other:
    whether it returns or raises, any other path holds what it held. *)
Theorem write_necessary_files_other_files
    (self : Layout.layout) (working_dir : string) (fs : FS.fs) (other : string) :
  String.eqb other (working_dir ^^ ".current_layout") = false ->
  (forall m ident,
     In m (Layout.models self) -> Model.id m = Some ident ->
     String.eqb other (working_dir ^^ ident ^^ ".cmd") = false) ->
  Dict.lookup String.eqb (snd (Layout.write_necessary_files self working_dir fs)) other
  = Dict.lookup String.eqb fs other.
Proof.
  intros Hlayout Hmodels.
  destruct (Layout.write_necessary_files self working_dir fs) as [r fs'] eqn:E.
  revert E. unfold Layout.write_necessary_files, Layout.write_model_files.
  intros E.
  refine (preserves_bind
            (fun files => Dict.lookup String.eqb files other
                          = Dict.lookup String.eqb fs other)
            _ _ _ _ fs r fs' E eq_refl).
  - apply write_layout_keeps. exact Hlayout.
  - intros _. generalize (Layout.models self) Hmodels. intros ms Hms.
    induction ms as [| m ms IH]; cbn [for_each].
    + apply preserves_ret.
    + apply preserves_bind.
      * apply write_comets_model_keeps. intros ident Hid.
        apply (Hms m ident); [left; reflexivity | exact Hid].
      * intros _. apply IH. intros m' ident Hm'. apply Hms. right. exact Hm'.
Qed.

(** X2, on the sample layout, beside the sample files. *)
Lemma write_necessary_files_other_files_sample :
  Dict.lookup String.eqb
    (snd (Layout.write_necessary_files Samples.sample_layout "wd/" Samples.files))
    "m2.cmd"
  = Dict.lookup String.eqb Samples.files "m2.cmd".
Proof.
  apply (write_necessary_files_other_files Samples.sample_layout "wd/"
           Samples.files "m2.cmd").
  - reflexivity.
  - intros m ident Hin Hid. vm_compute in Hin. destruct Hin as [<- | []].
    vm_compute in Hid. injection Hid as <-. reflexivity.
Defined.

(** ** What the reader of a model file leaves alone *)

Ltac reader_step :=
  first [ apply read_kinetic_section_preserves; [untouched | intros ?; untouched]
        | apply read_parameter_preserves; [untouched | intros ?; untouched]
        | frame_step ].

(** X3.  [read_comets_model] never assigns [default_bounds], [light],
    [light_flag], [signals], [initial_pop] and [neutral_drift_flag]:
    whether it returns or raises, the object has them as before; the
    default bounds of the BOUNDS header, in particular, are not kept. *)
Theorem read_comets_model_untouched
    (files : FS.fs) (path : string) (m0 : Model.model) :
  let m := snd (Model.read_comets_model files path m0) in
  Model.default_bounds m = Model.default_bounds m0 /\
  Model.light m = Model.light m0 /\
  Model.light_flag m = Model.light_flag m0 /\
  Model.signals m = Model.signals m0 /\
  Model.initial_pop m = Model.initial_pop m0 /\
  Model.neutral_drift_flag m = Model.neutral_drift_flag m0.
Proof.
  set (P := fun s : Model.model =>
              Model.default_bounds s = Model.default_bounds m0 /\
              Model.light s = Model.light m0 /\
              Model.light_flag s = Model.light_flag m0 /\
              Model.signals s = Model.signals m0 /\
              Model.initial_pop s = Model.initial_pop m0 /\
              Model.neutral_drift_flag s = Model.neutral_drift_flag m0).
  assert (Hp : preserves P (Model.read_comets_model files path)).
  { unfold Model.read_comets_model. repeat reader_step; untouched. }
  cbv zeta.
  destruct (Model.read_comets_model files path m0) as [r m] eqn:E.
  apply (Hp m0 r m E). repeat split.
Qed.

(** ** Sections that are written and cannot be read *)

Lemma headed_line (kws : list string) (secs : list (list string)) (kw : string) :
  Forall2 headed kws secs -> In kw kws ->
  exists rest, In (kw ^^ rest) (flat_map terminated secs).
Proof.
  intros H. induction H as [| k sec kws secs Hk H IH]; intros Hin; [destruct Hin |].
  destruct Hin as [-> | Hin].
  - destruct Hk as (rest & body & ->). exists rest. simpl. left. reflexivity.
  - destruct (IH Hin) as (rest & Hr). exists rest.
    cbn [flat_map]. apply in_or_app. right. exact Hr.
Qed.

Lemma has_line (kw rest : string) (lines : list string) :
  kw <> "" -> In (kw ^^ rest) lines -> Scan.has kw (Scan.nonblank lines) = true.
Proof.
  intros Hkw Hin. unfold Scan.has, Scan.nonblank.
  apply existsb_exists. exists (kw ^^ rest). split; [| apply contains_prefix].
  apply filter_In. split; [exact Hin |].
  destruct kw as [| c kw]; [congruence | reflexivity].
Qed.

(** X4.  A model file written for a model whose [neutral_drift_flag] is
    set cannot be read back: [read_comets_model] raises on the file that
    [write_comets_model] has just written. *)
Theorem neutral_drift_not_read_back
    (self : Model.model) (working_dir : option string) (fs fs' : FS.fs)
    (ident : string) (m0 : Model.model) :
  Model.write_comets_model self working_dir fs = (Ok tt, fs') ->
  Model.neutral_drift_flag self = true ->
  Model.id self = Some ident ->
  exists e,
    fst (Model.read_comets_model fs'
           (match working_dir with Some d => d | None => "" end ^^ ident ^^ ".cmd")
           m0)
    = Raise e.
Proof.
  intros H Hflag Hident.
  set (path := match working_dir with Some d => d | None => "" end ^^ ident ^^ ".cmd").
  assert (Hfile : exists secs,
             Dict.lookup String.eqb fs' path = Some (flat_map terminated secs) /\
             Forall2 headed (canonical_order self) secs).
  { unfold Model.write_comets_model in H.
    mlift H as i Hid. mlift H as d0 Hd0. mlift H as d1 Hd1.
    cbv zeta in H. mbind H as u s1 Hcreate.
    apply modify_inv in Hcreate. destruct Hcreate as [_ ->].
    rewrite Hident in Hid. injection Hid as <-.
    destruct (emits_model_sections _ _ _ _ _ _ _ _ _ _ _ _ _ _ _ [] H
                (lookup_set_same _ _ _ _ (String.eqb_refl _)))
      as (ls & (secs & -> & Hsecs) & Hf).
    exists secs. split; [exact Hf | exact Hsecs]. }
  destruct Hfile as (secs & Hfile & Hsecs).
  assert (Hin : In "neutralDrift" (canonical_order self)).
  { unfold canonical_order. rewrite Hflag.
    do 9 (apply in_or_app; right). apply in_or_app. left. left. reflexivity. }
  destruct (headed_line _ _ _ Hsecs Hin) as (rest & Hline).
  assert (Hhas : Scan.has "neutralDrift" (Scan.nonblank (flat_map terminated secs)) = true)
    by (apply (has_line _ rest); [discriminate | exact Hline]).
  destruct (Model.read_comets_model fs' path m0) as [[[] | e] m] eqn:E.
  - exfalso. apply read_comets_model_inv in E.
    destruct E as (file & sl & rl & bl & ml & rxn_ & bnds & exch & obj & Hread & E).
    unfold FS.read_file in Hread. rewrite Hfile in Hread. injection Hread as <-.
    decompose [and] E. congruence.
  - exists e. reflexivity.
Qed.

(** ** The default of a kinetic section *)

Lemma read_kinetic_section_default (kw : string) (pre : list string)
    (prev hdr : string) (post : list string)
    (sf : Model.model -> Model.model) (sd : num -> Model.model -> Model.model)
    (sc : Model.reaction -> option num -> Model.reaction)
    (rs rs' : list Model.reaction) (s s' : Model.model) :
  existsb (Text.contains kw) (pre ++ [prev]) = false ->
  Text.contains kw hdr = true ->
  Model.read_kinetic_section kw (pre ++ prev :: hdr :: post) sf sd sc rs s
  = (Ok rs', s') ->
  exists d, Model.second_float [prev] 0 = Ok d /\ s' = sd d (sf s).
Proof.
  intros Hpre Hhdr H. unfold Model.read_kinetic_section in H.
  assert (Hshape : pre ++ prev :: hdr :: post = (pre ++ [prev]) ++ hdr :: post)
    by (rewrite <- app_assoc; reflexivity).
  assert (Hhas : Scan.has kw (pre ++ prev :: hdr :: post) = true)
    by (rewrite Hshape; apply has_at; exact Hhdr).
  assert (Hlin : Scan.find_line kw (pre ++ prev :: hdr :: post) = (length pre + 1)%nat).
  { rewrite Hshape, find_line_at by assumption. rewrite length_app. reflexivity. }
  rewrite Hhas, Hlin in H.
  mmodify H. mlift H as lines Hlines. mlift H as tbl Htbl. cbv zeta in H.
  mlift H as d Hd. mmodify H. inversion H. subst rs' s'.
  exists d. split; [| reflexivity].
  replace (Z.of_nat (length pre + 1) - 1) with (Z.of_nat (length pre)) in Hd by lia.
  unfold Model.second_float in *.
  rewrite (index_at pre prev (hdr :: post) (length pre) eq_refl) in Hd.
  rewrite index_0. exact Hd.
Qed.

(** X5.  The default of a kinetic section is read from the line before
    the section's header, not from the header: when [read_comets_model]
    returns on a file in which VMAX_VALUES first occurs on the line after
    [prev], then [vmax_flag] is set and [default_vmax] is
    [float(prev.split()[1])]. *)
Theorem kinetic_default_read_from_previous_line
    (files : FS.fs) (path : string) (m0 m : Model.model)
    (file pre : list string) (prev hdr : string) (post : list string) :
  FS.read_file files path = Ok file ->
  Scan.nonblank file = pre ++ prev :: hdr :: post ->
  existsb (Text.contains "VMAX_VALUES") (pre ++ [prev]) = false ->
  Text.contains "VMAX_VALUES" hdr = true ->
  Model.read_comets_model files path m0 = (Ok tt, m) ->
  Model.vmax_flag m = true /\
  Model.second_float [prev] 0 = Ok (Model.default_vmax m).
Proof.
  intros Hfile Hshape Hpre Hhdr H. unfold Model.read_comets_model in H.
  mmodify H. mlift H as file' Hfile'.
  rewrite Hfile in Hfile'. injection Hfile' as <-. rewrite Hshape in H.
  mlift H as smat_lines Hsmat_lines. mlift H as sm Hsm. mmodify H.
  mlift H as rxn_lines Hrxn_lines. mlift H as rxn_ Hrxn.
  mlift H as bnds_lines Hbnds_lines. mlift H as bnds Hbnds.
  mlift H as mets_lines Hmets_lines. mlift H as mets Hmets.
  mlift H as exch Hexch. cbv zeta in H.
  mbind H as rs1 s1 Hvmax.
  destruct (read_kinetic_section_default _ _ _ _ _ _ _ _ _ _ _ _ Hpre Hhdr Hvmax)
    as (d & Hd & ->).
  set (P := fun s : Model.model =>
              Model.vmax_flag s = true /\ Model.default_vmax s = d).
  match type of H with
  | ?k _ = _ => assert (Hp : preserves P k) by (repeat reader_step; untouched)
  end.
  destruct (Hp _ _ _ H) as [Hflag Hdef]; [split; reflexivity |].
  split; [exact Hflag | rewrite Hdef; exact Hd].
Qed.

(** ** The Hill coefficients *)

(** X6.  The reader looks for the Hill coefficients under the keyword
    HILL_COEFFICIENTS.  From a file without it, as is one in which
    [write_comets_model] has put them under its header HILL_VALUES,
    [read_comets_model] reads none: [hill_flag] and [default_hill] stay
    as they were, and every reaction has a null HILL. *)
Theorem hill_section_not_read
    (files : FS.fs) (path : string) (m0 m : Model.model) (file : list string) :
  FS.read_file files path = Ok file ->
  Scan.has "HILL_COEFFICIENTS" (Scan.nonblank file) = false ->
  Model.read_comets_model files path m0 = (Ok tt, m) ->
  Model.hill_flag m = Model.hill_flag m0 /\
  Model.default_hill m = Model.default_hill m0 /\
  Forall (fun r => Model.HILL r = None) (Model.reactions m).
Proof.
  intros Hfile Hhas H. unfold Model.read_comets_model in H.
  set (P := fun s : Model.model =>
              Model.hill_flag s = Model.hill_flag m0 /\
              Model.default_hill s = Model.default_hill m0).
  mmodify H. mlift H as file' Hfile'.
  rewrite Hfile in Hfile'. injection Hfile' as <-.
  mlift H as smat_lines Hsmat_lines. mlift H as sm Hsm. mmodify H.
  mlift H as rxn_lines Hrxn_lines. mlift H as rxn_ Hrxn.
  mlift H as bnds_lines Hbnds_lines. mlift H as bnds Hbnds.
  mlift H as mets_lines Hmets_lines. mlift H as mets Hmets.
  mlift H as exch Hexch. cbv zeta in H.
  mbind H as rs1 s1 Hvmax. mbind H as rs2 s2 Hkm. mbind H as rs3 s3 Hhill.
  assert (P1 : P s1).
  { revert Hvmax. match goal with
    | |- ?k ?s = _ -> _ =>
        intros Hvmax;
        assert (Hp : preserves P k) by (repeat reader_step; untouched);
        apply (Hp _ _ _ Hvmax)
    end. split; reflexivity. }
  assert (P2 : P s2).
  { revert Hkm. match goal with
    | |- ?k ?s = _ -> _ =>
        intros Hkm;
        assert (Hp : preserves P k) by (repeat reader_step; untouched);
        apply (Hp _ _ _ Hkm)
    end. exact P1. }
  unfold Model.read_kinetic_section in Hhill. rewrite Hhas in Hhill.
  inversion Hhill. subst rs3 s3. clear Hhill.
  mlift H as obj Hobj. mmodify H.
  mbind H as u4 s4 Hstyle. mbind H as u5 s5 Hopt. mbind H as u6 s6 Hdrift.
  mbind H as u7 s7 Hsigma. mbind H as u8 s8 Hconv. mbind H as u9 s9 Hnl.
  mbind H as u10 s10 Hnoise. mmodify H.
  apply modify_inv in H. destruct H as [_ ->].
  assert (P10 : P s10).
  { assert (P3 : P (s2 <| Model.objective := Some obj |>)) by exact P2.
    assert (P4 : P s4) by (revert Hstyle P3; apply (preserves_if P); frame; untouched).
    assert (P5 : P s5) by (revert Hopt P4; apply (preserves_if P); frame; untouched).
    assert (P6 : P s6) by (revert Hdrift P5; apply (preserves_if P); frame; untouched).
    assert (P7 : P s7) by (revert Hsigma P6; apply (preserves_if P); frame; untouched).
    assert (P8 : P s8).
    { revert Hconv P7. apply (preserves_for_each P). intros parm.
      apply read_parameter_preserves; [untouched | intros x; untouched]. }
    assert (P9 : P s9).
    { revert Hnl P8. apply (preserves_for_each P). intros parm.
      apply read_parameter_preserves; [untouched | intros x; untouched]. }
    revert Hnoise P9. apply (preserves_if P); frame; untouched. }
  destruct P10 as [Hflag Hdef].
  split; [exact Hflag |]. split; [exact Hdef |].
  cbn. apply Forall_forall. intros r Hr.
  apply in_map_iff in Hr. destruct Hr as (r' & <- & _). reflexivity.
Qed.

(** ** The sample models, written and read *)

(** X4, on the sample model with neutral drift. *)
Lemma neutral_drift_not_read_back_sample :
  exists e,
    fst (Model.read_comets_model
           (snd (Model.write_comets_model Samples.drift_model (Some "wd/") []))
           ("wd/" ^^ "m" ^^ ".cmd") Model.init)
    = Raise e.
Proof.
  apply (neutral_drift_not_read_back Samples.drift_model (Some "wd/") []
           (snd (Model.write_comets_model Samples.drift_model (Some "wd/") []))
           "m" Model.init).
  - vm_compute. reflexivity.
  - reflexivity.
  - vm_compute. reflexivity.
Defined.

(** X5, on the sample file: the header gives 10, the default read is 2. *)
Lemma kinetic_default_read_from_previous_line_sample :
  Model.vmax_flag
    (snd (Model.read_comets_model [("k.cmd", Samples.kinetic_file)] "k.cmd" Model.init))
  = true /\
  Model.second_float [" 1 2"] 0
  = Ok (Model.default_vmax
          (snd (Model.read_comets_model [("k.cmd", Samples.kinetic_file)] "k.cmd"
                  Model.init))).
Proof.
  apply (kinetic_default_read_from_previous_line
           [("k.cmd", Samples.kinetic_file)] "k.cmd" Model.init _
           Samples.kinetic_file (firstn 21 Samples.kinetic_file)
           " 1 2" "VMAX_VALUES 10" (skipn 23 Samples.kinetic_file));
    vm_compute; reflexivity.
Defined.

(** X6, on the file written for the sample model with a Hill
    coefficient. *)
Lemma hill_section_not_read_sample :
  Model.hill_flag
    (snd (Model.read_comets_model
            (snd (Model.write_comets_model Samples.hill_model (Some "wd/") []))
            "wd/m.cmd" Model.init))
  = Model.hill_flag Model.init /\
  Model.default_hill
    (snd (Model.read_comets_model
            (snd (Model.write_comets_model Samples.hill_model (Some "wd/") []))
            "wd/m.cmd" Model.init))
  = Model.default_hill Model.init /\
  Forall (fun r => Model.HILL r = None)
    (Model.reactions
       (snd (Model.read_comets_model
               (snd (Model.write_comets_model Samples.hill_model (Some "wd/") []))
               "wd/m.cmd" Model.init))).
Proof.
  apply (hill_section_not_read
           (snd (Model.write_comets_model Samples.hill_model (Some "wd/") []))
           "wd/m.cmd" Model.init _
           (match Dict.lookup String.eqb
                    (snd (Model.write_comets_model Samples.hill_model (Some "wd/") []))
                    "wd/m.cmd" with
            | Some l => l
            | None => []
            end));
    vm_compute; reflexivity.
Defined.

(** ** The media table when models are added *)

Lemma has_metabolite_In (media : list Layout.media_row) (met : string) :
  Layout.has_metabolite media met = true
  <-> In (Some met) (map Layout.metabolite media).
Proof.
  unfold Layout.has_metabolite, Layout.labels_of.
  induction media as [| r media IH]; simpl.
  - split; [discriminate | tauto].
  - destruct (Layout.metabolite r) as [n |] eqn:En.
    + destruct (String.eqb_spec n met) as [-> | Hne]; simpl.
      * split; auto.
      * rewrite IH. split; [auto | intros [H | H]; [congruence | exact H]].
    + rewrite IH. split; [auto | intros [H | H]; [discriminate | exact H]].
Qed.

Lemma has_metabolite_names (a b : list Layout.media_row) (met : string) :
  map Layout.metabolite a = map Layout.metabolite b ->
  Layout.has_metabolite a met = Layout.has_metabolite b met.
Proof.
  intros H.
  destruct (Layout.has_metabolite a met) eqn:Ea,
           (Layout.has_metabolite b met) eqn:Eb; try reflexivity.
  - apply has_metabolite_In in Ea. rewrite H in Ea.
    apply has_metabolite_In in Ea. congruence.
  - apply has_metabolite_In in Eb. rewrite <- H in Eb.
    apply has_metabolite_In in Eb. congruence.
Qed.

Section Relabel.

Let erase (r : Layout.media_row) : Layout.media_row := r <| Layout.label := 0 |>.
Let number (k : nat) (l : list Layout.media_row) : list Layout.media_row :=
  map (fun ir => (snd ir) <| Layout.label := Z.of_nat (fst ir) |>)
      (combine (seq k (length l)) l).

Lemma number_erase k l : number k (map erase l) = number k l.
Proof.
  unfold number. revert k. induction l as [| r l IH]; intros k; [reflexivity |].
  cbn [map length seq combine]. f_equal; first [apply IH | destruct r; reflexivity].
Qed.

Lemma erase_number k l : map erase (number k l) = map erase l.
Proof.
  unfold number. revert k. induction l as [| r l IH]; intros k; [reflexivity |].
  cbn [map length seq combine]. f_equal; first [apply IH | destruct r; reflexivity].
Qed.

Lemma number_metabolites k l :
  map Layout.metabolite (number k l) = map Layout.metabolite l.
Proof.
  unfold number. revert k. induction l as [| r l IH]; intros k; [reflexivity |].
  cbn [map length seq combine]. f_equal; first [apply IH | destruct r; reflexivity].
Qed.

Lemma relabel_metabolites l :
  map Layout.metabolite (Layout.relabel l) = map Layout.metabolite l.
Proof. apply (number_metabolites 0). Qed.

Lemma relabel_relabel_app a b :
  Layout.relabel (Layout.relabel a ++ b) = Layout.relabel (a ++ b).
Proof.
  change (number 0 (number 0 a ++ b) = number 0 (a ++ b)).
  rewrite <- (number_erase 0 (number 0 a ++ b)), <- (number_erase 0 (a ++ b)).
  rewrite !map_app, erase_number. reflexivity.
Qed.

End Relabel.

Lemma has_metabolite_app (a b : list Layout.media_row) (met : string) :
  Layout.has_metabolite (a ++ b) met
  = Layout.has_metabolite a met || Layout.has_metabolite b met.
Proof.
  destruct (Layout.has_metabolite (a ++ b) met) eqn:E.
  - apply has_metabolite_In in E. rewrite map_app in E. apply in_app_or in E.
    symmetry. apply orb_true_iff.
    destruct E as [E | E]; [left | right]; apply has_metabolite_In; exact E.
  - symmetry. apply orb_false_iff.
    split.
    + destruct (Layout.has_metabolite a met) eqn:Ea; [| reflexivity].
      apply has_metabolite_In in Ea.
      assert (Layout.has_metabolite (a ++ b) met = true)
        by (apply has_metabolite_In; rewrite map_app; apply in_or_app; auto).
      congruence.
    + destruct (Layout.has_metabolite b met) eqn:Eb; [| reflexivity].
      apply has_metabolite_In in Eb.
      assert (Layout.has_metabolite (a ++ b) met = true)
        by (apply has_metabolite_In; rewrite map_app; apply in_or_app; auto).
      congruence.
Qed.

Lemma media_with_step (self : Layout.layout) (met : string) (added : list string) :
  media_with
    (self <| Layout.media :=
               Layout.relabel (Layout.media self ++ [zero_row self met]) |>)
    added
  = media_with self (met :: added).
Proof.
  unfold media_with. destruct added as [| a rest].
  - reflexivity.
  - change (Layout.relabel
              (Layout.relabel (Layout.media self ++ [zero_row self met])
               ++ map (zero_row self) (a :: rest))
            = Layout.relabel
                (Layout.media self ++ map (zero_row self) (met :: a :: rest))).
    rewrite relabel_relabel_app, <- app_assoc. reflexivity.
Qed.

(** The loop of [add_new_mets_to_media] over metabolites that are
    distinct: it returns, and has added a row for each one that the table
    did not have. *)
Lemma add_new_mets_loop (mets : list string) (self : Layout.layout) :
  NoDup mets ->
  for_each mets
    (fun met =>
       self <- get ;;
       if negb (Layout.has_metabolite (Layout.media self) met) then
         modify (fun self' =>
           self' <| Layout.media :=
                      Layout.relabel (Layout.media self' ++ [zero_row self met]) |>)
       else ret tt)
    self
  = (Ok tt,
     self <| Layout.media := media_with self (missing (Layout.media self) mets) |>).
Proof.
  intros Hnd. revert self.
  induction Hnd as [| met mets Hmet Hnd IH]; intros self.
  - cbn. destruct self; reflexivity.
  - cbn [for_each]. unfold bind at 1. unfold bind at 1. cbn [get].
    unfold missing. cbn [filter]. fold (missing (Layout.media self) mets).
    destruct (Layout.has_metabolite (Layout.media self) met) eqn:Ehas; cbn [negb].
    + cbn [ret]. apply IH.
    + cbn [modify].
      set (self1 := self <| Layout.media :=
                             Layout.relabel (Layout.media self ++ [zero_row self met]) |>).
      rewrite (IH self1).
      assert (Hsame : missing (Layout.media self1) mets
                      = missing (Layout.media self) mets).
      { apply filter_ext_in. intros m Hm. f_equal.
        change (Layout.media self1)
          with (Layout.relabel (Layout.media self ++ [zero_row self met])).
        rewrite (has_metabolite_names _ (Layout.media self ++ [zero_row self met]) m)
          by apply relabel_metabolites.
        rewrite has_metabolite_app.
        replace (Layout.has_metabolite [zero_row self met] m) with false;
          [apply orb_false_r |].
        symmetry. unfold Layout.has_metabolite, Layout.labels_of, zero_row. cbn.
        destruct (String.eqb_spec met m) as [-> | Hne]; [contradiction | reflexivity]. }
      rewrite Hsame.
      replace (media_with self1 (missing (Layout.media self) mets))
        with (media_with self (met :: missing (Layout.media self) mets))
        by (symmetry; apply media_with_step).
      reflexivity.
Qed.

Lemma build_pop_lines_keeps (P : Layout.layout -> Prop) n i ms acc :
  (forall s ms', P s -> P (s <| Layout.models := ms' |>)) ->
  preserves P (Layout.build_pop_lines n i ms acc).
Proof.
  intros HP. revert i acc. induction ms as [| m ms IH]; intros i acc; simpl.
  - apply preserves_ret.
  - frame; [| apply IH]. intros s Hs. apply HP. exact Hs.
Qed.

(** What [update_models] leaves of the object, and what it makes of the
    media table. *)
Lemma update_models_inv (self self' : Layout.layout) :
  Layout.update_models self = (Ok tt, self') ->
  NoDup (Layout.all_exchanged_mets self') /\
  Layout.media self'
  = media_with self (missing (Layout.media self) (Layout.all_exchanged_mets self')).
Proof.
  intros H. unfold Layout.update_models in H.
  mbind H as u1 s1 Hpop. mbind H as u2 s2 Hmets.
  set (P := fun s : Layout.layout =>
              Layout.media s = Layout.media self /\
              zero_row s = zero_row self).
  assert (P1 : P s1).
  { assert (Hp : preserves P Layout.build_initial_pop).
    { unfold Layout.build_initial_pop.
      frame; [apply build_pop_lines_keeps; intros s ms' Hs; exact Hs | untouched]. }
    exact (Hp _ _ _ Hpop (conj eq_refl eq_refl)). }
  destruct u2. apply build_exchanged_mets_inv in Hmets.
  destruct Hmets as (names & Hnames & Hs2).
  destruct P1 as [Hmedia Hrow].
  assert (Hall : Layout.all_exchanged_mets s2 = Layout.sorted (Layout.set_of names))
    by (rewrite Hs2; reflexivity).
  assert (Hm2 : Layout.media s2 = Layout.media self) by (rewrite Hs2; exact Hmedia).
  assert (Hr2 : zero_row s2 = zero_row self) by (rewrite Hs2; exact Hrow).
  assert (Hnd : NoDup (Layout.all_exchanged_mets s2)).
  { rewrite Hall. apply strongly_sorted_NoDup, sorted_strongly. apply NoDup_nodup. }
  clear Hs2.
  unfold Layout.add_new_mets_to_media in H.
  mbind H as self0 s3 Hget. apply get_inv in Hget. destruct Hget as [Hs0 ->].
  injection Hs0 as Hs0. subst self0.
  pose proof (add_new_mets_loop _ s2 Hnd) as Hloop.
  assert (Heq : (Ok tt, self')
                = (Ok tt,
                   s2 <| Layout.media :=
                           media_with s2 (missing (Layout.media s2)
                                            (Layout.all_exchanged_mets s2)) |>))
    by (rewrite <- H; exact Hloop).
  injection Heq as ->.
  change (NoDup (Layout.all_exchanged_mets s2) /\
          media_with s2 (missing (Layout.media s2) (Layout.all_exchanged_mets s2))
          = media_with self
              (missing (Layout.media self) (Layout.all_exchanged_mets s2))).
  split; [exact Hnd |].
  rewrite Hm2. unfold media_with.
  destruct (missing (Layout.media self) _) as [| a rest]; [exact Hm2 |].
  rewrite Hm2, Hr2. reflexivity.
Qed.

(** X7.  When [update_models] returns, the media table has a row for
    every exchanged metabolite of the layout. *)
Theorem update_models_media_complete (self self' : Layout.layout) :
  Layout.update_models self = (Ok tt, self') ->
  Forall (fun met => Layout.has_metabolite (Layout.media self') met = true)
         (Layout.all_exchanged_mets self').
Proof.
  intros H. apply update_models_inv in H. destruct H as [_ Hmedia].
  apply Forall_forall. intros met Hmet. rewrite Hmedia.
  set (mets := Layout.all_exchanged_mets self') in *.
  destruct (Layout.has_metabolite (Layout.media self) met) eqn:Ehas.
  - unfold media_with. destruct (missing _ mets); [exact Ehas |].
    rewrite (has_metabolite_names _ _ met (relabel_metabolites _)).
    rewrite has_metabolite_app, Ehas. reflexivity.
  - assert (Hin : In met (missing (Layout.media self) mets)).
    { apply filter_In. split; [exact Hmet | rewrite Ehas; reflexivity]. }
    unfold media_with. destruct (missing _ mets) as [| a rest] eqn:Em; [destruct Hin |].
    rewrite (has_metabolite_names _ _ met (relabel_metabolites _)).
    rewrite has_metabolite_app. apply orb_true_iff. right.
    apply has_metabolite_In. rewrite map_map. cbn [zero_row Layout.metabolite].
    apply in_map_iff. exists met. split; [reflexivity | exact Hin].
Qed.

(** X8.  [update_models] only adds to the media table: when it returns,
    the table is the one it was if no exchanged metabolite lacked a row;
    otherwise it has, after the rows it had, one row for each exchanged
    metabolite that lacked one, in the order of [all_exchanged_mets], with
    amount 0 and the layout's defaults, and every row is labelled by its
    position. *)
Theorem update_models_media_grows (self self' : Layout.layout) :
  Layout.update_models self = (Ok tt, self') ->
  Layout.media self'
  = match missing (Layout.media self) (Layout.all_exchanged_mets self') with
    | [] => Layout.media self
    | added => Layout.relabel (Layout.media self ++ map (zero_row self) added)
    end.
Proof.
  intros H. apply update_models_inv in H. destruct H as [_ ->].
  unfold media_with. destruct (missing _ _); reflexivity.
Qed.

(** X7, on the sample layout. *)
Lemma update_models_media_complete_sample :
  Forall (fun met =>
            Layout.has_metabolite (Layout.media Samples.sample_layout) met = true)
         (Layout.all_exchanged_mets Samples.sample_layout).
Proof.
  apply (update_models_media_complete
           (Layout.init <| Layout.models := [Samples.two_exchange_model] |>)
           Samples.sample_layout).
  vm_compute. reflexivity.
Defined.

(** X8, on a layout that has a row for glc_e and receives the sample
    model, which exchanges glc_e and o2_e: the row of glc_e stays, a row
    for o2_e is added. *)
Lemma update_models_media_grows_sample :
  Layout.media (snd (Layout.update_models Samples.glucose_layout))
  = match missing (Layout.media Samples.glucose_layout)
            (Layout.all_exchanged_mets
               (snd (Layout.update_models Samples.glucose_layout))) with
    | [] => Layout.media Samples.glucose_layout
    | added =>
        Layout.relabel
          (Layout.media Samples.glucose_layout
           ++ map (zero_row Samples.glucose_layout) added)
    end.
Proof.
  apply (update_models_media_grows Samples.glucose_layout).
  vm_compute. reflexivity.
Defined.

(** ** The initial population of a layout *)

Lemma pop_line_row (n i : nat) (pop line : list num) :
  (i < n)%nat -> Layout.pop_line n i pop = Ok line -> pop_row n line.
Proof.
  intros Hi H. unfold Layout.pop_line in H.
  apply res_bind_Ok_inv in H. destruct H as (x & _ & H).
  apply res_bind_Ok_inv in H. destruct H as (y & _ & H).
  apply res_bind_Ok_inv in H. destruct H as (a & _ & H).
  injection H as <-. exists i, x, y, a. split; [exact Hi | reflexivity].
Qed.

Lemma res_map_Forall {A B} (f : A -> res B) (P : B -> Prop) (l : list A)
    (l' : list B) :
  (forall a b, f a = Ok b -> P b) -> res_map f l = Ok l' -> Forall P l'.
Proof.
  intros Hf. revert l'. induction l as [| a l IH]; simpl; intros l' H.
  - injection H as <-. constructor.
  - apply res_bind_Ok_inv in H. destruct H as (b & Hb & H).
    apply res_bind_Ok_inv in H. destruct H as (bs & Hbs & H).
    injection H as <-. constructor; [exact (Hf a b Hb) | exact (IH bs Hbs)].
Qed.

Lemma build_pop_lines_rows (n i : nat) (ms : list Model.model)
    (acc lines : list (list num)) (s s' : Layout.layout) :
  (i + length ms <= n)%nat -> Forall (pop_row n) acc ->
  Layout.build_pop_lines n i ms acc s = (Ok lines, s') ->
  Forall (pop_row n) lines.
Proof.
  revert i acc s. induction ms as [| m ms IH]; intros i acc s Hi Hacc H.
  - inversion H. subst. exact Hacc.
  - cbn [Layout.build_pop_lines] in H. cbn [length] in Hi.
    mlift H as pops Hpops. mmodify H. mlift H as rows Hrows.
    eapply (IH (S i) (acc ++ rows)); [lia | | exact H].
    apply Forall_app. split; [exact Hacc |].
    apply (res_map_Forall _ _ _ _ (fun a b => pop_line_row n i a b ltac:(lia)) Hrows).
Qed.

(** X9.  When [update_models] returns, [initial_pop] is a list of rows,
    each of which has the two coordinates and then one amount per model
    of the layout, all of them zero but one. *)
Theorem update_models_initial_pop (self self' : Layout.layout) :
  Layout.update_models self = (Ok tt, self') ->
  exists lines,
    Layout.initial_pop self' = Layout.Rows lines /\
    Forall (pop_row (length (Layout.models self))) lines.
Proof.
  intros H. unfold Layout.update_models in H.
  mbind H as u1 s1 Hpop.
  unfold Layout.build_initial_pop in Hpop.
  mbind Hpop as self0 s0 Hget. apply get_inv in Hget. destruct Hget as [Hs0 ->].
  injection Hs0 as Hs0. subst self0.
  mbind Hpop as lines s2 Hlines.
  apply modify_inv in Hpop. destruct Hpop as [_ ->].
  exists lines. split.
  - set (P := fun s : Layout.layout => Layout.initial_pop s = Layout.Rows lines).
    match type of H with
    | ?k _ = _ =>
        assert (Hp : preserves P k)
          by (unfold Layout.build_exchanged_mets, Layout.add_new_mets_to_media;
              frame; untouched)
    end.
    apply (Hp _ _ _ H). reflexivity.
  - eapply (build_pop_lines_rows _ 0 _ []); [| constructor | exact Hlines].
    cbn. lia.
Qed.

(** X9, on the sample layout. *)
Lemma update_models_initial_pop_sample :
  exists lines,
    Layout.initial_pop (snd (Layout.update_models Samples.glucose_layout))
    = Layout.Rows lines /\
    Forall (pop_row (length (Layout.models Samples.glucose_layout))) lines.
Proof.
  apply (update_models_initial_pop Samples.glucose_layout).
  vm_compute. reflexivity.
Defined.

(** ** Dictionaries *)

Lemma loc_eqb_eq (a b : loc) : loc_eqb a b = true <-> a = b.
Proof.
  unfold loc_eqb. destruct a as [a1 a2], b as [b1 b2]. cbn [fst snd].
  rewrite andb_true_iff, !Z.eqb_eq. split; [intros [-> ->]; reflexivity |].
  intros H. injection H as -> ->. auto.
Qed.

Section DictLaws.
Context {K V : Type} (eqb : K -> K -> bool).
Hypothesis eqb_eq : forall a b, eqb a b = true <-> a = b.

Lemma lookup_set_eq (d : list (K * V)) (k : K) (v : V) :
  Dict.lookup eqb (Dict.set eqb d k v) k = Some v.
Proof. apply lookup_set_same. apply eqb_eq. reflexivity. Qed.

Lemma lookup_set_neq (d : list (K * V)) (k p : K) (v : V) :
  p <> k -> Dict.lookup eqb (Dict.set eqb d k v) p = Dict.lookup eqb d p.
Proof.
  intros Hpk.
  assert (Hf : eqb p k = false).
  { destruct (eqb p k) eqn:E; [| reflexivity]. apply eqb_eq in E. contradiction. }
  induction d as [| [k' v'] d IH]; simpl.
  - rewrite Hf. reflexivity.
  - destruct (eqb k k') eqn:E; simpl.
    + apply eqb_eq in E. subst k'. rewrite Hf. reflexivity.
    + destruct (eqb p k'); [reflexivity | exact IH].
Qed.

Lemma set_keys (d : list (K * V)) (k : K) (v : V) (n : K) :
  In n (map fst (Dict.set eqb d k v)) <-> n = k \/ In n (map fst d).
Proof.
  induction d as [| [k' v'] d IH]; simpl.
  - split; [intros [H | []]; auto | intros [H | []]; auto].
  - destruct (eqb k k') eqn:E; simpl.
    + apply eqb_eq in E. subst k'. intuition congruence.
    + rewrite IH. intuition congruence.
Qed.

Lemma set_keys_NoDup (d : list (K * V)) (k : K) (v : V) :
  NoDup (map fst d) -> NoDup (map fst (Dict.set eqb d k v)).
Proof.
  induction d as [| [k' v'] d IH]; simpl; intros Hnd.
  - repeat constructor. intros [].
  - inversion Hnd as [| ? ? Hk' Hd]; subst.
    destruct (eqb k k') eqn:E; simpl.
    + exact Hnd.
    + constructor; [| apply IH; exact Hd].
      rewrite set_keys. intros [-> | Hin]; [| contradiction].
      assert (eqb k k = true) by (apply eqb_eq; reflexivity). congruence.
Qed.

Lemma set_set (d : list (K * V)) (k : K) (v w : V) :
  Dict.set eqb (Dict.set eqb d k v) k w = Dict.set eqb d k w.
Proof.
  assert (Hr : eqb k k = true) by (apply eqb_eq; reflexivity).
  induction d as [| [k' v'] d IH]; simpl.
  - rewrite Hr. reflexivity.
  - destruct (eqb k k') eqn:E; simpl; rewrite E; [reflexivity | f_equal; exact IH].
Qed.

End DictLaws.

(** ** Amounts set at a location *)

Section SetAtLocation.
Context (get_map : Layout.layout -> Layout.sparse)
        (set_map : Layout.sparse -> Layout.layout -> Layout.layout)
        (set_flag : Layout.layout -> Layout.layout).
Hypothesis get_set : forall d s, get_map (set_map d s) = d.
Hypothesis set_set_map : forall d d' s, set_map d (set_map d' s) = set_map d s.
Hypothesis get_flag : forall s, get_map (set_flag s) = get_map s.

Lemma set_at_location_raises met location amount self :
  Text.mem met (Layout.all_exchanged_mets self) = false ->
  Layout.set_at_location get_map set_map set_flag met location amount self
  = (Raise (Exception Layout.msg_not_exchangeable), self).
Proof.
  intros H. unfold Layout.set_at_location, bind, get. rewrite H. reflexivity.
Qed.

Lemma set_at_location_returns met location amount self :
  Text.mem met (Layout.all_exchanged_mets self) = true ->
  Layout.set_at_location get_map set_map set_flag met location amount self
  = (Ok tt,
     set_map
       (Dict.set loc_eqb (get_map self) location
          (Dict.set String.eqb
             (match Dict.lookup loc_eqb (get_map self) location with
              | Some inner => inner
              | None => []
              end) met amount))
       (set_flag self)).
Proof.
  intros H. unfold Layout.set_at_location.
  unfold bind at 1. cbn [get]. rewrite H. cbn [negb].
  unfold bind at 1. cbn [modify]. unfold bind at 1. cbn [get].
  rewrite get_flag. unfold Dict.mem, Layout.set_at, Layout.clear_at.
  destruct (Dict.lookup loc_eqb (get_map self) location) as [inner |] eqn:E;
    cbn [negb].
  - unfold bind, ret, get, lift, modify. rewrite get_flag, E. reflexivity.
  - unfold bind, ret, get, lift, modify. rewrite get_set, get_flag.
    rewrite (lookup_set_eq loc_eqb loc_eqb_eq).
    rewrite (set_set loc_eqb loc_eqb_eq), set_set_map. reflexivity.
Qed.

End SetAtLocation.

Lemma string_eqb_eq (a b : string) : String.eqb a b = true <-> a = b.
Proof. apply String.eqb_eq. Qed.

Lemma local_amount_set (d : Layout.sparse) (location l : loc) (met m : string)
    (amount : num) :
  local_amount
    (Dict.set loc_eqb d location
       (Dict.set String.eqb
          (match Dict.lookup loc_eqb d location with
           | Some inner => inner
           | None => []
           end) met amount)) l m
  = if loc_eqb l location && String.eqb m met then Some amount
    else local_amount d l m.
Proof.
  unfold local_amount.
  destruct (loc_eqb l location) eqn:El.
  - apply loc_eqb_eq in El. subst l.
    rewrite (lookup_set_eq loc_eqb loc_eqb_eq). cbn [andb].
    destruct (String.eqb m met) eqn:Em.
    + apply String.eqb_eq in Em. subst m.
      apply (lookup_set_eq String.eqb string_eqb_eq).
    + rewrite (lookup_set_neq String.eqb string_eqb_eq)
        by (intros ->; rewrite String.eqb_refl in Em; discriminate).
      destruct (Dict.lookup loc_eqb d location); reflexivity.
  - cbn [andb].
    rewrite (lookup_set_neq loc_eqb loc_eqb_eq)
      by (intros ->; rewrite loc_eqb_refl in El; discriminate).
    reflexivity.
Qed.

(** X10.  [set_specific_metabolite_at_location] raises [Exception], and
    leaves the layout as it is, when the metabolite is not an exchanged
    one.  Otherwise it returns, having set the flag of the local media;
    the location then holds the amount for the metabolite, every other
    pair of a location and a metabolite holds what it held, and nothing
    else of the layout has changed. *)
Theorem set_specific_metabolite_at_location_spec
    (self : Layout.layout) (met : string) (location : loc) (amount : num) :
  let run := Layout.set_specific_metabolite_at_location met location amount self in
  if Text.mem met (Layout.all_exchanged_mets self) then
    fst run = Ok tt /\
    Layout.local_media_flag (snd run) = true /\
    (forall l m,
       local_amount (Layout.local_media (snd run)) l m
       = if loc_eqb l location && String.eqb m met then Some amount
         else local_amount (Layout.local_media self) l m) /\
    snd run = self <| Layout.local_media_flag := true |>
                   <| Layout.local_media := Layout.local_media (snd run) |>
  else run = (Raise (Exception Layout.msg_not_exchangeable), self).
Proof.
  cbv zeta. unfold Layout.set_specific_metabolite_at_location.
  destruct (Text.mem met (Layout.all_exchanged_mets self)) eqn:Hmem.
  - rewrite set_at_location_returns; try reflexivity; [| exact Hmem].
    cbn [fst snd]. split; [reflexivity |]. split; [reflexivity |].
    split; [| reflexivity].
    intros l m. apply local_amount_set.
  - apply set_at_location_raises. exact Hmem.
Qed.

Lemma well_keyed_set (mets : list string) (d : Layout.sparse) (location : loc)
    (met : string) (amount : num) :
  In met mets -> well_keyed mets d ->
  well_keyed mets
    (Dict.set loc_eqb d location
       (Dict.set String.eqb
          (match Dict.lookup loc_eqb d location with
           | Some inner => inner
           | None => []
           end) met amount)).
Proof.
  intros Hmet Hd l inner Hl.
  destruct (loc_eqb l location) eqn:El.
  - apply loc_eqb_eq in El. subst l.
    rewrite (lookup_set_eq loc_eqb loc_eqb_eq) in Hl. injection Hl as <-.
    assert (Hold : NoDup (map fst (match Dict.lookup loc_eqb d location with
                                   | Some inner => inner
                                   | None => []
                                   end)) /\
                   forall n, In n (map fst (match Dict.lookup loc_eqb d location with
                                            | Some inner => inner
                                            | None => []
                                            end)) -> In n mets).
    { destruct (Dict.lookup loc_eqb d location) as [inner |] eqn:E.
      - exact (Hd location inner E).
      - split; [constructor | intros n []]. }
    destruct Hold as [Hnd Hin]. split.
    + apply (set_keys_NoDup String.eqb string_eqb_eq). exact Hnd.
    + intros n Hn. apply (set_keys String.eqb string_eqb_eq) in Hn.
      destruct Hn as [-> | Hn]; [exact Hmet | exact (Hin n Hn)].
  - rewrite (lookup_set_neq loc_eqb loc_eqb_eq) in Hl
      by (intros ->; rewrite loc_eqb_refl in El; discriminate).
    exact (Hd l inner Hl).
Qed.

(** X11.  What is set at a location is written in the column of its
    metabolite.  On a layout whose exchanged metabolites are distinct and
    whose local media are keyed by exchanged metabolites, when
    [set_specific_metabolite_at_location] returns the local media are
    still keyed so, and the dense row that [write_local_media_chunk]
    computes for the location has one entry per exchanged metabolite, the
    amount standing at the number of the metabolite. *)
Theorem local_media_row_after_set
    (self self' : Layout.layout) (met : string) (location : loc) (amount : num) :
  NoDup (Layout.all_exchanged_mets self) ->
  well_keyed (Layout.all_exchanged_mets self) (Layout.local_media self) ->
  Layout.set_specific_metabolite_at_location met location amount self
  = (Ok tt, self') ->
  well_keyed (Layout.all_exchanged_mets self') (Layout.local_media self') /\
  exists inner row k,
    Dict.lookup loc_eqb (Layout.local_media self') location = Some inner /\
    Layout.met_amounts_in_order self' inner = Ok row /\
    length row = length (Layout.all_exchanged_mets self') /\
    Layout.get_met_number self' met = Ok k /\
    nth_error row k = Some amount.
Proof.
  intros Hnd Hkeys H.
  unfold Layout.set_specific_metabolite_at_location in H.
  destruct (Text.mem met (Layout.all_exchanged_mets self)) eqn:Hmem.
  2:{ rewrite set_at_location_raises in H by (try reflexivity; exact Hmem).
      discriminate H. }
  rewrite set_at_location_returns in H by (try reflexivity; exact Hmem).
  injection H as Hself'.
  apply mem_In in Hmem.
  set (inner' := Dict.set String.eqb
                   (match Dict.lookup loc_eqb (Layout.local_media self) location with
                    | Some inner => inner
                    | None => []
                    end) met amount) in *.
  assert (Hmets : Layout.all_exchanged_mets self' = Layout.all_exchanged_mets self)
    by (rewrite <- Hself'; reflexivity).
  assert (Hmedia : Layout.local_media self'
                   = Dict.set loc_eqb (Layout.local_media self) location inner')
    by (rewrite <- Hself'; reflexivity).
  clear Hself'.
  assert (Hwk : well_keyed (Layout.all_exchanged_mets self') (Layout.local_media self')).
  { rewrite Hmets, Hmedia. apply well_keyed_set; assumption. }
  split; [exact Hwk |].
  assert (Hl : Dict.lookup loc_eqb (Layout.local_media self') location = Some inner')
    by (rewrite Hmedia; apply (lookup_set_eq loc_eqb loc_eqb_eq)).
  destruct (Hwk location inner' Hl) as [Hnd' Hin'].
  assert (Hlen : length (repeat (Num.of_Z 0) (length (Layout.all_exchanged_mets self')))
                 = length (Layout.all_exchanged_mets self')) by apply repeat_length.
  destruct (fill_amounts_total self' inner' _ Hlen Hin') as (row & Hrow).
  rewrite <- Hmets in Hnd, Hmem.
  destruct (fill_amounts_spec self' inner' _ row Hnd Hnd' Hlen Hrow) as (Hl' & Hr).
  destruct (get_met_number_In self' met Hmem) as (k & Hk).
  exists inner', row, k.
  split; [exact Hl |]. split; [exact Hrow |]. split; [exact Hl' |].
  split; [exact Hk |].
  rewrite (Hr k met (get_met_number_Ok self' met k Hk)).
  unfold inner'. rewrite (lookup_set_eq String.eqb string_eqb_eq). reflexivity.
Qed.

(** X11, on the sample layout: 3 units of o2_e at (1, 2). *)
Lemma local_media_row_after_set_sample :
  well_keyed
    (Layout.all_exchanged_mets
       (snd (Layout.set_specific_metabolite_at_location "o2_e" (1, 2) (Num.of_Z 3)
               Samples.sample_layout)))
    (Layout.local_media
       (snd (Layout.set_specific_metabolite_at_location "o2_e" (1, 2) (Num.of_Z 3)
               Samples.sample_layout))) /\
  exists inner row k,
    Dict.lookup loc_eqb
      (Layout.local_media
         (snd (Layout.set_specific_metabolite_at_location "o2_e" (1, 2) (Num.of_Z 3)
                 Samples.sample_layout))) (1, 2) = Some inner /\
    Layout.met_amounts_in_order
      (snd (Layout.set_specific_metabolite_at_location "o2_e" (1, 2) (Num.of_Z 3)
              Samples.sample_layout)) inner = Ok row /\
    length row
    = length (Layout.all_exchanged_mets
                (snd (Layout.set_specific_metabolite_at_location "o2_e" (1, 2)
                        (Num.of_Z 3) Samples.sample_layout))) /\
    Layout.get_met_number
      (snd (Layout.set_specific_metabolite_at_location "o2_e" (1, 2) (Num.of_Z 3)
              Samples.sample_layout)) "o2_e" = Ok k /\
    nth_error row k = Some (Num.of_Z 3).
Proof.
  apply (local_media_row_after_set Samples.sample_layout _ "o2_e" (1, 2) (Num.of_Z 3)).
  - vm_compute. repeat constructor; simpl; intuition discriminate.
  - intros l inner Hl. vm_compute in Hl. discriminate Hl.
  - vm_compute. reflexivity.
Defined.

(** ** The amount of a metabolite set by hand *)

Lemma has_metabolite_false (media : list Layout.media_row) (met : string) :
  Layout.has_metabolite media met = false ->
  Forall (fun r => Layout.metabolite r <> Some met) media.
Proof.
  intros H. apply Forall_forall. intros r Hr Hm.
  assert (Layout.has_metabolite media met = true).
  { apply has_metabolite_In. rewrite <- Hm. apply in_map. exact Hr. }
  congruence.
Qed.

Lemma set_rows_metabolites (met : string)
    (set : Layout.media_row -> Layout.media_row) (tbl : list Layout.media_row) :
  (forall r, Layout.metabolite (set r) = Layout.metabolite r) ->
  map Layout.metabolite (Layout.set_rows met set tbl) = map Layout.metabolite tbl.
Proof.
  intros Hset. unfold Layout.set_rows. rewrite map_map. apply map_ext.
  intros r. destruct (Layout.metabolite r) as [n |] eqn:E; [| exact E].
  destruct (String.eqb n met); [rewrite Hset |]; exact E.
Qed.

Lemma set_rows_beside (met : string)
    (set : Layout.media_row -> Layout.media_row) (tbl : list Layout.media_row) :
  (forall r, Layout.metabolite (set r) = Layout.metabolite r) ->
  rows_beside met (Layout.set_rows met set tbl) = rows_beside met tbl.
Proof.
  intros Hset. unfold rows_beside, Layout.set_rows.
  induction tbl as [| r tbl IH]; [reflexivity |]. cbn [map filter].
  destruct (Layout.metabolite r) as [n |] eqn:E.
  - destruct (String.eqb n met) eqn:En.
    + rewrite Hset, E, En. cbn [negb]. exact IH.
    + rewrite E, En. cbn [negb]. f_equal. exact IH.
  - rewrite E. f_equal. exact IH.
Qed.

Lemma set_rows_amount (met : string) (amount : num) (tbl : list Layout.media_row) :
  Forall (fun r => Layout.metabolite r = Some met ->
                   Layout.init_amount r = Some amount)
    (Layout.set_rows met (fun r => r <| Layout.init_amount := Some amount |>) tbl).
Proof.
  apply Forall_forall. intros r Hr. unfold Layout.set_rows in Hr.
  apply in_map_iff in Hr. destruct Hr as (r0 & <- & _).
  destruct (Layout.metabolite r0) as [n |] eqn:E.
  - destruct (String.eqb_spec n met) as [-> | Hne].
    + intros _. reflexivity.
    + intros H. congruence.
  - intros H. congruence.
Qed.

Lemma rows_beside_app (met : string) (a b : list Layout.media_row) :
  rows_beside met (a ++ b) = rows_beside met a ++ rows_beside met b.
Proof. apply filter_app. Qed.

Lemma holds_new_row (self : Layout.layout) (met : string) (amount : num) :
  Layout.has_metabolite (Layout.media self) met = false ->
  holds (Layout.media self ++ [Layout.new_row self met amount]) met amount.
Proof.
  intros Hhas. split.
  - rewrite has_metabolite_app. apply orb_true_iff. right.
    unfold Layout.has_metabolite, Layout.labels_of. cbn.
    rewrite String.eqb_refl. reflexivity.
  - apply Forall_app. split.
    + eapply Forall_impl; [| apply has_metabolite_false; exact Hhas].
      intros r Hr Hm. contradiction.
    + repeat constructor.
Qed.

Lemma set_specific_metabolite_run
    (self : Layout.layout) (out : list string) (met : string) (amount : num) :
  Layout.set_specific_metabolite met amount (Layout.mk_state self out)
  = if Layout.has_metabolite (Layout.media self) met
    then (Ok tt,
          Layout.mk_state
            (self <| Layout.media :=
                       Layout.set_rows met
                         (fun r => r <| Layout.init_amount := Some amount |>)
                         (Layout.media self) |>) out)
    else (Ok tt,
          Layout.mk_state
            (self <| Layout.media :=
                       Layout.media self ++ [Layout.new_row self met amount] |>)
            (out ++ [Layout.msg_not_taken_up met])).
Proof.
  unfold Layout.set_specific_metabolite, bind, Layout.get_self, Layout.on_self,
    get, Layout.update, Layout.print, modify.
  cbn [Layout.obj Layout.stdout].
  destruct (Layout.has_metabolite (Layout.media self) met); reflexivity.
Qed.

(** X12.  [set_specific_metabolite] always returns, and then the media
    table has the metabolite with the amount in each of its rows, while
    the rows of the other metabolites are as they were.  It prints its
    warning, once, exactly when the table had no row for the metabolite;
    the row it then adds stands last and is labelled 0. *)
Theorem set_specific_metabolite_spec
    (self : Layout.layout) (out : list string) (met : string) (amount : num) :
  let run := Layout.set_specific_metabolite met amount (Layout.mk_state self out) in
  let media' := Layout.media (Layout.obj (snd run)) in
  fst run = Ok tt /\
  holds media' met amount /\
  rows_beside met media' = rows_beside met (Layout.media self) /\
  (if Layout.has_metabolite (Layout.media self) met
   then Layout.stdout (snd run) = out /\
        map Layout.label media' = map Layout.label (Layout.media self)
   else Layout.stdout (snd run) = out ++ [Layout.msg_not_taken_up met] /\
        map Layout.label media' = map Layout.label (Layout.media self) ++ [0]).
Proof.
  cbv zeta. rewrite set_specific_metabolite_run.
  destruct (Layout.has_metabolite (Layout.media self) met) eqn:Hhas;
    cbn [fst snd Layout.obj Layout.stdout].
  - change (Layout.media (self <| Layout.media := ?x |>)) with x.
    split; [reflexivity |]. split; [| split; [| split; [reflexivity |]]].
    + split; [| apply set_rows_amount].
      rewrite (has_metabolite_names _ (Layout.media self) met); [exact Hhas |].
      apply set_rows_metabolites. intros r. destruct r; reflexivity.
    + apply set_rows_beside. intros r. destruct r; reflexivity.
    + unfold Layout.set_rows. rewrite map_map. apply map_ext. intros r.
      destruct (Layout.metabolite r) as [n |]; [| reflexivity].
      destruct (String.eqb n met); [destruct r |]; reflexivity.
  - change (Layout.media (self <| Layout.media := ?x |>)) with x.
    split; [reflexivity |]. split; [| split; [| split; [reflexivity |]]].
    + apply holds_new_row. exact Hhas.
    + rewrite rows_beside_app. unfold rows_beside at 2. cbn.
      rewrite String.eqb_refl. cbn. apply app_nil_r.
    + rewrite map_app. reflexivity.
Qed.

(** ** Writing the media table *)

Lemma at_label_twice {A} (col : Layout.media_row -> A)
    (tbl : list Layout.media_row) (r : Layout.media_row) (i : Z) :
  existsb (fun r => Layout.label r =? i) tbl = true ->
  Layout.label r = i ->
  Layout.at_label col (tbl ++ [r]) i = Raise TypeError.
Proof.
  intros Hex Hr. unfold Layout.at_label. rewrite filter_app. cbn [filter].
  rewrite Hr, Z.eqb_refl.
  destruct (filter (fun r0 => Layout.label r0 =? i) tbl) as [| a l] eqn:E.
  - apply existsb_exists in Hex. destruct Hex as (x & Hx & Hlx).
    assert (Hin : In x (filter (fun r0 => Layout.label r0 =? i) tbl))
      by (apply filter_In; auto).
    rewrite E in Hin. destruct Hin.
  - destruct l; reflexivity.
Qed.

(** X13.  After [set_specific_metabolite] has added a metabolite to a
    media table that has a row labelled 0, as has every table that was
    filled from models, the layout cannot be written: the added row is
    labelled 0 as well, and [write_media_chunk] raises [TypeError] at the
    first row. *)
Theorem write_media_after_new_metabolite
    (self : Layout.layout) (out : list string) (met : string) (amount : num)
    (lyt : string) (fs : FS.fs) :
  Layout.has_metabolite (Layout.media self) met = false ->
  existsb (fun r => Layout.label r =? 0) (Layout.media self) = true ->
  fst (Layout.write_media_chunk
         (Layout.obj (snd (Layout.set_specific_metabolite met amount
                             (Layout.mk_state self out))))
         lyt fs)
  = Raise TypeError.
Proof.
  intros Hhas Hzero. rewrite set_specific_metabolite_run, Hhas.
  cbn [snd Layout.obj]. unfold Layout.write_media_chunk.
  change (Layout.media (self <| Layout.media := ?x |>)) with x.
  rewrite length_app. cbn [length]. rewrite Nat.add_1_r. cbn [seq for_each].
  change (Z.of_nat 0) with 0.
  rewrite at_label_twice by (try exact Hzero; reflexivity).
  unfold bind. cbn [lift].
  destruct (FS.write lyt "    world_media" fs) as [[u | e] fs1] eqn:Ew.
  - reflexivity.
  - unfold FS.write in Ew. cbn in Ew. discriminate Ew.
Qed.

(** X13, on the sample layout, to which nh4_e is added. *)
Lemma write_media_after_new_metabolite_sample :
  fst (Layout.write_media_chunk
         (Layout.obj (snd (Layout.set_specific_metabolite "nh4_e" (Num.of_Z 7)
                             (Layout.mk_state Samples.sample_layout []))))
         "wd/.current_layout" [("wd/.current_layout", [])])
  = Raise TypeError.
Proof.
  apply (write_media_after_new_metabolite Samples.sample_layout [] "nh4_e"
           (Num.of_Z 7)); vm_compute; reflexivity.
Defined.

(** ** Trace metabolites *)

Lemma holds_set_rows (tbl : list Layout.media_row) (met m : string) (amount : num) :
  holds tbl m amount ->
  holds (Layout.set_rows met (fun r => r <| Layout.init_amount := Some amount |>) tbl)
        m amount.
Proof.
  intros [Hhas Hall]. split.
  - rewrite (has_metabolite_names _ tbl m); [exact Hhas |].
    apply set_rows_metabolites. intros r. destruct r; reflexivity.
  - apply Forall_forall. intros r Hr. unfold Layout.set_rows in Hr.
    apply in_map_iff in Hr. destruct Hr as (r0 & <- & Hr0).
    rewrite Forall_forall in Hall. specialize (Hall r0 Hr0).
    destruct (Layout.metabolite r0) as [n |] eqn:E; [| rewrite E; exact Hall].
    destruct (String.eqb n met); [| rewrite E; exact Hall].
    intros _. reflexivity.
Qed.

Lemma holds_app (tbl : list Layout.media_row) (r : Layout.media_row)
    (m : string) (amount : num) :
  holds tbl m amount -> Layout.init_amount r = Some amount ->
  holds (tbl ++ [r]) m amount.
Proof.
  intros [Hhas Hall] Hr. split.
  - rewrite has_metabolite_app, Hhas. reflexivity.
  - apply Forall_app. split; [exact Hall |]. repeat constructor. intros _. exact Hr.
Qed.

Lemma relabel_labels (tbl : list Layout.media_row) :
  labelled_by_position (Layout.relabel tbl).
Proof.
  unfold labelled_by_position, Layout.relabel.
  rewrite length_map, length_combine, length_seq, Nat.min_id.
  generalize 0%nat. induction tbl as [| r tbl IH]; intros k; [reflexivity |].
  cbn [length seq combine map]. f_equal; first [apply IH | destruct r; reflexivity].
Qed.

Lemma relabel_amounts (tbl : list Layout.media_row) :
  map (fun r => (Layout.metabolite r, Layout.init_amount r)) (Layout.relabel tbl)
  = map (fun r => (Layout.metabolite r, Layout.init_amount r)) tbl.
Proof.
  unfold Layout.relabel. generalize 0%nat.
  induction tbl as [| r tbl IH]; intros k; [reflexivity |].
  cbn [length seq combine map]. f_equal; first [apply IH | destruct r; reflexivity].
Qed.

Lemma holds_cells (a b : list Layout.media_row) (m : string) (amount : num) :
  map (fun r => (Layout.metabolite r, Layout.init_amount r)) a
  = map (fun r => (Layout.metabolite r, Layout.init_amount r)) b ->
  holds b m amount -> holds a m amount.
Proof.
  intros Hab [Hhas Hall]. split.
  - rewrite (has_metabolite_names a b m); [exact Hhas |].
    apply (f_equal (map fst)) in Hab. rewrite !map_map in Hab. exact Hab.
  - clear Hhas. revert b Hab Hall. induction a as [| r a IH]; intros b Hab Hall;
      [constructor |].
    destruct b as [| r' b]; [discriminate Hab |].
    cbn [map] in Hab. injection Hab as Hm Ha Hab.
    inversion Hall as [| ? ? Hr' Hb]; subst.
    constructor.
    + rewrite Hm, Ha. exact Hr'.
    + apply (IH b Hab Hb).
Qed.

Lemma trace_loop (mets : list string) (amount : num) (self : Layout.layout) :
  exists self',
    for_each mets
      (fun met =>
         self <- get ;;
         if Layout.has_metabolite (Layout.media self) met then
           modify (fun self =>
             self <| Layout.media :=
                       Layout.set_rows met
                         (fun r => r <| Layout.init_amount := Some amount |>)
                         (Layout.media self) |>)
         else
           modify (fun self =>
             self <| Layout.media :=
                       Layout.media self ++ [Layout.new_row self met amount] |>))
      self
    = (Ok tt, self') /\
    (forall m, holds (Layout.media self) m amount ->
               holds (Layout.media self') m amount) /\
    Forall (fun m => holds (Layout.media self') m amount) mets.
Proof.
  revert self. induction mets as [| met mets IH]; intros self.
  - exists self. split; [reflexivity |]. split; [auto | constructor].
  - cbn [for_each]. unfold bind at 1. unfold bind at 1. cbn [get].
    destruct (Layout.has_metabolite (Layout.media self) met) eqn:Hhas;
      cbn [modify].
    + destruct (IH (self <| Layout.media :=
                              Layout.set_rows met
                                (fun r => r <| Layout.init_amount := Some amount |>)
                                (Layout.media self) |>))
        as (self' & Hrun & Hkeep & Hall).
      exists self'. split; [exact Hrun |].
      change (Layout.media (self <| Layout.media := ?x |>)) with x in Hkeep.
      split.
      * intros m Hm. apply Hkeep. apply holds_set_rows. exact Hm.
      * constructor; [| exact Hall]. apply Hkeep. split.
        -- rewrite (has_metabolite_names _ (Layout.media self) met); [exact Hhas |].
           apply set_rows_metabolites. intros r. destruct r; reflexivity.
        -- apply set_rows_amount.
    + destruct (IH (self <| Layout.media :=
                              Layout.media self ++ [Layout.new_row self met amount] |>))
        as (self' & Hrun & Hkeep & Hall).
      exists self'. split; [exact Hrun |].
      change (Layout.media (self <| Layout.media := ?x |>)) with x in Hkeep.
      split.
      * intros m Hm. apply Hkeep. apply holds_app; [exact Hm | reflexivity].
      * constructor; [| exact Hall]. apply Hkeep. apply holds_new_row. exact Hhas.
Qed.

(** X14.  [add_typical_trace_metabolites] always returns; afterwards the
    media table has each of the nineteen trace metabolites, with the
    amount in each of its rows for it, and its rows are labelled by their
    positions, so that the label of a row added before is no longer
    repeated. *)
Theorem add_typical_trace_metabolites_spec (self : Layout.layout) (amount : num) :
  let run := Layout.add_typical_trace_metabolites amount self in
  fst run = Ok tt /\
  labelled_by_position (Layout.media (snd run)) /\
  Forall (fun met => holds (Layout.media (snd run)) met amount)
         Layout.trace_metabolites.
Proof.
  cbv zeta.
  destruct (trace_loop Layout.trace_metabolites amount self)
    as (self1 & Hrun & _ & Hall).
  assert (Hr : Layout.add_typical_trace_metabolites amount self
               = (Ok tt, self1 <| Layout.media := Layout.relabel (Layout.media self1) |>)).
  { unfold Layout.add_typical_trace_metabolites.
    rewrite (bind_Ok _ _ _ _ _ Hrun). reflexivity. }
  rewrite Hr. cbn [fst snd].
  change (Layout.media (self1 <| Layout.media := ?x |>)) with x.
  split; [reflexivity |]. split; [apply relabel_labels |].
  eapply Forall_impl; [| exact Hall]. intros m Hm.
  apply (holds_cells _ (Layout.media self1)); [apply relabel_amounts | exact Hm].
Qed.

(** ** The world_media block *)

Lemma filter_label_none (tbl : list Layout.media_row) (k : nat) (j : Z) :
  map Layout.label tbl = map Z.of_nat (seq k (length tbl)) ->
  j < Z.of_nat k ->
  filter (fun r => Layout.label r =? j) tbl = [].
Proof.
  revert k. induction tbl as [| a tbl IH]; intros k Hl Hj; [reflexivity |].
  cbn [length seq map] in Hl. injection Hl as Ha Hl. cbn [filter].
  replace (Layout.label a =? j) with false by (symmetry; apply Z.eqb_neq; lia).
  apply (IH (S k)); [exact Hl | lia].
Qed.

Lemma at_label_position {A} (col : Layout.media_row -> A)
    (tbl : list Layout.media_row) (k i : nat) (r : Layout.media_row) :
  map Layout.label tbl = map Z.of_nat (seq k (length tbl)) ->
  nth_error tbl i = Some r ->
  Layout.at_label col tbl (Z.of_nat (k + i)) = Ok (col r).
Proof.
  unfold Layout.at_label.
  revert k i. induction tbl as [| a tbl IH]; intros k i Hl Hi.
  - destruct i; discriminate Hi.
  - cbn [length seq map] in Hl. injection Hl as Ha Hl. cbn [filter].
    destruct i as [| i].
    + injection Hi as <-. rewrite Nat.add_0_r, Ha, Z.eqb_refl.
      rewrite (filter_label_none tbl (S k)) by (try exact Hl; lia). reflexivity.
    + replace (Layout.label a =? Z.of_nat (k + S i)) with false
        by (symmetry; apply Z.eqb_neq; lia).
      replace (k + S i)%nat with (S k + i)%nat by lia.
      apply IH; assumption.
Qed.

Lemma str_cell_line (v : option num) :
  Text.all_char (fun c => negb (FS.line_break c)) (Layout.str_cell v) = true.
Proof.
  destruct v as [x |]; [| reflexivity]. cbn [Layout.str_cell].
  apply (all_char_weaken row_char); [apply row_char_line | apply str_row_char].
Qed.

Lemma write_media_rows (self : Layout.layout) (lyt : string) (m k : nat) :
  labelled_by_position (Layout.media self) ->
  Forall (fun r => exists n,
            Layout.metabolite r = Some n /\
            Text.all_char (fun c => negb (FS.line_break c)) n = true)
         (Layout.media self) ->
  (k + m <= length (Layout.media self))%nat ->
  appends lyt
    (for_each (seq k m) (fun i =>
       name <- lift (Layout.at_label Layout.metabolite (Layout.media self)
                                     (Z.of_nat i)) ;;
       name <- lift (match name with Some n => Ok n | None => Raise TypeError end) ;;
       amount <- lift (Layout.at_label Layout.init_amount (Layout.media self)
                                       (Z.of_nat i)) ;;
       FS.write lyt ("      " ^^ name ^^ " " ^^ Layout.str_cell amount)))
    (map media_line (firstn m (skipn k (Layout.media self)))).
Proof.
  intros Hlab Hrows. revert k. induction m as [| m IH]; intros k Hk.
  - apply appends_ret.
  - cbn [seq for_each].
    destruct (nth_error (Layout.media self) k) as [r |] eqn:Er.
    + assert (Hskip : skipn k (Layout.media self)
                      = r :: skipn (S k) (Layout.media self)).
      { clear -Er. revert k Er. induction (Layout.media self) as [| a l IHl];
          intros k Er; destruct k; try discriminate Er.
        - injection Er as ->. reflexivity.
        - apply (IHl k Er). }
      rewrite Hskip. cbn [firstn map].
      change (media_line r :: map media_line (firstn m (skipn (S k) (Layout.media self))))
        with ([media_line r]
              ++ map media_line (firstn m (skipn (S k) (Layout.media self)))).
      apply appends_bind; [| apply IH; lia].
      rewrite Forall_forall in Hrows.
      destruct (Hrows r (nth_error_In _ _ Er)) as (n & Hn & Hline).
      intros fs old Hold.
      rewrite (bind_lift _ (Layout.metabolite r))
        by (apply (at_label_position _ _ 0 k r Hlab Er)).
      rewrite Hn. rewrite (bind_lift _ n) by reflexivity.
      rewrite (bind_lift _ (Layout.init_amount r))
        by (apply (at_label_position _ _ 0 k r Hlab Er)).
      unfold media_line. rewrite Hn.
      apply appends_write; [| exact Hold].
      rewrite !all_char_append, Hline, str_cell_line. reflexivity.
    + apply nth_error_None in Er. lia.
Qed.

(** X15.  On a layout whose media rows are labelled by their positions
    and all have a name, [write_media_chunk] returns, and what it adds to
    the file is the header, one line with the name and the amount of each
    row in the order of the table, and the terminator. *)
Theorem write_media_chunk_lines (self : Layout.layout) (lyt : string) :
  labelled_by_position (Layout.media self) ->
  Forall (fun r => exists n,
            Layout.metabolite r = Some n /\
            Text.all_char (fun c => negb (FS.line_break c)) n = true)
         (Layout.media self) ->
  appends lyt (Layout.write_media_chunk self lyt)
    ("    world_media" :: map media_line (Layout.media self) ++ ["    //"]).
Proof.
  intros Hlab Hrows. unfold Layout.write_media_chunk.
  change ("    world_media" :: map media_line (Layout.media self) ++ ["    //"])
    with (["    world_media"] ++ map media_line (Layout.media self) ++ ["    //"]).
  apply appends_bind; [apply appends_write; reflexivity |].
  apply appends_bind; [| apply appends_write; reflexivity].
  pose proof (write_media_rows self lyt (length (Layout.media self)) 0 Hlab Hrows
                (Nat.le_refl _)) as H.
  change (skipn 0 (Layout.media self)) with (Layout.media self) in H.
  rewrite firstn_all in H. exact H.
Qed.

(** X15, on the sample layout. *)
Lemma write_media_chunk_lines_sample :
  appends "wd/.current_layout"
    (Layout.write_media_chunk Samples.sample_layout "wd/.current_layout")
    ("    world_media" :: map media_line (Layout.media Samples.sample_layout)
       ++ ["    //"]).
Proof.
  apply (write_media_chunk_lines Samples.sample_layout "wd/.current_layout").
  - vm_compute. reflexivity.
  - vm_compute. repeat constructor; eexists; split; reflexivity.
Defined.

(** ** Bounds and kinetic parameters changed by hand *)

Lemma has_reaction_rows {A} (self : Model.model) (name : string)
    (col : Model.reaction -> A) :
  Model.has_reaction self name = negb (length (Model.rows_of name col self) =? 0)%nat.
Proof.
  unfold Model.has_reaction, Model.rows_of. rewrite length_map.
  induction (Model.reactions self) as [| r rs IH]; [reflexivity |].
  cbn [existsb filter]. destruct (String.eqb (Model.REACTION_NAMES r) name);
    [reflexivity | exact IH].
Qed.

Lemma set_rows_names (name : string) (set : Model.reaction -> Model.reaction)
    (self : Model.model) :
  (forall r, Model.REACTION_NAMES (set r) = Model.REACTION_NAMES r) ->
  map Model.REACTION_NAMES (Model.reactions (Model.set_rows name set self))
  = map Model.REACTION_NAMES (Model.reactions self).
Proof.
  intros Hset. unfold Model.set_rows.
  change (Model.reactions (self <| Model.reactions := ?x |>)) with x.
  rewrite map_map. apply map_ext. intros r.
  destruct (String.eqb (Model.REACTION_NAMES r) name); [apply Hset | reflexivity].
Qed.

Lemma rows_of_set_rows {A} (name : string) (set : Model.reaction -> Model.reaction)
    (col : Model.reaction -> A) (self : Model.model) :
  (forall r, Model.REACTION_NAMES (set r) = Model.REACTION_NAMES r) ->
  Model.rows_of name col (Model.set_rows name set self)
  = Model.rows_of name (fun r => col (set r)) self.
Proof.
  intros Hset. unfold Model.rows_of, Model.set_rows.
  change (Model.reactions (self <| Model.reactions := ?x |>)) with x.
  induction (Model.reactions self) as [| r rs IH]; [reflexivity |].
  cbn [map filter].
  destruct (String.eqb (Model.REACTION_NAMES r) name) eqn:E.
  - rewrite Hset, E. cbn [map]. f_equal. exact IH.
  - rewrite E. exact IH.
Qed.

Lemma change_bounds_run (self : Model.model) (out : list string) (name : string)
    (lower_bound upper_bound : num) :
  Model.change_bounds name lower_bound upper_bound (Model.mk_state self out)
  = if Model.has_reaction self name
    then (Ok tt,
          Model.mk_state
            (Model.set_rows name (fun r => r <| Model.UB := upper_bound |>)
               (Model.set_rows name (fun r => r <| Model.LB := lower_bound |>) self))
            out)
    else (Ok tt, Model.mk_state self (out ++ [Model.msg_not_found])).
Proof.
  unfold Model.change_bounds, bind, get, Model.update, Model.print, modify.
  cbn [Model.obj Model.stdout].
  destruct (Model.has_reaction self name); reflexivity.
Qed.

Lemma get_bounds_run (self : Model.model) (out : list string) (name : string) :
  Model.get_bounds name (Model.mk_state self out)
  = if Model.has_reaction self name
    then match Model.float_of (Model.rows_of name Model.LB self) with
         | Ok lb =>
             match Model.float_of (Model.rows_of name Model.UB self) with
             | Ok ub => (Ok (Some (lb, ub)), Model.mk_state self out)
             | Raise e => (Raise e, Model.mk_state self out)
             end
         | Raise e => (Raise e, Model.mk_state self out)
         end
    else (Ok None, Model.mk_state self (out ++ [Model.msg_not_found])).
Proof.
  unfold Model.get_bounds, bind, get, Model.print, modify, lift, ret.
  cbn [Model.obj Model.stdout].
  destruct (Model.has_reaction self name); [| reflexivity].
  destruct (Model.float_of (Model.rows_of name Model.LB self)); [| reflexivity].
  destruct (Model.float_of (Model.rows_of name Model.UB self)); reflexivity.
Qed.

Lemma rows_of_const {A B} (name : string) (col : Model.reaction -> A) (b : B)
    (self : Model.model) :
  Model.rows_of name (fun _ => b) self
  = repeat b (length (Model.rows_of name col self)).
Proof.
  unfold Model.rows_of. rewrite !length_map.
  induction (filter _ (Model.reactions self)) as [| r rs IH]; [reflexivity |].
  cbn. f_equal. exact IH.
Qed.

(** X16.  [get_bounds] after [change_bounds]: when one reaction has the
    name, it returns the two bounds just set, and nothing is printed;
    when no reaction has it, both methods print their message and
    [get_bounds] returns nothing; when several reactions have it,
    [change_bounds] sets the bounds of all of them and [get_bounds]
    raises [TypeError]. *)
Theorem get_bounds_after_change_bounds
    (self : Model.model) (out : list string) (name : string)
    (lower_bound upper_bound : num) :
  let s1 := snd (Model.change_bounds name lower_bound upper_bound
                   (Model.mk_state self out)) in
  match Model.rows_of name Model.ID self with
  | [] =>
      Model.get_bounds name s1
      = (Ok None,
         Model.mk_state self (out ++ [Model.msg_not_found; Model.msg_not_found]))
  | [_] =>
      Model.get_bounds name s1 = (Ok (Some (lower_bound, upper_bound)), s1) /\
      Model.stdout s1 = out
  | _ =>
      fst (Model.get_bounds name s1) = Raise TypeError /\
      Model.rows_of name Model.LB (Model.obj s1)
      = repeat lower_bound (length (Model.rows_of name Model.ID self))
  end.
Proof.
  cbv zeta. rewrite change_bounds_run.
  rewrite (has_reaction_rows self name Model.ID).
  assert (Hlb : Model.rows_of name Model.LB
                  (Model.set_rows name (fun r => r <| Model.UB := upper_bound |>)
                     (Model.set_rows name (fun r => r <| Model.LB := lower_bound |>)
                        self))
                = repeat lower_bound (length (Model.rows_of name Model.ID self))).
  { rewrite !rows_of_set_rows by (intros r; destruct r; reflexivity).
    apply (rows_of_const name Model.ID lower_bound). }
  assert (Hub : Model.rows_of name Model.UB
                  (Model.set_rows name (fun r => r <| Model.UB := upper_bound |>)
                     (Model.set_rows name (fun r => r <| Model.LB := lower_bound |>)
                        self))
                = repeat upper_bound (length (Model.rows_of name Model.ID self))).
  { rewrite !rows_of_set_rows by (intros r; destruct r; reflexivity).
    apply (rows_of_const name Model.ID upper_bound). }
  assert (Hhas : forall s : unit, Model.has_reaction
                   (Model.set_rows name (fun r => r <| Model.UB := upper_bound |>)
                      (Model.set_rows name (fun r => r <| Model.LB := lower_bound |>)
                         self)) name
                 = negb (length (Model.rows_of name Model.ID self) =? 0)%nat).
  { intros _. rewrite (has_reaction_rows _ name Model.LB), Hlb, repeat_length.
    reflexivity. }
  destruct (Model.rows_of name Model.ID self) as [| i [| j rest]] eqn:E;
    cbn [length Nat.eqb negb snd].
  - rewrite get_bounds_run, (has_reaction_rows self name Model.ID), E.
    cbn [length Nat.eqb negb]. rewrite <- app_assoc. reflexivity.
  - rewrite get_bounds_run, (Hhas tt), Hlb, Hub. cbn. split; reflexivity.
  - rewrite get_bounds_run, (Hhas tt), Hlb. cbn. split; [reflexivity | exact Hlb].
Qed.

Lemma set_rows_exchange (name : string) (set : Model.reaction -> Model.reaction)
    (self : Model.model) :
  (forall r, Model.ID (set r) = Model.ID r) ->
  (forall r, Model.EXCH (set r) = Model.EXCH r) ->
  Model.get_exchange_metabolites (Model.set_rows name set self)
  = Model.get_exchange_metabolites self.
Proof.
  intros Hid Hexch. unfold Model.get_exchange_metabolites, Model.set_rows.
  change (Model.reactions (self <| Model.reactions := ?x |>)) with x.
  change (Model.smat (self <| Model.reactions := ?x |>)) with (Model.smat self).
  change (Model.metabolites (self <| Model.reactions := ?x |>))
    with (Model.metabolites self).
  replace (map Model.ID
             (filter Model.EXCH
                (map (fun r => if String.eqb (Model.REACTION_NAMES r) name
                               then set r else r) (Model.reactions self))))
    with (map Model.ID (filter Model.EXCH (Model.reactions self)));
    [reflexivity |].
  induction (Model.reactions self) as [| r rs IH]; [reflexivity |].
  cbn [map filter].
  destruct (String.eqb (Model.REACTION_NAMES r) name).
  - rewrite Hexch. destruct (Model.EXCH r); cbn [map]; [rewrite Hid; f_equal |];
      exact IH.
  - destruct (Model.EXCH r); cbn [map]; [f_equal |]; exact IH.
Qed.

Lemma flag_exchange (f : Model.model -> Model.model) (self : Model.model) :
  Model.reactions (f self) = Model.reactions self ->
  Model.smat (f self) = Model.smat self ->
  Model.metabolites (f self) = Model.metabolites self ->
  Model.get_exchange_metabolites (f self) = Model.get_exchange_metabolites self.
Proof.
  intros Hr Hs Hm. unfold Model.get_exchange_metabolites. rewrite Hr, Hs, Hm.
  reflexivity.
Qed.

Lemma change_vmax_run (self : Model.model) (out : list string) (name : string)
    (vmax : num) :
  Model.change_vmax name vmax (Model.mk_state self out)
  = if Model.has_reaction self name
    then (Ok tt,
          Model.mk_state
            (Model.set_rows name (fun r => r <| Model.V_MAX := Some vmax |>)
               (self <| Model.vmax_flag := true |>)) out)
    else (Ok tt, Model.mk_state self (out ++ [Model.msg_not_found])).
Proof.
  unfold Model.change_vmax, bind, get, Model.update, Model.print, modify.
  cbn [Model.obj Model.stdout].
  destruct (Model.has_reaction self name); reflexivity.
Qed.

Lemma change_km_run (self : Model.model) (out : list string) (name : string)
    (km : num) :
  Model.change_km name km (Model.mk_state self out)
  = if Model.has_reaction self name
    then (Ok tt,
          Model.mk_state
            (Model.set_rows name (fun r => r <| Model.KM := Some km |>)
               (self <| Model.km_flag := true |>)) out)
    else (Ok tt, Model.mk_state self (out ++ [Model.msg_not_found])).
Proof.
  unfold Model.change_km, bind, get, Model.update, Model.print, modify.
  cbn [Model.obj Model.stdout].
  destruct (Model.has_reaction self name); reflexivity.
Qed.

Lemma change_hill_run (self : Model.model) (out : list string) (name : string)
    (hill : num) :
  Model.change_hill name hill (Model.mk_state self out)
  = if Model.has_reaction self name
    then (Ok tt,
          Model.mk_state
            (Model.set_rows name (fun r => r <| Model.HILL := Some hill |>)
               (self <| Model.hill_flag := true |>)) out)
    else (Ok tt, Model.mk_state self (out ++ [Model.msg_not_found])).
Proof.
  unfold Model.change_hill, bind, get, Model.update, Model.print, modify.
  cbn [Model.obj Model.stdout].
  destruct (Model.has_reaction self name); reflexivity.
Qed.

(** X17.  Changing the bounds or a kinetic parameter of a reaction does
    not change the exchange metabolites of the model, whether the
    reaction is found or not: [get_exchange_metabolites] gives after
    [change_bounds], [change_vmax], [change_km] and [change_hill] what it
    gave before. *)
Theorem setters_keep_exchange_metabolites
    (self : Model.model) (out : list string) (name : string) (v w : num) :
  Model.get_exchange_metabolites
    (Model.obj (snd (Model.change_bounds name v w (Model.mk_state self out))))
  = Model.get_exchange_metabolites self /\
  Model.get_exchange_metabolites
    (Model.obj (snd (Model.change_vmax name v (Model.mk_state self out))))
  = Model.get_exchange_metabolites self /\
  Model.get_exchange_metabolites
    (Model.obj (snd (Model.change_km name v (Model.mk_state self out))))
  = Model.get_exchange_metabolites self /\
  Model.get_exchange_metabolites
    (Model.obj (snd (Model.change_hill name v (Model.mk_state self out))))
  = Model.get_exchange_metabolites self.
Proof.
  split; [| split; [| split]].
  - rewrite change_bounds_run.
    destruct (Model.has_reaction self name); cbn [snd Model.obj]; [| reflexivity].
    rewrite !set_rows_exchange by (intros r; destruct r; reflexivity). reflexivity.
  - rewrite change_vmax_run.
    destruct (Model.has_reaction self name); cbn [snd Model.obj]; [| reflexivity].
    rewrite set_rows_exchange by (intros r; destruct r; reflexivity).
    apply (flag_exchange (fun s => s <| Model.vmax_flag := true |>)); reflexivity.
  - rewrite change_km_run.
    destruct (Model.has_reaction self name); cbn [snd Model.obj]; [| reflexivity].
    rewrite set_rows_exchange by (intros r; destruct r; reflexivity).
    apply (flag_exchange (fun s => s <| Model.km_flag := true |>)); reflexivity.
  - rewrite change_hill_run.
    destruct (Model.has_reaction self name); cbn [snd Model.obj]; [| reflexivity].
    rewrite set_rows_exchange by (intros r; destruct r; reflexivity).
    apply (flag_exchange (fun s => s <| Model.hill_flag := true |>)); reflexivity.
Qed.

(** ** The kinetic sections of a written model file *)

Lemma emits_true_bind {A B} f (m : M FS.fs A) (k : A -> M FS.fs B) :
  emits f m (fun _ => True) -> (forall a, emits f (k a) (fun _ => True)) ->
  emits f (bind m k) (fun _ => True).
Proof.
  intros Hm Hk. eapply emits_weaken; [| apply emits_bind; [exact Hm | exact Hk]].
  auto.
Qed.

Lemma emits_true_ret {A} f (a : A) : emits f (ret a) (fun _ => True).
Proof. eapply emits_weaken; [| apply emits_ret]. auto. Qed.

Lemma emits_true_lift {A} f (r : res A) : emits f (lift r) (fun _ => True).
Proof. eapply emits_weaken; [| apply emits_lift]. auto. Qed.

Lemma emits_true_raise {A} f (e : exn) : emits f (@raise FS.fs A e) (fun _ => True).
Proof. intros fs a fs' old H. discriminate H. Qed.

Lemma emits_true_parameters f d :
  emits f (Model.write_parameters f d) (fun _ => True).
Proof. eapply emits_weaken; [| apply emits_parameters]. auto. Qed.

Ltac emits_true :=
  repeat first
    [ apply emits_true_bind; [| intros ?]
    | apply emits_any_write
    | apply emits_to_csv
    | apply emits_for_each; intros ?
    | apply emits_true_lift
    | apply emits_true_ret
    | apply emits_true_raise
    | apply emits_true_parameters
    | match goal with
      | |- emits _ (if ?b then _ else _) _ => destruct b
      | |- emits _ (match ?x with _ => _ end) _ => destruct x
      end ].

Lemma write_step (f line : string) (k : M FS.fs unit) (fs fs' : FS.fs)
    (old : list string) :
  (FS.write f line ;; k) fs = (Ok tt, fs') ->
  Dict.lookup String.eqb fs f = Some old ->
  exists fs1, k fs1 = (Ok tt, fs') /\
              Dict.lookup String.eqb fs1 f = Some (old ++ [line]).
Proof.
  intros H Hold. mbind H as u fs1 Hw. exists fs1. split; [exact H |].
  destruct u. destruct (emits_write f line fs tt fs1 old Hw Hold) as (ls & <- & Hl).
  exact Hl.
Qed.

Lemma to_csv_step (f : string) (col : list string) (k : M FS.fs unit)
    (fs fs' : FS.fs) (old : list string) :
  (FS.to_csv f col ;; k) fs = (Ok tt, fs') ->
  Dict.lookup String.eqb fs f = Some old ->
  exists fs1, k fs1 = (Ok tt, fs') /\
              Dict.lookup String.eqb fs1 f = Some (old ++ col).
Proof.
  intros H Hold. mbind H as u fs1 Hw. exists fs1. split; [exact H |].
  clear H. destruct u. revert fs old Hw Hold. unfold FS.to_csv.
  induction col as [| s col IH]; intros fs old Hw Hold.
  - inversion Hw. subst. rewrite app_nil_r. exact Hold.
  - cbn [for_each] in Hw. mbind Hw as u fs2 Hs.
    destruct (Pandas.csv_plain s); [| discriminate Hs]. destruct u.
    destruct (emits_write f s fs tt fs2 old Hs Hold) as (ls & <- & Hl).
    rewrite (IH fs2 (old ++ [s]) Hw Hl), <- app_assoc. reflexivity.
Qed.

(** The file that [write_comets_model] has written begins with the six
    required sections; the header of the first kinetic section, if the
    model has one, comes next. *)
Lemma written_head (self : Model.model) (working_dir : option string)
    (fs fs' : FS.fs) (ident : string) :
  Model.write_comets_model self working_dir fs = (Ok tt, fs') ->
  Model.id self = Some ident ->
  exists d0 d1 tail,
    Dict.lookup String.eqb fs'
      (match working_dir with Some d => d | None => "" end ^^ ident ^^ ".cmd")
    = Some (required_lines self d0 d1 ++ tail) /\
    (Model.vmax_flag self = true ->
     exists l, tail = ("VMAX_VALUES " ^^ Num.str (Model.default_vmax self)) :: l) /\
    (Model.vmax_flag self = false -> Model.km_flag self = true ->
     exists l, tail = ("KM_VALUES " ^^ Num.str (Model.default_km self)) :: l).
Proof.
  intros H Hident. unfold Model.write_comets_model in H.
  mlift H as i Hid. mlift H as d0 Hd0. mlift H as d1 Hd1.
  rewrite Hident in Hid. injection Hid as <-.
  cbv zeta in H. mbind H as u s1 Hcreate.
  apply modify_inv in Hcreate. destruct Hcreate as [_ ->].
  set (f := match working_dir with Some d => d | None => "" end ^^ ident ^^ ".cmd") in *.
  pose proof (lookup_set_same String.eqb fs f [] (String.eqb_refl f)) as Hold.
  exists d0, d1.
  apply write_step with (old := []) in H; [| exact Hold].
  clear Hold. destruct H as (fs1 & H & Hold).
  repeat match type of H with
         | (FS.write _ _ ;; (if _ then _ else _) ;; _) _ = _ => fail 1
         | (FS.write _ _ ;; _) _ = _ =>
             eapply write_step in H; [| exact Hold]; clear Hold;
             destruct H as (? & H & Hold)
         | (FS.to_csv _ _ ;; _) _ = _ =>
             eapply to_csv_step in H; [| exact Hold]; clear Hold;
             destruct H as (? & H & Hold)
         end.
  eapply write_step in H; [| exact Hold]. clear Hold. destruct H as (fs2 & H & Hold).
  match type of Hold with
  | _ = Some ?ls =>
      replace ls with (required_lines self d0 d1) in Hold
        by (unfold required_lines, block, bound_rows; cbn [List.app];
            repeat rewrite <- app_assoc; reflexivity)
  end.
  destruct (Model.vmax_flag self) eqn:Ev.
  - rewrite bind_bind in H.
    eapply write_step in H; [| exact Hold]. clear Hold. destruct H as (fs3 & H & Hold).
    match type of H with
    | ?k _ = _ => assert (Hk : emits f k (fun _ => True)) by emits_true
    end.
    destruct (Hk _ _ _ _ H Hold) as (ls & _ & Hfile).
    exists (("VMAX_VALUES " ^^ Num.str (Model.default_vmax self)) :: ls).
    split; [| split; [eauto | discriminate]].
    rewrite Hfile, <- !app_assoc. reflexivity.
  - rewrite bind_ret in H.
    destruct (Model.km_flag self) eqn:Ek.
    + rewrite bind_bind in H.
      eapply write_step in H; [| exact Hold]. clear Hold.
      destruct H as (fs3 & H & Hold).
      match type of H with
      | ?k _ = _ => assert (Hk : emits f k (fun _ => True)) by emits_true
      end.
      destruct (Hk _ _ _ _ H Hold) as (ls & _ & Hfile).
      exists (("KM_VALUES " ^^ Num.str (Model.default_km self)) :: ls).
      split; [| split; [discriminate | eauto]].
      rewrite Hfile, <- !app_assoc. reflexivity.
    + match type of H with
      | ?k _ = _ => assert (Hk : emits f k (fun _ => True)) by emits_true
      end.
      destruct (Hk _ _ _ _ H Hold) as (ls & _ & Hfile).
      exists ls. split; [exact Hfile | split; discriminate].
Qed.

Lemma contains_indent (a : ascii) (k s : string) :
  Ascii.eqb a " " = false ->
  Text.contains (String a k) (String " " s) = Text.contains (String a k) s.
Proof.
  intros Ha. cbn [Text.contains Text.starts_with]. rewrite Ha. reflexivity.
Qed.

Lemma existsb_block (kw hdr : string) (body : list string) :
  existsb (Text.contains kw) (block hdr body)
  = Text.contains kw hdr || existsb (Text.contains kw) body || Text.contains kw "//".
Proof.
  unfold block. cbn [existsb]. rewrite existsb_app. cbn [existsb].
  rewrite orb_false_r, orb_assoc. reflexivity.
Qed.

Lemma existsb_filter_false {A} (p q : A -> bool) (l : list A) :
  existsb p l = false -> existsb p (filter q l) = false.
Proof.
  induction l as [| a l IH]; [reflexivity |]. cbn [existsb filter]. intros H.
  apply orb_false_iff in H. destruct H as [Ha Hl].
  destruct (q a); cbn [existsb]; [rewrite Ha |]; auto.
Qed.

(** A keyword that the lines of the required sections do not have. *)
Lemma required_lines_quiet (kw : string) (a : ascii) (k : string)
    (self : Model.model) (d0 d1 : num) :
  kw = String a k -> Ascii.eqb a " " = false ->
  foreign smatrix_char kw = true -> foreign bounds_char kw = true ->
  foreign row_char kw = true ->
  forallb (fun h => negb (Text.contains kw h))
          ["OBJECTIVE"; "    None"; "METABOLITE_NAMES"; "REACTION_NAMES";
           "EXCHANGE_REACTIONS"; "//"] = true ->
  names_without kw self ->
  existsb (Text.contains kw) (required_lines self d0 d1) = false.
Proof.
  intros Hkw Ha H1 H2 H3 Hh [Hmets Hrxns].
  cbn [forallb] in Hh. rewrite !andb_true_iff, !negb_true_iff in Hh.
  destruct Hh as (Ho & Hn & Hm & Hr & He & Ht & _).
  assert (Hindent : forall n, Text.contains kw n = false ->
                              Text.contains kw ("    " ^^ n) = false).
  { intros n Hn'. subst kw. cbn [append]. rewrite !contains_indent by exact Ha.
    exact Hn'. }
  unfold required_lines. rewrite !existsb_app.
  rewrite (quiet_B1 self kw H1), (quiet_B2 self d0 d1 kw H2),
    (quiet_B6 self kw He H3).
  cbn [orb]. rewrite !existsb_block, Ho, Hm, Hr, Ht. cbn [existsb orb].
  rewrite !orb_false_r.
  apply orb_false_iff. split; [| apply orb_false_iff; split].
  - destruct (Model.objective self) as [z |]; cbn [Model.str_objective];
      [| exact Hn].
    apply foreign_inv in H3.
    apply (contains_class row_char); [tauto |].
    rewrite all_char_append. unfold Num.str_Z. rewrite str_row_char. reflexivity.
  - apply existsb_map_false. intros n Hin. apply Hindent.
    rewrite Forall_forall in Hmets. auto.
  - apply existsb_map_false. intros r Hin. apply Hindent.
    rewrite Forall_forall in Hrxns. auto.
Qed.

Lemma required_lines_last (self : Model.model) (d0 d1 : num) :
  exists pre, required_lines self d0 d1 = pre ++ ["//"].
Proof.
  unfold required_lines. unfold block at 6.
  eexists. rewrite !app_assoc. rewrite app_comm_cons.
  rewrite !app_assoc. reflexivity.
Qed.

(** A kinetic section whose header stands right after a terminator line
    cannot be read: the line of its default has one field. *)
Lemma kinetic_after_terminator (kw : string) (pre : list string) (hdr : string)
    (post : list string) sf sd sc rs s rs' s' :
  existsb (Text.contains kw) (pre ++ ["//"]) = false ->
  Text.contains kw hdr = true ->
  Model.read_kinetic_section kw (pre ++ "//" :: hdr :: post) sf sd sc rs s
  <> (Ok rs', s').
Proof.
  intros Hpre Hhdr H.
  destruct (read_kinetic_section_default _ _ _ _ _ _ _ _ _ _ _ _ Hpre Hhdr H)
    as (d & Hd & _).
  vm_compute in Hd. discriminate Hd.
Qed.

(** The lines, without the blank ones, of a file that begins with the
    required sections and goes on with the header of a kinetic section. *)
Lemma nonblank_shape (kw : string) (a : ascii) (k : string)
    (self : Model.model) (d0 d1 : num) (hdr : string) (l : list string) :
  kw = String a k ->
  existsb (Text.contains kw) (required_lines self d0 d1) = false ->
  hdr <> "" ->
  exists pre,
    Scan.nonblank (required_lines self d0 d1 ++ hdr :: l)
    = pre ++ "//" :: hdr :: Scan.nonblank l /\
    existsb (Text.contains kw) (pre ++ ["//"]) = false.
Proof.
  intros Hkw Hq Hhdr.
  destruct (required_lines_last self d0 d1) as (pre0 & Hlast).
  exists (Scan.nonblank pre0). unfold Scan.nonblank in *. split.
  - rewrite Hlast, <- app_assoc, filter_app. cbn [List.app filter].
    apply String.eqb_neq in Hhdr. rewrite Hhdr. reflexivity.
  - change ["//"] with (filter (fun s => negb (String.eqb s "")) ["//"]).
    rewrite <- filter_app, <- Hlast. apply existsb_filter_false. exact Hq.
Qed.

(** X18.  A model file that [write_comets_model] has written for a model
    with a kinetic section cannot be read back.  When [vmax_flag] or
    [km_flag] is set and no name of a metabolite or of a reaction contains
    VMAX_VALUES or KM_VALUES, [read_comets_model] raises on the written
    file: the header of the first kinetic section follows the terminator
    of the exchange reactions, and the reader takes the default of the
    section from that line. *)
Theorem kinetic_model_not_read_back
    (self : Model.model) (working_dir : option string) (fs fs' : FS.fs)
    (ident : string) (m0 : Model.model) :
  Model.write_comets_model self working_dir fs = (Ok tt, fs') ->
  Model.id self = Some ident ->
  Model.vmax_flag self || Model.km_flag self = true ->
  names_without "VMAX_VALUES" self ->
  names_without "KM_VALUES" self ->
  exists e,
    fst (Model.read_comets_model fs'
           (match working_dir with Some d => d | None => "" end ^^ ident ^^ ".cmd")
           m0)
    = Raise e.
Proof.
  intros Hw Hident Hflag Hv Hk.
  destruct (written_head self working_dir fs fs' ident Hw Hident)
    as (d0 & d1 & tail & Hfile & Hvmax & Hkm).
  set (path := match working_dir with Some d => d | None => "" end ^^ ident ^^ ".cmd")
    in *.
  destruct (Model.read_comets_model fs' path m0) as [[[] | e] m] eqn:E;
    [exfalso | exists e; reflexivity].
  unfold Model.read_comets_model in E.
  mmodify E. mlift E as file Hread.
  assert (Hf : required_lines self d0 d1 ++ tail = file)
    by (unfold FS.read_file in Hread; rewrite Hfile in Hread; congruence).
  clear Hread.
  mlift E as smat_lines Hsmat_lines. mlift E as sm Hsm. mmodify E.
  mlift E as rxn_lines Hrxn_lines. mlift E as rxn_ Hrxn.
  mlift E as bnds_lines Hbnds_lines. mlift E as bnds Hbnds.
  mlift E as mets_lines Hmets_lines. mlift E as mets Hmets.
  mlift E as exch Hexch. cbv zeta in E.
  mbind E as rs1 s1 Ev. mbind E as rs2 s2 Ek.
  destruct (Model.vmax_flag self) eqn:Fv.
  - destruct (Hvmax eq_refl) as (l & Htail). rewrite Htail in Hf.
    assert (Hq : existsb (Text.contains "VMAX_VALUES") (required_lines self d0 d1)
                 = false)
      by (apply (required_lines_quiet _ "V" "MAX_VALUES"); try reflexivity; exact Hv).
    destruct (nonblank_shape "VMAX_VALUES" "V" "MAX_VALUES" self d0 d1
                ("VMAX_VALUES " ^^ Num.str (Model.default_vmax self)) l
                eq_refl Hq ltac:(discriminate))
      as (pre & Hshape & Hpre).
    rewrite <- Hf, Hshape in Ev.
    exact (kinetic_after_terminator _ _ _ _ _ _ _ _ _ _ _ Hpre
             (contains_prefix "VMAX_VALUES" _) Ev).
  - cbn [orb] in Hflag. destruct (Hkm eq_refl Hflag) as (l & Htail).
    rewrite Htail in Hf.
    assert (Hq : existsb (Text.contains "KM_VALUES") (required_lines self d0 d1)
                 = false)
      by (apply (required_lines_quiet _ "K" "M_VALUES"); try reflexivity; exact Hk).
    destruct (nonblank_shape "KM_VALUES" "K" "M_VALUES" self d0 d1
                ("KM_VALUES " ^^ Num.str (Model.default_km self)) l
                eq_refl Hq ltac:(discriminate))
      as (pre & Hshape & Hpre).
    rewrite <- Hf, Hshape in Ek.
    exact (kinetic_after_terminator _ _ _ _ _ _ _ _ _ _ _ Hpre
             (contains_prefix "KM_VALUES" _) Ek).
Qed.

(** X18, on the sample model after [change_vmax('r1', 3)]. *)
Lemma kinetic_model_not_read_back_sample :
  exists e,
    fst (Model.read_comets_model
           (snd (Model.write_comets_model Samples.vmax_model (Some "wd/") []))
           ("wd/" ^^ "m" ^^ ".cmd") Model.init)
    = Raise e.
Proof.
  apply (kinetic_model_not_read_back Samples.vmax_model (Some "wd/") []
           (snd (Model.write_comets_model Samples.vmax_model (Some "wd/") []))
           "m" Model.init).
  - vm_compute. reflexivity.
  - vm_compute. reflexivity.
  - vm_compute. reflexivity.
  - split; vm_compute; repeat constructor.
  - split; vm_compute; repeat constructor.
Defined.

(** ** What the reader of a layout file leaves alone *)

Section UnreadBlocks.
Context (l0 : Layout.layout).

Let Q (l : Layout.layout) : Prop :=
  Layout.barriers l = Layout.barriers l0 /\
  Layout.barrier_flag l = Layout.barrier_flag l0 /\
  Layout.periodic_media l = Layout.periodic_media l0 /\
  Layout.periodic_media_flag l = Layout.periodic_media_flag l0 /\
  Layout.reactions l = Layout.reactions l0 /\
  Layout.ext_rxns_flag l = Layout.ext_rxns_flag l0.

Lemma update_models_unread : preserves Q Layout.update_models.
Proof.
  unfold Layout.update_models, Layout.build_initial_pop,
    Layout.build_exchanged_mets, Layout.add_new_mets_to_media.
  lframe; try (apply build_pop_lines_keeps; intros s ms' Hs; exact Hs); untouched.
Qed.

Lemma read_layout_unread files input_obj :
  preserves (on_obj Q) (Layout.read_comets_layout files input_obj).
Proof.
  unfold Layout.read_comets_layout.
  apply preserves_bind; [apply preserves_lift | intros file].
  cbv zeta.
  apply preserves_bind; [| intros ?].
  { apply read_grid_frame. intros l g H. exact H. }
  unfold Layout.read_initial_pop, Layout.read_models, Layout.read_world_media,
    Layout.read_diffusion, Layout.read_local_media, Layout.read_refresh,
    Layout.read_substrate_layout, Layout.read_substrate_diffusivity,
    Layout.read_substrate_friction, Layout.read_static,
    Layout.read_local_rows, Layout.read_local_row, Layout.store_local_row,
    Layout.read_static_rows, Layout.read_static_row, Layout.store_static_row,
    Layout.add_model.
  cbv zeta.
  lframe; try apply update_models_unread; untouched.
Qed.

End UnreadBlocks.

(** X19.  [read_comets_layout] reads no barrier, no periodic media and no
    external reaction: whether it returns or raises, the layout has the
    barriers, the periodic media, the external reactions and the flags of
    these three blocks that it had before, whatever the file holds. *)
Theorem read_comets_layout_untouched
    (files : FS.fs) (input_obj : string) (st : Layout.state) :
  let l := Layout.obj (snd (Layout.read_comets_layout files input_obj st)) in
  Layout.barriers l = Layout.barriers (Layout.obj st) /\
  Layout.barrier_flag l = Layout.barrier_flag (Layout.obj st) /\
  Layout.periodic_media l = Layout.periodic_media (Layout.obj st) /\
  Layout.periodic_media_flag l = Layout.periodic_media_flag (Layout.obj st) /\
  Layout.reactions l = Layout.reactions (Layout.obj st) /\
  Layout.ext_rxns_flag l = Layout.ext_rxns_flag (Layout.obj st).
Proof.
  cbv zeta.
  destruct (Layout.read_comets_layout files input_obj st) as [r st'] eqn:E.
  apply (read_layout_unread (Layout.obj st) files input_obj st r st' E).
  repeat split.
Qed.

(** ** The first line of a written layout file *)

Lemma split_on_space_plain (s : string) :
  Text.all_char (fun c => negb (Text.is_space c)) s = true ->
  Layout.split_on_space s = [s].
Proof.
  induction s as [| c s IH]; [reflexivity |].
  cbn [Text.all_char]. intros H. apply andb_true_iff in H. destruct H as [Hc Hs].
  cbn [Layout.split_on_space].
  replace (Ascii.eqb c " ") with false.
  - rewrite (IH Hs). reflexivity.
  - symmetry. apply Ascii.eqb_neq. intros ->. discriminate Hc.
Qed.

Lemma split_on_space_cons (t s : string) :
  Text.all_char (fun c => negb (Text.is_space c)) t = true ->
  Layout.split_on_space (t ^^ String " " s) = t :: Layout.split_on_space s.
Proof.
  induction t as [| c t IH]; [reflexivity |].
  cbn [Text.all_char]. intros H. apply andb_true_iff in H. destruct H as [Hc Ht].
  cbn [append Layout.split_on_space].
  replace (Ascii.eqb c " ") with false.
  - rewrite (IH Ht). reflexivity.
  - symmetry. apply Ascii.eqb_neq. intros ->. discriminate Hc.
Qed.

Lemma token_no_blank (t : string) :
  is_token t = true -> Text.all_char (fun c => negb (Text.is_space c)) t = true.
Proof. unfold is_token. intros H. apply andb_true_iff in H. tauto. Qed.

Lemma split_ids (ids : list string) :
  Forall (fun i => is_token i = true) ids ->
  Layout.split_on_space (Text.join ".cmd " ids ^^ ".cmd")
  = map (fun i => i ^^ ".cmd") (match ids with [] => [""] | _ => ids end).
Proof.
  intros H. destruct ids as [| i ids]; [reflexivity |].
  revert i H. induction ids as [| j ids IH]; intros i H.
  - inversion H as [| ? ? Hi _]; subst. cbn [Text.join String.concat map].
    apply split_on_space_plain. rewrite all_char_append, (token_no_blank i Hi).
    reflexivity.
  - inversion H as [| ? ? Hi Hrest]; subst.
    change (Text.join ".cmd " (i :: j :: ids))
      with (i ^^ ".cmd " ^^ Text.join ".cmd " (j :: ids)).
    rewrite !append_assoc.
    change (".cmd " ^^ Text.join ".cmd " (j :: ids) ^^ ".cmd")
      with (".cmd" ^^ String " " (Text.join ".cmd " (j :: ids) ^^ ".cmd")).
    rewrite <- append_assoc.
    rewrite split_on_space_cons
      by (rewrite all_char_append, (token_no_blank i Hi); reflexivity).
    rewrite (IH j Hrest). reflexivity.
Qed.

Lemma join_prefixed (wd : string) (l : list string) :
  l <> [] ->
  wd ^^ Text.join wd (map (fun x => x ^^ " ") l)
  = String.concat "" (map (fun p => (wd ^^ p) ^^ " ") l).
Proof.
  intros Hl. destruct l as [| a l]; [contradiction |]. clear Hl.
  revert a. induction l as [| b l IH]; intros a.
  - cbn [Text.join String.concat map]. rewrite append_assoc. reflexivity.
  - change (Text.join wd (map (fun x => x ^^ " ") (a :: b :: l)))
      with ((a ^^ " ") ^^ wd ^^ Text.join wd (map (fun x => x ^^ " ") (b :: l))).
    rewrite (IH b).
    change (String.concat "" (map (fun p => (wd ^^ p) ^^ " ") (a :: b :: l)))
      with (((wd ^^ a) ^^ " ") ^^ ""
            ^^ String.concat "" (map (fun p => (wd ^^ p) ^^ " ") (b :: l))).
    cbn [append]. rewrite !append_assoc. reflexivity.
Qed.

Lemma split_paths (paths : list string) :
  Forall (fun p => is_token p = true) paths ->
  Text.split (String.concat "" (map (fun p => p ^^ " ") paths)) = paths.
Proof.
  induction 1 as [| p paths Hp H IH]; [reflexivity |].
  assert (E : String.concat "" (map (fun p => p ^^ " ") (p :: paths))
              = p ^^ String " " (String.concat "" (map (fun p => p ^^ " ") paths))).
  { destruct paths as [| q paths'].
    - cbn. reflexivity.
    - change (String.concat "" (map (fun p => p ^^ " ") (p :: q :: paths')))
        with ((p ^^ " ") ^^ ""
              ^^ String.concat "" (map (fun p => p ^^ " ") (q :: paths'))).
      cbn [append]. rewrite append_assoc. reflexivity. }
  rewrite E, split_run by (try exact Hp; reflexivity). rewrite IH. reflexivity.
Qed.

Lemma no_blank_line (s : string) :
  Text.all_char (fun c => negb (Text.is_space c)) s = true ->
  Text.all_char (fun c => negb (FS.line_break c)) s = true.
Proof.
  apply all_char_weaken. intros c.
  destruct c as [[] [] [] [] [] [] [] []]; try discriminate; reflexivity.
Qed.

Lemma model_paths_tokens (wd : string) (ids : list string) :
  Text.all_char (fun c => negb (Text.is_space c)) wd = true ->
  Forall (fun i => is_token i = true) ids ->
  Forall (fun p => is_token p = true) (model_paths wd ids).
Proof.
  intros Hwd Hids. unfold model_paths.
  assert (H : Forall (fun i => Text.all_char (fun c => negb (Text.is_space c)) i = true)
                     (match ids with [] => [""] | _ => ids end)).
  { destruct ids; [repeat constructor |].
    eapply Forall_impl; [| exact Hids]. apply token_no_blank. }
  apply Forall_forall. intros p Hp. apply in_map_iff in Hp.
  destruct Hp as (i & <- & Hi). rewrite Forall_forall in H.
  unfold is_token. rewrite !all_char_append, Hwd, (H i Hi). cbn [andb].
  rewrite andb_true_r. apply negb_true_iff. apply String.eqb_neq.
  intros E. apply (f_equal String.length) in E.
  rewrite !length_append in E. cbn in E. lia.
Qed.

Lemma concat_line (paths : list string) :
  Forall (fun p => is_token p = true) paths ->
  Text.all_char (fun c => negb (FS.line_break c))
    (String.concat "" (map (fun p => p ^^ " ") paths)) = true.
Proof.
  intros H.
  apply (join_class (fun c => negb (FS.line_break c)) ""); [reflexivity |].
  apply Forall_forall. intros x Hx. apply in_map_iff in Hx.
  destruct Hx as (p & <- & Hp). rewrite Forall_forall in H.
  rewrite all_char_append, (no_blank_line p (token_no_blank p (H p Hp))).
  reflexivity.
Qed.

(** X20.  The first line of a written layout file names the files that
    [write_model_files] writes.  For a layout whose models all have an
    identifier without blanks, and a working directory without blanks,
    [write_models_and_world_grid_chunk] returns and appends three lines:
    [model_file] followed by the path [working_dir + id + ".cmd"] of each
    model, the line of the world, and the grid.  The words after the
    first on the first line, which [read_comets_layout] takes as the paths
    of the models, are these paths; for a layout without models the line
    names the one path [working_dir + ".cmd"]. *)
Theorem model_file_line_written
    (self : Layout.layout) (lyt working_dir : string) (ids : list string) :
  Layout.get_model_ids self = map Some ids ->
  Forall (fun i => is_token i = true) ids ->
  Text.all_char (fun c => negb (Text.is_space c)) working_dir = true ->
  appends lyt (Layout.write_models_and_world_grid_chunk self lyt working_dir)
    [model_file_line working_dir ids; "  model_world";
     "    grid_size " ^^ Text.join " " (map Num.str_Z (Layout.grid self))] /\
  Seq.from (Text.split (model_file_line working_dir ids)) 1
  = model_paths working_dir ids.
Proof.
  intros Hids Htok Hwd.
  pose proof (model_paths_tokens working_dir ids Hwd Htok) as Hpaths.
  split.
  - unfold Layout.write_models_and_world_grid_chunk. rewrite Hids.
    assert (Hres : res_map (fun i : option string =>
                              match i with
                              | Some n => Ok n
                              | None => Raise TypeError
                              end) (map Some ids) = Ok ids).
    { clear. induction ids as [| i ids IH]; [reflexivity |].
      cbn [map res_map]. rewrite IH. reflexivity. }
    intros fs old Hold. rewrite (bind_lift _ ids) by exact Hres.
    cbv zeta. rewrite (split_ids ids Htok).
    rewrite join_prefixed by (destruct ids; discriminate).
    replace (String.concat ""
               (map (fun p => (working_dir ^^ p) ^^ " ")
                  (map (fun i => i ^^ ".cmd")
                     (match ids with [] => [""] | _ => ids end))))
      with (String.concat ""
              (map (fun p => p ^^ " ") (model_paths working_dir ids)))
      by (unfold model_paths; rewrite !map_map; reflexivity).
    fold (model_file_line working_dir ids).
    revert fs old Hold.
    change (appends lyt
              (FS.write lyt (model_file_line working_dir ids) ;;
               FS.write lyt "  model_world" ;;
               FS.write lyt ("    grid_size "
                             ^^ Text.join " " (map Num.str_Z (Layout.grid self))))
              ([model_file_line working_dir ids]
               ++ ["  model_world"]
               ++ ["    grid_size "
                   ^^ Text.join " " (map Num.str_Z (Layout.grid self))])).
    apply appends_bind; [| apply appends_bind]; apply appends_write.
    + unfold model_file_line. rewrite all_char_append, (concat_line _ Hpaths).
      reflexivity.
    + reflexivity.
    + rewrite all_char_append. cbn [andb Text.all_char].
      apply (all_char_weaken row_char); [apply row_char_line |].
      apply join_class; [reflexivity |].
      apply Forall_forall. intros t Ht. apply in_map_iff in Ht.
      destruct Ht as (z & <- & _). apply str_Z_row_char.
  - unfold model_file_line.
    change ("model_file " ^^ ?s) with ("model_file" ^^ String " " s).
    rewrite split_run by reflexivity. rewrite (split_paths _ Hpaths). reflexivity.
Qed.

(** X20, on the sample layout. *)
Lemma model_file_line_written_sample :
  appends "wd/.current_layout"
    (Layout.write_models_and_world_grid_chunk Samples.sample_layout
       "wd/.current_layout" "wd/")
    [model_file_line "wd/" ["m2"]; "  model_world";
     "    grid_size "
     ^^ Text.join " " (map Num.str_Z (Layout.grid Samples.sample_layout))] /\
  Seq.from (Text.split (model_file_line "wd/" ["m2"])) 1 = model_paths "wd/" ["m2"].
Proof.
  apply (model_file_line_written Samples.sample_layout "wd/.current_layout" "wd/"
           ["m2"]).
  - vm_compute. reflexivity.
  - repeat constructor.
  - reflexivity.
Defined.

(** ** Refresh and static amounts set by hand *)

(** X21.  [set_specific_refresh_at_location] and
    [set_specific_static_at_location] behave as the method for the local
    media does, on [local_refresh] and [local_static] and with the flags
    of the refresh and of the static block: they raise [Exception] and
    change nothing when the metabolite is not an exchanged one; otherwise
    they return, the flag is set, the location holds the amount for the
    metabolite and every other pair holds what it held. *)
Theorem set_specific_refresh_and_static_at_location_spec
    (self : Layout.layout) (met : string) (location : loc) (amount : num) :
  let refresh := Layout.set_specific_refresh_at_location met location amount self in
  let static := Layout.set_specific_static_at_location met location amount self in
  if Text.mem met (Layout.all_exchanged_mets self) then
    (fst refresh = Ok tt /\
     snd refresh = self <| Layout.refresh_flag := true |>
                        <| Layout.local_refresh := Layout.local_refresh (snd refresh) |> /\
     forall l m,
       local_amount (Layout.local_refresh (snd refresh)) l m
       = if loc_eqb l location && String.eqb m met then Some amount
         else local_amount (Layout.local_refresh self) l m) /\
    (fst static = Ok tt /\
     snd static = self <| Layout.static_flag := true |>
                       <| Layout.local_static := Layout.local_static (snd static) |> /\
     forall l m,
       local_amount (Layout.local_static (snd static)) l m
       = if loc_eqb l location && String.eqb m met then Some amount
         else local_amount (Layout.local_static self) l m)
  else
    refresh = (Raise (Exception Layout.msg_not_exchangeable), self) /\
    static = (Raise (Exception Layout.msg_not_exchangeable), self).
Proof.
  cbv zeta. unfold Layout.set_specific_refresh_at_location,
    Layout.set_specific_static_at_location.
  destruct (Text.mem met (Layout.all_exchanged_mets self)) eqn:Hmem.
  - rewrite !set_at_location_returns; try reflexivity; try exact Hmem.
    cbn [fst snd]. split; (split; [reflexivity |]; split; [reflexivity |]);
      intros l m; apply local_amount_set.
  - split; apply set_at_location_raises; exact Hmem.
Qed.

Lemma set_specific_refresh_run
    (self : Layout.layout) (out : list string) (met : string) (amount : num) :
  Layout.set_specific_refresh met amount (Layout.mk_state self out)
  = (Ok tt,
     Layout.mk_state
       (self <| Layout.media :=
                  Layout.set_rows met (fun r => r <| Layout.g_refresh := Some amount |>)
                                  (Layout.media self) |>
             <| Layout.refresh_flag := true |>) out).
Proof. reflexivity. Qed.

Lemma set_specific_static_run
    (self : Layout.layout) (out : list string) (met : string) (amount : num) :
  Layout.set_specific_static met amount (Layout.mk_state self out)
  = (Ok tt,
     Layout.mk_state
       (self <| Layout.media :=
                  Layout.set_rows met
                    (fun r => r <| Layout.g_static_val := Some amount |>)
                    (Layout.set_rows met
                       (fun r => r <| Layout.g_static := Some (Num.of_Z 1) |>)
                       (Layout.media self)) |>
             <| Layout.static_flag := true |>) out).
Proof. reflexivity. Qed.

Lemma set_rows_absent (met : string) (set : Layout.media_row -> Layout.media_row)
    (tbl : list Layout.media_row) :
  Layout.has_metabolite tbl met = false -> Layout.set_rows met set tbl = tbl.
Proof.
  intros H. apply has_metabolite_false in H. unfold Layout.set_rows.
  induction H as [| r tbl Hr H IH]; [reflexivity |]. cbn [map]. rewrite IH.
  f_equal. destruct (Layout.metabolite r) as [n |]; [| reflexivity].
  destruct (String.eqb_spec n met) as [-> | _]; [contradiction | reflexivity].
Qed.

(** X22.  [set_specific_refresh] and [set_specific_static] never print:
    the message of their [except] clause is not reached.  They always
    return with the flag of their block set, also when the media table
    has no row for the metabolite, in which case the table is as it was;
    otherwise the rows of the metabolite have received the refresh amount,
    respectively the static flag 1 and the static value. *)
Theorem set_specific_refresh_and_static_spec
    (self : Layout.layout) (out : list string) (met : string) (amount : num) :
  let refresh := Layout.set_specific_refresh met amount (Layout.mk_state self out) in
  let static := Layout.set_specific_static met amount (Layout.mk_state self out) in
  (fst refresh = Ok tt /\ Layout.stdout (snd refresh) = out /\
   Layout.refresh_flag (Layout.obj (snd refresh)) = true /\
   Forall (fun r => Layout.metabolite r = Some met ->
                    Layout.g_refresh r = Some amount)
          (Layout.media (Layout.obj (snd refresh))) /\
   (Layout.has_metabolite (Layout.media self) met = false ->
    Layout.media (Layout.obj (snd refresh)) = Layout.media self)) /\
  (fst static = Ok tt /\ Layout.stdout (snd static) = out /\
   Layout.static_flag (Layout.obj (snd static)) = true /\
   Forall (fun r => Layout.metabolite r = Some met ->
                    Layout.g_static r = Some (Num.of_Z 1) /\
                    Layout.g_static_val r = Some amount)
          (Layout.media (Layout.obj (snd static))) /\
   (Layout.has_metabolite (Layout.media self) met = false ->
    Layout.media (Layout.obj (snd static)) = Layout.media self)).
Proof.
  cbv zeta. rewrite set_specific_refresh_run, set_specific_static_run.
  cbn [fst snd Layout.obj Layout.stdout].
  split; (split; [reflexivity |]; split; [reflexivity |]; split; [reflexivity |]).
  - change (Layout.media (_ <| Layout.media := ?x |> <| Layout.refresh_flag := _ |>))
      with x.
    split.
    + apply Forall_forall. intros r Hr. unfold Layout.set_rows in Hr.
      apply in_map_iff in Hr. destruct Hr as (r0 & <- & _).
      destruct (Layout.metabolite r0) as [n |] eqn:E; [| congruence].
      destruct (String.eqb_spec n met) as [-> | Hne]; [reflexivity | congruence].
    + intros H. apply set_rows_absent. exact H.
  - change (Layout.media (_ <| Layout.media := ?x |> <| Layout.static_flag := _ |>))
      with x.
    split.
    + apply Forall_forall. intros r Hr. unfold Layout.set_rows in Hr.
      apply in_map_iff in Hr. destruct Hr as (r1 & <- & Hr1).
      apply in_map_iff in Hr1. destruct Hr1 as (r0 & <- & _).
      destruct r0 as [lb [n |] ia dc gs gsv gr]; cbn [Layout.metabolite];
        [| cbn; congruence].
      destruct (String.eqb n met) eqn:Hn; cbn; rewrite Hn.
      * intros _. split; reflexivity.
      * apply String.eqb_neq in Hn. cbn. congruence.
    + intros H. rewrite !set_rows_absent; [reflexivity | exact H |].
      rewrite set_rows_absent by exact H. exact H.
Qed.

(** ** The world_media block read back *)

Lemma media_line_split (n : string) (x : num) :
  is_token n = true ->
  Text.split ("      " ^^ n ^^ " " ^^ Num.str x) = [n; Num.str x].
Proof.
  intros Hn. rewrite split_blanks by reflexivity.
  change (n ^^ " " ^^ Num.str x) with (n ^^ String " " (Num.str x)).
  rewrite split_run by (try exact Hn; reflexivity).
  rewrite split_token by apply str_token. reflexivity.
Qed.

Lemma media_line_no_end (n : string) (x : num) :
  Text.all_char (fun c => negb (Ascii.eqb c "/")) n = true ->
  Text.contains "//" ("      " ^^ n ^^ " " ^^ Num.str x) = false.
Proof.
  intros Hn. apply (contains_class (fun c => negb (Ascii.eqb c "/"))); [reflexivity |].
  rewrite !all_char_append, Hn. cbn [andb Text.all_char Ascii.eqb negb].
  change (Text.all_char (fun c => negb (Ascii.eqb c "/")) " ") with true.
  cbn [andb].
  apply (all_char_weaken is_numeric); [| apply str_numeric].
  intros c Hc. destruct (Ascii.eqb_spec c "/") as [-> | _]; [discriminate Hc | reflexivity].
Qed.

(** The rows of a table whose cells of the two columns are all filled. *)
Lemma filled_rows (tbl : list Layout.media_row) :
  Forall (fun r => exists n x,
            Layout.metabolite r = Some n /\ Layout.init_amount r = Some x /\
            is_token n = true /\
            Text.all_char (fun c => negb (Ascii.eqb c "/")) n = true) tbl ->
  exists rows : list (string * num),
    map media_line tbl
    = map (fun p => "      " ^^ fst p ^^ " " ^^ Num.str (snd p)) rows /\
    map Layout.metabolite tbl = map (fun p => Some (fst p)) rows /\
    map Layout.init_amount tbl = map (fun p => Some (snd p)) rows /\
    Forall (fun p => is_token (fst p) = true /\
                     Text.all_char (fun c => negb (Ascii.eqb c "/")) (fst p) = true)
           rows.
Proof.
  induction 1 as [| r tbl (n & x & Hn & Hx & Ht & Hs) _ (rows & E1 & E2 & E3 & F)].
  - exists []. repeat split; constructor.
  - exists ((n, x) :: rows). cbn [map fst snd]. unfold media_line at 1.
    rewrite Hn, Hx, E1, E2, E3. cbn [Layout.str_cell].
    repeat split. constructor; [split; assumption | exact F].
Qed.

Lemma read_rows (rows : list (string * num)) :
  Forall (fun p => is_token (fst p) = true /\
                   Text.all_char (fun c => negb (Ascii.eqb c "/")) (fst p) = true)
         rows ->
  res_map (fun line =>
             n <~ Seq.index (Text.split line) 0 ;;
             t <~ Seq.index (Text.split line) 1 ;;
             c <~ Num.pyfloat t ;;
             Ok (n, c))
          (map (fun p => "      " ^^ fst p ^^ " " ^^ Num.str (snd p)) rows)
  = Ok rows.
Proof.
  induction 1 as [| [n x] rows [Ht _] _ IH]; [reflexivity |].
  cbn [map res_map fst snd]. rewrite media_line_split by exact Ht.
  change (Seq.index [n; Num.str x] 0) with (@Ok string n).
  change (Seq.index [n; Num.str x] 1) with (@Ok string (Num.str x)).
  cbn [res_bind]. rewrite pyfloat_str. cbn [res_bind]. rewrite IH. reflexivity.
Qed.

Lemma rows_no_end (rows : list (string * num)) :
  Forall (fun p => is_token (fst p) = true /\
                   Text.all_char (fun c => negb (Ascii.eqb c "/")) (fst p) = true)
         rows ->
  existsb (Text.contains "//")
          (map (fun p => "      " ^^ fst p ^^ " " ^^ Num.str (snd p)) rows) = false.
Proof.
  intros H. apply existsb_map_false. intros p Hp. rewrite Forall_forall in H.
  apply media_line_no_end. apply (H p Hp).
Qed.

(** The lines between the header of the block and its terminator. *)
Lemma world_media_lines (pre body post : list string) :
  body <> [] ->
  existsb (Text.contains "world_media") pre = false ->
  existsb (Text.contains "//") body = false ->
  let f_lines := pre ++ ("    world_media" :: body ++ ["    //"]) ++ post in
  let lin_media := S (Scan.find_line "world_media" f_lines) in
  exists lin_media_end,
    Scan.next_end (Scan.ends f_lines) lin_media = Ok lin_media_end /\
    Seq.slice f_lines lin_media lin_media_end = body.
Proof.
  intros Hne Hpre Hbody. cbv zeta.
  replace (pre ++ ("    world_media" :: body ++ ["    //"]) ++ post)
    with (pre ++ "    world_media" :: (body ++ "    //" :: post))
    by (simpl; rewrite <- app_assoc; reflexivity).
  rewrite (find_line_at "world_media" pre "    world_media" _ Hpre) by reflexivity.
  exists (length pre + 1 + length body)%nat. split.
  - unfold Scan.next_end, Scan.ends. rewrite positions_app.
    rewrite next_skip.
    2:{ intros x Hx. apply positions_bound in Hx. apply Nat.ltb_ge. lia. }
    cbn [Seq.positions]. change (Text.contains "//" "    world_media") with false.
    cbv iota. rewrite positions_app, (positions_absent _ _ _ Hbody), app_nil_l.
    cbn [Seq.positions]. change (Text.contains "//" "    //") with true.
    cbv iota. cbn [Seq.next].
    replace (S (length pre) <? S (0 + length pre) + length body)%nat with true.
    + f_equal. lia.
    + symmetry. apply Nat.ltb_lt. destruct body; [contradiction Hne; reflexivity |].
      simpl. lia.
  - unfold Seq.slice.
    replace (S (length pre)) with (length (pre ++ ["    world_media"]))
      by (rewrite length_app; simpl; lia).
    replace (pre ++ "    world_media" :: body ++ "    //" :: post)
      with ((pre ++ ["    world_media"]) ++ body ++ "    //" :: post)
      by (rewrite <- app_assoc; reflexivity).
    rewrite skipn_app, skipn_all, Nat.sub_diag, app_nil_l. cbn [skipn].
    replace (length pre + 1 + length body - length (pre ++ ["    world_media"]))%nat
      with (length body) by (rewrite length_app; simpl; lia).
    rewrite firstn_app, firstn_all, Nat.sub_diag. cbn [firstn]. apply app_nil_r.
Qed.

(** The two assignments of a column, for as many values as the table has
    rows or for a table without rows. *)
Lemma assign_two_columns (old : list Layout.media_row) (rows : list (string * num)) :
  rows <> [] ->
  (length old =? 0)%nat || (length old =? length rows)%nat = true ->
  exists t1 t2,
    Layout.assign_column (fun r n => r <| Layout.metabolite := Some n |>)
                         old (map fst rows) = Ok t1 /\
    Layout.assign_column (fun r c => r <| Layout.init_amount := Some c |>)
                         t1 (map snd rows) = Ok t2 /\
    map Layout.metabolite t2 = map (fun p => Some (fst p)) rows /\
    map Layout.init_amount t2 = map (fun p => Some (snd p)) rows.
Proof.
  intros Hne Hlen.
  assert (Hsecond : forall t1 : list Layout.media_row,
             length t1 = length rows ->
             map Layout.metabolite t1 = map (fun p => Some (fst p)) rows ->
             exists t2,
               Layout.assign_column (fun r c => r <| Layout.init_amount := Some c |>)
                                    t1 (map snd rows) = Ok t2 /\
               map Layout.metabolite t2 = map (fun p => Some (fst p)) rows /\
               map Layout.init_amount t2 = map (fun p => Some (snd p)) rows).
  { intros t1 Hl Hm. unfold Layout.assign_column.
    destruct t1 as [| a t1'] eqn:Et1.
    { destruct rows; [contradiction Hne; reflexivity | discriminate Hl]. }
    rewrite <- Et1 in *. rewrite length_map, Hl, Nat.eqb_refl.
    eexists. split; [reflexivity |]. clear Et1 a t1' Hne Hlen.
    revert t1 Hl Hm. induction rows as [| p rows IH]; intros t1 Hl Hm.
    - destruct t1; [split; reflexivity | discriminate Hl].
    - destruct t1 as [| b t1]; [discriminate Hl |].
      cbn [map combine fst snd] in *. injection Hl as Hl. injection Hm as Hb Hm.
      destruct (IH t1 Hl Hm) as [I1 I2]. rewrite I1, I2.
      split; f_equal. exact Hb. }
  unfold Layout.assign_column at 1. destruct old as [| a old'] eqn:Eold.
  - eexists. destruct (Hsecond
      (map (fun iv => (Layout.blank_row (Z.of_nat (fst iv)))
                        <| Layout.metabolite := Some (snd iv) |>)
           (combine (seq 0 (length (map fst rows))) (map fst rows)))) as (t2 & E & H).
    + rewrite length_map, length_combine, length_seq, length_map. lia.
    + rewrite length_map. generalize 0%nat. clear.
      induction rows as [| p rows IH]; intros k; [reflexivity |].
      cbn [length seq map combine fst snd]. f_equal. apply IH.
    + exists t2. split; [reflexivity |]. split; [exact E | exact H].
  - rewrite <- Eold in *.
    assert (Hl : length old = length rows).
    { apply orb_true_iff in Hlen. destruct Hlen as [H | H].
      - apply Nat.eqb_eq in H. rewrite Eold in H. discriminate H.
      - apply Nat.eqb_eq in H. exact H. }
    rewrite length_map, Hl, Nat.eqb_refl.
    destruct (Hsecond
      (map (fun rv => (fst rv) <| Layout.metabolite := Some (snd rv) |>)
           (combine old (map fst rows)))) as (t2 & E & H).
    + rewrite length_map, length_combine, length_map. lia.
    + clear -Hl. revert old Hl. induction rows as [| p rows IH]; intros old Hl.
      * destruct old; reflexivity.
      * destruct old as [| b old]; [discriminate Hl |]. injection Hl as Hl.
        cbn [map combine fst snd]. f_equal. apply IH. exact Hl.
    + eexists. exists t2. split; [reflexivity |]. split; [exact E | exact H].
Qed.

Lemma assign_media_run (rows : list (string * num)) (self : Layout.layout)
    (out : list string) :
  (self <- Layout.get_self ;;
   tbl <- lift (Layout.assign_column (fun r n => r <| Layout.metabolite := Some n |>)
                                     (Layout.media self) (map fst rows)) ;;
   Layout.update (fun self => self <| Layout.media := tbl |>) ;;
   tbl <- lift (Layout.assign_column (fun r c => r <| Layout.init_amount := Some c |>)
                                     tbl (map snd rows)) ;;
   Layout.update (fun self => self <| Layout.media := tbl |>) ;;
   ret (map fst rows))%py (Layout.mk_state self out)
  = match Layout.assign_column (fun r n => r <| Layout.metabolite := Some n |>)
                               (Layout.media self) (map fst rows) with
    | Ok t1 =>
        match Layout.assign_column (fun r c => r <| Layout.init_amount := Some c |>)
                                   t1 (map snd rows) with
        | Ok t2 => (Ok (map fst rows),
                    Layout.mk_state (self <| Layout.media := t1 |>
                                          <| Layout.media := t2 |>) out)
        | Raise e => (Raise e, Layout.mk_state (self <| Layout.media := t1 |>) out)
        end
    | Raise e => (Raise e, Layout.mk_state self out)
    end.
Proof.
  unfold bind, lift, ret, Layout.get_self, Layout.update, Layout.on_self, get, modify.
  cbn [Layout.obj].
  destruct (Layout.assign_column _ (Layout.media self) (map fst rows)) as [t1 | e];
    [| reflexivity].
  destruct (Layout.assign_column _ t1 (map snd rows)) as [t2 | e]; reflexivity.
Qed.

(** X23.  The block that [write_media_chunk] writes for a table is read
    back by [read_world_media]: when the table is not empty, its names are
    tokens without a slash, its amounts are numbers, and no line before
    the block has the keyword, the reader returns the names, prints
    nothing, and leaves a media table with the names and the amounts of
    the written one, provided the layout read so far has no media rows or
    as many as the block has lines.  With another number of rows it raises
    [ValueError] and the layout is as it was. *)
Theorem world_media_read_back
    (tbl : list Layout.media_row) (pre post : list string) (st : Layout.state) :
  tbl <> [] ->
  Forall (fun r => exists n x,
            Layout.metabolite r = Some n /\ Layout.init_amount r = Some x /\
            is_token n = true /\
            Text.all_char (fun c => negb (Ascii.eqb c "/")) n = true) tbl ->
  existsb (Text.contains "world_media") pre = false ->
  let f_lines := pre ++ ("    world_media" :: map media_line tbl ++ ["    //"]) ++ post in
  let old := Layout.media (Layout.obj st) in
  let run := Layout.read_world_media f_lines (Scan.ends f_lines) st in
  if (length old =? 0)%nat || (length old =? length tbl)%nat then
    (exists names, fst run = Ok names /\ map Some names = map Layout.metabolite tbl) /\
    Layout.stdout (snd run) = Layout.stdout st /\
    map Layout.metabolite (Layout.media (Layout.obj (snd run)))
    = map Layout.metabolite tbl /\
    map Layout.init_amount (Layout.media (Layout.obj (snd run)))
    = map Layout.init_amount tbl
  else
    run = (Raise (ValueError "Length of values does not match length of index"), st).
Proof.
  intros Hne Hrows Hpre. cbv zeta.
  destruct (filled_rows tbl Hrows) as (rows & Elines & Enames & Eamounts & Frows).
  assert (Hlen : length tbl = length rows).
  { rewrite <- (length_map Layout.metabolite tbl), Enames, length_map. reflexivity. }
  assert (Hrne : rows <> []).
  { intros ->. destruct tbl; [contradiction Hne; reflexivity | discriminate Hlen]. }
  rewrite Elines, Enames, Eamounts, Hlen.
  destruct (world_media_lines pre
              (map (fun p => "      " ^^ fst p ^^ " " ^^ Num.str (snd p)) rows) post)
    as (lin_end & Eend & Eslice).
  { intros E. apply Hrne. destruct rows; [reflexivity | discriminate E]. }
  { exact Hpre. }
  { apply rows_no_end. exact Frows. }
  unfold Layout.read_world_media. cbv zeta.
  rewrite (bind_lift _ _ _ _ Eend).
  rewrite Eslice, (bind_lift _ _ _ _ (read_rows rows Frows)).
  destruct st as [self out]. cbn [Layout.obj Layout.stdout].
  rewrite assign_media_run.
  destruct ((length (Layout.media self) =? 0)%nat
            || (length (Layout.media self) =? length rows)%nat) eqn:Hl.
  - destruct (assign_two_columns (Layout.media self) rows Hrne Hl)
      as (t1 & t2 & E1 & E2 & Hn & Ha).
    rewrite E1, E2. cbn [fst snd Layout.obj Layout.stdout].
    change (Layout.media (_ <| Layout.media := t2 |>)) with t2.
    split; [| split; [reflexivity | split; assumption]].
    exists (map fst rows). split; [reflexivity |]. rewrite map_map. reflexivity.
  - apply orb_false_iff in Hl. destruct Hl as [H0 H1].
    unfold Layout.assign_column at 1.
    destruct (Layout.media self) as [| a old'] eqn:Eold; [discriminate H0 |].
    rewrite <- Eold in *. rewrite length_map, H1. reflexivity.
Qed.

(** X23, on the media table of the sample layout. *)
Lemma world_media_read_back_sample :
  let tbl := Layout.media Samples.sample_layout in
  let f_lines :=
    ["model_file m.cmd"; "  model_world"; "    grid_size 1 1"]
    ++ ("    world_media" :: map media_line tbl ++ ["    //"]) ++ ["  //"] in
  let run := Layout.read_world_media f_lines (Scan.ends f_lines)
               (Layout.mk_state Samples.sample_layout []) in
  (exists names, fst run = Ok names /\ map Some names = map Layout.metabolite tbl) /\
  Layout.stdout (snd run) = [] /\
  map Layout.metabolite (Layout.media (Layout.obj (snd run)))
  = map Layout.metabolite tbl /\
  map Layout.init_amount (Layout.media (Layout.obj (snd run)))
  = map Layout.init_amount tbl.
Proof.
  refine (world_media_read_back (Layout.media Samples.sample_layout)
            ["model_file m.cmd"; "  model_world"; "    grid_size 1 1"] ["  //"]
            (Layout.mk_state Samples.sample_layout []) _ _ _).
  - vm_compute. discriminate.
  - vm_compute. repeat constructor; do 2 eexists; repeat split; reflexivity.
  - vm_compute. reflexivity.
Defined.

(** ** Loading a model without an objective *)

Lemma raises_bind_r {S A B} (m : M S A) (k : A -> M S B) :
  (forall a s, exists e, fst (k a s) = Raise e) ->
  forall s, exists e, fst (bind m k s) = Raise e.
Proof.
  intros Hk s. unfold bind. destruct (m s) as [[a | e] s1].
  - apply Hk.
  - exists e. reflexivity.
Qed.

Lemma raises_bind_l {S A B} (m : M S A) (k : A -> M S B) :
  (forall s, exists e, fst (m s) = Raise e) ->
  forall s, exists e, fst (bind m k s) = Raise e.
Proof.
  intros Hm s. unfold bind. destruct (Hm s) as (e & He).
  destruct (m s) as [[a | e'] s1]; [discriminate He | exists e'; reflexivity].
Qed.

Lemma no_objective (reaction_list : list Model.cobra_reaction) :
  Forall (fun x => Num.eqb (Model.objective_coefficient x) Num.zero = true)
         reaction_list ->
  filter (fun x => negb (Num.eqb (Model.objective_coefficient x) Num.zero))
         reaction_list = [].
Proof.
  induction 1 as [| x l Hx _ IH]; [reflexivity |]. cbn [filter].
  rewrite Hx. exact IH.
Qed.

(** X24.  A cobra model none of whose reactions has an objective
    coefficient other than zero cannot be loaded: [load_cobra_model]
    raises, whatever the model object held before. *)
Theorem load_cobra_model_needs_objective
    (curr_m : Model.cobra_model) (self : Model.model) :
  Forall (fun x => Num.eqb (Model.objective_coefficient x) Num.zero = true)
         (Model.cobra_reactions curr_m) ->
  exists e, fst (Model.load_cobra_model curr_m self) = Raise e.
Proof.
  intros Hobj. revert self. unfold Model.load_cobra_model. cbv zeta.
  assert (Hend : forall (k : string -> M Model.model unit) (s : Model.model),
             exists e,
               fst (bind (lift (Seq.index
                                  (map (fun x => Model.before_colon (Model.cobra_id x))
                                       (filter (fun x => negb (Num.eqb
                                                  (Model.objective_coefficient x)
                                                  Num.zero))
                                               (Model.cobra_reactions curr_m))) 0))
                         k s) = Raise e).
  { intros k s. rewrite (no_objective _ Hobj). exists IndexError. reflexivity. }
  repeat first [apply Hend | apply raises_bind_r; intros ?].
Qed.

(** X24, on a model whose only reaction has the coefficient zero. *)
Lemma load_cobra_model_needs_objective_sample :
  exists e,
    fst (Model.load_cobra_model
           (Model.mk_cobra_model "m"
              [Model.mk_cobra_reaction "EX_glc_e" (Num.of_Z (-10)) (Num.of_Z 10)
                 [("glc_e", Num.of_Z (-1))] Num.zero None None None]
              ["glc_e"] None None None None None None)
           Model.init) = Raise e.
Proof.
  apply load_cobra_model_needs_objective.
  vm_compute. repeat constructor.
Defined.
